(* ===== verification/_CoqProject ===== *)
-Q . S2P
Prelude.v
Sql.v
Text.v
Bytes.v
Rows.v
ContextSource.v
Display.v
DisplayProps.v
Settle.v
Family.v
Requests.v
History.v
Steps.v
Programs.v
Gate.v
HookWrites.v
SubagentWrites.v
SubagentInv.v
HookProps.v
SubagentProps.v
RelayWrites.v
Protocol.v
HookEnv.v
Payload.v
Classify.v
SubagentHook.v
RelayHook.v
ClassifyProps.v
RequestInv.v
RelayProps.v
RelayLive.v
RelayHookProps.v
Lifecycle.v
Capacity.v
CursorWrites.v
Handler.v
CursorInv.v
Reuse.v
LifecycleProps.v
CapacityProps.v
LifecycleRuns.v
ReuseProps.v
Process.v
Tmux.v
TmuxProps.v
Sweep.v
SweepProps.v
Delivery.v
Guard.v
PaneAnswer.v
PaneProps.v
Decide.v
DecideProps.v
FindMissing.v
FindMissingProps.v
StartingSession.v
Expire.v
ExpireProps.v
Kill.v
KillProps.v
StoreInv.v
References.v
Observe.v
StoreOps.v
HandlerInv.v
VerbInv.v
CursorProps.v
System.v
ProtocolRun.v
ObserveProps.v
Trail.v
HandlerProps.v
