(* ===== verification/Prelude.v ===== *)
(** * agent-director: the store that supervises agent sessions

    agent-director launches Claude Code, Codex and Cursor sessions in tmux and
    supervises them. Its processes never talk to each other: the agents' hooks
    (internal/hook), the relay hook that waits for a permission verdict, the
    verbs a director calls (pkg/api: spawn, resume, decide, send-keys,
    find-missing, kill, expire) and the sweeps all read and write one SQLite
    store (internal/store). What keeps a session's record right is that every
    write is one guarded statement or one BEGIN IMMEDIATE transaction whose
    WHERE clause rechecks what the writer decided on. This development models
    that store: its rows, its statements with SQL's three-valued logic, its
    operations statement by statement, and what other processes may do in
    between; the hook processes that call it, from standard input to standard
    output; the verbs decide, send-keys, record-pane-answer, find-missing,
    expire and kill, with what tmux shows them; and proves what they keep true of the
    shared record.

    ** Files

    - Prelude.v: record update ([r <| f := v |>], [rsimp]), three-valued
      conditions ([where3], [AND]), the argument helpers of spawns.go, and the
      tactics every file uses.
    - Sql.v: the execution model. [M] is a store operation under interference,
      [Tx] the body of one transaction; [guarantees] and [tx_spec] are the two
      judgements and [guar] takes a program apart. lockwait.go's inImmediateTx
      and inWriteTxContext are [txImmediate] and [txBounded].
    - Rows.v: schema.go's tables as records ([SpawnRow], [PermReq],
      [HistoryRow], [SubagentRow], [LaunchRow], [Store]), the constants of
      spawns.go, rowsnapshot.go and permission.go, the decoders of stored
      values, [RowSnapshot] and the snapshot-match condition.
    - Settle.v: settle.go. The two settle columns under hook writes and
      immediate writes, against the specification "the newest value held for
      the settle time" over a list of held intervals.
    - Family.v: family.go. The recursive member query as a worklist, the
      refresh of every row's family aggregate, and the transactions that end
      in it ([inImmediateTx], [execGuarded]).
    - Display.v, DisplayProps.v: display.go and idle_screen.go. The state a
      read may show, what an observer plans for it, the pane's baseline.
      Observe.v, ObserveProps.v: display.go's two observers, the writes of get
      and list: the locked re-check of the row and of every sampled request,
      the fallback clocks, the re-read after an unconfirmed COMMIT.
    - Requests.v: permission.go, request_close.go, relay_writes.go's eviction.
      A request as SQL and as Go read it, the close of a Spawn's requests.
    - History.v: session_history.go.
    - Gate.v, HookWrites.v, HookProps.v: hook_gate.go, hook_writes.go,
      codex_turn.go. The gate that ties a hook to its own pane's process, and
      every gated write ([runHook] runs any of them).
    - RelayWrites.v, RelayProps.v: relay_writes.go, pane_writes.go,
      request_proof.go, permission.go's decide, display.go's fallback clock.
    - SubagentWrites.v: subagents.go, subagent_writes.go and
      subagent_hook_writes.go: the two capped tables, the recorder's
      transitions, and the two operations hooks call. SubagentInv.v: the
      well-formed entry, what an entry may only gain, and each transition's
      step. SubagentProps.v: the Spawn boundary, the snapshot closeout, the cut
      of a recorded string.
    - RequestInv.v: the invariant of a stored request and how each SET keeps it.
    - Protocol.v, ProtocolRun.v: the abstract protocol of one permission
      request, and the proof that the store's histories refine it.
    - RelayLive.v: from every reachable state, the wait of a relay hook ends.
    - HookEnv.v: internal/hook/gate.go and io.go, the parent a hook captures and
      what it records when it changed nothing. Text.v: the strings and
      path/filepath functions the code uses. Payload.v: the JSON values of a hook's
      payload and encoding/json's case-insensitive names. Classify.v and
      ClassifyProps.v: classify.go's three tables.
    - RelayHook.v, RelayHookProps.v: permission.go, polling.go and envelope.go
      of internal/hook: the relayed PermissionRequest from its record to its
      printed envelope, over the store operations.
    - CursorWrites.v, CursorInv.v, CursorProps.v: cursor_runtime.go,
      cursor_permission.go, cursor_prompt.go, cursor_rotation.go,
      cursor_missing_read.go: the writes of a Cursor gateway and the authority
      each rechecks.
    - ContextSource.v: internal/contextsource/claude.go, the latest response of
      a transcript. Capacity.v, CapacityProps.v: claude_capacity.go of the
      store and of the hook.
    - SubagentHook.v, Handler.v: subagent.go, handler.go and noexec.go of
      internal/hook: a whole hook process ([Handle]). HandlerInv.v: it commits
      only writes every store invariant admits. Trail.v: what an operation
      leaves in the event log ([speaks]). HandlerProps.v: what a hook prints,
      that it ends, what it records.
    - Reuse.v, ReuseProps.v: reuse.go, the reset of a finished row into a new
      life and the restore when the launch fails.
    - Lifecycle.v, LifecycleProps.v, LifecycleRuns.v: spawns.go's insert and
      launch identity, find_missing_writes.go, resume_writes.go, expire.go,
      recovery.go, and resume.go's resumePriorOf.
    - Bytes.v: strconv's integers, UTF-8 validity, hex and digit strings.
      Process.v: internal/tmux/agent_process.go, which recorded process is the
      agent's and what a start-time reader's answer says of it.
    - Tmux.v, TmuxProps.v: internal/tmux's parsers (parse.go, unusable.go),
      labels (lookup_class.go), the holder of a name, the server check, a
      launch's pane, and the verdict of a lookup (lookup.go).
    - Sweep.v, SweepProps.v: sweep.go and pkg/api/sweep_socket.go: one run's
      tmux calls, at most one of a kind per socket, within a budget.
    - Delivery.v: relay_delivery.go and deliverability.go of pkg/api: what a
      caller is told became of a verdict. Guard.v: sendkeys_relay.go, the
      guards of input to a pane. PaneAnswer.v, PaneProps.v: sendkeys.go,
      pane_answer.go, record_pane_answer.go over the intent, sent and outside
      writes. Decide.v, DecideProps.v: decide.go, with its wait for the ack.
    - FindMissing.v, FindMissingProps.v: find_missing*.go, agent_pane.go and
      internal/spawn/launch_owner.go: the whole verb. Expire.v, ExpireProps.v:
      expire.go, expire_trail.go. StartingSession.v: starting_session.go of
      internal/tmux and pkg/api. Kill.v, KillProps.v: kill.go, kill_optin.go,
      kill_trail.go: the whole verb, with the operator's option.
    - VerbInv.v: decide, send-keys, record-pane-answer, find-missing and kill
      commit only writes every store invariant admits.
    - Programs.v: programs that write nothing ([silent]), programs that never
      fail ([results]), and what a program does from the store its first
      statement finds ([ensures_from], over [firstStore]).
    - StoreInv.v, StoreOps.v, References.v, System.v: a class of store
      invariants ([StoreInv], closed under the primitive changes operations
      make), the proof that every operation keeps every such invariant, the
      references as one instance, the requests as another, and the histories
      of any number of processes ([store_step]).
    - Steps.v: what one committed write does to rows, and the rules about
      [inImmediateTx] and [execGuarded] the properties share.

    Definitions keep the source's names; a Go function that runs several
    statements is a program in [M] with the same statements in the same order,
    and a SET or WHERE fragment is a function on a row.

    ** The execution model

    An operation reads the world's list of gaps, one per statement of its own:
    each gap first replaces the store by any other store (whatever the other
    processes did) and then lets the statement run or fail. Inside a
    transaction the write lock is held, so a gap can only fail the statement;
    BEGIN is the interference point. A bounded transaction's COMMIT may fail
    after it reached the disk, which the caller sees as unconfirmed. Theorems
    of the form [guarantees R m] and [ensures Q m] hold for every list of gaps,
    as do [ensures_from Q m], whose [Q] also has the store the program's first
    read found (what a verb decides on is of that store and no other);
    a theorem about [run] is about the operation alone, with no gap.
    The clock is a column of the store ([db_now], milliseconds), so that every
    instant an operation stores is one that interference may have moved.

    ** What the theorems show

    - Requests: a close closes every request of a Spawn, an eviction keeps the
      open ones, SQL's and Go's readings of a request agree; each relay,
      decide, pane and proof write touches only what it is for, and reports
      what it did (RelayProps.v).
    - Hooks: a hook writes only its own pane's row and of its launch and pane
      columns only the instants it may ([hook_writes_only_its_own_pane]), never works over a held dialog
      ([no_working_over_held_dialog]), never pairs a refusal with a write, ends
      a row completely ([ended_transition_closes_all]).
    - Lifecycle: the writes guarded by a snapshot are optimistic concurrency
      ([snapshot_write_is_optimistic], [snapshot_write_applies]); a failed
      resume restores its row ([failed_resume_restores_the_row]).
    - The whole store: [requests_only_evolve], [relay_and_pane_exclude] and
      [references_always_hold] range over every history of every operation of
      the store, every hook process and every modelled verb: every write of
      internal/store but a migration's, the store's own identity, and
      DecidePermissionRequest, which only tests call.
    - Displays: an observation writes what it examined
      ([observation_writes_what_it_examined]), a stored display decodes to
      what was planned.
    - The request protocol: [store_refines_protocol] (every history of the
      store is a run of a six-phase protocol), [relay_wait_ends], and
      [reported_delivery_is_the_protocol_phase] (what decide and get report is
      that phase).
    - The hook process: it prints only what its own relay acked, or a deny
      ([hook_prints_only_its_answer]); it always ends, with one record of
      itself ([hook_ends_with_one_record]); [classification_well_formed] is
      the shape its handler relies on.
    - decide: it records the answer or refuses, and says which
      ([decide_records_or_refuses]); its wait ends ([decide_ends]).
    - Input to a pane: a key is typed only under the caller's own intent
      ([pane_answer_types_only_under_its_intent]) and only for a request that
      fell back to the pane ([pane_answer_needs_a_fallen_back_request]); plain
      input passes no dialog ([plain_send_keys_types_past_no_dialog],
      [plain_input_needs_every_dialog_gone]); an answer recorded from outside
      had fallen back ([recorded_answers_had_fallen_back]).
    - tmux: a printed answer parses back ([lookup_answer_round_trip]), a label
      is current exactly when its text is the launch's
      ([current_label_is_the_launch_label]), each verdict says what tmux showed
      ([lookup_verdicts]); a run's calls are bounded
      ([sweep_calls_bounded]) and a socket that answered badly is left alone
      ([stopped_socket_is_left_alone]).
    - find-missing and expire: each write of a run is warranted by the row the
      run's own read returned and by what the run saw of its process and of its
      own socket, whatever else writes the store
      ([find_missing_writes_on_evidence], [expire_deletes_on_evidence]); they
      list exactly the rows they moved or deleted
      ([find_missing_lists_what_it_marked], [expire_lists_what_it_deleted]);
      expire's window never wraps and spares what ended inside it
      ([expire_spares_recent_rows]).
    - kill: what it sends reaches only the agent of the row it read
      ([kill_reaches_only_its_own]), its success means that agent ended
      ([kill_success_means_ended]), and it ends ([kill_ends]).
    - Cursor: every write of the gateway is made under its launch's authority
      ([cursor_writes_under_authority]), an ack only in time
      ([cursor_ack_only_in_time]), a rotation whole or not at all
      ([rotation_published_whole_or_not]).
    - Capacity: [capacity_never_restores_a_rejection]; a total is the exact sum
      of its counts, the response measured the transcript's latest.
    - Reuse: a reset is a fresh life ([reset_begins_a_fresh_life]) and a failed
      one is undone ([failed_reuse_restores_the_life]).
    - Subagents: [subagents_always_well_formed] and
      [subagent_records_only_gain] over every history; a write stays in its
      Spawn, a snapshot closes what it no longer lists.
    - Derived columns: the settle columns and the family aggregate equal their
      specifications ([settle_reports_held_value],
      [family_aggregate_correct]), the family worklist terminates, a skipped
      refresh is sound.

    ** Bounds

    Few recursions are not structural. The relay hook's poll runs on the clock
    readings it is given; [hook_ends_with_one_record] says how many are enough
    ([pollFuel]) when each turn of the poll takes at least its floor. The wait
    of a SessionStart takes at most [maxReads] turns, as the code computes them. The family
    worklist runs with fuel [closureFuel], twice the number of rows: each row enters
    the worklist at most once as a member and once as a parent, and
    [family_closure_terminates] proves it never runs out. decide's wait for an
    ack takes at most 21 turns when each moves the clock by its floor
    ([decide_ends]); a
    release of a pane intent takes the attempts the code allows. kill's wait
    takes at most [killFuel] turns, one per interval of the exit wait and two
    more, when its pauses advance the clock. A sweep's
    spent time is an int64: [sweep_calls_bounded] holds while the budget is at
    most 2^62 nanoseconds and each call takes less. Integers are Go's
    int64 values as Z; the sums the code guards are stated with their bounds.

    ** What is simplified or left out

    TIMESTAMP columns hold whole seconds as a number (their text is only
    written by CURRENT_TIMESTAMP or storeTimestamp and compared), except
    started_at, whose text the snapshots compare. A JSON text the code only
    stores and decodes is kept as the decoded value beside the malformed case.
    encoding/json's text of a Codex startup and CURRENT_TIMESTAMP's text are
    arguments. Events of the trail are values; their delivery is not modelled.
    A history is of a store whose schema is current: a migration, which may
    rewrite requests, runs once, when an older store is opened, before any
    operation on it. Migrations, list queries, connection pooling, and the variants of hook
    operations that do not wait for the lock are left out. What the operating
    system, the clock, the random source and the JSON parser answer is an
    argument of the definitions that ask.

    ** Not modelled

    The verbs that start, stop or type into an agent through a tmux client
    (spawn, pause, resume) and the reads get and list beyond their writes (the
    observers, whose samples are arguments); the tmux client
    itself, the probe of a process, the delivery of input, the Cursor gateway's
    process, the configuration file, the MCP and admin front ends, the delivery
    of the trail. What remains of spawn, pause and resume is the order of
    calls to tmux and the operating system around the store writes modelled
    here (the insert, the launch identity, the move to pending and its restore,
    the reset and its restore). *)

From stdpp Require Export base gmap sets list strings numbers option sorting.
From Stdlib Require Export ZArith Lia.

#[export] Set Default Goal Selector "!".

(** ** Record update *)

(** [Eta R] rebuilds a record from its projections; [Setter p] is derived
    from it by [solve_setter], one instance per field. *)
Class Eta (R : Type) := eta : R -> R.
Class Setter {R E : Type} (p : R -> E) := with_ : (E -> E) -> R -> R.
Arguments with_ {R E} p {_} f r : simpl never.

Ltac solve_setter :=
  match goal with
  | |- @Setter ?R ?E ?p =>
      let e := eval cbv delta [eta] in (@eta R _) in
      let e := eval hnf in e in
      exact (fun (f : E -> E) (r : R) =>
        ltac:(let b := eval cbv beta in (e r) in
              match b with
              | context C [p r] => let b' := context C [f (p r)] in exact b'
              end))
  end.

Declare Scope ad_scope.
Delimit Scope ad_scope with ad.
#[warnings="-postfix-notation-not-level-1"]
Notation "r <| p := v |>" := (with_ p (fun _ => v) r)
  (at level 12, left associativity, p constr at level 1, v constr at level 99) : ad_scope.

(** [rsimp] computes a field of an updated record: [p (r <| q := v |>)] is
    [v] or [p r]. *)
Ltac field_of_update p R E q inst H :=
  first
    [ constr_eq p q;
      assert (H : forall (f0 : E -> E) (r0 : R), p (@with_ R E q inst f0 r0) = f0 (p r0))
        by (intros; reflexivity)
    | assert (H : forall (f0 : E -> E) (r0 : R), p (@with_ R E q inst f0 r0) = p r0)
        by (intros; reflexivity) ].

Ltac rsimp :=
  repeat match goal with
  | |- context [?p (@with_ ?R ?E ?q ?inst ?f ?r)] =>
      is_const p; let _ := constr:(_ : Setter p) in
      let H := fresh in
      field_of_update p R E q inst H; rewrite (H f r); clear H; cbv beta
  end.

Ltac rsimp_in K :=
  repeat match type of K with
  | context [?p (@with_ ?R ?E ?q ?inst ?f ?r)] =>
      is_const p; let _ := constr:(_ : Setter p) in
      let H := fresh in
      field_of_update p R E q inst H; rewrite (H f r) in K; clear H; cbv beta in K
  end.

Open Scope ad_scope.
Open Scope Z_scope.

(** ** SQL values *)

(** A nullable column is an [option]; [None] is SQL NULL. A SQL condition is
    three-valued: [Some b], or [None] for unknown. A WHERE clause selects a
    row only when its condition is [Some true]. *)
Definition tvl : Type := option bool.

Definition and3 (x y : tvl) : tvl :=
  match x, y with
  | Some false, _ | _, Some false => Some false
  | Some true, Some true => Some true
  | _, _ => None
  end.

Definition or3 (x y : tvl) : tvl :=
  match x, y with
  | Some true, _ | _, Some true => Some true
  | Some false, Some false => Some false
  | _, _ => None
  end.

Definition not3 (x : tvl) : tvl := negb <$> x.

Definition where3 (x : tvl) : bool := bool_decide (x = Some true).

Definition lift2 {A : Type} (f : A -> A -> bool) (x y : option A) : tvl :=
  match x, y with Some a, Some b => Some (f a b) | _, _ => None end.

(** [=] and [<>] are unknown on NULL; [IS] and [IS NOT] never are. *)
Definition sql_eq {A} `{EqDecision A} : option A -> option A -> tvl :=
  lift2 (fun a b => bool_decide (a = b)).
Definition sql_ne {A} `{EqDecision A} (x y : option A) : tvl := not3 (sql_eq x y).
Definition sql_is {A} `{EqDecision A} (x y : option A) : tvl := Some (bool_decide (x = y)).
Definition sql_is_not {A} `{EqDecision A} (x y : option A) : tvl := not3 (sql_is x y).
Definition is_null {A} (x : option A) : tvl :=
  Some (match x with None => true | _ => false end).
Definition not_null {A} (x : option A) : tvl := not3 (is_null x).

(** [CASE WHEN c THEN a ELSE b END]: an unknown condition takes the ELSE. *)
Definition case3 {A} (c : tvl) (a b : A) : A := if where3 c then a else b.

(** [COALESCE(x, d)] with a non-null default, and [COALESCE(x, y)]. *)
Definition coalesce {A} (x : option A) (d : A) : A := default d x.
Definition coalesce2 {A} (x y : option A) : option A :=
  match x with Some _ => x | None => y end.

(** [NULLIF(s, '')]. *)
Definition nullif_empty (s : string) : option string :=
  if bool_decide (s = "") then None else Some s.

Declare Scope tvl_scope.
Delimit Scope tvl_scope with tvl.
Notation "x 'AND' y" := (and3 x y) (at level 60, right associativity) : tvl_scope.
Notation "x 'OR' y" := (or3 x y) (at level 62, right associativity) : tvl_scope.
Notation "'NOT' x" := (not3 x) (at level 55) : tvl_scope.
Open Scope tvl_scope.

Lemma where3_and x y : where3 (x AND y) = where3 x && where3 y.
Proof. by destruct x as [[]|], y as [[]|]. Qed.
Lemma where3_or x y : where3 (x OR y) = where3 x || where3 y.
Proof. by destruct x as [[]|], y as [[]|]. Qed.
Lemma where3_Some b : where3 (Some b) = b.
Proof. by destruct b. Qed.
Lemma where3_not_true x : where3 x = true -> where3 (NOT x) = false.
Proof. by destruct x as [[]|]. Qed.
Lemma not3_Some b : (NOT (Some b)) = Some (negb b).
Proof. done. Qed.
Lemma where3_sql_eq {A} `{EqDecision A} (x : option A) (a : A) :
  where3 (sql_eq x (Some a)) = bool_decide (x = Some a).
Proof.
  destruct x as [b|]; cbn; [|by rewrite bool_decide_false].
  unfold where3. repeat case_bool_decide; naive_solver.
Qed.
Lemma where3_sql_is {A} `{EqDecision A} (x y : option A) :
  where3 (sql_is x y) = bool_decide (x = y).
Proof. apply where3_Some. Qed.
Lemma where3_is_null {A} (x : option A) : where3 (is_null x) = bool_decide (x = None).
Proof. by destruct x. Qed.
Lemma where3_not_null {A} (x : option A) : where3 (not_null x) = bool_decide (is_Some x).
Proof. by destruct x. Qed.

#[global] Arguments and3 : simpl never.
#[global] Arguments or3 : simpl never.
#[global] Arguments not3 : simpl never.
#[global] Arguments where3 : simpl never.
#[global] Arguments case3 {A} : simpl never.
#[global] Arguments is_null {A} : simpl never.
#[global] Arguments not_null {A} : simpl never.
#[global] Arguments sql_eq {A _} : simpl never.
#[global] Arguments sql_ne {A _} : simpl never.
#[global] Arguments sql_is {A _} : simpl never.
#[global] Arguments sql_is_not {A _} : simpl never.

Create Rewrite HintDb sql.
#[export] Hint Rewrite where3_and where3_or where3_Some not3_Some
  @where3_sql_is @where3_is_null @where3_not_null @where3_sql_eq : sql.

(** ** Bound arguments *)

(** A zero value bound as NULL: [nullableStringArg], [positiveIntArg] and
    [positiveInt64Arg] of internal/store/spawns.go. *)
Definition nullableStringArg (s : string) : option string := nullif_empty s.
Definition positiveIntArg (n : Z) : option Z := if 0 <? n then Some n else None.
Definition positiveInt64Arg (n : Z) : option Z := if 0 <? n then Some n else None.

(** ** Lists *)

Lemma filter_sublist {A} (P : A -> Prop) `{!forall x, Decision (P x)} (l : list A) :
  filter P l `sublist_of` l.
Proof.
  induction l as [|a l IH]; [done|]. rewrite filter_cons.
  case_decide; [by apply sublist_skip|by apply sublist_cons].
Qed.

Lemma NoDup_fmap_filter {A B} (f : A -> B) (P : A -> Prop) `{!forall x, Decision (P x)} (l : list A) :
  NoDup (f <$> l) -> NoDup (f <$> filter P l).
Proof.
  induction l as [|a l IH]; [done|]. rewrite fmap_cons, NoDup_cons, filter_cons. intros [Ha Hl].
  case_decide; [|auto]. rewrite fmap_cons, NoDup_cons. split; [|auto].
  intros (b & Hb & Hin)%list_elem_of_fmap. apply Ha, list_elem_of_fmap. exists b.
  by apply list_elem_of_filter in Hin as [_ Hin].
Qed.

Lemma NoDup_fmap_eq {A B} (f : A -> B) (l : list A) x y :
  NoDup (f <$> l) -> x ∈ l -> y ∈ l -> f x = f y -> x = y.
Proof.
  intros Hnd Hx Hy Hf. apply list_elem_of_lookup in Hx as [i Hi]. apply list_elem_of_lookup in Hy as [j Hj].
  assert (i = j) as ->; [|congruence].
  eapply NoDup_lookup; [done|by rewrite list_lookup_fmap, Hi|].
  by rewrite list_lookup_fmap, Hj, Hf.
Qed.

(** ** Strings *)

Lemma append_assoc (a b c : string) : ((a ++ b) ++ c)%string = (a ++ (b ++ c))%string.
Proof. induction a as [|x a IH]; [done|]. exact (f_equal (String x) IH). Qed.

(** ** Booleans and automation *)

Ltac bsimp :=
  repeat match goal with
  | H : _ && _ = true |- _ => apply andb_true_iff in H as [? ?]
  | H : _ || _ = false |- _ => apply orb_false_iff in H as [? ?]
  | H : negb _ = true |- _ => apply negb_true_iff in H
  | H : negb _ = false |- _ => apply negb_false_iff in H
  | H : bool_decide _ = true |- _ => apply bool_decide_eq_true in H
  | H : bool_decide _ = false |- _ => apply bool_decide_eq_false in H
  end.

(** Case analysis on the innermost scrutinee of the goal. *)
Ltac dmatch :=
  match goal with
  | |- context [match ?x with _ => _ end] =>
      lazymatch x with
      | context [match _ with _ => _ end] => fail
      | _ => destruct x eqn:?
      end
  end.

Ltac dmatch_in H :=
  match type of H with
  | context [match ?x with _ => _ end] =>
      lazymatch x with
      | context [match _ with _ => _ end] => fail
      | _ => destruct x eqn:?
      end
  end.
