(* ===== verification/Sql.v ===== *)
(** * Programs over the store: statements, transactions, interference

    The store is one SQLite file that several processes write (hooks, verbs,
    the sweeps). A store operation is a sequence of statements and
    transactions; between two of them any other process may write, and each
    of them may fail. This file gives that execution model:

    - a [World] holds the store, the trail events emitted so far, the own
      writes committed so far ([w_own], instrumentation for the theorems) and
      a list of [gap]s, one consumed by each statement: what the other
      processes did just before it, and whether it fails;
    - [stmt] is one autocommitted statement, [txImmediate] and [txBounded] one
      BEGIN IMMEDIATE transaction. Inside a transaction the write lock is held, so a gap only
      says whether the statement fails (internal/store/lockwait.go,
      [inWriteTx], [inImmediateTx]);
    - [guarantees R m]: every write [m] commits, under any interference and
      any failure, relates the store before it to the store after it by [R]. *)

From S2P Require Import Prelude.

(** The errors a store operation returns; a wrapped driver error is
    [EDriver]. *)
Inductive error :=
  | EDriver
  | EStoreBusy                  (* ErrStoreBusy, lockwait.go *)
  | ECommitUnconfirmed          (* errCommitUnconfirmed, lockwait.go *)
  | ENotApplied                 (* errEndedNotApplied, errRelayNotApplied, errFamilyWriteNotApplied *)
  | ENoRows                     (* sql.ErrNoRows *)
  | EPrimaryKeyCollision
  | ERequestTokenCollision
  | EAmbiguousRequest
  | ERowAgentInvalid
  | EPriorStateInvalid
  | ESpawnNotFound
  | EUnknownProof
  | ETurnEndNoStart
  | EForeignKey
  | EBadInstant
  | ESampleChanged
  | EReuseArchive               (* ErrReuseArchive, spawns.go *)
  | EResetRows                  (* the reset changed another number of rows than one *)
  | ESubagentRefused            (* errSubagentWriteRefused, subagent_writes.go *)
  | EUnknownKind                (* an unknown subagent event kind *)
  | EOneWrite                   (* not exactly one entry write *)
  | ECursorAuthority            (* Cursor launch or connection authority changed *)
  | ECursorEvidence             (* independent Cursor evidence required *)
  | ECursorDeadline             (* a Cursor request, prompt, answer or rotation expired *)
  | ECursorRequest              (* an invalid Cursor request *)
  | ECursorAnswer               (* Cursor answer authority retired *)
  | ECursorRotation             (* an invalid or raced Cursor rotation *)
  | ECursorLoad                 (* a retired loaded Cursor publication *)
  | EPermissionRequestNotFound  (* ErrPermissionRequestNotFound, permission.go *)
  | ECheck (name : string).     (* a caller-supplied precondition's error *)

#[export] Instance error_eq_dec : EqDecision error.
Proof. solve_decision. Defined.

Inductive result (A : Type) :=
  | Ok (a : A)
  | Err (e : error).
Arguments Ok {A} a.
Arguments Err {A} e.

(** Why a statement fails. [FBusy] is a lock not taken in time (or the call's
    context ended before COMMIT); [FDriver landed] is any other driver error,
    where [landed] says, for a COMMIT, whether it reached the disk. *)
Inductive failure := FBusy | FDriver (landed : bool).

Inductive gap {S : Type} :=
  | GapOk (env : S -> S)
  | GapFail (env : S -> S) (why : failure).
Arguments gap S : clear implicits.

Definition gap_env {S} (g : gap S) : S -> S :=
  match g with GapOk e | GapFail e _ => e end.

Section Programs.
Context {S Ev : Type}.

Record World := mkWorld {
  w_store : S;
  w_gaps : list (gap S);
  w_trail : list Ev;
  w_own : list (S * S);
}.

Definition M (A : Type) : Type := World -> result A * World.

Definition ret {A} (a : A) : M A := fun w => (Ok a, w).
Definition fail {A} (e : error) : M A := fun w => (Err e, w).
Definition bind {A B} (m : M A) (k : A -> M B) : M B := fun w =>
  match m w with
  | (Ok a, w') => k a w'
  | (Err e, w') => (Err e, w')
  end.
(** [catch m h]: run [h] on the result of [m], an error included. *)
Definition catch {A B} (m : M A) (h : result A -> M B) : M B := fun w =>
  let '(r, w') := m w in h r w'.
Definition emit (e : Ev) : M unit := fun w =>
  (Ok tt, mkWorld (w_store w) (w_gaps w) (w_trail w ++ [e]) (w_own w)).
Definition emits (es : list Ev) : M unit := fun w =>
  (Ok tt, mkWorld (w_store w) (w_gaps w) (w_trail w ++ es) (w_own w)).

Definition next_gap (gs : list (gap S)) : gap S * list (gap S) :=
  match gs with [] => (GapOk id, []) | g :: t => (g, t) end.

(** One autocommitted statement. [f] gives its result and the store after
    it; a statement that answers [Err] has changed nothing. *)
Definition stmt {A} (f : S -> result (A * S)) : M A := fun w =>
  let '(g, gs) := next_gap (w_gaps w) in
  let s := gap_env g (w_store w) in
  match g with
  | GapFail _ _ => (Err EDriver, mkWorld s gs (w_trail w) (w_own w))
  | GapOk _ =>
      match f s with
      | Ok (a, s') => (Ok a, mkWorld s' gs (w_trail w) (w_own w ++ [(s, s')]))
      | Err e => (Err e, mkWorld s gs (w_trail w) (w_own w))
      end
  end.

(** A read-only statement. *)
Definition read {A} (f : S -> A) : M A := fun w =>
  let '(g, gs) := next_gap (w_gaps w) in
  let s := gap_env g (w_store w) in
  match g with
  | GapFail _ _ => (Err EDriver, mkWorld s gs (w_trail w) (w_own w))
  | GapOk _ => (Ok (f s), mkWorld s gs (w_trail w) (w_own w))
  end.

(** [readWithin]: a read whose waits are bounded; one cut by its bound is
    ErrStoreBusy. *)
Definition readWithin {A} (f : S -> A) : M A := fun w =>
  let '(g, gs) := next_gap (w_gaps w) in
  let s := gap_env g (w_store w) in
  match g with
  | GapFail _ FBusy => (Err EStoreBusy, mkWorld s gs (w_trail w) (w_own w))
  | GapFail _ (FDriver _) => (Err EDriver, mkWorld s gs (w_trail w) (w_own w))
  | GapOk _ => (Ok (f s), mkWorld s gs (w_trail w) (w_own w))
  end.

(** *** Transactions *)

(** The body of a transaction runs on the private copy the write lock
    protects; each of its statements may fail. *)
Definition Tx (A : Type) : Type := S -> list (gap S) -> result (A * S) * list (gap S).

Definition tret {A} (a : A) : Tx A := fun s gs => (Ok (a, s), gs).
Definition tfail {A} (e : error) : Tx A := fun _ gs => (Err e, gs).
Definition tbind {A B} (m : Tx A) (k : A -> Tx B) : Tx B := fun s gs =>
  match m s gs with
  | (Ok (a, s'), gs') => k a s' gs'
  | (Err e, gs') => (Err e, gs')
  end.
Definition tstmt {A} (f : S -> result (A * S)) : Tx A := fun s gs =>
  let '(g, gs') := next_gap gs in
  match g with
  | GapOk _ => (f s, gs')
  | GapFail _ FBusy => (Err EStoreBusy, gs')
  | GapFail _ (FDriver _) => (Err EDriver, gs')
  end.
Definition tread {A} (f : S -> A) : Tx A := tstmt (fun s => Ok (f s, s)).

(** A step whose failure the body ignores: it has written nothing. *)
Definition ttry {A} (m : Tx A) : Tx (result A) := fun s gs =>
  match m s gs with
  | (Ok (a, s'), gs') => (Ok (Ok a, s'), gs')
  | (Err e, gs') => (Ok (Err e, s), gs')
  end.

(** [inImmediateTx]: BEGIN IMMEDIATE, the body, COMMIT; on any failure the
    transaction is rolled back and nothing is written. A lock not taken in
    time is the driver's busy error. *)
Definition txImmediate {A} (body : Tx A) : M A := fun w =>
  let '(g, gs) := next_gap (w_gaps w) in
  let s := gap_env g (w_store w) in
  let abort e gs := (Err e, mkWorld s gs (w_trail w) (w_own w)) in
  match g with
  | GapFail _ _ => abort EDriver gs
  | GapOk _ =>
      match body s gs with
      | (Err EStoreBusy, gs1) => abort EDriver gs1
      | (Err e, gs1) => abort e gs1
      | (Ok (a, s'), gs1) =>
          let '(c, gs2) := next_gap gs1 in
          match c with
          | GapOk _ => (Ok a, mkWorld s' gs2 (w_trail w) (w_own w ++ [(s, s')]))
          | GapFail _ _ => abort EDriver gs2
          end
      end
  end.

(** [inWriteTx]: as [txImmediate], except that a lock not taken within the
    bound is ErrStoreBusy, and that a COMMIT that fails is unconfirmed: the
    transaction may have landed. *)
Definition txBounded {A} (body : Tx A) : M A := fun w =>
  let '(g, gs) := next_gap (w_gaps w) in
  let s := gap_env g (w_store w) in
  let abort e gs := (Err e, mkWorld s gs (w_trail w) (w_own w)) in
  match g with
  | GapFail _ FBusy => abort EStoreBusy gs
  | GapFail _ (FDriver _) => abort EDriver gs
  | GapOk _ =>
      match body s gs with
      | (Err e, gs1) => abort e gs1
      | (Ok (a, s'), gs1) =>
          let '(c, gs2) := next_gap gs1 in
          match c with
          | GapOk _ => (Ok a, mkWorld s' gs2 (w_trail w) (w_own w ++ [(s, s')]))
          | GapFail _ FBusy => abort EStoreBusy gs2
          | GapFail _ (FDriver true) =>
              (Err ECommitUnconfirmed, mkWorld s' gs2 (w_trail w) (w_own w ++ [(s, s')]))
          | GapFail _ (FDriver false) => abort ECommitUnconfirmed gs2
          end
      end
  end.

(** *** Specifications *)

(** What a transaction body does when it commits. *)
Definition tx_spec {A} (Q : S -> A -> S -> Prop) (m : Tx A) : Prop :=
  forall s gs a s' gs', m s gs = (Ok (a, s'), gs') -> Q s a s'.

(** Every write [m] commits is in [R], whatever the other processes do. *)
Definition guarantees {A} (R : S -> S -> Prop) (m : M A) : Prop :=
  forall w, exists own,
    w_own (snd (m w)) = w_own w ++ own /\ Forall (fun p => R (fst p) (snd p)) own.

(** An operation that reports a failure has written nothing, unless the
    failure is an unconfirmed COMMIT. *)
Definition fails_clean {A} (m : M A) : Prop :=
  forall w e, fst (m w) = Err e -> e <> ECommitUnconfirmed -> w_own (snd (m w)) = w_own w.

Lemma tx_spec_tret {A} (a : A) (Q : S -> A -> S -> Prop) :
  (forall s, Q s a s) -> tx_spec Q (tret a).
Proof. intros H s gs a' s' gs' [= -> -> ->]. apply H. Qed.

Lemma tx_spec_tfail {A} e (Q : S -> A -> S -> Prop) : tx_spec Q (tfail e).
Proof. by intros s gs a' s' gs' [=]. Qed.

Lemma tx_spec_tstmt {A} (f : S -> result (A * S)) (Q : S -> A -> S -> Prop) :
  (forall s a s', f s = Ok (a, s') -> Q s a s') -> tx_spec Q (tstmt f).
Proof.
  intros H s gs a s' gs'. unfold tstmt. destruct (next_gap gs) as [[e|e [|b]] g].
  - intros [= Hf <-]. by apply H.
  - by intros [=].
  - by intros [=].
Qed.

Lemma tx_spec_tread {A} (f : S -> A) (Q : S -> A -> S -> Prop) :
  (forall s, Q s (f s) s) -> tx_spec Q (tread f).
Proof. intros H. apply tx_spec_tstmt. intros s a s' [= <- <-]. apply H. Qed.

Lemma tx_spec_tbind {A B} (m : Tx A) (k : A -> Tx B) Q1 Q2 (Q : S -> B -> S -> Prop) :
  tx_spec Q1 m -> (forall a, tx_spec (Q2 a) (k a)) ->
  (forall s a s1 b s', Q1 s a s1 -> Q2 a s1 b s' -> Q s b s') ->
  tx_spec Q (tbind m k).
Proof.
  intros Hm Hk HQ s gs b s' gs'. unfold tbind.
  destruct (m s gs) as [[[a s1]|e] gs1] eqn:Em; [|by intros [=]].
  intros Ek. eapply HQ; [by eapply Hm|by eapply Hk].
Qed.

Lemma tx_spec_mono {A} (Q Q' : S -> A -> S -> Prop) (m : Tx A) :
  tx_spec Q m -> (forall s a s', Q s a s' -> Q' s a s') -> tx_spec Q' m.
Proof. intros H HQ s gs a s' gs' E. eapply HQ, H, E. Qed.

Lemma guarantees_no_own {A} R (m : M A) :
  (forall w, w_own (snd (m w)) = w_own w) -> guarantees R m.
Proof. intros H w. exists []. by rewrite H, app_nil_r. Qed.

Lemma guarantees_ret {A} R (a : A) : guarantees R (ret a).
Proof. by apply guarantees_no_own. Qed.
Lemma guarantees_fail {A} R e : guarantees R (@fail A e).
Proof. by apply guarantees_no_own. Qed.
Lemma guarantees_emit R e : guarantees R (emit e).
Proof. by apply guarantees_no_own. Qed.
Lemma guarantees_emits R es : guarantees R (emits es).
Proof. by apply guarantees_no_own. Qed.

Lemma guarantees_read {A} R (f : S -> A) : guarantees R (read f).
Proof.
  apply guarantees_no_own. intros w. unfold read.
  destruct (next_gap (w_gaps w)) as [[e|e why] gs]; done.
Qed.

Lemma guarantees_readWithin {A} R (f : S -> A) : guarantees R (readWithin f).
Proof.
  apply guarantees_no_own. intros w. unfold readWithin.
  destruct (next_gap (w_gaps w)) as [[e|e [|b]] gs]; done.
Qed.

Lemma guarantees_catch {A B} R (m : M A) (h : result A -> M B) :
  guarantees R m -> (forall r, guarantees R (h r)) -> guarantees R (catch m h).
Proof.
  intros Hm Hh w. unfold catch. destruct (m w) as [r w1] eqn:Em.
  destruct (Hm w) as (o1 & E1 & F1). rewrite Em in E1. simpl in E1.
  destruct (Hh r w1) as (o2 & E2 & F2). exists (o1 ++ o2).
  rewrite E2, E1, app_assoc. split; [done|by apply Forall_app].
Qed.

Lemma bind_catch {A B} (m : M A) (k : A -> M B) w :
  bind m k w = catch m (fun r => match r with Ok a => k a | Err e => fail e end) w.
Proof. unfold bind, catch. by destruct (m w) as [[a|e] w']. Qed.

Lemma guarantees_bind {A B} R (m : M A) (k : A -> M B) :
  guarantees R m -> (forall a, guarantees R (k a)) -> guarantees R (bind m k).
Proof.
  intros Hm Hk w. rewrite bind_catch. apply guarantees_catch; [done|].
  intros [a|e]; [apply Hk|apply guarantees_fail].
Qed.

Lemma guarantees_stmt {A} (R : S -> S -> Prop) (f : S -> result (A * S)) :
  (forall s a s', f s = Ok (a, s') -> R s s') -> guarantees R (stmt f).
Proof.
  intros H w. unfold stmt. destruct (next_gap (w_gaps w)) as [[e|e why] gs]; simpl.
  - destruct (f (e (w_store w))) as [[a s']|err] eqn:Ef; simpl.
    + exists [(e (w_store w), s')]. split; [done|]. constructor; [|done]. by eapply H.
    + exists []. by rewrite app_nil_r.
  - exists []. by rewrite app_nil_r.
Qed.

Lemma guarantees_txImmediate {A} (R : S -> S -> Prop) (body : Tx A) :
  tx_spec (fun s _ s' => R s s') body -> guarantees R (txImmediate body).
Proof.
  intros H w. unfold txImmediate. destruct (next_gap (w_gaps w)) as [[e|e why] gs]; simpl.
  - destruct (body (e (w_store w)) gs) as [[[a s']|err] gs1] eqn:Eb; simpl.
    + destruct (next_gap gs1) as [[e2|e2 why2] gs2]; simpl.
      * eexists [(_, _)]. split; [done|]. constructor; [|done]. by eapply H.
      * exists []. by rewrite app_nil_r.
    + exists []. rewrite app_nil_r. by destruct err.
  - exists []. by rewrite app_nil_r.
Qed.

Lemma guarantees_txBounded {A} (R : S -> S -> Prop) (body : Tx A) :
  tx_spec (fun s _ s' => R s s') body -> guarantees R (txBounded body).
Proof.
  intros H w. unfold txBounded. destruct (next_gap (w_gaps w)) as [[e|e [|b]] gs]; simpl.
  - destruct (body (e (w_store w)) gs) as [[[a s']|err] gs1] eqn:Eb; simpl.
    + destruct (next_gap gs1) as [[e2|e2 [|[]]] gs2]; simpl.
      * eexists [(_, _)]. split; [done|]. constructor; [|done]. by eapply H.
      * exists []. by rewrite app_nil_r.
      * eexists [(_, _)]. split; [done|]. constructor; [|done]. by eapply H.
      * exists []. by rewrite app_nil_r.
    + exists []. by rewrite app_nil_r.
  - exists []. by rewrite app_nil_r.
  - exists []. by rewrite app_nil_r.
Qed.

Lemma guarantees_mono {A} (R R' : S -> S -> Prop) (m : M A) :
  guarantees R m -> (forall s s', R s s' -> R' s s') -> guarantees R' m.
Proof.
  intros H HR w. destruct (H w) as (own & E & F). exists own. split; [done|].
  revert F. apply List.Forall_impl. intros [s s']. apply HR.
Qed.

(** Running an operation alone: nobody interferes and nothing fails. *)
Definition run {A} (m : M A) (s : S) : result A * S * list Ev :=
  let '(r, w) := m (mkWorld s [] [] []) in (r, w_store w, w_trail w).
End Programs.

Arguments World S Ev : clear implicits.
Arguments M S Ev A : clear implicits.
Arguments Tx S A : clear implicits.

Notation "x <- m ;; k" := (bind m (fun x => k))
  (at level 100, m at next level, right associativity) : ad_scope.
Notation "m ;;; k" := (bind m (fun _ => k)) (at level 100, right associativity) : ad_scope.
Notation "x <-- m ;; k" := (tbind m (fun x => k))
  (at level 100, m at next level, right associativity) : ad_scope.
Notation "m ;;> k" := (tbind m (fun _ => k)) (at level 100, right associativity) : ad_scope.

(** [guar] reduces a [guarantees] goal to the relation of each statement and
    transaction of the program. *)
Create HintDb guar.
#[export] Hint Resolve guarantees_ret guarantees_fail guarantees_emit guarantees_emits
  guarantees_read guarantees_readWithin : guar.

Ltac guar :=
  repeat (intros; match goal with
  | |- guarantees _ (bind _ _) => apply guarantees_bind
  | |- guarantees _ (catch _ _) => apply guarantees_catch
  | |- guarantees _ (match ?x with _ => _ end) => destruct x eqn:?
  | |- guarantees _ (let '(_, _) := ?x in _) => destruct x eqn:?
  | |- guarantees _ _ => solve [auto with guar]
  end).

Ltac txs :=
  repeat (intros; match goal with
  | |- tx_spec _ (tbind _ _) => eapply tx_spec_tbind
  | |- tx_spec _ (tret _) => apply tx_spec_tret
  | |- tx_spec _ (tfail _) => apply tx_spec_tfail
  | |- tx_spec _ (match ?x with _ => _ end) => destruct x eqn:?
  end).
