(* ===== verification/Text.v ===== *)
(** * Go strings and paths, on bytes

    What the program uses of Go's strings and path/filepath: the last index of
    a byte, containment, the trimming of white space, and the base name of a
    path. A Go string is its bytes. *)

From Stdlib Require Ascii.
From S2P Require Import Prelude.

Definition byte (a : Ascii.ascii) : nat := Ascii.nat_of_ascii a.

Fixpoint lastIndexByte (c : Ascii.ascii) (s : string) : option nat :=
  match s with
  | EmptyString => None
  | String a t =>
      match lastIndexByte c t with
      | Some n => Some (S n)
      | None => if Ascii.eqb a c then Some 0%nat else None
      end
  end.

Definition strContains (s sub : string) : bool :=
  match String.index 0 sub s with Some _ => true | None => false end.

Definition slash : Ascii.ascii := Ascii.ascii_of_nat 47.
Definition dot : Ascii.ascii := Ascii.ascii_of_nat 46.

(** filepath.Base, on Unix. *)
Fixpoint stripSlashes (s : string) : string :=
  match s with
  | EmptyString => EmptyString
  | String a t =>
      match stripSlashes t with
      | EmptyString => if Ascii.eqb a slash then EmptyString else String a EmptyString
      | t' => String a t'
      end
  end.

Definition Base (path : string) : string :=
  if bool_decide (path = "") then "."
  else
    let p := stripSlashes path in
    let b := match lastIndexByte slash p with
             | Some i => String.substring (S i) (String.length p - S i) p
             | None => p
             end in
    if bool_decide (b = "") then "/" else b.

(** strings.ContainsAny of a set of ASCII bytes. *)
Fixpoint containsByte (bad : nat -> bool) (s : string) : bool :=
  match s with
  | EmptyString => false
  | String a t => bad (byte a) || containsByte bad t
  end.

(** strings.TrimSpace: unicode.IsSpace by its UTF-8 encodings, the shortest
    first. *)
Definition asciiSpace (n : nat) : bool := ((9 <=? n) && (n <=? 13) || (n =? 32))%nat.
Definition spaceTwo (a b : nat) : bool := ((a =? 194) && ((b =? 133) || (b =? 160)))%nat.
Definition spaceThree (a b c : nat) : bool :=
  ((a =? 225) && (b =? 154) && (c =? 128)
   || (a =? 226) && (b =? 128) && ((128 <=? c) && (c <=? 138) || (c =? 168) || (c =? 169) || (c =? 175))
   || (a =? 226) && (b =? 129) && (c =? 159)
   || (a =? 227) && (b =? 128) && (c =? 128))%nat.

(** Whether [s] begins with a space, and how many bytes it takes. *)
Definition leadingSpace (s : string) : nat :=
  match s with
  | String a t =>
      if asciiSpace (byte a) then 1%nat
      else match t with
           | String b u =>
               if spaceTwo (byte a) (byte b) then 2%nat
               else match u with
                    | String c _ => if spaceThree (byte a) (byte b) (byte c) then 3%nat else 0%nat
                    | EmptyString => 0%nat
                    end
           | EmptyString => 0%nat
           end
  | EmptyString => 0%nat
  end.

Fixpoint trimLeftFuel (fuel : nat) (s : string) : string :=
  match fuel with
  | O => s
  | S fuel =>
      match leadingSpace s with
      | O => s
      | n => trimLeftFuel fuel (String.substring n (String.length s - n) s)
      end
  end.
Definition trimLeft (s : string) : string := trimLeftFuel (String.length s) s.

(** Whether all of [s] is one space. *)
Definition isSpace (s : string) : bool :=
  (leadingSpace s =? String.length s)%nat && negb (String.length s =? 0)%nat.

(** The length of [s] without one space at its end. *)
Definition trailingSpace (s : string) : nat :=
  let n := String.length s in
  if (1 <=? n)%nat && isSpace (String.substring (n - 1) 1 s) then 1%nat
  else if (2 <=? n)%nat && isSpace (String.substring (n - 2) 2 s) then 2%nat
  else if (3 <=? n)%nat && isSpace (String.substring (n - 3) 3 s) then 3%nat else 0%nat.

Fixpoint trimRightFuel (fuel : nat) (s : string) : string :=
  match fuel with
  | O => s
  | S fuel =>
      match trailingSpace s with
      | O => s
      | n => trimRightFuel fuel (String.substring 0 (String.length s - n) s)
      end
  end.
Definition trimRight (s : string) : string := trimRightFuel (String.length s) s.

Definition TrimSpace (s : string) : string := trimRight (trimLeft s).

Example trimSpace_sample :
  TrimSpace (String (Ascii.ascii_of_nat 9) " a b ") = "a b" /\ TrimSpace "  " = "" /\ TrimSpace "x" = "x" /\
  TrimSpace (String (Ascii.ascii_of_nat 194) (String (Ascii.ascii_of_nat 160) "n")) = "n".
Proof. by vm_compute. Qed.

(** strings.Split on a byte, and strings.Join with a slash. *)
Fixpoint splitByte (c : Ascii.ascii) (s : string) : list string :=
  match s with
  | EmptyString => [""]
  | String a t =>
      if Ascii.eqb a c then "" :: splitByte c t
      else match splitByte c t with
           | w :: l => String a w :: l
           | [] => [String a EmptyString]
           end
  end.

(** filepath.Clean of an absolute path, on Unix: the elements left, last
    first. *)
Definition cleanElement (kept : list string) (e : string) : list string :=
  if bool_decide (e = "") || bool_decide (e = ".") then kept
  else if bool_decide (e = "..") then match kept with _ :: kept => kept | [] => [] end
  else e :: kept.
Definition cleanAbs (path : string) : string :=
  match fold_left cleanElement (splitByte slash path) [] with
  | [] => "/"
  | kept => foldr (fun e acc => ("/" ++ e ++ acc)%string) "" (reverse kept)
  end.

(** filepath.Dir and filepath.Join, of an absolute path. *)
Definition dirAbs (path : string) : string :=
  cleanAbs (match lastIndexByte slash path with Some i => String.substring 0 (S i) path | None => path end).
Definition joinAbs (path : string) (elements : list string) : string :=
  cleanAbs (foldl (fun acc e => (acc ++ "/" ++ e)%string) path elements).

Example join_sample : joinAbs (dirAbs "/t/a/sess.jsonl") ["sess"; "subagents"; "agent-x.jsonl"] = "/t/a/sess/subagents/agent-x.jsonl"
  /\ cleanAbs "/a/../b/./c//d" = "/b/c/d" /\ cleanAbs "/.." = "/".
Proof. by vm_compute. Qed.
