(* ===== verification/Bytes.v ===== *)
(** * Go strings: UTF-8, cutting, decimals and hexadecimals

    What the verbs and the tmux parsers use of Go's unicode/utf8, strings and
    strconv, on bytes: the runes of a valid UTF-8 string, [strings.Cut] and
    its prefix and suffix forms, [strings.SplitN], the classes of bytes a
    field is checked against, and decimals within an int64. *)

From Stdlib Require Ascii.
From S2P Require Import Prelude Text.

Abbreviation char := Ascii.ascii.
Definition chr (n : nat) : char := Ascii.ascii_of_nat n.
Definition one (c : char) : string := String c EmptyString.

(** ** UTF-8 *)

Definition inRange (lo hi : nat) (c : char) : bool := (lo <=? byte c)%nat && (byte c <=? hi)%nat.
Definition low6 (c : char) : Z := Z.land (Z.of_nat (byte c)) 63.
Definition lead (mask : Z) (c : char) : Z := Z.land (Z.of_nat (byte c)) mask.

(** The sequences utf8 accepts, by their first byte. *)
Definition twoByte (a b : char) : bool := inRange 194 223 a && inRange 128 191 b.
Definition threeByte (a b c : char) : bool :=
  ((inRange 224 224 a && inRange 160 191 b) || (inRange 225 236 a && inRange 128 191 b)
   || (inRange 237 237 a && inRange 128 159 b) || (inRange 238 239 a && inRange 128 191 b)) && inRange 128 191 c.
Definition fourByte (a b c d : char) : bool :=
  ((inRange 240 240 a && inRange 144 191 b) || (inRange 241 243 a && inRange 128 191 b)
   || (inRange 244 244 a && inRange 128 143 b)) && inRange 128 191 c && inRange 128 191 d.

(** The runes of [s]; [None] when it is not valid UTF-8. *)
Fixpoint runes (s : string) : option (list Z) :=
  match s with
  | EmptyString => Some []
  | String a t =>
      if (byte a <? 128)%nat then (fun l => Z.of_nat (byte a) :: l) <$> runes t
      else match t with
      | EmptyString => None
      | String b t =>
          if twoByte a b then (fun l => lead 31 a * 64 + low6 b :: l) <$> runes t
          else match t with
          | EmptyString => None
          | String c t =>
              if threeByte a b c then (fun l => (lead 15 a * 64 + low6 b) * 64 + low6 c :: l) <$> runes t
              else match t with
              | EmptyString => None
              | String d t =>
                  if fourByte a b c d
                  then (fun l => ((lead 7 a * 64 + low6 b) * 64 + low6 c) * 64 + low6 d :: l) <$> runes t
                  else None
              end
          end
      end
  end.
Definition ValidString (s : string) : bool := bool_decide (is_Some (runes s)).

(** unicode.IsControl: category Cc. *)
Definition IsControl (r : Z) : bool := ((0 <=? r) && (r <? 32)) || ((127 <=? r) && (r <? 160)).

(** ** Classes of bytes *)

Fixpoint allBytes (p : char -> bool) (s : string) : bool :=
  match s with EmptyString => true | String c t => p c && allBytes p t end.
Fixpoint mapBytes (f : char -> char) (s : string) : string :=
  match s with EmptyString => EmptyString | String c t => String (f c) (mapBytes f t) end.
(** strings.ReplaceAll of one byte by nothing. *)
Fixpoint dropByte (bad : char) (s : string) : string :=
  match s with
  | EmptyString => EmptyString
  | String c t => if Ascii.eqb c bad then dropByte bad t else String c (dropByte bad t)
  end.

Definition digitByte : char -> bool := inRange 48 57.
Definition lowerHexByte (c : char) : bool := digitByte c || inRange 97 102 c.
Definition hexByte (c : char) : bool := lowerHexByte c || inRange 65 70 c.
Definition controlByte (c : char) : bool := (byte c <? 32)%nat || (byte c =? 127)%nat.
Definition lowerChar (c : char) : char := if inRange 65 90 c then chr (byte c + 32) else c.

Definition isDigits (s : string) : bool := negb (bool_decide (s = "")) && allBytes digitByte s.
Definition isLowerHex (s : string) : bool := allBytes lowerHexByte s.
Definition hasControlChar (s : string) : bool := negb (allBytes (fun c => negb (controlByte c)) s).

(** ** Cutting *)

(** strings.Cut at a byte. *)
Fixpoint cut (c : char) (s : string) : option (string * string) :=
  match s with
  | EmptyString => None
  | String a t =>
      if Ascii.eqb a c then Some (EmptyString, t)
      else match cut c t with Some (x, y) => Some (String a x, y) | None => None end
  end.
(** The two sides of a string's last [c]. *)
Definition cutLast (c : char) (s : string) : option (string * string) :=
  match lastIndexByte c s with
  | None => None
  | Some i => Some (String.substring 0 i s, String.substring (S i) (String.length s - S i) s)
  end.
Fixpoint cutPrefix (p s : string) : option string :=
  match p, s with
  | EmptyString, _ => Some s
  | String a p, String b s => if Ascii.eqb a b then cutPrefix p s else None
  | _, _ => None
  end.
Definition cutSuffix (p s : string) : option string :=
  let n := (String.length s - String.length p)%nat in
  if bool_decide (String.substring n (String.length p) s = p) && (String.length p <=? String.length s)%nat
  then Some (String.substring 0 n s) else None.
(** strings.SplitN at a byte, [n] > 0. *)
Fixpoint splitN (n : nat) (c : char) (s : string) : list string :=
  match n with
  | O => []
  | S O => [s]
  | S n => match cut c s with Some (x, y) => x :: splitN n c y | None => [s] end
  end.

(** ** Decimals *)

Fixpoint decimalFrom (n : Z) (s : string) : Z :=
  match s with EmptyString => n | String c t => decimalFrom (n * 10 + (Z.of_nat (byte c) - 48)) t end.
(** Digits only, and an int64: strconv.ParseInt fails out of range. *)
Definition parseDecimal64 (s : string) : option Z :=
  if isDigits s then (if decimalFrom 0 s <? 2 ^ 63 then Some (decimalFrom 0 s) else None) else None.

(** What %d prints of [n] >= 0. *)
Definition digitOf (n : Z) : char := chr (Z.to_nat (n mod 10) + 48).
Fixpoint decimalFuel (fuel : nat) (n : Z) (acc : string) : string :=
  match fuel with
  | O => acc
  | S fuel => if n <? 10 then String (digitOf n) acc else decimalFuel fuel (n / 10) (String (digitOf n) acc)
  end.
Definition showDecimal (n : Z) : string := decimalFuel 20 n EmptyString.

Example decimal_sample : showDecimal 0 = "0" /\ showDecimal 9223372036854775807 = "9223372036854775807" /\
  parseDecimal64 "9223372036854775807" = Some 9223372036854775807 /\ parseDecimal64 "9223372036854775808" = None /\
  parseDecimal64 "007" = Some 7 /\ parseDecimal64 "" = None /\ parseDecimal64 "-1" = None.
Proof. by vm_compute. Qed.
Example runes_sample : runes (String (chr 226) (String (chr 130) (String (chr 172) "a"))) = Some [8364; 97] /\
  runes (String (chr 237) (String (chr 160) (String (chr 128) ""))) = None /\ runes (one (chr 255)) = None.
Proof. by vm_compute. Qed.
Example cut_sample : cut (chr 32) "a b c" = Some ("a", "b c") /\ cutLast (chr 32) "a b c" = Some ("a b", "c") /\
  cutPrefix "ad1 " "ad1 x" = Some "x" /\ cutSuffix " z" "y z" = Some "y" /\ splitN 2 (chr 32) "a b c" = ["a"; "b c"].
Proof. by vm_compute. Qed.
