(* ===== verification/Rows.v ===== *)
(** * The store's data

    The rows of internal/store: a Spawn (table spawns), its permission
    requests, its session history, its subagent entries and claimable
    launches, the Cursor runtime bindings, the constants of their text
    columns, and the reads of a row that other components compare
    (rowsnapshot.go: RowSnapshot, LaunchIdentity, the narrow decoders). *)

From S2P Require Import Prelude.

(** ** Text values (internal/store/spawns.go, permission.go) *)

Definition AgentClaude : string := "claude".
Definition AgentCodex : string := "codex".
Definition AgentCursor : string := "cursor".

Definition StatePending : string := "pending".
Definition StateWaiting : string := "waiting".
Definition StateWorking : string := "working".
Definition StateAskUser : string := "ask_user".
Definition StateCheckPermission : string := "check_permission".
Definition StateNeedsIntelligence : string := "needs_intelligence".
Definition StateIdleScreen : string := "idle_screen".
Definition StateEnded : string := "ended".
Definition StateMissing : string := "missing".

Definition liveStates : list string :=
  [StatePending; StateWaiting; StateWorking; StateAskUser; StateCheckPermission].

Definition IsLiveState (state : string) : bool :=
  existsb (fun st => bool_decide (st = state)) liveStates.

Definition isTerminalState (v : string) : bool :=
  bool_decide (v = StateEnded) || bool_decide (v = StateMissing).

(** isDisplayedState and validDisplayState of internal/store/display.go. *)
Definition isDisplayedState (v : string) : bool :=
  bool_decide (v = StateNeedsIntelligence) || bool_decide (v = StateIdleScreen).

Definition validDisplayState (v : string) : bool :=
  IsLiveState v || isTerminalState v || isDisplayedState v.

Definition DecisionReasonOperator : string := "operator".
Definition DecisionReasonTimeout : string := "timeout".
Definition DecisionReasonFindMissing : string := "find_missing".
Definition DecisionReasonEnded : string := "ended".
Definition DecisionReasonPane : string := "pane".
Definition DecisionReasonPaneOutside : string := "pane_outside".
Definition DecisionReasonToolRan : string := "tool_ran".

Definition WriterProcessHook : string := "hook".
Definition WriterProcessDecide : string := "decide".
Definition WriterProcessFindMissing : string := "find_missing".
Definition WriterProcessSendKeys : string := "send_keys".
Definition WriterProcessRecordPaneAnswer : string := "record_pane_answer".
Definition WriterProcessResume : string := "resume".
Definition WriterProcessCursorHost : string := "cursor_host".

Definition PaneAnswerNone : string := "none".
Definition PaneAnswerIntent : string := "intent".
Definition PaneAnswerSent : string := "sent".
Definition PaneAnswerOutside : string := "outside".
Definition PaneAnswerToolRan : string := "tool_ran".

Definition ProvenGoneToolRan : string := "tool_ran".
Definition ProvenGoneTurnEnd : string := "turn_end".
Definition ProvenGoneAgentGone : string := "agent_gone".

Definition LivenessNoteUnreported : string := "unreported".
Definition LivenessNoteProvenanceConflict : string := "provenance_conflict".

(** validateRowAgent: exactly one of the three agents. *)
Definition validateRowAgent (a : string) : bool :=
  bool_decide (a = AgentClaude) || bool_decide (a = AgentCodex) || bool_decide (a = AgentCursor).

(** ** Report-only display columns (internal/store/display.go)

    display_observation is JSON text. It is kept as what the strict decoder
    of decodeDisplayObservation reads from it: an object of exactly the
    struct's fields, or some other text, of which only json_valid matters. *)

Record DisplayDetail := mkDisplayDetail {
  dd_State : string;
  dd_SinceMillis : Z;
  dd_RequestToken : string;
  dd_ToolName : string;
  dd_UnchangedMinutes : Z;
}.
#[export] Instance DisplayDetail_eq_dec : EqDecision DisplayDetail.
Proof. solve_decision. Defined.

Record displayObservation := mkDisplayObservation {
  do_Detail : DisplayDetail;
  do_Candidate : string;
  do_CandidateSince : Z;
  do_ObservedAt : Z;
  do_PermissionEpoch : Z;
}.
#[export] Instance displayObservation_eq_dec : EqDecision displayObservation.
Proof. solve_decision. Defined.
#[export] Instance eta_displayObservation : Eta displayObservation := fun r =>
  mkDisplayObservation (do_Detail r) (do_Candidate r) (do_CandidateSince r) (do_ObservedAt r)
  (do_PermissionEpoch r).
#[export] Instance set_do_Detail : Setter do_Detail. Proof. solve_setter. Defined.
#[export] Instance set_do_Candidate : Setter do_Candidate. Proof. solve_setter. Defined.
#[export] Instance set_do_CandidateSince : Setter do_CandidateSince. Proof. solve_setter. Defined.
#[export] Instance set_do_ObservedAt : Setter do_ObservedAt. Proof. solve_setter. Defined.
#[export] Instance set_do_PermissionEpoch : Setter do_PermissionEpoch. Proof. solve_setter. Defined.

Inductive ObsText :=
  | ObsObject (o : displayObservation)
  | ObsOther (json_valid : bool) (raw : string).
#[export] Instance ObsText_eq_dec : EqDecision ObsText.
Proof. solve_decision. Defined.

(** display_exit, the JSON object a lifecycle write builds. *)
Record DisplayExit := mkDisplayExit {
  de_Prior : string;
  de_Next : string;
  de_AtMillis : Z;
}.
#[export] Instance DisplayExit_eq_dec : EqDecision DisplayExit.
Proof. solve_decision. Defined.

(** ** The spawns table

    One row, keyed by instance_id in [Store]. Columns are in schema order
    (internal/store/schema.go, schemaDDL). A CURRENT_TIMESTAMP column is the
    whole second it holds; started_at, only ever compared as stored, is its
    text; JSON columns that no modelled statement looks into are their text. *)
Record SpawnRow := mkSpawnRow {
  sp_parent_id : option string;
  sp_state : string;
  sp_cwd : string;
  sp_tmux_session_name : string;
  sp_agent_args : string;
  sp_relay_mode : string;
  sp_jsonl_path : option string;
  sp_session_id : option string;
  sp_labels : string;
  sp_started_at : string;
  sp_last_seen_at : Z;
  sp_ended_at : option Z;
  sp_pid : option Z;
  sp_proc_starttime : option string;
  sp_liveness_unverified_since : option Z;
  sp_liveness_note : option string;
  sp_extra_env : string;
  sp_row_version : Z;
  sp_launch_started_at : option Z;
  sp_life_number : Z;
  sp_no_pre_trust : Z;
  sp_launch_token : option string;
  sp_tmux_socket : option string;
  sp_tmux_server_pid : option Z;
  sp_tmux_server_started : option Z;
  sp_tmux_server_starttime : option string;
  sp_pane_id : option string;
  sp_pane_pid : option Z;
  sp_pane_starttime : option string;
  sp_launch_owner_pid : option Z;
  sp_launch_owner_starttime : option string;
  sp_launch_owner_pidns : option string;
  sp_idle_since : option Z;
  sp_settled_state : string;
  sp_state_changed_ms : Z;
  sp_agent : option string;
  sp_end_reported_at : option Z;
  sp_subagent_tracking : Z;
  sp_family_state : string;
  sp_family_settled_state : string;
  sp_family_changed_ms : Z;
  sp_codex_startup : option string;
  sp_claude_capacity : option string;
  sp_permission_epoch : Z;
  sp_observation_version : Z;
  sp_display_observation : option ObsText;
  sp_display_exit : option DisplayExit;
  sp_idle_screen_timeout_seconds : option Z;
  sp_pane_sha256 : option string;
  sp_pane_since_ms : option Z;
  sp_pane_epoch : option Z;
  sp_codex_turn : option string;
  sp_codex_turn_ended : option string;
}.

#[export] Instance eta_SpawnRow : Eta SpawnRow := fun r => mkSpawnRow
  (sp_parent_id r) (sp_state r) (sp_cwd r) (sp_tmux_session_name r) (sp_agent_args r)
  (sp_relay_mode r) (sp_jsonl_path r) (sp_session_id r) (sp_labels r) (sp_started_at r)
  (sp_last_seen_at r) (sp_ended_at r) (sp_pid r) (sp_proc_starttime r)
  (sp_liveness_unverified_since r) (sp_liveness_note r) (sp_extra_env r) (sp_row_version r)
  (sp_launch_started_at r) (sp_life_number r) (sp_no_pre_trust r) (sp_launch_token r)
  (sp_tmux_socket r) (sp_tmux_server_pid r) (sp_tmux_server_started r)
  (sp_tmux_server_starttime r) (sp_pane_id r) (sp_pane_pid r) (sp_pane_starttime r)
  (sp_launch_owner_pid r) (sp_launch_owner_starttime r) (sp_launch_owner_pidns r)
  (sp_idle_since r) (sp_settled_state r) (sp_state_changed_ms r) (sp_agent r)
  (sp_end_reported_at r) (sp_subagent_tracking r) (sp_family_state r)
  (sp_family_settled_state r) (sp_family_changed_ms r) (sp_codex_startup r)
  (sp_claude_capacity r) (sp_permission_epoch r) (sp_observation_version r)
  (sp_display_observation r) (sp_display_exit r) (sp_idle_screen_timeout_seconds r)
  (sp_pane_sha256 r) (sp_pane_since_ms r) (sp_pane_epoch r) (sp_codex_turn r)
  (sp_codex_turn_ended r).

#[export] Instance set_sp_parent_id : Setter sp_parent_id. Proof. solve_setter. Defined.
#[export] Instance set_sp_state : Setter sp_state. Proof. solve_setter. Defined.
#[export] Instance set_sp_cwd : Setter sp_cwd. Proof. solve_setter. Defined.
#[export] Instance set_sp_tmux_session_name : Setter sp_tmux_session_name. Proof. solve_setter. Defined.
#[export] Instance set_sp_agent_args : Setter sp_agent_args. Proof. solve_setter. Defined.
#[export] Instance set_sp_relay_mode : Setter sp_relay_mode. Proof. solve_setter. Defined.
#[export] Instance set_sp_jsonl_path : Setter sp_jsonl_path. Proof. solve_setter. Defined.
#[export] Instance set_sp_session_id : Setter sp_session_id. Proof. solve_setter. Defined.
#[export] Instance set_sp_labels : Setter sp_labels. Proof. solve_setter. Defined.
#[export] Instance set_sp_started_at : Setter sp_started_at. Proof. solve_setter. Defined.
#[export] Instance set_sp_last_seen_at : Setter sp_last_seen_at. Proof. solve_setter. Defined.
#[export] Instance set_sp_ended_at : Setter sp_ended_at. Proof. solve_setter. Defined.
#[export] Instance set_sp_pid : Setter sp_pid. Proof. solve_setter. Defined.
#[export] Instance set_sp_proc_starttime : Setter sp_proc_starttime. Proof. solve_setter. Defined.
#[export] Instance set_sp_liveness_unverified_since : Setter sp_liveness_unverified_since. Proof. solve_setter. Defined.
#[export] Instance set_sp_liveness_note : Setter sp_liveness_note. Proof. solve_setter. Defined.
#[export] Instance set_sp_extra_env : Setter sp_extra_env. Proof. solve_setter. Defined.
#[export] Instance set_sp_row_version : Setter sp_row_version. Proof. solve_setter. Defined.
#[export] Instance set_sp_launch_started_at : Setter sp_launch_started_at. Proof. solve_setter. Defined.
#[export] Instance set_sp_life_number : Setter sp_life_number. Proof. solve_setter. Defined.
#[export] Instance set_sp_no_pre_trust : Setter sp_no_pre_trust. Proof. solve_setter. Defined.
#[export] Instance set_sp_launch_token : Setter sp_launch_token. Proof. solve_setter. Defined.
#[export] Instance set_sp_tmux_socket : Setter sp_tmux_socket. Proof. solve_setter. Defined.
#[export] Instance set_sp_tmux_server_pid : Setter sp_tmux_server_pid. Proof. solve_setter. Defined.
#[export] Instance set_sp_tmux_server_started : Setter sp_tmux_server_started. Proof. solve_setter. Defined.
#[export] Instance set_sp_tmux_server_starttime : Setter sp_tmux_server_starttime. Proof. solve_setter. Defined.
#[export] Instance set_sp_pane_id : Setter sp_pane_id. Proof. solve_setter. Defined.
#[export] Instance set_sp_pane_pid : Setter sp_pane_pid. Proof. solve_setter. Defined.
#[export] Instance set_sp_pane_starttime : Setter sp_pane_starttime. Proof. solve_setter. Defined.
#[export] Instance set_sp_launch_owner_pid : Setter sp_launch_owner_pid. Proof. solve_setter. Defined.
#[export] Instance set_sp_launch_owner_starttime : Setter sp_launch_owner_starttime. Proof. solve_setter. Defined.
#[export] Instance set_sp_launch_owner_pidns : Setter sp_launch_owner_pidns. Proof. solve_setter. Defined.
#[export] Instance set_sp_idle_since : Setter sp_idle_since. Proof. solve_setter. Defined.
#[export] Instance set_sp_settled_state : Setter sp_settled_state. Proof. solve_setter. Defined.
#[export] Instance set_sp_state_changed_ms : Setter sp_state_changed_ms. Proof. solve_setter. Defined.
#[export] Instance set_sp_agent : Setter sp_agent. Proof. solve_setter. Defined.
#[export] Instance set_sp_end_reported_at : Setter sp_end_reported_at. Proof. solve_setter. Defined.
#[export] Instance set_sp_subagent_tracking : Setter sp_subagent_tracking. Proof. solve_setter. Defined.
#[export] Instance set_sp_family_state : Setter sp_family_state. Proof. solve_setter. Defined.
#[export] Instance set_sp_family_settled_state : Setter sp_family_settled_state. Proof. solve_setter. Defined.
#[export] Instance set_sp_family_changed_ms : Setter sp_family_changed_ms. Proof. solve_setter. Defined.
#[export] Instance set_sp_codex_startup : Setter sp_codex_startup. Proof. solve_setter. Defined.
#[export] Instance set_sp_claude_capacity : Setter sp_claude_capacity. Proof. solve_setter. Defined.
#[export] Instance set_sp_permission_epoch : Setter sp_permission_epoch. Proof. solve_setter. Defined.
#[export] Instance set_sp_observation_version : Setter sp_observation_version. Proof. solve_setter. Defined.
#[export] Instance set_sp_display_observation : Setter sp_display_observation. Proof. solve_setter. Defined.
#[export] Instance set_sp_display_exit : Setter sp_display_exit. Proof. solve_setter. Defined.
#[export] Instance set_sp_idle_screen_timeout_seconds : Setter sp_idle_screen_timeout_seconds. Proof. solve_setter. Defined.
#[export] Instance set_sp_pane_sha256 : Setter sp_pane_sha256. Proof. solve_setter. Defined.
#[export] Instance set_sp_pane_since_ms : Setter sp_pane_since_ms. Proof. solve_setter. Defined.
#[export] Instance set_sp_pane_epoch : Setter sp_pane_epoch. Proof. solve_setter. Defined.
#[export] Instance set_sp_codex_turn : Setter sp_codex_turn. Proof. solve_setter. Defined.
#[export] Instance set_sp_codex_turn_ended : Setter sp_codex_turn_ended. Proof. solve_setter. Defined.
(** ** The permission_requests table *)
Record PermReq := mkPermReq {
  pr_request_id : Z;
  pr_instance_id : string;
  pr_request_token : string;
  pr_tool_name : string;
  pr_tool_input : string;
  pr_decision : option string;
  pr_decision_reason : option string;
  pr_decided_at : option Z;
  pr_created_at : Z;
  pr_hook_pid : option Z;
  pr_hook_starttime : option string;
  pr_hook_pidns : option string;
  pr_tool_use_id : option string;
  pr_agent_id : option string;
  pr_delivered_at : option Z;
  pr_settled_at : option Z;
  pr_hook_gone_at : option Z;
  pr_attempted_decision : option string;
  pr_attempted_at : option Z;
  pr_pane_answer : string;
  pr_pane_as : option string;
  pr_pane_sender_pid : option Z;
  pr_pane_sender_starttime : option string;
  pr_pane_sender_pidns : option string;
  pr_pane_intent_at : option Z;
  pr_closed_at : option Z;
  pr_proven_gone_at : option Z;
  pr_proven_gone_how : option string;
  pr_main_turn_end_eligible : bool;
  pr_owner_launch_token : option string;
  pr_owner_permission_epoch : option Z;
  pr_admitted_at : option Z;
  pr_fallback_at : option Z;
  pr_fallback_basis : option string;
}.

#[export] Instance eta_PermReq : Eta PermReq := fun r => mkPermReq
  (pr_request_id r) (pr_instance_id r) (pr_request_token r) (pr_tool_name r) (pr_tool_input r)
  (pr_decision r) (pr_decision_reason r) (pr_decided_at r) (pr_created_at r) (pr_hook_pid r)
  (pr_hook_starttime r) (pr_hook_pidns r) (pr_tool_use_id r) (pr_agent_id r)
  (pr_delivered_at r) (pr_settled_at r) (pr_hook_gone_at r) (pr_attempted_decision r)
  (pr_attempted_at r) (pr_pane_answer r) (pr_pane_as r) (pr_pane_sender_pid r)
  (pr_pane_sender_starttime r) (pr_pane_sender_pidns r) (pr_pane_intent_at r) (pr_closed_at r)
  (pr_proven_gone_at r) (pr_proven_gone_how r) (pr_main_turn_end_eligible r)
  (pr_owner_launch_token r) (pr_owner_permission_epoch r) (pr_admitted_at r) (pr_fallback_at r)
  (pr_fallback_basis r).

#[export] Instance set_pr_request_id : Setter pr_request_id. Proof. solve_setter. Defined.
#[export] Instance set_pr_instance_id : Setter pr_instance_id. Proof. solve_setter. Defined.
#[export] Instance set_pr_request_token : Setter pr_request_token. Proof. solve_setter. Defined.
#[export] Instance set_pr_tool_name : Setter pr_tool_name. Proof. solve_setter. Defined.
#[export] Instance set_pr_tool_input : Setter pr_tool_input. Proof. solve_setter. Defined.
#[export] Instance set_pr_decision : Setter pr_decision. Proof. solve_setter. Defined.
#[export] Instance set_pr_decision_reason : Setter pr_decision_reason. Proof. solve_setter. Defined.
#[export] Instance set_pr_decided_at : Setter pr_decided_at. Proof. solve_setter. Defined.
#[export] Instance set_pr_created_at : Setter pr_created_at. Proof. solve_setter. Defined.
#[export] Instance set_pr_hook_pid : Setter pr_hook_pid. Proof. solve_setter. Defined.
#[export] Instance set_pr_hook_starttime : Setter pr_hook_starttime. Proof. solve_setter. Defined.
#[export] Instance set_pr_hook_pidns : Setter pr_hook_pidns. Proof. solve_setter. Defined.
#[export] Instance set_pr_tool_use_id : Setter pr_tool_use_id. Proof. solve_setter. Defined.
#[export] Instance set_pr_agent_id : Setter pr_agent_id. Proof. solve_setter. Defined.
#[export] Instance set_pr_delivered_at : Setter pr_delivered_at. Proof. solve_setter. Defined.
#[export] Instance set_pr_settled_at : Setter pr_settled_at. Proof. solve_setter. Defined.
#[export] Instance set_pr_hook_gone_at : Setter pr_hook_gone_at. Proof. solve_setter. Defined.
#[export] Instance set_pr_attempted_decision : Setter pr_attempted_decision. Proof. solve_setter. Defined.
#[export] Instance set_pr_attempted_at : Setter pr_attempted_at. Proof. solve_setter. Defined.
#[export] Instance set_pr_pane_answer : Setter pr_pane_answer. Proof. solve_setter. Defined.
#[export] Instance set_pr_pane_as : Setter pr_pane_as. Proof. solve_setter. Defined.
#[export] Instance set_pr_pane_sender_pid : Setter pr_pane_sender_pid. Proof. solve_setter. Defined.
#[export] Instance set_pr_pane_sender_starttime : Setter pr_pane_sender_starttime. Proof. solve_setter. Defined.
#[export] Instance set_pr_pane_sender_pidns : Setter pr_pane_sender_pidns. Proof. solve_setter. Defined.
#[export] Instance set_pr_pane_intent_at : Setter pr_pane_intent_at. Proof. solve_setter. Defined.
#[export] Instance set_pr_closed_at : Setter pr_closed_at. Proof. solve_setter. Defined.
#[export] Instance set_pr_proven_gone_at : Setter pr_proven_gone_at. Proof. solve_setter. Defined.
#[export] Instance set_pr_proven_gone_how : Setter pr_proven_gone_how. Proof. solve_setter. Defined.
#[export] Instance set_pr_main_turn_end_eligible : Setter pr_main_turn_end_eligible. Proof. solve_setter. Defined.
#[export] Instance set_pr_owner_launch_token : Setter pr_owner_launch_token. Proof. solve_setter. Defined.
#[export] Instance set_pr_owner_permission_epoch : Setter pr_owner_permission_epoch. Proof. solve_setter. Defined.
#[export] Instance set_pr_admitted_at : Setter pr_admitted_at. Proof. solve_setter. Defined.
#[export] Instance set_pr_fallback_at : Setter pr_fallback_at. Proof. solve_setter. Defined.
#[export] Instance set_pr_fallback_basis : Setter pr_fallback_basis. Proof. solve_setter. Defined.
#[export] Instance PermReq_eq_dec : EqDecision PermReq.
Proof. solve_decision. Defined.

(** ** The other tables *)

Record HistoryRow := mkHistoryRow {
  hi_instance_id : string;
  hi_session_id : string;
  hi_jsonl_path : option string;
  hi_recorded_at : Z;
  hi_life_number : Z;
}.

Record LaunchRow := mkLaunchRow {
  la_created_seq : Z;
  la_instance_id : string;
  la_launch_token : string;
  la_tool_use_id : string;
  la_subagent_type : string;
  la_opened_at : Z;
}.

(** CursorRuntime (internal/store/cursor_runtime.go), also a row of
    cursor_runtimes, keyed by bound_instance_id. *)
Record CursorRuntime := mkCursorRuntime {
  cr_InstanceID : string;
  cr_Token : string;
  cr_Life : Z;
  cr_GatewayPID : Z;
  cr_GatewayStart : string;
  cr_RuntimePID : Z;
  cr_RuntimeStart : string;
  cr_Connection : string;
  cr_InputPipe : string;
  cr_OutputPipe : string;
  cr_InputFD : Z;
  cr_OutputFD : Z;
  cr_SessionID : string;
  cr_Terminated : bool;
}.
#[export] Instance CursorRuntime_eq_dec : EqDecision CursorRuntime.
Proof. solve_decision. Defined.
#[export] Instance eta_CursorRuntime : Eta CursorRuntime := fun r => mkCursorRuntime
  (cr_InstanceID r) (cr_Token r) (cr_Life r) (cr_GatewayPID r) (cr_GatewayStart r) (cr_RuntimePID r)
  (cr_RuntimeStart r) (cr_Connection r) (cr_InputPipe r) (cr_OutputPipe r) (cr_InputFD r) (cr_OutputFD r)
  (cr_SessionID r) (cr_Terminated r).
#[export] Instance set_cr_InstanceID : Setter cr_InstanceID. Proof. solve_setter. Defined.
#[export] Instance set_cr_SessionID : Setter cr_SessionID. Proof. solve_setter. Defined.
#[export] Instance set_cr_Terminated : Setter cr_Terminated. Proof. solve_setter. Defined.

(** ** The subagents table; [sa_confirmed] is whether confirmed is not 0 *)
Record SubagentRow := mkSubagentRow {
  sa_created_seq : Z;
  sa_instance_id : string;
  sa_subagent_id : string;
  sa_launch_token : string;
  sa_confirmed : bool;
  sa_session_id : option string;
  sa_subagent_type : option string;
  sa_description : option string;
  sa_model : option string;
  sa_parent_type : option string;
  sa_parent_id : option string;
  sa_tool_use_id : option string;
  sa_run_mode : option string;
  sa_first_started_at : option Z;
  sa_started_at : option Z;
  sa_stopped_at : option Z;
  sa_lost_at : option Z;
  sa_state : string;
  sa_close_reason : option string;
  sa_opened_at : Z;
  sa_activity_at : Z;
  sa_subagent_type_source : option string;
  sa_run_mode_source : option string;
  sa_stopped_at_source : option string;
  sa_life_number : Z;
}.
#[export] Instance SubagentRow_eq_dec : EqDecision SubagentRow.
Proof. solve_decision. Defined.

#[export] Instance eta_SubagentRow : Eta SubagentRow := fun r => mkSubagentRow
  (sa_created_seq r) (sa_instance_id r) (sa_subagent_id r) (sa_launch_token r) (sa_confirmed r)
  (sa_session_id r) (sa_subagent_type r) (sa_description r) (sa_model r) (sa_parent_type r)
  (sa_parent_id r) (sa_tool_use_id r) (sa_run_mode r) (sa_first_started_at r) (sa_started_at r)
  (sa_stopped_at r) (sa_lost_at r) (sa_state r) (sa_close_reason r) (sa_opened_at r) (sa_activity_at r)
  (sa_subagent_type_source r) (sa_run_mode_source r) (sa_stopped_at_source r) (sa_life_number r).

#[export] Instance set_sa_created_seq : Setter sa_created_seq. Proof. solve_setter. Defined.
#[export] Instance set_sa_instance_id : Setter sa_instance_id. Proof. solve_setter. Defined.
#[export] Instance set_sa_subagent_id : Setter sa_subagent_id. Proof. solve_setter. Defined.
#[export] Instance set_sa_launch_token : Setter sa_launch_token. Proof. solve_setter. Defined.
#[export] Instance set_sa_confirmed : Setter sa_confirmed. Proof. solve_setter. Defined.
#[export] Instance set_sa_session_id : Setter sa_session_id. Proof. solve_setter. Defined.
#[export] Instance set_sa_subagent_type : Setter sa_subagent_type. Proof. solve_setter. Defined.
#[export] Instance set_sa_description : Setter sa_description. Proof. solve_setter. Defined.
#[export] Instance set_sa_model : Setter sa_model. Proof. solve_setter. Defined.
#[export] Instance set_sa_parent_type : Setter sa_parent_type. Proof. solve_setter. Defined.
#[export] Instance set_sa_parent_id : Setter sa_parent_id. Proof. solve_setter. Defined.
#[export] Instance set_sa_tool_use_id : Setter sa_tool_use_id. Proof. solve_setter. Defined.
#[export] Instance set_sa_run_mode : Setter sa_run_mode. Proof. solve_setter. Defined.
#[export] Instance set_sa_first_started_at : Setter sa_first_started_at. Proof. solve_setter. Defined.
#[export] Instance set_sa_started_at : Setter sa_started_at. Proof. solve_setter. Defined.
#[export] Instance set_sa_stopped_at : Setter sa_stopped_at. Proof. solve_setter. Defined.
#[export] Instance set_sa_lost_at : Setter sa_lost_at. Proof. solve_setter. Defined.
#[export] Instance set_sa_state : Setter sa_state. Proof. solve_setter. Defined.
#[export] Instance set_sa_close_reason : Setter sa_close_reason. Proof. solve_setter. Defined.
#[export] Instance set_sa_opened_at : Setter sa_opened_at. Proof. solve_setter. Defined.
#[export] Instance set_sa_activity_at : Setter sa_activity_at. Proof. solve_setter. Defined.
#[export] Instance set_sa_subagent_type_source : Setter sa_subagent_type_source. Proof. solve_setter. Defined.
#[export] Instance set_sa_run_mode_source : Setter sa_run_mode_source. Proof. solve_setter. Defined.
#[export] Instance set_sa_stopped_at_source : Setter sa_stopped_at_source. Proof. solve_setter. Defined.
#[export] Instance set_sa_life_number : Setter sa_life_number. Proof. solve_setter. Defined.

(** ** The store

    [db_requests] is in request_id order, [db_subagents] and [db_launches] in
    created_seq order; [db_next_subagent] and [db_next_launch] are the next
    values of their AUTOINCREMENT keys; [db_now] is the clock, in
    milliseconds, that a statement reads (nowMsSQL, CURRENT_TIMESTAMP and
    storeNowMillis); every gap may move it. *)
Record Store := mkStore {
  db_spawns : gmap string SpawnRow;
  db_requests : list PermReq;
  db_next_request : Z;
  db_history : list HistoryRow;
  db_subagents : list SubagentRow;
  db_launches : list LaunchRow;
  db_runtimes : gmap string CursorRuntime;
  db_now : Z;
  db_next_subagent : Z;
  db_next_launch : Z;
}.

#[export] Instance eta_Store : Eta Store := fun r => mkStore
  (db_spawns r) (db_requests r) (db_next_request r) (db_history r) (db_subagents r)
  (db_launches r) (db_runtimes r) (db_now r) (db_next_subagent r) (db_next_launch r).

#[export] Instance set_db_spawns : Setter db_spawns. Proof. solve_setter. Defined.
#[export] Instance set_db_requests : Setter db_requests. Proof. solve_setter. Defined.
#[export] Instance set_db_next_request : Setter db_next_request. Proof. solve_setter. Defined.
#[export] Instance set_db_history : Setter db_history. Proof. solve_setter. Defined.
#[export] Instance set_db_subagents : Setter db_subagents. Proof. solve_setter. Defined.
#[export] Instance set_db_launches : Setter db_launches. Proof. solve_setter. Defined.
#[export] Instance set_db_runtimes : Setter db_runtimes. Proof. solve_setter. Defined.
#[export] Instance set_db_now : Setter db_now. Proof. solve_setter. Defined.
#[export] Instance set_db_next_subagent : Setter db_next_subagent. Proof. solve_setter. Defined.
#[export] Instance set_db_next_launch : Setter db_next_launch. Proof. solve_setter. Defined.

(** ** A row's change-detection key and identities (rowsnapshot.go) *)

Record RowSnapshot := mkRowSnapshot {
  rs_RowVersion : Z;
  rs_StartedAt : string;
  rs_SessionID : string;
  rs_PID : Z;
  rs_ProcStarttime : string;
  rs_TmuxSessionName : string;
}.
#[export] Instance RowSnapshot_eq_dec : EqDecision RowSnapshot.
Proof. solve_decision. Defined.

Record LaunchIdentity := mkLaunchIdentity {
  li_Token : string;
  li_Socket : string;
  li_ServerPID : Z;
  li_ServerStart : Z;
  li_ServerStarttime : string;
  li_PaneID : string;
  li_PanePID : Z;
  li_PaneStarttime : string;
}.
#[export] Instance LaunchIdentity_eq_dec : EqDecision LaunchIdentity.
Proof. solve_decision. Defined.

Record ProcessIdentity := mkProcessIdentity {
  pi_PID : Z;
  pi_Starttime : string;
  pi_PIDNamespace : string;
}.
#[export] Instance ProcessIdentity_eq_dec : EqDecision ProcessIdentity.
Proof. solve_decision. Defined.

(** A column's raw driver value: what Scan gives an [any]. *)
Inductive dval :=
  | DNull
  | DInt (n : Z)
  | DReal
  | DText (s : string)
  | DBlob.

Definition minLaunchStartedAtMillis : Z := -62167219200000.
Definition maxLaunchStartedAtMillis : Z := 253402300799999.

Definition decodeLaunchStartedAt (v : dval) : Z :=
  match v with
  | DInt ms =>
      if (ms <? minLaunchStartedAtMillis) || (maxLaunchStartedAtMillis <? ms) then 0 else ms
  | _ => 0
  end.

Definition decodeEndReportedAt (v : dval) : Z :=
  match v with DInt ms => if 0 <? ms then ms else 0 | _ => 0 end.

Definition launchTokenLen : nat := 16.

Definition is_token_char (c : Ascii.ascii) : bool :=
  let n := Ascii.nat_of_ascii c in
  ((48 <=? n)%nat && (n <=? 57)%nat) || ((97 <=? n)%nat && (n <=? 102)%nat).

Fixpoint forallb_string (f : Ascii.ascii -> bool) (s : string) : bool :=
  match s with
  | EmptyString => true
  | String c t => f c && forallb_string f t
  end.

Definition decodeLaunchToken (v : dval) : string :=
  match v with
  | DText s =>
      if negb (String.length s =? launchTokenLen)%nat then ""
      else if forallb_string is_token_char s then s else ""
  | _ => ""
  end.

Definition decodeSubagentTracking (v : dval) : bool :=
  match v with DInt n => n =? 1 | _ => false end.

Definition decodeNoPreTrust (v : dval) : bool :=
  match v with DInt n => negb (n =? 0) | _ => true end.

Definition dval_text (x : option string) : dval := from_option DText DNull x.
Definition dval_int (x : option Z) : dval := from_option DInt DNull x.

(** lifeColumns and lifeScan.result: a row's snapshot and launch identity. *)
Definition lifeSnapshot (r : SpawnRow) : RowSnapshot :=
  mkRowSnapshot (sp_row_version r) (sp_started_at r) (coalesce (sp_session_id r) "")
    (coalesce (sp_pid r) 0) (coalesce (sp_proc_starttime r) "") (sp_tmux_session_name r).

Definition lifeIdentity (r : SpawnRow) : LaunchIdentity :=
  mkLaunchIdentity (decodeLaunchToken (dval_text (sp_launch_token r)))
    (coalesce (sp_tmux_socket r) "") (coalesce (sp_tmux_server_pid r) 0)
    (coalesce (sp_tmux_server_started r) 0) (coalesce (sp_tmux_server_starttime r) "")
    (coalesce (sp_pane_id r) "") (coalesce (sp_pane_pid r) 0)
    (coalesce (sp_pane_starttime r) "").

(** snapshotMatchSQL with snapshotMatchArgs: the WHERE fragment. *)
Definition snapshotMatchSQL (r : SpawnRow) (s : RowSnapshot) : tvl :=
  (sql_eq (Some (sp_row_version r)) (Some (rs_RowVersion s))
   AND sql_eq (Some (sp_started_at r)) (Some (rs_StartedAt s))
   AND sql_eq (Some (coalesce (sp_session_id r) "")) (Some (rs_SessionID s))
   AND sql_eq (Some (coalesce (sp_pid r) 0)) (Some (rs_PID s))
   AND sql_eq (Some (coalesce (sp_proc_starttime r) "")) (Some (rs_ProcStarttime s))
   AND sql_eq (Some (sp_tmux_session_name r)) (Some (rs_TmuxSessionName s))).

(** liveStateGuardSQL and finishedStateGuardSQL. *)
Definition liveStateGuardSQL (r : SpawnRow) : tvl := Some (IsLiveState (sp_state r)).
Definition finishedStateGuardSQL (r : SpawnRow) : tvl := Some (isTerminalState (sp_state r)).

(** InsidePendingGrace: a pending row younger than the grace. [launch] is
    decoded milliseconds, [grace] and [now] are in milliseconds (Go's
    Duration.Milliseconds and Time.UnixMilli, both int64). *)
Definition wrap64 (z : Z) : Z := (z + 2 ^ 63) mod 2 ^ 64 - 2 ^ 63.

Definition InsidePendingGrace (state : string) (launch grace now : Z) : bool :=
  if negb (bool_decide (state = StatePending)) || (launch =? 0) then false
  else wrap64 (now - grace) <? launch.

(** CondResult: the outcome of a conditional write. *)
Inductive CondResult := CondApplied | CondChanged | CondAbsent.
#[export] Instance CondResult_eq_dec : EqDecision CondResult.
Proof. solve_decision. Defined.

(** ** The trail events the modelled operations emit (internal/trail) *)
Inductive Event :=
  | EvStateTransition (id prior new trigger : string) (soft : bool)
  | EvRowMutation (id token : string) (request_id : Z) (tool : string)
      (decision reason : option string) (writer kind : string)
  | EvDisplayed (id prior new : string) (at_ms : Z)
  | EvArchived (id prior_session new_session : string)
  | EvArchiveFailed (id session : string)
  | EvHealed (id session path : string)
  | EvOrphanCloseout (id token : string)
  | EvHookIgnored (id : option string) (event reason : string) (parent_pid : Z)
      (parent_command hook_session row_session : option string) (row_pane_pid : option Z)
  | EvPaneIsGrandparent (id : string) (pane_pid : Z) (pane_command : option string) (parent_pid : Z)
      (parent_command : option string) (advice : string)
  | EvRelayAttempt (id token : string)
  | EvResumeObserved (id token verdict : string)
  | EvHookFired (relay_mode : string) (id event tool : option string) (session : string)
      (outcome token : option string)
  (* [extra]: the fields a mark adds *)
  | EvFindMissingTick (id : string) (prior new : option string) (reason : string) (extra : list (string * string))
  | EvNameHeld (source id name socket : string) (session : option string) (created : option Z)
      (carries_this_id current_launch : option bool) (lookup_outcome : string) (row_result : string)
  | EvProvenanceDisagree (verb id reason socket name : string) (session current_name : option string)
      (server verdict action : string)
  | EvExpireKept (id reason name : string)
  | EvKillCalled (id name outcome lookup followup : string) (sent pane_killed : bool) (process_check : string)
      (agent_pid : option Z) (survivors : list Z) (include_finished : bool).
#[export] Instance Event_eq_dec : EqDecision Event.
Proof. solve_decision. Defined.

(** ** Lemmas *)

Lemma snapshot_match r s : where3 (snapshotMatchSQL r s) = bool_decide (lifeSnapshot r = s).
Proof.
  unfold snapshotMatchSQL. rewrite !where3_and, !where3_sql_eq.
  destruct s as [v st sid p ps tm]; simpl. unfold lifeSnapshot.
  repeat case_bool_decide; simplify_eq; try done.
Qed.

Lemma finished_not_live v : isTerminalState v = true -> IsLiveState v = false.
Proof.
  unfold isTerminalState. intros H%orb_true_iff.
  destruct H as [H|H]; apply bool_decide_eq_true in H; subst; reflexivity.
Qed.
