(* ===== verification/ContextSource.v ===== *)
(** * What Claude's transcript says of the context (internal/contextsource/claude.go)

    The latest response of an unbroken chain of transcript records, read
    closed: any record that does not fit ends the reading without an answer.
    The file's bytes and the JSON of its lines are the reader's
    ([claudeRecord] is a decoded line, [None] one that is empty, too long or
    does not decode); instants are nanoseconds since the epoch. *)

From S2P Require Import Prelude Sql Rows.

Definition ClaudeVersion : string := "2.1.280".
Definition MaxInt64 : Z := 2 ^ 63 - 1.

(** Go's zero time, in nanoseconds since the epoch. *)
Definition zeroTimeNs : Z := -62135596800000000000.

Record Counts := mkCounts {
  ct_Input : option Z;
  ct_Creation : option Z;
  ct_Read : option Z;
  ct_Output : option Z;
}.

Definition countsOf (c : Counts) : list (option Z) := [ct_Input c; ct_Creation c; ct_Read c; ct_Output c].

Fixpoint totalFrom (total : Z) (l : list (option Z)) : option Z :=
  match l with
  | [] => Some total
  | None :: _ => None
  | Some n :: l => if (n <? 0) || (MaxInt64 - total <? n) then None else totalFrom (total + n) l
  end.
Definition Total (c : Counts) : option Z := totalFrom 0 (countsOf c).
#[global] Opaque MaxInt64.

Definition Equal (c other : Counts) : bool :=
  bool_decide (is_Some (Total c)) && bool_decide (is_Some (Total other)) && bool_decide (countsOf c = countsOf other).

(** A decoded record. [cl_At] is its timestamp when it parses. *)
Record claudeIteration := mkIteration { it_Type : string; it_Counts : Counts }.
Record claudeMessage := mkMessage {
  ms_ID : string;
  ms_Model : string;
  ms_Usage : option (Counts * list claudeIteration);
}.
Record claudeRecord := mkClaudeRecord {
  cl_Type : string;
  cl_Subtype : string;
  cl_UUID : string;
  cl_Parent : option string;
  cl_Session : string;
  cl_Agent : string;
  cl_Sidechain : bool;
  cl_Version : string;
  cl_At : option Z;
  cl_Message : option claudeMessage;
}.

Record ClaudeUsage := mkClaudeUsage {
  us_UUID : string;
  us_Model : string;
  us_Tokens : Z;
  us_At : Z;
  us_Counts : Counts;
}.

(** The loop's variables; no usage is the zero ClaudeUsage. *)
Record claudeScan := mkScan {
  sc_latest : option ClaudeUsage;
  sc_previous : string;
  sc_measured : Z;
}.
Definition scanStart : claudeScan := mkScan None "" zeroTimeNs.

(** Records outside the active chain, and those of it. *)
Definition passiveTypes : list string :=
  ["mode"; "permission-mode"; "atis-latch"; "file-history-snapshot"; "last-prompt"; "ai-title"; "queue-operation";
   "cost-state"; "progress"].
Definition activeTypes : list string := ["user"; "attachment"; "system"; "assistant"].

Definition belongs (session child : string) (r : claudeRecord) : bool :=
  bool_decide (cl_Session r = session) && bool_decide (cl_Agent r = child)
  && eqb (cl_Sidechain r) (negb (bool_decide (child = ""))) && bool_decide (cl_Version r = ClaudeVersion)
  && negb (bool_decide (cl_UUID r = "")).

Definition isCompaction (r : claudeRecord) : bool :=
  bool_decide (cl_Type r = "system") && bool_decide (cl_Subtype r = "compact_boundary").

(** Whether a record continues the chain after [previous]. *)
Definition continues (previous : string) (r : claudeRecord) : bool :=
  if bool_decide (previous = "") then bool_decide (coalesce (cl_Parent r) "" = "")
  else bool_decide (cl_Parent r = Some previous).

(** The last ordinary iteration's counts, the iterations last first; [None]
    is a refused record. *)
Fixpoint ordinaryCounts (counts : Counts) (l : list claudeIteration) : option Counts :=
  match l with
  | [] => Some counts
  | it :: l =>
      if bool_decide (it_Type it = "advisor_message") || bool_decide (it_Type it = "compaction")
      then ordinaryCounts counts l
      else if negb (bool_decide (it_Type it = "message")) && negb (bool_decide (it_Type it = "fallback_message")) then None
      else match Total (it_Counts it) with
           | None => None
           | Some total => Some (if coalesce (ct_Output (it_Counts it)) 0 <? total then it_Counts it else counts)
           end
  end.
Definition responseCounts (counts : Counts) (total : Z) (l : list claudeIteration) : option Counts :=
  if coalesce (ct_Output counts) 0 <? total then ordinaryCounts counts (reverse l) else Some counts.

(** An assistant record, the chain checked; [sc] has its UUID as previous and
    no usage. *)
Definition measure (sc : claudeScan) (r : claudeRecord) : option claudeScan :=
  match cl_Message r with
  | None => Some sc
  | Some m =>
      match ms_Usage m with
      | None => Some sc
      | Some (counts, iterations) =>
          if bool_decide (ms_ID m = "") || bool_decide (ms_Model m = "") then Some sc
          else match Total counts with
          | None => Some sc
          | Some originalTotal =>
              match responseCounts counts originalTotal iterations with
              | None => None
              | Some counts =>
                  match Total counts, cl_At r with
                  | Some total, Some at_ =>
                      if at_ =? zeroTimeNs then Some sc
                      else if at_ <? sc_measured sc then None
                      else Some (mkScan (Some (mkClaudeUsage (cl_UUID r) (ms_Model m) total at_ counts)) (sc_previous sc) at_)
                  | _, _ => Some sc
                  end
              end
          end
      end
  end.

(** One line of the loop; [None] is a refused transcript. *)
Definition scanLine (session child : string) (sc : claudeScan) (line : option claudeRecord) : option claudeScan :=
  match line with
  | None => None
  | Some r =>
      if negb (bool_decide (cl_Session r = "")) && negb (bool_decide (cl_Session r = session)) then None
      else if bool_decide (cl_Type r ∈ passiveTypes) then Some sc
      else if negb (bool_decide (cl_Type r ∈ activeTypes)) then None
      else if negb (belongs session child r) then None
      else if isCompaction r then Some (mkScan None (cl_UUID r) zeroTimeNs)
      else if negb (continues (sc_previous sc) r) then None
      else if negb (bool_decide (cl_Type r = "assistant"))
           then Some (mkScan (sc_latest sc) (cl_UUID r) (sc_measured sc))
      else measure (mkScan None (cl_UUID r) (sc_measured sc)) r
  end.

#[global] Arguments scanLine : simpl never.

Fixpoint scanLines (session child : string) (sc : claudeScan) (lines : list (option claudeRecord)) : option claudeScan :=
  match lines with
  | [] => Some sc
  | line :: lines =>
      match scanLine session child sc line with
      | Some sc => scanLines session child sc lines
      | None => None
      end
  end.

(** Claude: [lines] is what reading the file at the path gave, [None] when
    readFile refuses it. *)
Definition Claude (session child : string) (lines : option (list (option claudeRecord))) : option ClaudeUsage :=
  match lines with
  | None => None
  | Some lines =>
      if bool_decide (session = "") then None
      else match scanLines session child scanStart lines with Some sc => sc_latest sc | None => None end
  end.

(** ** Totals *)

Definition sumZ (l : list Z) : Z := foldr Z.add 0 l.
Lemma sumZ_nonneg l : Forall (Z.le 0) l -> 0 <= sumZ l.
Proof. induction 1; simpl; lia. Qed.

Lemma totalFrom_spec t l r : 0 <= t <= MaxInt64 ->
  totalFrom t l = Some r <-> exists ns, l = Some <$> ns /\ Forall (Z.le 0) ns /\ r = t + sumZ ns /\ r <= MaxInt64.
Proof.
  revert t. induction l as [|x l IH]; intros t Ht; simpl.
  - split.
    + intros [= <-]. exists []. simpl. split_and!; [done..|lia|lia].
    + intros (ns & Hl & _ & -> & _). destruct ns; [|done]. simpl. f_equal. lia.
  - destruct x as [n|]; [|split; [done|by intros ([|] & ? & _)]].
    destruct ((n <? 0) || (MaxInt64 - t <? n)) eqn:E.
    + split; [done|]. intros ([|m ns] & [= -> ->] & Hn & -> & Hr). exfalso. simpl in Hr.
      apply Forall_cons in Hn as [Hm Hns%sumZ_nonneg]. apply orb_true_iff in E. rewrite !Z.ltb_lt in E. lia.
    + apply orb_false_iff in E. rewrite !Z.ltb_ge in E. rewrite IH by lia. split.
      * intros (ns & -> & Hn & -> & Hr). exists (n :: ns). simpl. split_and!; [done| |lia|lia].
        apply Forall_cons. split; [lia|done].
      * intros ([|m ns] & [= -> ->] & Hn & -> & Hr). exists ns. apply Forall_cons in Hn as [_ Hn]. simpl in *.
        split_and!; [done..|lia|lia].
Qed.

(** A total never overflows. It is given exactly when the four counts are
    there, none is negative and their sum fits a signed 64-bit integer; it is
    then that sum. *)
Theorem total_is_the_exact_sum (c : Counts) (total : Z) :
  Total c = Some total <->
  exists ns, countsOf c = Some <$> ns /\ Forall (Z.le 0) ns /\ total = sumZ ns /\ total <= MaxInt64.
Proof. unfold Total. rewrite totalFrom_spec; [done|]. by vm_compute. Qed.

(** ** The answer *)

Definition passive (line : option claudeRecord) : Prop := exists r, line = Some r /\ cl_Type r ∈ passiveTypes.
(** A line after which the usage stands. *)
Definition keepsUsage (line : option claudeRecord) : Prop :=
  passive line \/ exists r, line = Some r /\ cl_Type r <> "assistant" /\ isCompaction r = false.

(** The usage is the record's: its own response, measured. *)
Definition measuredBy (session child : string) (u : ClaudeUsage) (r : claudeRecord) : Prop :=
  cl_Type r = "assistant" /\ belongs session child r = true /\ us_UUID u = cl_UUID r /\
  (exists m, cl_Message r = Some m /\ us_Model u = ms_Model m /\ ms_Model m <> "") /\
  Total (us_Counts u) = Some (us_Tokens u) /\ cl_At r = Some (us_At u).

Lemma measure_spec session child sc r sc' : sc_latest sc = None -> sc_previous sc = cl_UUID r ->
  cl_Type r = "assistant" -> belongs session child r = true -> measure sc r = Some sc' ->
  sc_previous sc' = cl_UUID r /\ forall u, sc_latest sc' = Some u -> measuredBy session child u r.
Proof.
  intros Hn Hp Ht Hb. unfold measure.
  assert (Some sc = Some sc' -> sc_previous sc' = cl_UUID r /\ forall u, sc_latest sc' = Some u -> measuredBy session child u r)
    as Hsame by (intros [= <-]; split; [done|]; intros u; by rewrite Hn).
  destruct (cl_Message r) as [m|] eqn:Em; [|exact Hsame].
  destruct (ms_Usage m) as [[counts its]|]; [|exact Hsame].
  destruct (_ || _) eqn:Ee; [exact Hsame|]. destruct (Total counts) as [orig|]; [|exact Hsame].
  destruct (responseCounts counts orig its) as [c|]; [|done].
  destruct (Total c) as [total|] eqn:Et; [|exact Hsame]. destruct (cl_At r) as [at_|] eqn:Ea; [|exact Hsame].
  destruct (at_ =? zeroTimeNs); [exact Hsame|]. destruct (at_ <? sc_measured sc); [done|]. intros [= <-]. simpl.
  split; [done|]. intros u [= <-]. bsimp. unfold measuredBy. split_and!; try done. by exists m.
Qed.

Lemma assistant_not_passive r : cl_Type r = "assistant" -> cl_Type r ∈ passiveTypes -> False.
Proof. intros -> H. by apply (bool_decide_pack _) in H. Qed.

(** What one line does to the scan. *)
Lemma scanLine_cases session child sc line sc' : scanLine session child sc line = Some sc' ->
  (passive line /\ sc' = sc) \/
  exists r, line = Some r /\ belongs session child r = true /\ ~ passive line /\ sc_previous sc' = cl_UUID r /\
    (isCompaction r = true \/ continues (sc_previous sc) r = true) /\
    ((cl_Type r <> "assistant" /\ isCompaction r = false /\ sc_latest sc' = sc_latest sc) \/
     forall u, sc_latest sc' = Some u -> measuredBy session child u r).
Proof.
  unfold scanLine. destruct line as [r|]; [|done]. destruct (_ && _); [done|].
  case_bool_decide as Hpas; [intros [= <-]; left; split; [by exists r|done]|].
  destruct (negb (bool_decide (cl_Type r ∈ activeTypes))); [done|].
  destruct (belongs session child r) eqn:Eb; [|done]. simpl.
  assert (~ passive (Some r)) as Hnp by (intros (q & [= <-] & Hq); done).
  destruct (isCompaction r) eqn:Ec.
  { intros [= <-]. right. exists r. split_and!; try done; [by left|by right]. }
  destruct (continues (sc_previous sc) r) eqn:Ek; [|done]. simpl.
  destruct (bool_decide (cl_Type r = "assistant")) eqn:Ea; simpl.
  - bsimp. intros H. right. exists r.
    destruct (measure_spec session child (mkScan None (cl_UUID r) (sc_measured sc)) r sc' eq_refl eq_refl Ea Eb H) as [H1 H2].
    split_and!; try done; [by right|by right].
  - intros [= <-]. bsimp. right. exists r. split_and!; try done; [by right|by left].
Qed.

(** The usage of a scan is that of its last response, nothing after it. *)
Definition latestOf (session child : string) (pre : list (option claudeRecord)) (sc : claudeScan) : Prop :=
  forall u, sc_latest sc = Some u -> exists before r after, pre = before ++ Some r :: after /\
    measuredBy session child u r /\ Forall keepsUsage after.

Lemma scanLines_latest session child lines pre sc sc' :
  latestOf session child pre sc -> scanLines session child sc lines = Some sc' -> latestOf session child (pre ++ lines) sc'.
Proof.
  revert pre sc. induction lines as [|line lines IH]; intros pre sc Hpre; simpl.
  - intros [= <-]. by rewrite app_nil_r.
  - destruct (scanLine session child sc line) as [sc1|] eqn:E; [|done]. intros H.
    replace (pre ++ line :: lines) with ((pre ++ [line]) ++ lines) by (by rewrite <- app_assoc).
    eapply IH; [|exact H]. clear IH H. intros u Hu.
    assert (keepsUsage line -> sc_latest sc = Some u -> exists before r after,
      pre ++ [line] = before ++ Some r :: after /\ measuredBy session child u r /\ Forall keepsUsage after) as Hkeep.
    { intros Hl Hs. destruct (Hpre u Hs) as (before & r & after & -> & Hm & Ha).
      exists before, r, (after ++ [line]). split; [by rewrite <- app_assoc|]. split; [done|]. apply Forall_app. by rewrite Forall_singleton. }
    destruct (scanLine_cases _ _ _ _ _ E) as [[Hp ->]|(r & -> & Hb & _ & _ & _ & [(Ht & Hc & Hl)|Hm])].
    + apply Hkeep; [by left|done].
    + apply Hkeep; [right; by exists r|congruence].
    + exists pre, r, []. split_and!; [done|by apply Hm|constructor].
Qed.

Lemma scanLines_split session child sc l l' sc' : scanLines session child sc (l ++ l') = Some sc' ->
  exists sc1, scanLines session child sc l = Some sc1 /\ scanLines session child sc1 l' = Some sc'.
Proof.
  revert sc. induction l as [|x l IH]; intros sc; simpl; [by eauto|]. destruct (scanLine _ _ _ _); [apply IH|done].
Qed.

Lemma scanLines_passive session child sc l sc' : Forall passive l -> scanLines session child sc l = Some sc' -> sc' = sc.
Proof.
  intros H. revert sc. induction H as [|x l Hx _ IH]; intros sc; simpl; [congruence|].
  destruct (scanLine session child sc x) as [sc1|] eqn:E; [|done].
  destruct (scanLine_cases _ _ _ _ _ E) as [[_ ->]|(r & -> & _ & Hn & _)]; [apply IH|by destruct Hn].
Qed.

(** Two records of the active chain with only passive records between them
    are parent and child. *)
Definition unbroken (session child : string) (lines : list (option claudeRecord)) : Prop :=
  forall before a between b after, lines = before ++ Some a :: between ++ Some b :: after ->
    ~ passive (Some a) -> Forall passive between -> ~ passive (Some b) ->
    belongs session child b = true /\ (isCompaction b = true \/ cl_Parent b = Some (cl_UUID a)).

Lemma scanLines_unbroken session child lines sc sc' :
  scanLines session child sc lines = Some sc' -> unbroken session child lines.
Proof.
  intros H before a between b after -> Ha Hbt Hb. apply scanLines_split in H as (sc1 & _ & H). simpl in H.
  destruct (scanLine session child sc1 (Some a)) as [sc2|] eqn:E1; [|done].
  apply scanLines_split in H as (sc3 & ->%scanLines_passive & H); [|done]. simpl in H.
  destruct (scanLine session child sc2 (Some b)) as [sc4|] eqn:E2; [|done].
  destruct (scanLine_cases _ _ _ _ _ E1) as [[? _]|(a' & [= <-] & Hba & _ & Hprev & _)]; [done|].
  destruct (scanLine_cases _ _ _ _ _ E2) as [[? _]|(b' & [= <-] & Hbb & _ & _ & Hk & _)]; [done|].
  split; [done|]. destruct Hk as [Hk|Hk]; [by left|right]. rewrite Hprev in Hk. unfold continues in Hk.
  assert (cl_UUID a <> "") as Hne by (unfold belongs in Hba; by bsimp).
  rewrite (bool_decide_false (cl_UUID a = "")) in Hk by done. by bsimp.
Qed.

(** The reader's answer is the latest response of an unbroken chain. It is
    measured by an assistant record of this session, of this child and of the
    known version, with that record's identity, model and instant and a total
    that fits; no later record is a response or a compaction; and through the
    whole transcript every record of the chain names the one before it as its
    parent, but for a compaction. *)
Theorem claude_reads_the_latest_response (session child : string) (lines : list (option claudeRecord)) (u : ClaudeUsage) :
  Claude session child (Some lines) = Some u ->
  unbroken session child lines /\
  exists before r after, lines = before ++ Some r :: after /\ measuredBy session child u r /\ Forall keepsUsage after.
Proof.
  unfold Claude. case_bool_decide; [done|].
  destruct (scanLines session child scanStart lines) as [sc|] eqn:E; [|done]. intros Hu.
  split; [by eapply scanLines_unbroken|].
  exact (scanLines_latest session child lines [] scanStart sc (fun u (H : None = Some u) => ltac:(done)) E u Hu).
Qed.

Definition sampleCounts : Counts := mkCounts (Some 3) (Some 0) (Some 10) (Some 2).
Definition userRecord : claudeRecord :=
  mkClaudeRecord "user" "" "u1" None "sess" "" false ClaudeVersion (Some 5) None.
Definition assistantRecord : claudeRecord :=
  mkClaudeRecord "assistant" "" "u2" (Some "u1") "sess" "" false ClaudeVersion (Some 7)
    (Some (mkMessage "m1" "model" (Some (sampleCounts, [])))).

Lemma claude_reads_the_latest_response_witness :
  Claude "sess" "" (Some [Some userRecord; Some assistantRecord]) = Some (mkClaudeUsage "u2" "model" 15 7 sampleCounts) /\
  unbroken "sess" "" [Some userRecord; Some assistantRecord].
Proof.
  assert (Claude "sess" "" (Some [Some userRecord; Some assistantRecord]) = Some (mkClaudeUsage "u2" "model" 15 7 sampleCounts)) as E
    by (by vm_compute).
  split; [exact E|]. exact (proj1 (claude_reads_the_latest_response _ _ _ _ E)).
Defined.
