(* ===== verification/Display.v ===== *)
(** * Displayed States (internal/store/display.go, idle_screen.go)

    The report-only state a read shows beside a row's lifecycle state: the
    strict decode of a stored observation, the display a row shows as
    committed, the plan an observer commits ([planObservation]) and the pane
    baseline it derives from ([planPane]). *)

From S2P Require Import Prelude Sql Rows.

(** ** Decoding *)

Definition validDisplayDetail (d : DisplayDetail) : bool :=
  if bool_decide (dd_State d = StateNeedsIntelligence) then
    negb (bool_decide (dd_RequestToken d = "")) && (dd_UnchangedMinutes d =? 0)
  else if bool_decide (dd_State d = StateIdleScreen) then
    bool_decide (dd_RequestToken d = "") && bool_decide (dd_ToolName d = "")
    && (0 <=? dd_UnchangedMinutes d)
  else false.

Definition decodeDisplayObservation (raw : option ObsText) : option displayObservation :=
  match raw with
  | Some (ObsObject o) =>
      let st := dd_State (do_Detail o) in
      if negb (validDisplayState st)
         || (negb (bool_decide (do_Candidate o = "")) && negb (validDisplayState (do_Candidate o)))
         || (bool_decide (do_Candidate o = "") && negb (isDisplayedState st))
         || (do_CandidateSince o <? 0) || (do_ObservedAt o <? 0) || (do_PermissionEpoch o <? 0)
         || (isDisplayedState st
             && (negb (validDisplayDetail (do_Detail o)) || (dd_SinceMillis (do_Detail o) <=? 0)))
      then None else Some o
  | _ => None
  end.

Definition stateDetail (st : string) : DisplayDetail := mkDisplayDetail st 0 "" "" 0.
Definition zeroDetail : DisplayDetail := stateDetail "".
Definition zeroObservation : displayObservation := mkDisplayObservation zeroDetail "" 0 0 0.

(** Spawn.CommittedDisplay: what the row snapshot shows. *)
Definition CommittedDisplay (state reported : string) (obs : option ObsText) : DisplayDetail :=
  match decodeDisplayObservation obs with
  | Some o =>
      if isDisplayedState (dd_State (do_Detail o)) && negb (isTerminalState state)
         && negb (bool_decide (state = StatePending))
      then do_Detail o else stateDetail reported
  | None => stateDetail reported
  end.

(** committedDisplayState, behind committedDisplayStateSQL. *)
Definition committedDisplayStateSQL (r : SpawnRow) : option string :=
  let d := CommittedDisplay (sp_state r) "" (sp_display_observation r) in
  if isDisplayedState (dd_State d) then Some (dd_State d) else None.

(** json_valid and the json_set of hookStateSet, on the column. *)
Definition json_valid (obs : option ObsText) : tvl :=
  match obs with
  | None => None
  | Some (ObsObject _) => Some true
  | Some (ObsOther v _) => Some v
  end.

Definition json_clear_candidate (obs : option ObsText) : option ObsText :=
  match obs with
  | Some (ObsObject o) => Some (ObsObject (o <| do_Candidate := "" |> <| do_CandidateSince := 0 |>))
  | _ => obs
  end.

(** ** Exits (decodeDisplayExit, takeDisplayExits) *)

Definition decodeDisplayExit (e : DisplayExit) : bool :=
  isDisplayedState (de_Prior e) && validDisplayState (de_Next e)
  && negb (isDisplayedState (de_Next e)) && (0 <? de_AtMillis e).

(** The exit marker of one row is drained and, when valid, becomes an event
    its caller emits after the commit. *)
Definition takeDisplayExits (id : string) : Tx Store (list Event) :=
  found <-- tread (fun s =>
    match db_spawns s !! id with
    | Some r => sp_display_exit r
    | None => None
    end);;
  match found with
  | None => tret []
  | Some e =>
      tstmt (fun s => Ok (if decodeDisplayExit e
                          then [EvDisplayed id (de_Prior e) (de_Next e) (de_AtMillis e)] else [],
        s <| db_spawns := alter (fun r => r <| sp_display_exit := None |>) id (db_spawns s) |>))
  end.

(** ** Observation (planObservation) *)

Record observationPlan := mkPlan {
  pl_raw : option ObsText;
  pl_result : DisplayDetail;
  pl_events : list Event;
  pl_write : bool;
}.

(** [row.DisplayObservation != ""]: NULL reads as the empty text. *)
Definition obsEmpty (obs : option ObsText) : bool :=
  match obs with None => true | Some (ObsOther _ raw) => bool_decide (raw = "") | _ => false end.

Section Plan.
(** The examined row: its id, raw state, reported (settled) state, stored
    observation and permission epoch. *)
Context (id state reported : string) (obs : option ObsText) (epoch : Z).
Context (now settleMs : Z).

Definition displayTransition (prior next : string) : Event := EvDisplayed id prior next now.

(** An episode that ends at once: its exit, and the row's own settled
    state in place of the stored display. *)
Definition endedEpisode : displayObservation :=
  zeroObservation <| do_Detail := stateDetail reported |>.

(** The stored observation as the read continues it, whether it is a
    display that goes on, and the exits found so far. *)
Definition continuedObservation (targetState : string)
    : displayObservation * bool * list Event :=
  let stored := decodeDisplayObservation obs in
  let old := default zeroObservation stored in
  let continuing :=
    match stored with Some o => isDisplayedState (dd_State (do_Detail o)) | None => false end in
  let '(old, continuing, events) :=
    if continuing && bool_decide (dd_State (do_Detail old) = StateNeedsIntelligence) then
      (endedEpisode, false, [displayTransition (dd_State (do_Detail old)) reported])
    else (old, continuing, []) in
  let old := if continuing then old else old <| do_Detail := stateDetail reported |> in
  if continuing && bool_decide (targetState = dd_State (do_Detail old))
     && negb (do_PermissionEpoch old =? epoch) then
    (endedEpisode, false, events ++ [displayTransition (dd_State (do_Detail old)) reported])
  else (old, continuing, events).

(** Entry, exit and a move between the two states alike, once the target
    has been the candidate for the settle time. *)
Definition settleObservation (old : displayObservation) (target : DisplayDetail)
    (targetState : string) (events : list Event) : displayObservation * list Event :=
  let old := if bool_decide (do_Candidate old = targetState) then old
             else old <| do_Candidate := targetState |> <| do_CandidateSince := now |> in
  let '(old, events) :=
    if (Z.max settleMs 0 <=? now - do_CandidateSince old)
       && negb (bool_decide (dd_State (do_Detail old) = targetState)) then
      let d := if isDisplayedState targetState
               then mkDisplayDetail (dd_State target) now (dd_RequestToken target)
                      (dd_ToolName target) (dd_UnchangedMinutes target)
               else stateDetail targetState in
      (old <| do_Detail := d |>,
       events ++ [displayTransition (dd_State (do_Detail old)) targetState])
    else (old, events) in
  if isDisplayedState (dd_State (do_Detail old))
     && bool_decide (dd_State (do_Detail old) = targetState) then
    let d := do_Detail old in
    (old <| do_Detail := mkDisplayDetail (dd_State d) (dd_SinceMillis d)
              (dd_RequestToken target) (dd_ToolName target) (dd_UnchangedMinutes target) |>,
     events)
  else (old, events).

Definition planObservation (target : DisplayDetail) (extra : bool) : result observationPlan :=
  let stored := decodeDisplayObservation obs in
  if match stored with Some o => now <? do_ObservedAt o | None => false end
  then Err ESampleChanged
  else
  let targetState := if bool_decide (dd_State target = "") then state else dd_State target in
  let '(old, continuing, events) := continuedObservation targetState in
  if negb (isDisplayedState (dd_State (do_Detail old))) && negb (isDisplayedState targetState) then
    Ok (mkPlan None (stateDetail reported) events (negb (obsEmpty obs) || extra))
  else
  let old := if continuing then old else old <| do_PermissionEpoch := epoch |> in
  let '(old, events) := settleObservation old target targetState events in
  let unchanged :=
    match stored with
    | Some o => bool_decide (old <| do_ObservedAt := do_ObservedAt o |> = o)
    | None => false
    end in
  if unchanged && negb extra && bool_decide (events = []) then
    Ok (mkPlan None (do_Detail old) [] false)
  else
  let old := old <| do_ObservedAt := now |> in
  if isDisplayedState (dd_State (do_Detail old)) || isDisplayedState targetState then
    Ok (mkPlan (Some (ObsObject old)) (do_Detail old) events true)
  else Ok (mkPlan None (stateDetail targetState) events true).
End Plan.

(** ** The pane baseline (idle_screen.go) *)

Definition IdleScreenApplies (ag : string) : bool :=
  bool_decide (ag = AgentClaude) || bool_decide (ag = AgentCodex).

Definition PaneObservable (state ag : string) : bool :=
  bool_decide (state = StateWorking) && IdleScreenApplies ag.

Record paneBaseline := mkBaseline { pb_sha256 : string; pb_sinceMillis : Z }.
#[export] Instance paneBaseline_eq_dec : EqDecision paneBaseline.
Proof. solve_decision. Defined.
Definition noBaseline : paneBaseline := mkBaseline "" 0.

(** paneScan.apply on the three baseline columns, then committedPaneBaseline. *)
Definition committedPaneBaseline (r : SpawnRow) : paneBaseline :=
  let sha := coalesce (sp_pane_sha256 r) "" in
  let since := match sp_pane_since_ms r with Some v => if 0 <? v then v else 0 | None => 0 end in
  let ep := match sp_pane_epoch r with Some v => if 0 <=? v then v else -1 | None => -1 end in
  if bool_decide (sha = "") || (since <=? 0) || negb (ep =? sp_permission_epoch r)
  then noBaseline else mkBaseline sha since.

Definition planPane (r : SpawnRow) (sample : string) (now timeoutMs : Z)
    : paneBaseline * DisplayDetail :=
  if bool_decide (sample = "") || negb (PaneObservable (sp_state r) (coalesce (sp_agent r) ""))
  then (noBaseline, zeroDetail)
  else
  let current := committedPaneBaseline r in
  if negb (bool_decide (pb_sha256 current = sample)) then (mkBaseline sample now, zeroDetail)
  else
  let unchanged := now - pb_sinceMillis current in
  if unchanged <? timeoutMs then (current, zeroDetail)
  else (current, mkDisplayDetail StateIdleScreen 0 "" "" (Z.quot unchanged 60000)).

Definition paneBaselineArgs (b : paneBaseline) (epoch : Z)
    : option string * option Z * option Z :=
  if bool_decide (b = noBaseline) then (None, None, None)
  else (Some (pb_sha256 b), Some (pb_sinceMillis b), Some epoch).
