(* ===== verification/DisplayProps.v ===== *)
(** * Properties of the Displayed State plan

    What an observer may commit ([planObservation]) and when the pane makes a
    row eligible ([planPane]): the stored text always decodes to what was
    planned, a second read in the same instant writes nothing, no display is
    entered before it settled, and none shows needs_intelligence. *)

From S2P Require Import Prelude Sql Rows Display.

Section PlanProps.
Context (id state reported : string) (epoch now settleMs : Z).

(** The row's raw and settled states are ordinary, and the clock is past
    1970. *)
Context (Hstate : validDisplayState state = true) (Hstate' : isDisplayedState state = false).
Context (Hrep : validDisplayState reported = true) (Hrep' : isDisplayedState reported = false).
Context (Hnow : 0 < now) (Hepoch : 0 <= epoch).

(** What planPane and an observer without one pass as the target. *)
Definition target_ok (t : DisplayDetail) : Prop :=
  dd_State t = "" \/ (dd_State t = StateIdleScreen /\ validDisplayDetail t = true).

Definition targetStateOf (t : DisplayDetail) : string :=
  if bool_decide (dd_State t = "") then state else dd_State t.

Abbreviation plan obs := (planObservation id state reported obs epoch now settleMs).
Abbreviation settle := (settleObservation id now settleMs).
Abbreviation continued obs := (continuedObservation id reported obs epoch now).

Lemma target_displayed t : target_ok t -> isDisplayedState (targetStateOf t) = true ->
  targetStateOf t = StateIdleScreen /\ dd_State t = StateIdleScreen /\ validDisplayDetail t = true.
Proof.
  unfold targetStateOf. intros [Ht|[Ht Hv]]; rewrite Ht; [|done].
  rewrite bool_decide_true by done. congruence.
Qed.

Lemma target_valid t : target_ok t -> validDisplayState (targetStateOf t) = true.
Proof. unfold targetStateOf. intros [Ht|[Ht Hv]]; rewrite Ht; [by rewrite bool_decide_true|done]. Qed.

Lemma target_not_needs t : target_ok t -> targetStateOf t <> StateNeedsIntelligence.
Proof.
  intros Ht E. pose proof (target_displayed t Ht) as H. rewrite E in H. destruct (H eq_refl) as [? _]. done.
Qed.

(** *** One settling step, in closed form *)

Definition candidateSince (old : displayObservation) (ts : string) : Z :=
  if bool_decide (do_Candidate old = ts) then do_CandidateSince old else now.
Definition fires (old : displayObservation) (ts : string) : bool :=
  (Z.max settleMs 0 <=? now - candidateSince old ts) && negb (bool_decide (dd_State (do_Detail old) = ts)).
Definition settledDetail (old : displayObservation) (t : DisplayDetail) (ts : string) : DisplayDetail :=
  let d := do_Detail old in
  if fires old ts then
    if isDisplayedState ts
    then mkDisplayDetail ts now (dd_RequestToken t) (dd_ToolName t) (dd_UnchangedMinutes t)
    else stateDetail ts
  else if isDisplayedState (dd_State d) && bool_decide (dd_State d = ts)
  then mkDisplayDetail (dd_State d) (dd_SinceMillis d) (dd_RequestToken t) (dd_ToolName t) (dd_UnchangedMinutes t)
  else d.

Lemma settle_eq old t ts ev : (isDisplayedState ts = true -> dd_State t = ts) ->
  settle old t ts ev =
    (mkDisplayObservation (settledDetail old t ts) ts (candidateSince old ts) (do_ObservedAt old)
       (do_PermissionEpoch old),
     if fires old ts then ev ++ [displayTransition id now (dd_State (do_Detail old)) ts] else ev).
Proof.
  intros Ht. destruct old as [[st si rt tn um] c cs oa pe].
  unfold settleObservation, settledDetail, fires, candidateSince. simpl.
  destruct (bool_decide (c = ts)) eqn:Ec; simpl.
  all: match goal with |- context [Z.max settleMs 0 <=? ?x] => destruct (Z.max settleMs 0 <=? x) end; simpl.
  all: destruct (bool_decide (st = ts)) eqn:Es; simpl; bsimp; subst.
  all: destruct (isDisplayedState ts) eqn:Ed; simpl; rewrite ?Ht, ?Ed by done; simpl.
  all: rewrite ?bool_decide_true, ?andb_true_r, ?Ed by done; simpl; try done.
  all: rewrite ?(bool_decide_false (st = ts)), ?andb_false_r by done; simpl; try done.
Qed.

(** Settling again at the same instant changes nothing. *)
Lemma fires_not_again old t ts : fires (mkDisplayObservation (settledDetail old t ts) ts
    (candidateSince old ts) (do_ObservedAt old) (do_PermissionEpoch old)) ts = false.
Proof.
  unfold fires at 1. unfold candidateSince at 1. simpl. rewrite bool_decide_true by done.
  unfold settledDetail. destruct (fires old ts) eqn:Ef.
  - destruct (isDisplayedState ts); simpl; rewrite bool_decide_true by done; apply andb_false_r.
  - unfold fires in Ef. destruct (_ && bool_decide _) eqn:E; simpl; [|done].
    apply andb_true_iff in E as [_ ->]. apply andb_false_r.
Qed.

Lemma settled_again old t ts :
  settledDetail (mkDisplayObservation (settledDetail old t ts) ts
    (candidateSince old ts) (do_ObservedAt old) (do_PermissionEpoch old)) t ts = settledDetail old t ts.
Proof.
  unfold settledDetail at 1. cbv zeta. rewrite fires_not_again. simpl.
  unfold settledDetail. destruct (fires old ts).
  - destruct (isDisplayedState ts) eqn:E; simpl; rewrite E; simpl; [|done]. by rewrite bool_decide_true.
  - destruct (isDisplayedState (dd_State (do_Detail old)) && _) eqn:E; simpl; by rewrite E.
Qed.

(** *** What a stored observation is *)

Lemma decode_Some obs o : decodeDisplayObservation obs = Some o ->
  obs = Some (ObsObject o) /\ 0 <= do_CandidateSince o /\ 0 <= do_ObservedAt o /\ 0 <= do_PermissionEpoch o /\
  (isDisplayedState (dd_State (do_Detail o)) = true ->
     validDisplayDetail (do_Detail o) = true /\ 0 < dd_SinceMillis (do_Detail o)).
Proof.
  unfold decodeDisplayObservation. destruct obs as [[o'|]|]; try done.
  destruct (_ || _) eqn:E; [done|]. intros [= ->].
  repeat match goal with H : _ || _ = false |- _ => apply orb_false_iff in H as [? ?] end.
  split_and!; [done|lia..|]. intros Hd. rewrite Hd in *. simpl in *.
  match goal with H : negb (validDisplayDetail _) || _ = false |- _ => apply orb_false_iff in H as [? ?] end.
  bsimp. split; [done|lia].
Qed.

Lemma decode_object o :
  validDisplayState (dd_State (do_Detail o)) = true -> validDisplayState (do_Candidate o) = true ->
  0 <= do_CandidateSince o -> 0 <= do_ObservedAt o -> 0 <= do_PermissionEpoch o ->
  (isDisplayedState (dd_State (do_Detail o)) = true ->
     validDisplayDetail (do_Detail o) = true /\ 0 < dd_SinceMillis (do_Detail o)) ->
  decodeDisplayObservation (Some (ObsObject o)) = Some o.
Proof.
  intros H1 H2 H3 H4 H5 H6. unfold decodeDisplayObservation. cbv zeta. rewrite H1, H2.
  rewrite (bool_decide_false (do_Candidate o = "")) by (intros E; by rewrite E in H2).
  rewrite !(proj2 (Z.ltb_ge _ _)) by done. simpl.
  destruct (isDisplayedState (dd_State (do_Detail o))) eqn:Ed; simpl; [|reflexivity]. destruct H6 as [-> H]; [done|].
  by rewrite (proj2 (Z.leb_gt _ _)).
Qed.

(** The stored observation as the read continues it. *)
Lemma continued_cases obs ts old cont ev : continued obs ts = (old, cont, ev) ->
  (cont = true /\ decodeDisplayObservation obs = Some old /\
   isDisplayedState (dd_State (do_Detail old)) = true /\ dd_State (do_Detail old) <> StateNeedsIntelligence /\
   (dd_State (do_Detail old) = ts -> do_PermissionEpoch old = epoch) /\ ev = []) \/
  (cont = false /\ do_Detail old = stateDetail reported /\ 0 <= do_CandidateSince old /\
   (do_Candidate old = "" \/ ev = [] /\ exists o, decodeDisplayObservation obs = Some o /\ isDisplayedState (dd_State (do_Detail o)) = false /\
      old = o <| do_Detail := stateDetail reported |>) /\
   (ev = [] \/ exists o, decodeDisplayObservation obs = Some o /\ isDisplayedState (dd_State (do_Detail o)) = true /\
      ev = [displayTransition id now (dd_State (do_Detail o)) reported])).
Proof.
  unfold continuedObservation. destruct (decodeDisplayObservation obs) as [o|] eqn:Eo; simpl.
  2: { intros [= <- <- <-]. right. split_and!; [done..|by left|by left]. }
  destruct (isDisplayedState (dd_State (do_Detail o))) eqn:Ed; simpl.
  - destruct (bool_decide (dd_State (do_Detail o) = StateNeedsIntelligence)) eqn:En; simpl.
    + intros [= <- <- <-]. right. split_and!; [done..|by left|right; eauto].
    + destruct (bool_decide (ts = dd_State (do_Detail o))) eqn:Et; simpl;
        [destruct (do_PermissionEpoch o =? epoch) eqn:Ep; simpl|]; intros [= <- <- <-].
      * left. bsimp. split_and!; try done; lia.
      * right. split_and!; [done..|by left|right; eauto].
      * left. bsimp. split_and!; try done; congruence.
  - intros [= <- <- <-]. right. pose proof (decode_Some _ _ Eo) as (_ & H & _).
    split_and!; [done..| |by left]. right. split; [done|]. eauto.
Qed.

(** The observation one read leaves, before its instant is stamped. *)
Definition planned (obs : option ObsText) (t : DisplayDetail) : displayObservation :=
  let ts := targetStateOf t in
  let '(old, cont, _) := continued obs ts in
  let old := if cont then old else old <| do_PermissionEpoch := epoch |> in
  mkDisplayObservation (settledDetail old t ts) ts (candidateSince old ts) (do_ObservedAt old) (do_PermissionEpoch old).

Lemma target_state t : target_ok t -> isDisplayedState (targetStateOf t) = true -> dd_State t = targetStateOf t.
Proof. intros H1 H2. destruct (target_displayed t H1 H2) as (-> & -> & _). done. Qed.

(** What a planned observation that is stored looks like. *)
Record planned_ok (t : DisplayDetail) (o : displayObservation) : Prop := {
  po_candidate : do_Candidate o = targetStateOf t;
  po_since : 0 <= do_CandidateSince o;
  po_epoch : 0 <= do_PermissionEpoch o;
  po_not_needs : dd_State (do_Detail o) <> StateNeedsIntelligence;
  po_displayed : isDisplayedState (dd_State (do_Detail o)) = true ->
    validDisplayDetail (do_Detail o) = true /\ 0 < dd_SinceMillis (do_Detail o) /\
    (dd_State (do_Detail o) = targetStateOf t -> do_PermissionEpoch o = epoch);
  po_hidden : isDisplayedState (dd_State (do_Detail o)) = false ->
    do_Detail o = stateDetail reported /\ do_PermissionEpoch o = epoch;
  po_settled : fires o (targetStateOf t) = false;
  po_again : settledDetail o t (targetStateOf t) = do_Detail o;
}.

Lemma idle_detail t si : validDisplayDetail t = true -> dd_State t = StateIdleScreen ->
  validDisplayDetail (mkDisplayDetail StateIdleScreen si (dd_RequestToken t) (dd_ToolName t) (dd_UnchangedMinutes t)) = true.
Proof. destruct t as [st s rt tn um]. unfold validDisplayDetail. simpl. intros H ->. exact H. Qed.

Lemma displayed_idle v : isDisplayedState v = true -> v <> StateNeedsIntelligence -> v = StateIdleScreen.
Proof. unfold isDisplayedState. intros [H|H]%orb_true_iff ?; by bsimp. Qed.

Lemma candidateSince_nonneg old ts : 0 <= do_CandidateSince old -> 0 <= candidateSince old ts.
Proof. unfold candidateSince. destruct (bool_decide _); lia. Qed.

Lemma planned_is_ok obs t : target_ok t ->
  (isDisplayedState (dd_State (do_Detail (planned obs t))) = true \/ isDisplayedState (targetStateOf t) = true) ->
  planned_ok t (planned obs t).
Proof.
  intros Ht. unfold planned. cbv zeta. set (ts := targetStateOf t).
  destruct (continued obs ts) as [[old cont] ev] eqn:Ec. apply continued_cases in Ec.
  assert (isDisplayedState ts = true -> ts = StateIdleScreen /\ dd_State t = StateIdleScreen /\ validDisplayDetail t = true)
    as Hts by by apply target_displayed.
  assert (ts <> StateNeedsIntelligence) as Hnn by by apply target_not_needs.
  destruct Ec as [(-> & Eo & Hd & Hn & Hep & ->)|(-> & Hde & Hs & Hc & _)].
  - destruct (decode_Some _ _ Eo) as (_ & G1 & G2 & G3 & G4). destruct (G4 Hd) as [G5 G6].
    pose proof (displayed_idle _ Hd Hn) as Hi. intros Hor.
    split; try apply fires_not_again; try apply settled_again; simpl; try done.
    + by apply candidateSince_nonneg.
    + unfold settledDetail. destruct (fires old ts); [by destruct (isDisplayedState ts)|]. by destruct (_ && _).
    + revert Hor. simpl. unfold settledDetail. destruct (fires old ts) eqn:Ef.
      * assert (isDisplayedState ts = false) as Ed.
        { destruct (isDisplayedState ts) eqn:E; [|done]. destruct Hts as [E1 _]; [done|].
          unfold fires in Ef. rewrite Hi, E1, bool_decide_true, andb_false_r in Ef; done. }
        rewrite Ed. simpl. rewrite Ed. by intros [|].
      * intros _ _. destruct (_ && bool_decide _) eqn:E; simpl; [|done].
        apply andb_true_iff in E as [_ E]. bsimp. split_and!; [|done|done].
        destruct Hts as (E1 & E2 & E3); [by rewrite <- E|]. rewrite E, E1. by apply idle_detail.
    + revert Hor. simpl. unfold settledDetail. destruct (fires old ts) eqn:Ef.
      * destruct (isDisplayedState ts) eqn:Ed; simpl; rewrite Ed; [done|]. by intros [|].
      * intros _. destruct (_ && bool_decide _); simpl; congruence.
  - intros Hor. split; try apply fires_not_again; try apply settled_again; simpl; try done.
    + apply candidateSince_nonneg. by simpl.
    + unfold settledDetail. simpl. rewrite Hde. simpl. rewrite Hrep'. simpl.
      destruct (fires _ ts); [by destruct (isDisplayedState ts)|]. simpl. intros E. by rewrite E in Hrep'.
    + unfold settledDetail. simpl. rewrite Hde. simpl. rewrite Hrep'. simpl.
      destruct (fires _ ts); simpl; [|by rewrite Hrep'].
      destruct (isDisplayedState ts) eqn:Ed; simpl; [|by rewrite Ed]. intros _.
      destruct Hts as (E1 & E2 & E3); [done|]. split_and!; [|done|done]. rewrite E1. by apply idle_detail.
    + revert Hor. simpl. unfold settledDetail. simpl. rewrite Hde. simpl. rewrite Hrep'. simpl.
      destruct (fires _ ts); simpl; [|done].
      destruct (isDisplayedState ts) eqn:Ed; simpl; rewrite Ed; [done|]. by intros [|].
Qed.

(** What one read plans, in closed form. *)
Lemma plan_eq obs t extra : target_ok t ->
  (forall o, decodeDisplayObservation obs = Some o -> do_ObservedAt o <= now) ->
  plan obs t extra =
    let ts := targetStateOf t in
    let '(old, cont, ev) := continued obs ts in
    let old1 := if cont then old else old <| do_PermissionEpoch := epoch |> in
    let o := planned obs t in
    let events := if fires old1 ts then ev ++ [displayTransition id now (dd_State (do_Detail old1)) ts] else ev in
    if negb (isDisplayedState (dd_State (do_Detail old))) && negb (isDisplayedState ts) then
      Ok (mkPlan None (stateDetail reported) ev (negb (obsEmpty obs) || extra))
    else if match decodeDisplayObservation obs with
            | Some s => bool_decide (o <| do_ObservedAt := do_ObservedAt s |> = s) | None => false end
            && negb extra && bool_decide (events = []) then
      Ok (mkPlan None (do_Detail o) [] false)
    else if isDisplayedState (dd_State (do_Detail o)) || isDisplayedState ts then
      Ok (mkPlan (Some (ObsObject (o <| do_ObservedAt := now |>))) (do_Detail o) events true)
    else Ok (mkPlan None (stateDetail ts) events true).
Proof.
  intros Ht Hobs. unfold planObservation, planned, targetStateOf. cbv zeta.
  assert (match decodeDisplayObservation obs with Some o => now <? do_ObservedAt o | None => false end = false) as ->.
  { destruct (decodeDisplayObservation obs) as [o|]; [|done]. specialize (Hobs o eq_refl). lia. }
  destruct (continued obs _) as [[old cont] ev]. fold (targetStateOf t).
  destruct (negb _ && negb _); [done|].
  rewrite settle_eq by (intros; by apply target_state). done.
Qed.

(** An observation a read stored, read again at the same instant. *)
Lemma continued_again t o : planned_ok t o -> validDisplayState (dd_State (do_Detail o)) = true ->
  (isDisplayedState (dd_State (do_Detail o)) = true \/ isDisplayedState (targetStateOf t) = true) -> target_ok t ->
  let o1 := o <| do_ObservedAt := now |> in
  decodeDisplayObservation (Some (ObsObject o1)) = Some o1 /\
  continued (Some (ObsObject o1)) (targetStateOf t)
    = (o1, isDisplayedState (dd_State (do_Detail o)), []).
Proof.
  intros [E1 E2 E3 E4 E5 E6 _ _] Hv Hor Ht o1.
  assert (decodeDisplayObservation (Some (ObsObject o1)) = Some o1) as Hdec.
  { apply decode_object; unfold o1; simpl; try done; [|lia|by intros H; destruct (E5 H) as (?&?&?)].
    rewrite E1. by apply target_valid. }
  split; [done|]. unfold continuedObservation. rewrite Hdec. cbv zeta. simpl.
  destruct (isDisplayedState (dd_State (do_Detail o))) eqn:Ed; simpl.
  - rewrite (bool_decide_false (dd_State (do_Detail o) = StateNeedsIntelligence)) by done. simpl.
    destruct (bool_decide (targetStateOf t = dd_State (do_Detail o))) eqn:Et; [|done]. bsimp.
    destruct (E5 eq_refl) as (_ & _ & H). rewrite H by done. by rewrite Z.eqb_refl.
  - destruct (E6 eq_refl) as [H _]. unfold o1. destruct o as [d c cs oa pe]. simpl in *. by rewrite H.
Qed.

Lemma planned_valid_state obs t : target_ok t ->
  validDisplayState (dd_State (do_Detail (planned obs t))) = true.
Proof.
  intros Ht. unfold planned. cbv zeta. destruct (continued obs (targetStateOf t)) as [[old cont] ev] eqn:Ec.
  apply continued_cases in Ec. simpl. unfold settledDetail. destruct (fires _ _).
  - destruct (isDisplayedState (targetStateOf t)); simpl; by apply target_valid.
  - assert (validDisplayState (dd_State (do_Detail (if cont then old else old <| do_PermissionEpoch := epoch |>))) = true) as H.
    { destruct Ec as [(-> & _ & Hd & _)|(-> & Hde & _)]; simpl.
      - unfold validDisplayState. by rewrite Hd, orb_true_r.
      - by rewrite Hde. }
    by destruct (_ && _).
Qed.

(** *** Properties *)

Lemma plan_write_raw obs t extra p raw : target_ok t ->
  (forall o, decodeDisplayObservation obs = Some o -> do_ObservedAt o <= now) ->
  plan obs t extra = Ok p -> pl_raw p = Some raw ->
  raw = ObsObject (planned obs t <| do_ObservedAt := now |>) /\ pl_result p = do_Detail (planned obs t) /\
  pl_write p = true /\
  (isDisplayedState (dd_State (do_Detail (planned obs t))) = true \/ isDisplayedState (targetStateOf t) = true).
Proof.
  intros Ht Hobs. rewrite plan_eq by done. cbv zeta. destruct (continued obs _) as [[old cont] ev].
  destruct (negb _ && negb _); [by intros [= <-]|]. destruct (_ && bool_decide _); [by intros [= <-]|].
  destruct (_ || _) eqn:E; intros [= <-]; [|done]. simpl. intros [= <-].
  split_and!; try done. by apply orb_true_iff.
Qed.

(** What an observer stores always reads back: the text a plan writes
  decodes to the planned observation, stamped with the read's instant,
  whose detail is the result the read reports; and the row then shows that
  result, unless it is pending or finished. *)
Theorem plan_stores_what_decodes (obs : option ObsText) (t : DisplayDetail) (extra : bool)
  (p : observationPlan) (raw : ObsText) :
target_ok t -> (forall o, decodeDisplayObservation obs = Some o -> do_ObservedAt o <= now) ->
planObservation id state reported obs epoch now settleMs t extra = Ok p -> pl_raw p = Some raw ->
(exists o, decodeDisplayObservation (Some raw) = Some o /\ do_ObservedAt o = now /\
   do_Detail o = pl_result p /\ do_Candidate o = targetStateOf t) /\
(isTerminalState state = false -> state <> StatePending -> 
 dd_State (CommittedDisplay state reported (Some raw)) = dd_State (pl_result p)).
Proof.
intros Ht Hobs Hp Hraw. destruct (plan_write_raw _ _ _ _ _ Ht Hobs Hp Hraw) as (-> & Er & _ & Hor).
pose proof (planned_is_ok obs t Ht Hor) as Hok.
destruct (continued_again t _ Hok (planned_valid_state obs t Ht) Hor Ht) as [Hd _]. split.
- eexists. split; [exact Hd|]. split_and!; [done|by rewrite Er|by apply Hok].
- intros Hterm Hpend. unfold CommittedDisplay. rewrite Hd, Hterm, (bool_decide_false (state = _)) by done.
  rewrite !andb_true_r, Er. cbv beta. change (do_Detail (planned obs t <| do_ObservedAt := now |>)) with (do_Detail (planned obs t)).
  destruct (isDisplayedState (dd_State (do_Detail (planned obs t)))) eqn:Ed; [done|].
  by destruct (po_hidden _ _ Hok Ed) as [-> _].
Qed.

(** Reading again changes nothing: after a plan was written, the same
  read at the same instant finds nothing to write and no transition to
  report, and a stored observation yields the same result. So the unlocked
  check and the locked commit of one observer agree, and observers racing
  on one row settle after the first. *)
Theorem plan_again_writes_nothing (obs : option ObsText) (t : DisplayDetail) (extra : bool) (p : observationPlan) :
target_ok t -> (forall o, decodeDisplayObservation obs = Some o -> do_ObservedAt o <= now) ->
planObservation id state reported obs epoch now settleMs t extra = Ok p ->
(pl_write p = true -> pl_raw p = None -> isDisplayedState (targetStateOf t) = false) /\
(pl_write p = true ->
 exists p2, planObservation id state reported (pl_raw p) epoch now settleMs t false = Ok p2 /\
   pl_write p2 = false /\ pl_events p2 = [] /\ (is_Some (pl_raw p) -> pl_result p2 = pl_result p)).
Proof.
intros Ht Hobs Hp.
assert (pl_write p = true -> pl_raw p = None -> isDisplayedState (targetStateOf t) = false) as Hnone.
{ rewrite plan_eq in Hp by done. cbv zeta in Hp. destruct (continued obs _) as [[old cont] ev].
  destruct (negb _ && negb _) eqn:E; [injection Hp as <-; intros _ _; bsimp; done|].
  destruct (_ && bool_decide _); [by injection Hp as <-|].
  destruct (_ || _) eqn:E2; injection Hp as <-; [done|]. by apply orb_false_iff in E2 as [_ E2]. }
split; [done|]. intros Hw. destruct (pl_raw p) as [raw|] eqn:Hraw.
- destruct (plan_write_raw _ _ _ _ _ Ht Hobs Hp Hraw) as (-> & Er & _ & Hor).
  pose proof (planned_is_ok obs t Ht Hor) as Hok. set (o := planned obs t) in *.
  destruct (continued_again t o Hok (planned_valid_state obs t Ht) Hor Ht) as [Hd Hc].
  assert (planned (Some (ObsObject (o <| do_ObservedAt := now |>))) t = o <| do_ObservedAt := now |>) as Epl.
  { unfold planned. cbv zeta. rewrite Hc. destruct Hok as [E1 _ _ _ _ E6 Ef Eag].
    destruct (isDisplayedState (dd_State (do_Detail o))) eqn:Ed.
    - destruct o as [d c cs oa pe]. unfold candidateSince. simpl in *. subst c.
      rewrite bool_decide_true by done. exact (f_equal (fun d' => mkDisplayObservation d' (targetStateOf t) cs now _) Eag).
    - destruct (E6 eq_refl) as [_ Epoch]. destruct o as [d c cs oa pe]. unfold candidateSince. simpl in *. subst c pe.
      rewrite bool_decide_true by done. exact (f_equal (fun d' => mkDisplayObservation d' (targetStateOf t) cs now _) Eag). }
  rewrite plan_eq; [|done|intros o' Ho'; rewrite Hd in Ho'; injection Ho' as <-; simpl; lia].
  cbv zeta. rewrite Hc, Epl, Hd. simpl.
  assert (negb (isDisplayedState (dd_State (do_Detail o))) && negb (isDisplayedState (targetStateOf t)) = false) as ->
    by (destruct Hor as [-> | ->]; [done|apply andb_false_r]).
  rewrite (bool_decide_true (_ = _)) by by destruct o. simpl.
  assert (forall b : bool, fires (if b then o <| do_ObservedAt := now |>
      else (o <| do_ObservedAt := now |>) <| do_PermissionEpoch := epoch |>) (targetStateOf t) = false) as Hf.
  { intros b. rewrite <- (po_settled _ _ Hok). by destruct b. }
  rewrite Hf. simpl. eexists. split; [done|]. by split_and!.
- specialize (Hnone Hw eq_refl). unfold planObservation. cbv zeta. simpl. fold (targetStateOf t).
  rewrite Hrep', Hnone. simpl. eexists. split; [done|]. split_and!; [done..|]. by intros [].
Qed.

(** No read shows needs_intelligence; one that shows idle_screen either
  found the row eligible for it, and then, unless the row showed it already
  in this same permission epoch, only once it had been the candidate for
  the settle time (or none is set), or found it shown and still settling
  out. *)
Theorem display_only_after_settling (obs : option ObsText) (t : DisplayDetail) (extra : bool) (p : observationPlan) :
target_ok t -> (forall o, decodeDisplayObservation obs = Some o -> do_ObservedAt o <= now) ->
planObservation id state reported obs epoch now settleMs t extra = Ok p ->
isDisplayedState (dd_State (pl_result p)) = true ->
dd_State (pl_result p) = StateIdleScreen /\
((exists o, decodeDisplayObservation obs = Some o /\ dd_State (do_Detail o) = StateIdleScreen /\
    (targetStateOf t = StateIdleScreen -> do_PermissionEpoch o = epoch) /\
    (targetStateOf t <> StateIdleScreen -> now - candidateSince o (targetStateOf t) < Z.max settleMs 0)) \/
 (dd_State t = StateIdleScreen /\
  (settleMs <= 0 \/ exists o, decodeDisplayObservation obs = Some o /\ do_Candidate o = StateIdleScreen /\
     settleMs <= now - do_CandidateSince o))).
Proof.
intros Ht Hobs Hp Hd.
assert (pl_result p = do_Detail (planned obs t)) as Er.
{ rewrite plan_eq in Hp by done. cbv zeta in Hp. destruct (continued obs _) as [[old cont] ev].
  destruct (negb _ && negb _); [injection Hp as <-; simpl in Hd; congruence|].
  destruct (_ && bool_decide _); [by injection Hp as <-|].
  destruct (_ || _) eqn:E2; injection Hp as <-; [done|]. apply orb_false_iff in E2 as [_ E2]. simpl in Hd. congruence. }
rewrite Er in *. pose proof (planned_is_ok obs t Ht (or_introl Hd)) as Hok.
split; [by apply displayed_idle; [|apply Hok]|]. revert Hd. unfold planned. cbv zeta.
destruct (continued obs (targetStateOf t)) as [[old cont] ev] eqn:Ec. apply continued_cases in Ec. simpl.
destruct Ec as [(-> & Eo & Hdo & Hn & Hep & ->)|(-> & Hde & Hs & Hc & _)].
- pose proof (displayed_idle _ Hdo Hn) as Hi. intros Hd. left. exists old.
  split_and!; try done; [intros E; apply Hep; congruence|]. intros Hne. unfold settledDetail in Hd.
  destruct (fires old (targetStateOf t)) eqn:Ef.
  + destruct (isDisplayedState (targetStateOf t)) eqn:Edt; [|simpl in Hd; congruence].
    by destruct (target_displayed t Ht Edt) as [? _].
  + unfold fires in Ef. rewrite Hi, (bool_decide_false (_ = _)), andb_true_r in Ef by congruence. lia.
- intros Hd. right. unfold settledDetail in Hd. simpl in Hd. rewrite Hde in Hd. simpl in Hd. rewrite Hrep' in Hd. simpl in Hd.
  destruct (fires _ _) eqn:Ef; [|simpl in Hd; congruence].
  destruct (isDisplayedState (targetStateOf t)) eqn:Edt; [|simpl in Hd; congruence].
  destruct (target_displayed t Ht Edt) as (E1 & E2 & _). split; [done|].
  unfold fires, candidateSince in Ef. simpl in Ef. apply andb_true_iff in Ef as [Ef _].
  destruct (bool_decide (do_Candidate old = targetStateOf t)) eqn:Ecd; [|left; lia]. bsimp.
  destruct Hc as [Hc|(_ & o & Eo & _ & ->)]; [by rewrite Hc, E1 in Ecd|]. simpl in *.
  right. exists o. split_and!; [done|congruence|lia].
Qed.
End PlanProps.

(** ** The pane baseline *)

Definition withBaseline (r : SpawnRow) (b : paneBaseline) : SpawnRow :=
  let '(sha, since, ep) := paneBaselineArgs b (sp_permission_epoch r) in
  r <| sp_pane_sha256 := sha |> <| sp_pane_since_ms := since |> <| sp_pane_epoch := ep |>.

Lemma committed_withBaseline r b : 0 <= sp_permission_epoch r ->
  (b = noBaseline \/ pb_sha256 b <> "" /\ 0 < pb_sinceMillis b) ->
  committedPaneBaseline (withBaseline r b) = b.
Proof.
  intros He Hb. unfold withBaseline, paneBaselineArgs. case_bool_decide as E.
  - subst b. unfold committedPaneBaseline. rsimp. done.
  - destruct Hb as [|[H1 H2]]; [done|]. unfold committedPaneBaseline. rsimp. unfold coalesce. simpl.
    rewrite (proj2 (Z.ltb_lt 0 (pb_sinceMillis b))), (bool_decide_false (pb_sha256 b = "")) by done. simpl.
    rewrite (proj2 (Z.leb_gt _ _)), (proj2 (Z.leb_le _ _)), Z.eqb_refl by done. by destruct b.
Qed.

(** A row is eligible for idle_screen only when its pane showed the very
    sample the committed baseline holds for at least the timeout, in the
    row's current permission epoch, while it was working under Claude or
    Codex; the reported minutes are that time's whole minutes. The baseline a
    plan stores reads back as planned, so the next read of an unchanged pane
    counts from the same start, and any other sample starts again. *)
Theorem pane_eligible_only_when_unchanged (r : SpawnRow) (sample : string) (now timeoutMs : Z) :
  0 < now -> 0 <= sp_permission_epoch r ->
  let '(baseline, target) := planPane r sample now timeoutMs in
  (dd_State target <> "" ->
     dd_State target = StateIdleScreen /\ sp_state r = StateWorking /\
     (sp_agent r = Some AgentClaude \/ sp_agent r = Some AgentCodex) /\
     sp_pane_sha256 r = Some sample /\ sp_pane_epoch r = Some (sp_permission_epoch r) /\
     exists since, sp_pane_since_ms r = Some since /\ timeoutMs <= now - since /\
       dd_UnchangedMinutes target = Z.quot (now - since) 60000) /\
  committedPaneBaseline (withBaseline r baseline) = baseline /\
  (sample <> "" -> PaneObservable (sp_state r) (coalesce (sp_agent r) "") = true ->
     pb_sha256 baseline = sample /\
     (pb_sha256 (committedPaneBaseline r) <> sample -> pb_sinceMillis baseline = now)).
Proof.
  intros Hnow He. unfold planPane. destruct (bool_decide (sample = "") || _) eqn:E1.
  { split_and!; [done|by apply committed_withBaseline; [|left]|]. intros H1 H2. rewrite H2 in E1.
    rewrite bool_decide_false in E1; done. }
  apply orb_false_iff in E1 as [Es Ep]. bsimp. unfold PaneObservable, IdleScreenApplies in Ep.
  apply andb_true_iff in Ep as [Ew Ea]. bsimp.
  destruct (negb (bool_decide (pb_sha256 (committedPaneBaseline r) = sample))) eqn:E2.
  { split_and!; [done|apply committed_withBaseline; [done|by right]|by split]. }
  bsimp. 
  assert (committedPaneBaseline r = noBaseline \/
    (exists since, committedPaneBaseline r = mkBaseline sample since /\ 0 < since /\
       sp_pane_sha256 r = Some sample /\ sp_pane_since_ms r = Some since /\
       sp_pane_epoch r = Some (sp_permission_epoch r))) as Hb.
  { revert E2. unfold committedPaneBaseline. cbv zeta. match goal with |- context [if ?b then noBaseline else _] => destruct b eqn:E end; [intros _; by left|]. simpl. intros E2. right.
    apply orb_false_iff in E as [[H1 H2]%orb_false_iff H3]. bsimp. 
    destruct (sp_pane_since_ms r) as [since|]; [|done]. destruct (0 <? since) eqn:E4; [|done].
    destruct (sp_pane_epoch r) as [ep|]; [|lia]. destruct (0 <=? ep) eqn:E5; [|lia].
    destruct (sp_pane_sha256 r) as [sha|]; [|done]. unfold coalesce in *. simpl in *. subst sha.
    exists since. split_and!; try done; [lia|]. f_equal. lia. }
  destruct Hb as [Hb|(since & Hb & Hpos & F1 & F2 & F3)]; [by rewrite Hb in E2; subst sample|].
  rewrite Hb. simpl.
  assert (committedPaneBaseline (withBaseline r (mkBaseline sample since)) = mkBaseline sample since) as Hrt.
  { apply committed_withBaseline; [done|]. right. by split. }
  destruct (now - since <? timeoutMs) eqn:Et.
  { split_and!; [done|done|]. intros _ _. split; [done|]. intros Hne. by destruct Hne. }
  simpl. split_and!; [|done|intros _ _; by split].
  intros _. split_and!; try done.
  - apply orb_true_iff in Ea as [Ea|Ea]; bsimp; (destruct (sp_agent r) as [a|]; unfold coalesce in Ea; simpl in Ea; [subst a; auto|done]).
  - exists since. split_and!; [done|lia|done].
Qed.

(** ** Witnesses: a working row whose pane has not changed for an hour *)

Definition idleTarget : DisplayDetail := mkDisplayDetail StateIdleScreen 0 "" "" 60.

Lemma plan_stores_what_decodes_witness :
  exists p raw, planObservation "leaf" StateWorking StateWorking None 3 5000000 5000 idleTarget false = Ok p /\
    pl_raw p = Some raw /\
    exists o, decodeDisplayObservation (Some raw) = Some o /\ do_ObservedAt o = 5000000 /\
     do_Detail o = pl_result p /\ do_Candidate o = StateIdleScreen.
Proof.
  eexists _, _. split; [reflexivity|]. split; [reflexivity|].
  refine (proj1 (plan_stores_what_decodes "leaf" StateWorking StateWorking 3 5000000 5000 eq_refl eq_refl eq_refl eq_refl
    _ _ None idleTarget false _ _ _ _ eq_refl eq_refl)); [lia|lia|by right|done].
Defined.

Lemma plan_again_writes_nothing_witness :
  exists p p2, planObservation "leaf" StateWorking StateWorking None 3 5000000 5000 idleTarget false = Ok p /\
    planObservation "leaf" StateWorking StateWorking (pl_raw p) 3 5000000 5000 idleTarget false = Ok p2 /\
    pl_write p = true /\ pl_write p2 = false.
Proof.
  eexists. assert (forall p, planObservation "leaf" StateWorking StateWorking None 3 5000000 5000 idleTarget false = Ok p ->
    pl_write p = true -> exists p2, planObservation "leaf" StateWorking StateWorking (pl_raw p) 3 5000000 5000 idleTarget false = Ok p2 /\
     pl_write p2 = false /\ pl_events p2 = [] /\ (is_Some (pl_raw p) -> pl_result p2 = pl_result p)) as H.
  { intros p Hp. refine (proj2 (plan_again_writes_nothing "leaf" StateWorking StateWorking 3 5000000 5000 eq_refl eq_refl
      eq_refl eq_refl _ _ None idleTarget false p _ _ Hp)); [lia|lia|by right|done]. }
  destruct (H _ eq_refl eq_refl) as (p2 & H1 & H2 & _). exists p2. split; [reflexivity|]. by split_and!.
Defined.

Lemma display_only_after_settling_witness :
  exists p, planObservation "leaf" StateWorking StateWorking None 3 5000000 0 idleTarget false = Ok p /\
    dd_State (pl_result p) = StateIdleScreen.
Proof.
  eexists. split; [reflexivity|].
  refine (proj1 (display_only_after_settling "leaf" StateWorking StateWorking 3 5000000 0 eq_refl eq_refl
    _ _ None idleTarget false _ _ _ eq_refl eq_refl)); [lia|lia|by right|done].
Defined.

(** A working Claude row whose baseline "abc" stands since 1000000. *)
Definition paneSampleRow : SpawnRow :=
  mkSpawnRow None StateWorking "/w" "ad-a" "[]" "on" None None "{}" "2026-01-01 00:00:00" 0 None (Some 77)
  (Some "s77") None None "{}" 5 None 1 0 (Some "0123456789abcdef") None None None None (Some "%1")
  (Some 77) (Some "s77") None None None None "" 1000 (Some AgentClaude) None 0 "" "" 0 None None 3 4
  None None None (Some "abc") (Some 1000000) (Some 3) None None.

Lemma pane_eligible_only_when_unchanged_witness :
  let '(baseline, target) := planPane paneSampleRow "abc" 4660000 3600000 in
  dd_State target = StateIdleScreen /\ dd_UnchangedMinutes target = 61 /\
  committedPaneBaseline (withBaseline paneSampleRow baseline) = baseline.
Proof.
  assert (planPane paneSampleRow "abc" 4660000 3600000
    = (mkBaseline "abc" 1000000, mkDisplayDetail StateIdleScreen 0 "" "" 61)) as E by (vm_compute; reflexivity).
  assert (0 <= sp_permission_epoch paneSampleRow) as He by (simpl; lia).
  pose proof (pane_eligible_only_when_unchanged paneSampleRow "abc" 4660000 3600000 ltac:(lia) He) as H.
  rewrite E in H |- *. split; [reflexivity|]. split; [reflexivity|]. exact (proj1 (proj2 H)).
Defined.
