(* ===== verification/Settle.v ===== *)
(** * Settle time (internal/store/settle.go)

    The SET fragments that write a Spawn's state with its settle columns, the
    derivation of the state a read reports, and the abstract specification
    they implement: the intervals during which each raw value was held, and
    the newest of them held long enough ([Reported]). *)

From S2P Require Import Prelude Sql Rows Display.

(** isTerminalState is [Rows.isTerminalState]. *)

Definition SettleBase (Tw now : Z) (r : SpawnRow) : string :=
  case3 (sql_eq (Some Tw) (Some 0) OR Some (Tw <=? now - sp_state_changed_ms r))
    (sp_state r) (coalesce (nullif_empty (sp_settled_state r)) (sp_state r)).

(** hookStateSet: a hook's write of the non-terminal value [v], by a process
    whose settle time is [Tw], at [now]. Every column reads the row before
    the statement. *)
Definition hookStateSet (v : string) (Tw now : Z) (r : SpawnRow) : SpawnRow :=
  let same := sql_eq (Some (sp_state r)) (Some v) in
  r <| sp_permission_epoch := sp_permission_epoch r + case3 same 0 1 |>
    <| sp_display_observation :=
         case3 same (sp_display_observation r)
           (case3 (json_valid (sp_display_observation r) AND not_null (committedDisplayStateSQL r))
              (json_clear_candidate (sp_display_observation r)) None) |>
    <| sp_observation_version := sp_observation_version r + case3 same 0 1 |>
    <| sp_settled_state := case3 same (sp_settled_state r) (SettleBase Tw now r) |>
    <| sp_state_changed_ms := case3 same (sp_state_changed_ms r) now |>
    <| sp_state := v |>.

(** immediateSettleSet and immediateStateSet. *)
Definition immediateSettleSet (v : string) (now : Z) (r : SpawnRow) : SpawnRow :=
  let same := sql_eq (Some (sp_state r)) (Some v) in
  r <| sp_permission_epoch := sp_permission_epoch r + case3 same 0 1 |>
    <| sp_display_exit :=
         match committedDisplayStateSQL r with
         | Some d => Some (mkDisplayExit d v now)
         | None => sp_display_exit r
         end |>
    <| sp_display_observation := None |>
    <| sp_observation_version := sp_observation_version r + 1 |>
    <| sp_settled_state := v |>
    <| sp_state_changed_ms := case3 same (sp_state_changed_ms r) now |>.

Definition immediateStateSet (v : string) (now : Z) (r : SpawnRow) : SpawnRow :=
  immediateSettleSet v now r <| sp_state := v |>.

(** hookWriteStateSet: which fragment a hook's write of [v] is. *)
Definition hookWriteStateSet (v : string) (settleMs now : Z) (r : SpawnRow) : SpawnRow :=
  if isTerminalState v then immediateStateSet v now r else hookStateSet v settleMs now r.

(** SetSettleMs: the settle time a store keeps. *)
Definition SetSettleMs (ms : Z) : Z := Z.max ms 0.

Record SettleRead := mkSettleRead { sr_SettleMs : Z; sr_NowMs : Z }.

Definition settleOn (sr : SettleRead) : bool := 0 <? sr_SettleMs sr.

(** stateExpr: the state a read reports. *)
Definition stateExpr (sr : SettleRead) (r : SpawnRow) : string :=
  if settleOn sr then
    case3 (Some (sr_SettleMs sr <=? sr_NowMs sr - sp_state_changed_ms r))
      (sp_state r) (coalesce (nullif_empty (sp_settled_state r)) (sp_state r))
  else sp_state r.

(** ** Specification: the held intervals of a row's raw value

    Newest first: a value and the instant the row took it. A value is held
    until the next one starts. *)

Definition history : Type := list (string * Z).

Definition held (T from till : Z) : bool := (T <=? 0) || (T <=? till - from).

(** The newest value held at least [T]; the oldest when none was. *)
Fixpoint Reported (T now : Z) (h : history) : string :=
  match h with
  | [] => ""
  | [(v, _)] => v
  | (v, since) :: older => if held T since now then v else Reported T since older
  end.

Inductive write := HookWrite (v : string) | ImmediateWrite (v : string).

Definition history_step (now : Z) (w : write) (h : history) : history :=
  match w, h with
  | _, [] => []
  | HookWrite v, (u, since) :: older =>
      if bool_decide (u = v) then h else (v, now) :: h
  | ImmediateWrite v, (u, since) :: older =>
      if bool_decide (u = v) then [(v, since)] else [(v, now)]
  end.

Definition row_step (T now : Z) (w : write) (r : SpawnRow) : SpawnRow :=
  match w with
  | HookWrite v => hookStateSet v T now r
  | ImmediateWrite v => immediateStateSet v now r
  end.

Definition write_value (w : write) : string :=
  match w with HookWrite v | ImmediateWrite v => v end.

Definition run_history (ws : list (Z * write)) (h : history) : history :=
  fold_left (fun h p => history_step (fst p) (snd p) h) ws h.
Definition run_row (T : Z) (ws : list (Z * write)) (r : SpawnRow) : SpawnRow :=
  fold_left (fun r p => row_step T (fst p) (snd p) r) ws r.

(** The row's settle columns stand for the history. *)
Definition tracks (T : Z) (h : history) (r : SpawnRow) : Prop :=
  Forall (fun p => fst p <> "") h /\
  match h with
  | [] => False
  | (v, since) :: older =>
      sp_state r = v /\ sp_state_changed_ms r = since /\
      match older with
      | [] => sp_settled_state r = "" \/ sp_settled_state r = v
      | _ => sp_settled_state r = Reported T since older
      end
  end.

(** ** Lemmas *)

Lemma case3_eq {A B} `{EqDecision A} (x y : A) (a b : B) :
  case3 (sql_eq (Some x) (Some y)) a b = if bool_decide (x = y) then a else b.
Proof. unfold case3. rewrite where3_sql_eq. repeat case_bool_decide; naive_solver. Qed.

Lemma case3_Some {A} (c : bool) (a b : A) : case3 (Some c) a b = if c then a else b.
Proof. unfold case3. by rewrite where3_Some. Qed.

Lemma nullif_coalesce s d : s <> "" -> coalesce (nullif_empty s) d = s.
Proof. intros H. unfold nullif_empty. by rewrite bool_decide_false. Qed.

Lemma nullif_coalesce_either s d : s = "" \/ s = d -> coalesce (nullif_empty s) d = d.
Proof. intros [->| ->]; unfold nullif_empty; [done|]. by case_bool_decide; subst. Qed.

Lemma Reported_nonempty T now h :
  h <> [] -> Forall (fun p => fst p <> "") h -> Reported T now h <> "".
Proof.
  intros Hne H. revert now Hne. induction H as [|[v since] older Hv H IH]; intros now Hne; [done|].
  simpl in *. destruct older as [|p older]; [done|]. destruct (held T since now); [done|]. by apply IH.
Qed.

Lemma hook_same v Tw now r : sp_state r = v -> hookStateSet v Tw now r = r.
Proof.
  intros <-. unfold hookStateSet. rewrite !case3_eq, !bool_decide_true by done.
  destruct r. unfold with_. cbn. by rewrite !Z.add_0_r.
Qed.

Lemma hook_changed v Tw now r : sp_state r <> v ->
  sp_state (hookStateSet v Tw now r) = v /\
  sp_settled_state (hookStateSet v Tw now r) = SettleBase Tw now r /\
  sp_state_changed_ms (hookStateSet v Tw now r) = now.
Proof.
  intros H. unfold hookStateSet. rewrite !case3_eq, !bool_decide_false by done. done.
Qed.

Lemma base_tracks T h now r : 0 <= T -> tracks T h r ->
  SettleBase T now r = Reported T now h.
Proof.
  intros HT (Hne & Ht). destruct h as [|[v since] older]; [done|].
  destruct Ht as (Hs & Hc & Hb). unfold SettleBase, case3.
  rewrite where3_or, where3_sql_eq, where3_Some, Hs, Hc. simpl.
  destruct older as [|p older].
  - destruct (_ || _); [done|]. by apply nullif_coalesce_either.
  - inversion Hne as [|? ? _ Hne']; subst.
    replace (bool_decide (Some T = Some 0)) with (T <=? 0) by (destruct (decide (T = 0)) as [->|]; [done|];
      rewrite bool_decide_false by congruence; lia).
    unfold held. destruct ((T <=? 0) || (T <=? now - sp_state_changed_ms r)); [done|].
    rewrite Hb. by apply nullif_coalesce, Reported_nonempty.
Qed.

Lemma step_tracks T h now w r : 0 <= T -> write_value w <> "" -> tracks T h r ->
  tracks T (history_step now w h) (row_step T now w r).
Proof.
  intros HT Hw Ht. pose proof Ht as (Hne & Hr).
  destruct h as [|[u since] older]; [done|]. destruct Hr as (Hs & Hc & Hb).
  destruct w as [v|v]; simpl.
  - case_bool_decide; subst.
    + by rewrite hook_same.
    + destruct (hook_changed v T now r) as (E1 & E2 & E3); [done|].
      split; [by constructor|]. rewrite E1, E2, E3. split_and!; [done..|].
      by apply base_tracks.
  - unfold immediateStateSet, immediateSettleSet. cbv zeta. rewrite !case3_eq. subst u.
    case_bool_decide; (split; [by apply Forall_singleton|]); rsimp; auto.
Qed.

Lemma run_tracks T ws h r : 0 <= T -> Forall (fun p => write_value (snd p) <> "") ws ->
  tracks T h r -> tracks T (run_history ws h) (run_row T ws r).
Proof.
  intros HT Hws. revert h r. induction Hws as [|[now w] ws Hw Hws IH]; intros h r Ht; [done|].
  simpl. apply IH. by apply step_tracks.
Qed.

Lemma read_tracks T h now r : 0 <= T -> tracks T h r ->
  stateExpr (mkSettleRead T now) r = Reported T now h.
Proof.
  intros HT Ht. rewrite <- (base_tracks T h now r) by done.
  unfold stateExpr, SettleBase, settleOn, case3. rewrite where3_or, where3_sql_eq, !where3_Some. simpl.
  destruct (0 <? T) eqn:E.
  - rewrite bool_decide_false; [done|]. intros [= ->]. lia.
  - rewrite bool_decide_true; [done|]. f_equal. lia.
Qed.

(** ** Properties *)

(** C5: What a read with settle time T reports is exactly the newest value
    held at least T (the oldest when none was), for every sequence of hook and
    immediate writes by processes with the same settle time: the two settle
    columns are a sound and complete summary of the row's held intervals. *)
Theorem settle_reports_held_value (T now : Z) (ws : list (Z * write)) (h : history) (r : SpawnRow) :
  0 <= T -> Forall (fun p => write_value (snd p) <> "") ws -> tracks T h r ->
  stateExpr (mkSettleRead T now) (run_row T ws r) = Reported T now (run_history ws h).
Proof. intros HT Hws Ht. apply read_tracks; [done|]. by apply run_tracks. Qed.

(** A hook write of the value the row already holds changes nothing, so a
    duplicate hook never restarts the settle clock; a write of another value
    advances permission_epoch and observation_version by one, restarts the
    clock, and never stores an empty settle base. *)
Theorem hook_write_settle_columns (v : string) (Tw now : Z) (r : SpawnRow) :
  (sp_state r = v -> hookStateSet v Tw now r = r) /\
  (sp_state r <> v -> sp_state r <> "" ->
   let r' := hookStateSet v Tw now r in
   sp_state r' = v /\ sp_state_changed_ms r' = now /\ sp_settled_state r' <> "" /\
   sp_permission_epoch r' = sp_permission_epoch r + 1 /\
   sp_observation_version r' = sp_observation_version r + 1).
Proof.
  split; [apply hook_same|]. intros Hne Hs r'.
  destruct (hook_changed v Tw now r Hne) as (E1 & E2 & E3). split_and!; [done..| | |].
  - unfold r'. rewrite E2. unfold SettleBase, case3. destruct (where3 _); [done|].
    unfold nullif_empty, coalesce. by case_bool_decide.
  - unfold r', hookStateSet. cbv zeta. rsimp. by rewrite case3_eq, bool_decide_false.
  - unfold r', hookStateSet. cbv zeta. rsimp. by rewrite case3_eq, bool_decide_false.
Qed.

(** An immediate write (any terminal value, and every write that is not a
    hook's) reports at once under every reader's settle time and clock, drops
    the observation, and turns a display the row showed into one exit marker
    that names it. *)
Theorem immediate_write_reports_at_once (v : string) (now : Z) (sr : SettleRead) (r : SpawnRow) :
  v <> "" ->
  let r' := immediateStateSet v now r in
  stateExpr sr r' = v /\ sp_display_observation r' = None /\
  (forall d, committedDisplayStateSQL r = Some d -> sp_display_exit r' = Some (mkDisplayExit d v now)).
Proof.
  intros Hv r'. unfold r', immediateStateSet, immediateSettleSet. cbv zeta. split_and!.
  - unfold stateExpr. rsimp. destruct (settleOn sr); [|done].
    rewrite case3_Some. rewrite nullif_coalesce by done. by destruct (_ <=? _).
  - by rsimp.
  - intros d Hd. rsimp. by rewrite Hd.
Qed.

(** ** Witnesses *)

Definition sampleRow : SpawnRow := mkSpawnRow
  None StateWorking "/w" "ad-a" "[]" "on" None None "{}" "2026-01-01 00:00:00" 0 None (Some 77)
  (Some "s77") None None "{}" 5 None 1 0 (Some "0123456789abcdef") None None None None (Some "%1")
  (Some 77) (Some "s77") None None None None "" 1000 (Some AgentClaude) None 0 "" "" 0 None None 3 4
  None None None None None None None None.

Lemma settle_reports_held_value_witness :
  stateExpr (mkSettleRead 500 2300)
    (run_row 500 [(2000, HookWrite StateWaiting); (2200, HookWrite StateWorking)] sampleRow)
  = StateWorking.
Proof.
  assert (tracks 500 [(StateWorking, 1000)] sampleRow) as Ht.
  { split; [repeat constructor; by vm_compute|]. by split_and!; [| |left]. }
  etrans; [apply (settle_reports_held_value 500 2300 _ _ _ ltac:(lia)
    ltac:(repeat constructor; by vm_compute) Ht)|reflexivity].
Defined.

Lemma hook_write_settle_columns_witness :
  sp_settled_state (hookStateSet StateWaiting 500 1100 sampleRow) = StateWorking /\
  sp_permission_epoch (hookStateSet StateWaiting 500 1100 sampleRow) = 4.
Proof.
  split; [by vm_compute|].
  destruct (proj2 (hook_write_settle_columns StateWaiting 500 1100 sampleRow)
    ltac:(by vm_compute) ltac:(by vm_compute)) as (_ & _ & _ & E & _). exact E.
Defined.

Lemma immediate_write_reports_at_once_witness :
  stateExpr (mkSettleRead 60000 1101) (immediateStateSet StateEnded 1100 sampleRow) = StateEnded.
Proof. apply (immediate_write_reports_at_once StateEnded 1100). by vm_compute. Defined.
