(* ===== verification/Family.v ===== *)
(** * Families (internal/store/family.go, lockwait.go: inImmediateTx)

    A Spawn's family is the Spawn and its descendants through parent_id. Its
    aggregate is working while a member is (a member is any row whose state
    is not ended, missing or waiting, or that still shows idle_screen). The
    recursive query carries membership up parent links with a worklist that
    visits each id once ([closure]); every lifecycle transaction refreshes the
    stored aggregates before it commits ([inImmediateTx]). *)

From S2P Require Import Prelude Sql Rows Display Settle.

(** familyMemberSQL *)
Definition familyMemberSQL (r : SpawnRow) : tvl :=
  (NOT (Some (bool_decide (sp_state r ∈ [StateEnded; StateMissing; StateWaiting])))
   OR sql_eq (committedDisplayStateSQL r) (Some StateIdleScreen)).

Definition isMember (r : SpawnRow) : bool := where3 (familyMemberSQL r).

Abbreviation spawns := (gmap string SpawnRow).

(** The rows the recursive query starts from, in some order. *)
Definition memberIds (m : spawns) : list string :=
  fst <$> filter (fun p => isMember (snd p) = true) (map_to_list m).

(** One queue step: the parent of a queued id, when its row has one that was
    not visited (UNION drops the rest). *)
Definition parentOf (m : spawns) (id : string) : option string :=
  m !! id ≫= sp_parent_id.

Fixpoint closure (m : spawns) (fuel : nat) (queue : list string) (seen : gset string)
    : option (gset string) :=
  match queue with
  | [] => Some seen
  | id :: queue =>
      match fuel with
      | O => None
      | S fuel =>
          match parentOf m id with
          | Some p =>
              if bool_decide (p ∈ seen) then closure m fuel queue seen
              else closure m fuel (queue ++ [p]) ({[p]} ∪ seen)
          | None => closure m fuel queue seen
          end
      end
  end.

Definition closureFuel (m : spawns) : nat := 2 * size m.

Definition workingIds (m : spawns) : gset string :=
  default ∅ (closure m (closureFuel m) (memberIds m) (list_to_set (memberIds m))).

(** familyAggregateSQL's aggregate of one row. *)
Definition aggregate (m : spawns) (id : string) : string :=
  if bool_decide (id ∈ workingIds m) then StateWorking else StateWaiting.

(** refreshFamilies: the one UPDATE, over the rows whose stored aggregate is
    not the computed one. *)
Definition refreshRow (settleMs now : Z) (value : string) (r : SpawnRow) : SpawnRow :=
  if where3 (sql_is_not (Some (sp_family_state r)) (Some value)) then
    r <| sp_family_settled_state :=
           case3 (sql_eq (Some (sp_family_state r)) (Some "")) value
             (case3 (sql_eq (Some settleMs) (Some 0)
                     OR Some (settleMs <=? now - sp_family_changed_ms r))
                (sp_family_state r)
                (coalesce (nullif_empty (sp_family_settled_state r)) (sp_family_state r))) |>
      <| sp_family_changed_ms := case3 (sql_eq (Some (sp_family_state r)) (Some "")) 0 now |>
      <| sp_family_state := value |>
  else r.

Definition refreshFamilies (settleMs : Z) (s : Store) : Store :=
  s <| db_spawns :=
    map_imap (fun id r => Some (refreshRow settleMs (db_now s) (aggregate (db_spawns s) id) r))
      (db_spawns s) |>.

(** refreshFamiliesAfterStateChange *)
Definition contributes (state : string) : bool :=
  negb (bool_decide (state = StateWaiting)) && negb (bool_decide (state = StateEnded))
  && negb (bool_decide (state = StateMissing)).

Definition refreshFamiliesAfterStateChange (settleMs : Z) (prior next : string)
    (exits : list Event) (s : Store) : Store :=
  if Bool.eqb (contributes prior || negb (bool_decide (exits = []))) (contributes next)
  then s else refreshFamilies settleMs s.

(** familyExpr: the family state a read reports. *)
Definition familyExpr (sr : SettleRead) (r : SpawnRow) : string :=
  if settleOn sr then
    case3 (Some (sr_SettleMs sr <=? sr_NowMs sr - sp_family_changed_ms r))
      (sp_family_state r) (coalesce (nullif_empty (sp_family_settled_state r)) (sp_family_state r))
  else sp_family_state r.

(** ** Transactions of the store *)

(** inImmediateTx: the body, the family refresh, the row's display exits, in
    one BEGIN IMMEDIATE transaction; the exits are emitted after the commit. *)
Definition inImmediateTx {A} (settleMs : Z) (id : string) (body : Tx Store A) : M Store Event A :=
  r <- txImmediate
    (a <-- body;;
     tstmt (fun s => Ok (tt, refreshFamilies settleMs s));;>
     exits <-- takeDisplayExits id;;
     tret (a, exits));;
  emits (snd r);;;
  ret (fst r).

(** A guarded UPDATE of one row: the statement [upd] applies to the row when
    its WHERE selects it ([None] when it does not). *)
Definition update1 (id : string) (upd : Store -> SpawnRow -> option SpawnRow) (s : Store)
    : bool * Store :=
  match db_spawns s !! id with
  | Some r => match upd s r with
              | Some r' => (true, s <| db_spawns := <[id := r']> (db_spawns s) |>)
              | None => (false, s)
              end
  | None => (false, s)
  end.

(** execFamily with execGuarded: whether the statement matched a row; one that
    matched none is rolled back. *)
Definition execGuarded (settleMs : Z) (id : string) (q : Store -> bool * Store)
    : M Store Event bool :=
  catch
    (inImmediateTx settleMs id
      (n <-- tstmt (fun s => Ok (q s));;
       if n then tret true else tfail ENotApplied))
    (fun r => match r with
              | Ok b => ret b
              | Err ENotApplied => ret false
              | Err e => fail e
              end).

(** condNotApplied: the one read after a conditional write that matched no
    row. *)
Definition condNotApplied (id : string) : M Store Event CondResult :=
  found <- read (fun s => bool_decide (is_Some (db_spawns s !! id)));;
  ret (if found then CondChanged else CondAbsent).

(** ** Specification: the members below a row *)

Inductive descends (m : spawns) : string -> string -> Prop :=
  | descends_self id r : m !! id = Some r -> descends m id id
  | descends_up id p q : parentOf m id = Some p -> descends m p q -> descends m id q.

(** [root]'s family is working: a member row reaches it through parent links. *)
Definition familyWorking (m : spawns) (root : string) : Prop :=
  exists id r, m !! id = Some r /\ isMember r = true /\ descends m id root.

(** Every stored aggregate is the family's. *)
Definition familiesFresh (m : spawns) : Prop :=
  forall id r, m !! id = Some r -> sp_family_state r = aggregate m id.

(** ** Lemmas *)

Definition allParents (m : spawns) : gset string :=
  list_to_set (omap (fun p => sp_parent_id (snd p)) (map_to_list m)).

Lemma elem_allParents m id p : parentOf m id = Some p -> p ∈ allParents m.
Proof.
  unfold parentOf, allParents. intros H%bind_Some. destruct H as (r & Hr & Hp).
  apply elem_of_list_to_set, list_elem_of_omap. exists (id, r).
  split; [by apply elem_of_map_to_list|done].
Qed.

Lemma length_omap_le {A B} (f : A -> option B) (l : list A) : (length (omap f l) <= length l)%nat.
Proof. induction l as [|a l IH]; cbn; [done|]. destruct (f a); cbn; lia. Qed.

Lemma size_list_to_set_le (l : list string) : (size (list_to_set l : gset string) <= length l)%nat.
Proof.
  induction l as [|a l IH]; [done|]; rewrite list_to_set_cons; simpl.
  assert (size ((list_to_set l : gset string) ∖ {[a]}) <= size (list_to_set l : gset string))%nat
    by (apply subseteq_size; set_solver).
  rewrite size_union_alt, size_singleton. lia.
Qed.

Lemma size_allParents m : (size (allParents m) <= size m)%nat.
Proof.
  unfold allParents. etrans; [apply size_list_to_set_le|]. etrans; [apply length_omap_le|].
  by rewrite length_map_to_list.
Qed.

Lemma length_memberIds m : (length (memberIds m) <= size m)%nat.
Proof.
  unfold memberIds. rewrite length_fmap. etrans; [apply length_filter|].
  by rewrite length_map_to_list.
Qed.

Lemma closure_total m fuel queue seen :
  (length queue + size (allParents m ∖ seen) <= fuel)%nat -> is_Some (closure m fuel queue seen).
Proof.
  revert queue seen. induction fuel as [|fuel IH]; intros [|id queue] seen Hf; simpl in *; try lia; eauto.
  destruct (parentOf m id) as [p|] eqn:Ep; [|apply IH; lia].
  case_bool_decide; [apply IH; lia|]. apply IH. rewrite length_app. simpl.
  assert (allParents m ∖ ({[p]} ∪ seen) ⊂ allParents m ∖ seen) as Hss.
  { split; [set_solver|]. pose proof (elem_allParents m id p Ep). set_solver. }
  pose proof (subset_size _ _ Hss). lia.
Qed.

Lemma closure_closed m fuel queue seen s :
  closure m fuel queue seen = Some s ->
  (forall x, x ∈ seen -> x ∈ queue \/ forall p, parentOf m x = Some p -> p ∈ seen) ->
  seen ⊆ s /\ forall x p, x ∈ s -> parentOf m x = Some p -> p ∈ s.
Proof.
  revert queue seen. induction fuel as [|fuel IH]; intros [|id queue] seen Hc Hinv; simpl in *; try done.
  - injection Hc as <-. split; [done|]. intros x p Hx. destruct (Hinv x Hx) as [Hq|Hp]; [|auto].
    by apply not_elem_of_nil in Hq.
  - injection Hc as <-. split; [done|]. intros x p Hx. destruct (Hinv x Hx) as [Hq|Hp]; [|auto].
    by apply not_elem_of_nil in Hq.
  - destruct (parentOf m id) as [p|] eqn:Ep; [case_bool_decide|].
    + apply (IH queue seen); [done|]. intros x Hx.
      destruct (Hinv x Hx) as [[->|Hq]%elem_of_cons|Hp]; auto. right. by intros q [= <-]%(eq_trans (eq_sym Ep)).
    + destruct (IH _ _ Hc) as (Hs & Hcl).
      * intros x [->%elem_of_singleton|Hx]%elem_of_union; [left; set_solver|].
        destruct (Hinv x Hx) as [[->|Hq]%elem_of_cons|Hp]; [right|left; set_solver|right; set_solver].
        intros q Hq. assert (q = p) as -> by congruence. set_solver.
      * split; [set_solver|done].
    + apply (IH queue seen); [done|]. intros x Hx.
      destruct (Hinv x Hx) as [[->|Hq]%elem_of_cons|Hp]; auto. right. congruence.
Qed.

Lemma closure_least m (P : string -> Prop) fuel queue seen s :
  closure m fuel queue seen = Some s ->
  (forall x p, P x -> parentOf m x = Some p -> P p) ->
  (forall x, x ∈ queue -> P x) -> (forall x, x ∈ seen -> P x) ->
  forall x, x ∈ s -> P x.
Proof.
  intros Hc HP. revert queue seen Hc.
  induction fuel as [|fuel IH]; intros [|id queue] seen Hc Hq Hs; simpl in *; simplify_eq; auto.
  assert (forall x, x ∈ queue -> P x) as Hq' by set_solver.
  destruct (parentOf m id) as [p|] eqn:Ep; [case_bool_decide|]; [by eapply IH| |by eapply IH].
  assert (P p) as Hp by (eapply HP, Ep; set_solver).
  eapply IH; [done|..].
  - intros x [Hx|Hx]%elem_of_app; [auto|set_solver].
  - set_solver.
Qed.

Lemma elem_memberIds m id : id ∈ memberIds m <-> exists r, m !! id = Some r /\ isMember r = true.
Proof.
  unfold memberIds. rewrite list_elem_of_fmap. split.
  - intros ([i r] & -> & [Hm Hin]%list_elem_of_filter). exists r. by rewrite <- elem_of_map_to_list.
  - intros (r & Hr & Hm). exists (id, r). rewrite list_elem_of_filter, elem_of_map_to_list. done.
Qed.

Lemma workingIds_spec m :
  (forall id r, m !! id = Some r -> isMember r = true -> id ∈ workingIds m) /\
  (forall x p, x ∈ workingIds m -> parentOf m x = Some p -> p ∈ workingIds m) /\
  (forall P : string -> Prop,
     (forall id r, m !! id = Some r -> isMember r = true -> P id) ->
     (forall x p, P x -> parentOf m x = Some p -> P p) -> forall x, x ∈ workingIds m -> P x).
Proof.
  destruct (closure_total m (closureFuel m) (memberIds m) (list_to_set (memberIds m))) as [s Hs].
  { unfold closureFuel. pose proof (length_memberIds m). pose proof (size_allParents m).
    assert (size (allParents m ∖ list_to_set (memberIds m)) <= size (allParents m))%nat
      by (apply subseteq_size; set_solver). lia. }
  unfold workingIds. rewrite Hs. simpl.
  destruct (closure_closed m _ _ _ _ Hs) as (Hseen & Hcl); [set_solver|]. split_and!.
  - intros id r Hr Hm. apply Hseen, elem_of_list_to_set, elem_memberIds; eauto.
  - done.
  - intros P Hseed HP. assert (forall x, x ∈ memberIds m -> P x) as Hseed'.
    { intros x (r & Hr & Hm)%elem_memberIds. eauto. }
    eapply closure_least; [done..|]. intros x Hx%elem_of_list_to_set. auto.
Qed.

Lemma descends_trans_parent m id q p :
  descends m id q -> parentOf m q = Some p -> is_Some (m !! p) -> descends m id p.
Proof.
  intros H Hp [rp Hrp]. induction H.
  - eapply descends_up; [done|]. by eapply descends_self.
  - eapply descends_up; eauto.
Qed.

Lemma workingIds_family m root :
  is_Some (m !! root) -> root ∈ workingIds m <-> familyWorking m root.
Proof.
  destruct (workingIds_spec m) as (Hseed & Hcl & Hleast). intros Hr. split.
  - intros Hin.
    set (P x := exists id r, m !! id = Some r /\ isMember r = true /\
      (is_Some (m !! x) -> descends m id x)).
    enough (P root) as (id & r & ? & ? & Hd) by (exists id, r; auto).
    clear Hr. revert root Hin. apply (Hleast P).
    + intros id r Hr Hm. exists id, r. split_and!; [done..|]. intros _. by eapply descends_self.
    + intros x p (id & r & Hr & Hm & Hd) Hp. exists id, r. split_and!; [done..|].
      intros Hsp. eapply descends_trans_parent; [|done..]. apply Hd.
      unfold parentOf in Hp. destruct (m !! x); eauto. done.
  - intros (id & r & Hr' & Hm & Hd). assert (id ∈ workingIds m) as Hi by eauto.
    clear Hr Hr' Hm. induction Hd; [done|]. apply IHHd. by eapply Hcl.
Qed.

Lemma aggregate_spec m id : is_Some (m !! id) ->
  aggregate m id = StateWorking <-> familyWorking m id.
Proof.
  intros H. unfold aggregate. rewrite <- workingIds_family by done.
  case_bool_decide; naive_solver.
Qed.

Lemma workingIds_sub (m m' : spawns) :
  (forall id, parentOf m id = parentOf m' id) ->
  (forall id r, m !! id = Some r -> isMember r = true ->
     exists r', m' !! id = Some r' /\ isMember r' = true) ->
  workingIds m ⊆ workingIds m'.
Proof.
  intros Hp Hm. destruct (workingIds_spec m) as (_ & _ & Hleast).
  destruct (workingIds_spec m') as (Hseed & Hcl & _).
  intros x Hx. revert x Hx. apply Hleast.
  - intros id r Hr Hmem. destruct (Hm id r Hr Hmem) as (r' & ? & ?). eauto.
  - intros x p Hx. rewrite Hp. by apply Hcl.
Qed.

(** Two stores agree on the family relation: same rows, same parents, same
    members. *)
Definition family_agree (r r' : SpawnRow) : Prop :=
  sp_parent_id r = sp_parent_id r' /\ isMember r = isMember r'.

Lemma map_relation_lookup (R : SpawnRow -> SpawnRow -> Prop) (m m' : spawns) id :
  map_Forall2 (fun _ => R) m m' -> option_Forall2 R (m !! id) (m' !! id).
Proof. intros H. apply H. Qed.

Lemma aggregate_ext (m m' : spawns) id :
  map_Forall2 (fun _ => family_agree) m m' -> aggregate m id = aggregate m' id.
Proof.
  intros H.
  assert (forall i, parentOf m i = parentOf m' i) as Hp.
  { intros i. unfold parentOf. destruct (map_relation_lookup _ _ _ i H) as [r r' []|]; done. }
  enough (workingIds m = workingIds m') as E by (unfold aggregate; by rewrite E).
  apply set_eq. intros x. split; apply workingIds_sub; auto; intros i r Hr Hm;
    pose proof (map_relation_lookup _ _ _ i H) as Hi; rewrite Hr in Hi;
    inversion Hi as [? ? [? ?]|]; subst; eexists; (split; [done|congruence]).
Qed.

Lemma refreshRow_agree T now v r :
  family_agree r (refreshRow T now v r) /\ sp_family_state (refreshRow T now v r) = v.
Proof.
  unfold refreshRow, sql_is_not, sql_is. rewrite not3_Some, where3_Some.
  case_bool_decide; simpl.
  - by simplify_eq.
  - unfold family_agree, isMember, familyMemberSQL, committedDisplayStateSQL. by rsimp.
Qed.

Lemma refreshFamilies_fresh T s : familiesFresh (db_spawns (refreshFamilies T s)).
Proof.
  intros id r'. unfold refreshFamilies. rsimp. rewrite map_lookup_imap.
  destruct (db_spawns s !! id) as [r|] eqn:Hr; simpl; [|done]. intros [= <-].
  rewrite (proj2 (refreshRow_agree _ _ _ _)). apply aggregate_ext.
  intros i. rewrite map_lookup_imap. destruct (db_spawns s !! i); simpl; constructor.
  apply refreshRow_agree.
Qed.

Lemma isMember_contributes r :
  isMember r = contributes (sp_state r)
               || bool_decide (committedDisplayStateSQL r = Some StateIdleScreen).
Proof.
  unfold isMember, familyMemberSQL, contributes. rewrite where3_or, not3_Some, where3_Some, where3_sql_eq.
  f_equal. rewrite <- !negb_orb. f_equal. rewrite <- !bool_decide_or.
  apply bool_decide_ext. rewrite !elem_of_cons, elem_of_nil. tauto.
Qed.

(** One row's change that keeps its parent, its membership and the stored
    aggregates keeps every family fresh. *)
Lemma fresh_insert m id r r' :
  m !! id = Some r -> family_agree r r' -> sp_family_state r' = sp_family_state r ->
  familiesFresh m -> familiesFresh (<[id := r']> m).
Proof.
  intros Hr Hag Hf Hfresh i q Hq. rewrite <- (aggregate_ext m).
  - apply lookup_insert_Some in Hq as [[<- <-]|[_ Hq]]; [rewrite Hf|]; by apply Hfresh.
  - intros j. destruct (decide (id = j)) as [<-|].
    + rewrite lookup_insert_eq, Hr. by constructor.
    + rewrite lookup_insert_ne by done. destruct (m !! j); constructor. done.
Qed.

Lemma terminal_not_contributes v : isTerminalState v = true -> contributes v = false.
Proof.
  unfold isTerminalState. intros [H|H]%orb_true_iff; apply bool_decide_eq_true in H; by subst.
Qed.

Lemma terminal_no_display r : isTerminalState (sp_state r) = true -> committedDisplayStateSQL r = None.
Proof.
  intros H. unfold committedDisplayStateSQL, CommittedDisplay. rewrite H.
  destruct (decodeDisplayObservation _); [|done]. by rewrite andb_false_r.
Qed.

(** ** Properties *)

(** C12: After a refresh, every row's stored aggregate is working exactly when
    a member row reaches it through parent links, and waiting otherwise. *)
Theorem family_aggregate_correct (settleMs : Z) (s : Store) (id : string) (r : SpawnRow) :
  db_spawns (refreshFamilies settleMs s) !! id = Some r ->
  (familyWorking (db_spawns (refreshFamilies settleMs s)) id -> sp_family_state r = StateWorking) /\
  (~ familyWorking (db_spawns (refreshFamilies settleMs s)) id -> sp_family_state r = StateWaiting).
Proof.
  intros Hr. rewrite (refreshFamilies_fresh settleMs s id r Hr).
  assert (is_Some (db_spawns (refreshFamilies settleMs s) !! id)) as Hs by eauto.
  rewrite <- (aggregate_spec _ _ Hs). split; [done|].
  unfold aggregate. case_bool_decide; [|done]. by intros [].
Qed.

(** The worklist of the family query visits each id at most once: twice
    the number of rows is always enough fuel, whatever the parent links
    (cycles and dangling links included), and the closure is the least set
    that holds the members and is closed under parent links. *)
Theorem family_closure_terminates (m : spawns) :
  exists w, closure m (closureFuel m) (memberIds m) (list_to_set (memberIds m)) = Some w /\
    workingIds m = w /\
    (forall P : gset string,
       (forall id r, m !! id = Some r -> isMember r = true -> id ∈ P) ->
       (forall x p, x ∈ P -> parentOf m x = Some p -> p ∈ P) -> w ⊆ P).
Proof.
  destruct (closure_total m (closureFuel m) (memberIds m) (list_to_set (memberIds m))) as [w Hw].
  { unfold closureFuel. pose proof (length_memberIds m). pose proof (size_allParents m).
    assert (size (allParents m ∖ list_to_set (memberIds m)) <= size (allParents m))%nat
      by (apply subseteq_size; set_solver). lia. }
  exists w. split; [done|]. assert (workingIds m = w) as E by (unfold workingIds; by rewrite Hw).
  split; [done|]. intros P H1 H2. rewrite <- E. intros x.
  by apply (proj2 (proj2 (workingIds_spec m)) (fun x => x ∈ P)).
Qed.

(** refreshFamiliesAfterStateChange may skip the refresh: when every
    aggregate was fresh before a hook's write of a contributing state, or
    before an immediate write of a terminal state whose drained exits name
    the display it dropped, every aggregate is fresh after it. *)
Theorem family_skip_sound (settleMs now : Z) (s : Store) (id v : string) (r : SpawnRow)
    (exits : list Event) :
  db_spawns s !! id = Some r -> familiesFresh (db_spawns s) ->
  let after w := s <| db_spawns := <[id := w]> (db_spawns s) |> in
  (contributes v = true ->
   familiesFresh (db_spawns (refreshFamiliesAfterStateChange settleMs (sp_state r) v []
     (after (hookStateSet v settleMs now r))))) /\
  (isTerminalState v = true -> (exits = [] -> committedDisplayStateSQL r = None) ->
   familiesFresh (db_spawns (refreshFamiliesAfterStateChange settleMs (sp_state r) v exits
     (after (immediateStateSet v now r))))).
Proof.
  intros Hr Hf after. unfold refreshFamiliesAfterStateChange. split.
  - intros Hv. rewrite Hv. destruct (Bool.eqb _ _) eqn:E; [|apply refreshFamilies_fresh].
    apply eqb_prop in E. rewrite bool_decide_true, orb_false_r in E by done.
    unfold after. rsimp. apply (fresh_insert _ _ r); [done| |by unfold hookStateSet; rsimp|done].
    unfold family_agree. rewrite !isMember_contributes, E. unfold hookStateSet. rsimp.
    by rewrite Hv.
  - intros Hv Hex. rewrite (terminal_not_contributes v Hv).
    destruct (Bool.eqb _ _) eqn:E; [|apply refreshFamilies_fresh].
    apply eqb_prop, orb_false_iff in E as [E1 E2]. apply negb_false_iff, bool_decide_eq_true in E2.
    unfold after. rsimp.
    apply (fresh_insert _ _ r); [done| |by unfold immediateStateSet, immediateSettleSet; rsimp|done].
    unfold family_agree. rewrite !isMember_contributes, E1, Hex by done.
    rewrite (terminal_no_display (immediateStateSet v now r)) by (unfold immediateStateSet; by rsimp).
    unfold immediateStateSet, immediateSettleSet. rsimp. by rewrite terminal_not_contributes.
Qed.

(** ** Witnesses: a waiting root over an ended row over a working one *)

Definition storeOf (m : spawns) (now : Z) : Store := mkStore m [] 1 [] [] [] ∅ now 1 1.

Definition sampleFamily : spawns :=
  {[ "root" := sampleRow <| sp_state := StateWaiting |>;
     "mid" := sampleRow <| sp_state := StateEnded |> <| sp_parent_id := Some "root" |>;
     "leaf" := sampleRow <| sp_parent_id := Some "mid" |> ]}.

Definition freshFamily : spawns := db_spawns (refreshFamilies 0 (storeOf sampleFamily 2000)).

Lemma family_aggregate_correct_witness :
  exists r, freshFamily !! "root" = Some r /\ sp_family_state r = StateWorking.
Proof.
  destruct (freshFamily !! "root") as [r|] eqn:E; [|by vm_compute in E].
  exists r. split; [done|].
  apply (family_aggregate_correct 0 (storeOf sampleFamily 2000) "root" r E).
  exists "leaf". destruct (freshFamily !! "leaf") as [l|] eqn:El; [|by vm_compute in El].
  exists l. split_and!.
  - exact El.
  - vm_compute in El. by injection El as <-.
  - eapply (descends_up _ _ "mid"); [by vm_compute|].
    eapply (descends_up _ _ "root"); [by vm_compute|]. by eapply descends_self.
Defined.

Definition soloRow : SpawnRow := sampleRow <| sp_family_state := StateWorking |>.

Lemma solo_fresh : familiesFresh {[ "leaf" := soloRow ]}.
Proof. intros id r [<- <-]%lookup_singleton_Some. by vm_compute. Qed.

Lemma family_skip_sound_witness :
  familiesFresh (db_spawns (refreshFamiliesAfterStateChange 0 (sp_state soloRow) StateCheckPermission []
    (storeOf {[ "leaf" := soloRow ]} 2000
       <| db_spawns := <["leaf" := hookStateSet StateCheckPermission 0 3000 soloRow]>
            (db_spawns (storeOf {[ "leaf" := soloRow ]} 2000)) |>))).
Proof.
  refine (proj1 (family_skip_sound 0 3000 (storeOf {[ "leaf" := soloRow ]} 2000) "leaf"
    StateCheckPermission soloRow [] _ _) _).
  - apply lookup_singleton_eq.
  - exact solo_fresh.
  - reflexivity.
Defined.
