(* ===== verification/Requests.v ===== *)
(** * Permission requests (internal/store/permission.go, request_close.go,
      request_proof.go, relay_writes.go: evictClosedRequests)

    A request as Go code reads it ([PermissionRow], [scanPermissionRow]) and
    as SQL conditions read it ([awaitingAnswerSQL], [holdsRowSQL],
    [cursorHoldsDialogSQL]); the theorems below show that the two readings
    agree on every well-formed row ([pr_wf]). Then the statements over a
    Spawn's requests that other components run inside their transactions: the
    close ([closeOrphanedRequests]), the cap eviction
    ([evictClosedRequests]), the subagent close of the same writes. *)

From S2P Require Import Prelude Sql Rows Display Settle Family.

(** ** Instants

    A Go time.Time read from a column, in milliseconds; [None] is the zero
    time. time.UnixMilli of the zero time's own instant is the zero time. *)

Definition goTime : Type := option Z.
Definition zeroTimeMillis : Z := -62135596800000.

Definition millisTime (v : option Z) : goTime :=
  match v with
  | Some n => if n =? zeroTimeMillis then None else Some n
  | None => None
  end.
Definition millisArg (t : goTime) : option Z := t.
Definition IsZero (t : goTime) : bool := bool_decide (t = None).

(** The store clock in the whole seconds CURRENT_TIMESTAMP writes, and
    storeNowMillis. *)
Definition nowSec (s : Store) : Z := db_now s / 1000.
Definition storeNowMillis (s : Store) : Z := db_now s.

(** storeTimestamp: truncated to the whole second. *)
Definition storeTimestamp (ms : Z) : Z := ms / 1000.

(** ** The row as Go reads it *)

Record PermissionRow := mkPermissionRow {
  pw_RequestID : Z;
  pw_InstanceID : string;
  pw_RequestToken : string;
  pw_ToolName : string;
  pw_ToolInput : string;
  pw_Decision : string;
  pw_DecisionReason : string;
  pw_DecidedAt : goTime;
  pw_CreatedAt : goTime;
  pw_Hook : ProcessIdentity;
  pw_ToolUseID : string;
  pw_AgentID : string;
  pw_MainTurnEndEligible : bool;
  pw_DeliveredAt : goTime;
  pw_SettledAt : goTime;
  pw_HookGoneAt : goTime;
  pw_AttemptedDecision : string;
  pw_AttemptedAt : goTime;
  pw_PaneAnswer : string;
  pw_PaneAs : string;
  pw_PaneSender : ProcessIdentity;
  pw_PaneIntentAt : goTime;
  pw_ClosedAt : goTime;
  pw_ProvenGoneAt : goTime;
  pw_ProvenGoneHow : string;
  pw_OwnerLaunchToken : string;
  pw_OwnerPermissionEpoch : Z;
  pw_AdmittedAt : goTime;
  pw_FallbackAt : goTime;
  pw_FallbackBasis : string;
}.

(** scanPermissionRow over permissionColumns. *)
Definition scanPermissionRow (r : PermReq) : PermissionRow := mkPermissionRow
  (pr_request_id r) (pr_instance_id r) (pr_request_token r) (pr_tool_name r) (pr_tool_input r)
  (coalesce (pr_decision r) "") (coalesce (pr_decision_reason r) "")
  (pr_decided_at r ≫= fun sec => millisTime (Some (sec * 1000))) (millisTime (Some (pr_created_at r * 1000)))
  (mkProcessIdentity (coalesce (pr_hook_pid r) 0) (coalesce (pr_hook_starttime r) "")
     (coalesce (pr_hook_pidns r) ""))
  (coalesce (pr_tool_use_id r) "") (coalesce (pr_agent_id r) "") (pr_main_turn_end_eligible r)
  (millisTime (pr_delivered_at r)) (millisTime (pr_settled_at r)) (millisTime (pr_hook_gone_at r))
  (coalesce (pr_attempted_decision r) "") (millisTime (pr_attempted_at r))
  (pr_pane_answer r) (coalesce (pr_pane_as r) "")
  (mkProcessIdentity (coalesce (pr_pane_sender_pid r) 0) (coalesce (pr_pane_sender_starttime r) "")
     (coalesce (pr_pane_sender_pidns r) ""))
  (millisTime (pr_pane_intent_at r)) (millisTime (pr_closed_at r)) (millisTime (pr_proven_gone_at r))
  (coalesce (pr_proven_gone_how r) "") (coalesce (pr_owner_launch_token r) "")
  (coalesce (pr_owner_permission_epoch r) (-1)) (millisTime (pr_admitted_at r))
  (millisTime (pr_fallback_at r)) (coalesce (pr_fallback_basis r) "").

Definition ProvenGone (r : PermissionRow) : bool := negb (IsZero (pw_ProvenGoneAt r)).
Definition PreV7 (r : PermissionRow) : bool := IsZero (pw_SettledAt r).
Definition Closed (r : PermissionRow) : bool := negb (IsZero (pw_ClosedAt r)).

Definition CloseDenied (r : PermissionRow) : bool :=
  bool_decide (pw_DecisionReason r = DecisionReasonFindMissing)
  || bool_decide (pw_DecisionReason r = DecisionReasonEnded).

Definition PaneAnswered (r : PermissionRow) : bool :=
  bool_decide (pw_PaneAnswer r = PaneAnswerSent) || bool_decide (pw_PaneAnswer r = PaneAnswerOutside)
  || bool_decide (pw_PaneAnswer r = PaneAnswerToolRan).

Definition AwaitsAnswer (r : PermissionRow) : bool :=
  if Closed r || PaneAnswered r then false
  else if PreV7 r then bool_decide (pw_Decision r = "")
  else IsZero (pw_DeliveredAt r).

Definition OfEarlierCursorLaunch (r : PermissionRow) (agent launchToken : string) : bool :=
  bool_decide (agent = AgentCursor) && negb (bool_decide (launchToken = ""))
  && negb (bool_decide (pw_OwnerLaunchToken r = ""))
  && negb (bool_decide (pw_OwnerLaunchToken r = launchToken)).

Definition HoldsDialog (r : PermissionRow) (agent launchToken : string) : bool :=
  negb (ProvenGone r) && negb (OfEarlierCursorLaunch r agent launchToken).

(** ** The row as SQL reads it *)

Definition awaitingAnswerSQL (pr : PermReq) : tvl :=
  (is_null (pr_closed_at pr)
   AND Some (bool_decide (pr_pane_answer pr ∈ [PaneAnswerNone; PaneAnswerIntent]))
   AND case3 (is_null (pr_settled_at pr)) (is_null (pr_decision pr)) (is_null (pr_delivered_at pr))).

Definition holdsRowSQL (pr : PermReq) : tvl :=
  (awaitingAnswerSQL pr AND is_null (pr_proven_gone_at pr)).

Definition cursorHoldsDialogSQL (token : string) (pr : PermReq) : tvl :=
  (is_null (pr_proven_gone_at pr)
   AND NOT (sql_ne (Some token) (Some "")
            AND NOT (Some (bool_decide (coalesce (pr_owner_launch_token pr) "" ∈ [""; token]))))).

(** noRequestHoldsRowSQL, on the Spawn's row: NOT EXISTS (...). *)
Definition requestHoldsRow (s : Store) (id : string) : bool :=
  existsb (fun pr => bool_decide (pr_instance_id pr = id) && where3 (holdsRowSQL pr)) (db_requests s).
Definition noRequestHoldsRowSQL (s : Store) (id : string) : tvl := Some (negb (requestHoldsRow s id)).

(** ** Statements over requests *)

Definition updateReqs (c : PermReq -> bool) (f : PermReq -> PermReq) (s : Store) : Store :=
  s <| db_requests := (fun r => if c r then f r else r) <$> db_requests s |>.

(** An UPDATE ... RETURNING: what [g] reads of each row it changed. *)
Definition updReturning {X} (c : PermReq -> bool) (f : PermReq -> PermReq) (g : PermReq -> X)
    (s : Store) : result (list X * Store) :=
  Ok (g <$> filter (fun r => c r = true) (db_requests s), updateReqs c f s).

Definition ofSpawn (id : string) (pr : PermReq) : tvl := sql_eq (Some (pr_instance_id pr)) (Some id).

(** *** The close (request_close.go) *)

Record closedRequest := mkClosed {
  c_requestID : Z;
  c_token : string;
  c_toolName : string;
  c_denied : bool;
}.

Definition returned (denied : bool) (pr : PermReq) : closedRequest :=
  mkClosed (pr_request_id pr) (pr_request_token pr) (pr_tool_name pr) denied.

Definition denyOrphanedCond (id : string) (pr : PermReq) : tvl :=
  (ofSpawn id pr AND is_null (pr_decision pr) AND awaitingAnswerSQL pr).
Definition denyOrphanedSet (reason : string) (at_ sec : Z) (pr : PermReq) : PermReq :=
  pr <| pr_decision := Some "deny" |> <| pr_decision_reason := Some reason |>
     <| pr_decided_at := Some sec |> <| pr_closed_at := Some at_ |>.

Definition closeDecidedCond (id : string) (pr : PermReq) : tvl :=
  (ofSpawn id pr AND not_null (pr_decision pr) AND is_null (pr_closed_at pr)
   AND Some (bool_decide (pr_pane_answer pr ∈ [PaneAnswerNone; PaneAnswerIntent]))
   AND is_null (pr_delivered_at pr)).
Definition closeDecidedSet (at_ : Z) (pr : PermReq) : PermReq := pr <| pr_closed_at := Some at_ |>.

Definition spawnAgentIsNotCursor (s : Store) (id : string) : bool :=
  match db_spawns s !! id with
  | Some r => where3 (sql_is_not (sp_agent r) (Some AgentCursor))
  | None => false
  end.
Definition proveAgentGoneCond (s : Store) (id : string) (pr : PermReq) : tvl :=
  (ofSpawn id pr AND is_null (pr_proven_gone_at pr)
   AND Some (spawnAgentIsNotCursor s (pr_instance_id pr))).
Definition proveAgentGoneSet (at_ : Z) (pr : PermReq) : PermReq :=
  pr <| pr_proven_gone_at := Some at_ |> <| pr_proven_gone_how := Some ProvenGoneAgentGone |>.

Definition c_le (a b : closedRequest) : Prop := c_requestID a <= c_requestID b.
#[export] Instance c_le_dec a b : Decision (c_le a b).
Proof. unfold c_le. apply _. Defined.

Definition closeOrphanedRequests (id reason : string) (at_ : Z) : Tx Store (list closedRequest) :=
  denied <-- tstmt (fun s => updReturning (fun pr => where3 (denyOrphanedCond id pr))
                 (denyOrphanedSet reason at_ (nowSec s)) (returned true) s);;
  kept <-- tstmt (updReturning (fun pr => where3 (closeDecidedCond id pr))
                 (closeDecidedSet at_) (returned false));;
  tstmt (fun s => Ok (tt, updateReqs (fun pr => where3 (proveAgentGoneCond s id pr))
                            (proveAgentGoneSet at_) s));;>
  tret (merge_sort c_le (denied ++ kept)).

Definition emitDeny (id reason writer : string) (c : closedRequest) : list Event :=
  if c_denied c then
    [EvRowMutation id (c_token c) (c_requestID c) (c_toolName c) (Some "deny") (nullif_empty reason)
       writer "update"]
  else [].

(** *** The subagent close of the same writes (subagents.go) *)

Definition SubagentStateRunning : string := "running".
Definition SubagentStateLost : string := "lost".
Definition SubagentCloseAgentGone : string := "agent_gone".

Definition closeRunningSubagents (id : string) (at_ : Z) (s : Store) : Store :=
  s <| db_subagents := (fun e =>
         if where3 (sql_eq (Some (sa_instance_id e)) (Some id)
                    AND sql_eq (Some (sa_state e)) (Some SubagentStateRunning))
         then e <| sa_state := SubagentStateLost |> <| sa_close_reason := Some SubagentCloseAgentGone |>
                <| sa_lost_at := Some at_ |> <| sa_activity_at := at_ |>
         else e) <$> db_subagents s |>.

Definition closeClaimableLaunches (id : string) (s : Store) : Store :=
  s <| db_launches := filter (fun l => la_instance_id l <> id) (db_launches s) |>.

Definition closeSubagentsAgentGone (id : string) (at_ : Z) : Tx Store unit :=
  if at_ <=? 0 then tfail EBadInstant
  else tstmt (fun s => Ok (tt, closeRunningSubagents id at_ s));;>
       tstmt (fun s => Ok (tt, closeClaimableLaunches id s)).

(** *** The cap eviction (relay_writes.go) *)

Definition spawnFinished (s : Store) (id : string) : bool :=
  match db_spawns s !! id with
  | Some r => where3 (finishedStateGuardSQL r)
  | None => false
  end.

(** The newest request of each Spawn that has one awaiting an answer. *)
Definition newestOf (s : Store) (id : string) : Z :=
  foldr Z.max 0 (pr_request_id <$> filter (fun r => pr_instance_id r = id) (db_requests s)).
Definition awaitsSome (s : Store) (id : string) : bool :=
  existsb (fun r => bool_decide (pr_instance_id r = id) && where3 (awaitingAnswerSQL r)) (db_requests s).
Definition exemptFromEviction (s : Store) (r : PermReq) : bool :=
  awaitsSome s (pr_instance_id r) && (pr_request_id r =? newestOf s (pr_instance_id r)).

Definition evictable (s : Store) (r : PermReq) : bool :=
  where3 (NOT (awaitingAnswerSQL r)
          AND (not_null (pr_proven_gone_at r) OR Some (spawnFinished s (pr_instance_id r)))
          AND NOT (Some (exemptFromEviction s r))).

(** ORDER BY decided_at ASC: NULL first, ties in row order. *)
Definition decided_le (a b : PermReq) : Prop :=
  match pr_decided_at a, pr_decided_at b with
  | None, _ => True
  | Some _, None => False
  | Some x, Some y => x <= y
  end.
#[export] Instance decided_le_dec a b : Decision (decided_le a b).
Proof. unfold decided_le. destruct (pr_decided_at a), (pr_decided_at b); apply _. Defined.

Definition evictedIds (s : Store) (n : nat) : list Z :=
  pr_request_id <$> take n (merge_sort decided_le (filter (fun r => evictable s r = true) (db_requests s))).

Definition evictClosedRequests (cap : Z) : Tx Store unit :=
  if cap <=? 0 then tret tt
  else
    count <-- tread (fun s => Z.of_nat (length (db_requests s)));;
    if count <=? cap then tret tt
    else tstmt (fun s =>
      let gone := evictedIds s (Z.to_nat (count - cap)) in
      Ok (tt, s <| db_requests := filter (fun r => pr_request_id r ∉ gone) (db_requests s) |>)).

(** ** Well-formed requests

    What every insert writes and every statement keeps (RequestInv.v): a
    decision is never the empty text, pane_answer is one of its five values,
    and no instant is Go's zero time. *)

Definition paneAnswers : list string :=
  [PaneAnswerNone; PaneAnswerIntent; PaneAnswerSent; PaneAnswerOutside; PaneAnswerToolRan].

Definition realInstant (v : option Z) : Prop := v <> Some zeroTimeMillis.

Record pr_wf (r : PermReq) : Prop := {
  wf_decision : pr_decision r <> Some "";
  wf_pane : pr_pane_answer r ∈ paneAnswers;
  wf_closed : realInstant (pr_closed_at r);
  wf_settled : realInstant (pr_settled_at r);
  wf_delivered : realInstant (pr_delivered_at r);
  wf_proven : realInstant (pr_proven_gone_at r);
}.

Lemma IsZero_millisTime v : realInstant v -> IsZero (millisTime v) = bool_decide (v = None).
Proof.
  intros H. destruct v as [n|]; [|done]. simpl. destruct (n =? zeroTimeMillis) eqn:E; [|done].
  apply Z.eqb_eq in E as ->. by destruct H.
Qed.

Lemma pane_split r : pr_pane_answer r ∈ paneAnswers ->
  PaneAnswered (scanPermissionRow r)
  = negb (bool_decide (pr_pane_answer r ∈ [PaneAnswerNone; PaneAnswerIntent])).
Proof.
  unfold PaneAnswered. simpl. intros H. unfold paneAnswers in H.
  repeat (apply elem_of_cons in H as [->|H]; [done|]). by apply elem_of_nil in H.
Qed.

Lemma awaiting_agrees r : pr_wf r ->
  where3 (awaitingAnswerSQL r) = AwaitsAnswer (scanPermissionRow r).
Proof.
  intros [Hd Hp Hc Hs Hdel _]. unfold awaitingAnswerSQL, AwaitsAnswer, Closed, PreV7.
  rewrite pane_split by done. simpl.
  rewrite !where3_and, where3_is_null, where3_Some, !IsZero_millisTime by done.
  unfold case3. rewrite where3_is_null.
  destruct (bool_decide (pr_closed_at r = None)); [|done]. simpl.
  destruct (bool_decide (pr_pane_answer r ∈ _)); [|done]. simpl.
  destruct (bool_decide (pr_settled_at r = None)); rewrite where3_is_null; [|done].
  destruct (pr_decision r) as [d|]; [|done]. simpl.
  rewrite bool_decide_false; [done|]. by intros ->.
Qed.

Lemma holds_row_split r :
  where3 (holdsRowSQL r) = where3 (awaitingAnswerSQL r) && bool_decide (pr_proven_gone_at r = None).
Proof. unfold holdsRowSQL. by rewrite where3_and, where3_is_null. Qed.

Lemma requestHoldsRow_true s id :
  requestHoldsRow s id = true <->
  exists pr, pr ∈ db_requests s /\ pr_instance_id pr = id /\ where3 (holdsRowSQL pr) = true.
Proof.
  unfold requestHoldsRow. rewrite existsb_exists. split.
  - intros (pr & Hin & H). bsimp. exists pr. by rewrite list_elem_of_In.
  - intros (pr & Hin%list_elem_of_In & <- & H). exists pr. split; [done|].
    by rewrite bool_decide_true, H.
Qed.

Lemma where3_ofSpawn id pr : where3 (ofSpawn id pr) = bool_decide (pr_instance_id pr = id).
Proof. unfold ofSpawn. rewrite where3_sql_eq. by repeat case_bool_decide; simplify_eq. Qed.

(** *** The close, one request at a time *)

(** What the three statements do to one request of the Spawn. *)
Definition closeOne (s : Store) (id reason : string) (at_ : Z) (pr : PermReq) : PermReq :=
  let pr1 :=
    if where3 (denyOrphanedCond id pr) then denyOrphanedSet reason at_ (nowSec s) pr
    else if where3 (closeDecidedCond id pr) then closeDecidedSet at_ pr else pr in
  if where3 (proveAgentGoneCond s id pr) then proveAgentGoneSet at_ pr1 else pr1.

Definition closeReturns (id : string) (pr : PermReq) : list closedRequest :=
  if where3 (denyOrphanedCond id pr) then [returned true pr]
  else if where3 (closeDecidedCond id pr) then [returned false pr] else [].

Lemma denied_not_decided id reason at_ sec pr :
  where3 (closeDecidedCond id (denyOrphanedSet reason at_ sec pr)) = false.
Proof.
  unfold closeDecidedCond, denyOrphanedSet. rewrite !where3_and, !where3_is_null. rsimp.
  rewrite (bool_decide_false (Some at_ = None)) by done. by rewrite !andb_false_l, !andb_false_r.
Qed.

Lemma decided_not_denied id pr : where3 (closeDecidedCond id pr) = true ->
  where3 (denyOrphanedCond id pr) = false.
Proof.
  unfold closeDecidedCond, denyOrphanedCond. rewrite !where3_and, where3_not_null, !where3_is_null.
  intros H. bsimp. destruct H0 as [d Hd]. rewrite Hd.
  by rewrite (bool_decide_false (Some d = None)), andb_false_l, andb_false_r.
Qed.

Lemma db_requests_set v s : db_requests (s <| db_requests := v |>) = v.
Proof. by destruct s. Qed.
Lemma db_spawns_set_requests v s : db_spawns (s <| db_requests := v |>) = db_spawns s.
Proof. by destruct s. Qed.
Lemma db_requests_twice v v' s : s <| db_requests := v |> <| db_requests := v' |> = s <| db_requests := v' |>.
Proof. by destruct s. Qed.

Lemma tbind_Ok {S A B} (m : Tx S A) (k : A -> Tx S B) s gs b s' gs' :
  tbind m k s gs = (Ok (b, s'), gs') ->
  exists a s1 gs1, m s gs = (Ok (a, s1), gs1) /\ k a s1 gs1 = (Ok (b, s'), gs').
Proof. unfold tbind. destruct (m s gs) as [[[a s1]|e] gs1]; [|done]. naive_solver. Qed.

Lemma tstmt_Ok {S A} (f : S -> result (A * S)) s gs a s' gs' :
  tstmt f s gs = (Ok (a, s'), gs') -> f s = Ok (a, s').
Proof. unfold tstmt. destruct (next_gap gs) as [[e|e [|b]] g]; naive_solver. Qed.

Lemma closeOrphanedRequests_spec id reason at_ s gs closed s' gs' :
  closeOrphanedRequests id reason at_ s gs = (Ok (closed, s'), gs') ->
  s' = s <| db_requests := closeOne s id reason at_ <$> db_requests s |> /\
  closed ≡ₚ db_requests s ≫= closeReturns id.
Proof.
  unfold closeOrphanedRequests, updReturning.
  intros (denied & s1 & gs1 & [= <- <-]%tstmt_Ok & H)%tbind_Ok.
  apply tbind_Ok in H as (kept & s2 & gs2 & [= <- <-]%tstmt_Ok & H).
  apply tbind_Ok in H as ([] & s3 & gs3 & [= <-]%tstmt_Ok & H). injection H as <- <- <-.
  unfold updateReqs. rewrite !db_requests_set, !db_requests_twice. split.
  - apply (f_equal (fun v => s <| db_requests := v |>)).
    rewrite <- !list_fmap_compose. apply list_fmap_ext. intros _ pr _. unfold compose.
    unfold closeOne, proveAgentGoneCond, spawnAgentIsNotCursor. rewrite !db_spawns_set_requests.
    destruct (where3 (denyOrphanedCond id pr)) eqn:Ed.
    + rewrite denied_not_decided. unfold denyOrphanedSet, ofSpawn. by rsimp.
    + destruct (where3 (closeDecidedCond id pr)) eqn:Ec; [|done].
      unfold closeDecidedSet, ofSpawn. by rsimp.
  - rewrite merge_sort_Permutation. induction (db_requests s) as [|pr l IH]; [done|].
    rewrite bind_cons, fmap_cons, !filter_cons. unfold closeReturns at 1.
    destruct (where3 (denyOrphanedCond id pr)) eqn:Ed.
    + rewrite denied_not_decided. simpl. by rewrite IH.
    + destruct (where3 (closeDecidedCond id pr)) eqn:Ec; simpl; [|done].
      rewrite <- Permutation_middle. rewrite <- IH. unfold closeDecidedSet, returned. by rsimp.
Qed.

Lemma closeOne_other s id reason at_ pr : pr_instance_id pr <> id -> closeOne s id reason at_ pr = pr.
Proof.
  intros H. unfold closeOne, denyOrphanedCond, closeDecidedCond, proveAgentGoneCond.
  rewrite !where3_and, where3_ofSpawn, bool_decide_false by done. done.
Qed.

(** What the proof statement leaves alone. *)
Lemma closeOne_columns s id reason at_ pr :
  let pr1 := if where3 (denyOrphanedCond id pr) then denyOrphanedSet reason at_ (nowSec s) pr
             else if where3 (closeDecidedCond id pr) then closeDecidedSet at_ pr else pr in
  let r := closeOne s id reason at_ pr in
  pr_closed_at r = pr_closed_at pr1 /\ pr_pane_answer r = pr_pane_answer pr1 /\
  pr_settled_at r = pr_settled_at pr1 /\ pr_delivered_at r = pr_delivered_at pr1 /\
  pr_decision r = pr_decision pr1 /\ pr_decision_reason r = pr_decision_reason pr1 /\
  pr_decided_at r = pr_decided_at pr1.
Proof.
  cbv zeta. unfold closeOne. destruct (where3 (proveAgentGoneCond _ _ _)); [|done].
  unfold proveAgentGoneSet. rsimp. done.
Qed.

Lemma closeOne_not_awaiting s id reason at_ pr : pr_instance_id pr = id ->
  where3 (awaitingAnswerSQL (closeOne s id reason at_ pr)) = false.
Proof.
  intros Hid. destruct (closeOne_columns s id reason at_ pr) as (Ec & Ep & Es & Ed & Edec & _).
  unfold awaitingAnswerSQL. rewrite Ec, Ep, Es, Ed, Edec. clear Ec Ep Es Ed Edec.
  rewrite !where3_and, where3_is_null, where3_Some.
  destruct (where3 (denyOrphanedCond id pr)) eqn:E1; [unfold denyOrphanedSet; by rsimp|].
  destruct (where3 (closeDecidedCond id pr)) eqn:E2; [unfold closeDecidedSet; by rsimp|].
  revert E1 E2. unfold denyOrphanedCond, closeDecidedCond, awaitingAnswerSQL, case3.
  rewrite !where3_and, where3_not_null, !where3_is_null, where3_ofSpawn, !where3_Some, Hid.
  rewrite bool_decide_true by done. rewrite !andb_true_l.
  destruct (pr_decision pr), (pr_settled_at pr), (bool_decide (pr_closed_at pr = None)),
    (bool_decide (pr_pane_answer pr ∈ _)); rewrite ?where3_is_null;
    destruct (pr_delivered_at pr); simpl; try done.
Qed.

Lemma closeOne_decided s id reason at_ pr d : pr_decision pr = Some d ->
  let r := closeOne s id reason at_ pr in
  pr_decision r = Some d /\ pr_decision_reason r = pr_decision_reason pr /\
  pr_decided_at r = pr_decided_at pr.
Proof.
  intros Hd r. destruct (closeOne_columns s id reason at_ pr) as (_ & _ & _ & _ & E1 & E2 & E3).
  unfold r. rewrite E1, E2, E3. unfold denyOrphanedCond.
  rewrite !where3_and, (where3_is_null (pr_decision pr)), Hd, (bool_decide_false (Some d = None)) by done.
  rewrite andb_false_l, andb_false_r. destruct (where3 (closeDecidedCond id pr)); [|done].
  unfold closeDecidedSet. by rsimp.
Qed.

Lemma closeOne_undecided s id reason at_ pr :
  pr_instance_id pr = id -> pr_decision pr = None -> where3 (awaitingAnswerSQL pr) = true ->
  let r := closeOne s id reason at_ pr in
  pr_decision r = Some "deny" /\ pr_decision_reason r = Some reason /\
  pr_decided_at r = Some (nowSec s) /\ pr_closed_at r = Some at_.
Proof.
  intros Hid Hd Ha r.
  destruct (closeOne_columns s id reason at_ pr) as (E0 & _ & _ & _ & E1 & E2 & E3).
  unfold r. rewrite E0, E1, E2, E3. unfold denyOrphanedCond.
  rewrite !where3_and, where3_is_null, Hd, where3_ofSpawn, Ha, Hid, !bool_decide_true by done.
  simpl. unfold denyOrphanedSet. by rsimp.
Qed.

Lemma closeOne_proof s id reason at_ pr : pr_instance_id pr = id ->
  pr_proven_gone_at (closeOne s id reason at_ pr) =
    if bool_decide (pr_proven_gone_at pr = None) && spawnAgentIsNotCursor s id
    then Some at_ else pr_proven_gone_at pr.
Proof.
  intros <-. unfold closeOne, proveAgentGoneCond.
  rewrite !where3_and, where3_is_null, where3_Some, where3_ofSpawn, bool_decide_true by done.
  rewrite andb_true_l. destruct (_ && _); [unfold proveAgentGoneSet; by rsimp|].
  destruct (where3 (denyOrphanedCond _ _)); [unfold denyOrphanedSet; by rsimp|].
  destruct (where3 (closeDecidedCond _ _)); [unfold closeDecidedSet; by rsimp|done].
Qed.

(** *** The cap eviction *)

Lemma evictClosedRequests_spec cap s gs u s' gs' :
  evictClosedRequests cap s gs = (Ok (u, s'), gs') ->
  let excess := Z.of_nat (length (db_requests s)) - cap in
  s' = if (0 <? cap) && (0 <? excess)
       then s <| db_requests := filter (fun r => pr_request_id r ∉ evictedIds s (Z.to_nat excess))
                                  (db_requests s) |>
       else s.
Proof.
  unfold evictClosedRequests. cbv zeta. destruct (cap <=? 0) eqn:E1.
  { intros [= <- <- <-]. destruct (0 <? cap) eqn:E; [lia|done]. }
  intros (count & s1 & gs1 & [= <- <-]%tstmt_Ok & H)%tbind_Ok.
  rewrite (proj2 (Z.ltb_lt 0 cap)) by lia. rewrite andb_true_l.
  destruct (_ <=? cap) eqn:E2.
  - injection H as <- <- <-. destruct (0 <? _) eqn:E; [lia|done].
  - apply tstmt_Ok in H. rewrite (proj2 (Z.ltb_lt 0 _)) by lia. congruence.
Qed.

Lemma evicted_evictable s n id : id ∈ evictedIds s n ->
  exists r, r ∈ db_requests s /\ pr_request_id r = id /\ evictable s r = true.
Proof.
  unfold evictedIds. intros (r & -> & Hin)%list_elem_of_fmap.
  apply (subseteq_take n) in Hin. rewrite merge_sort_Permutation in Hin.
  apply list_elem_of_filter in Hin as [He Hin]. eauto.
Qed.

Lemma evictable_spec s r : evictable s r = true ->
  where3 (awaitingAnswerSQL r) = false /\
  (is_Some (pr_proven_gone_at r) \/ spawnFinished s (pr_instance_id r) = true) /\
  exemptFromEviction s r = false.
Proof.
  unfold evictable. rewrite !where3_and, where3_or, where3_not_null, !not3_Some, !where3_Some.
  intros [H1 [H2 H3]%andb_true_iff]%andb_true_iff. split_and!.
  - destruct (where3 (awaitingAnswerSQL r)) eqn:E; [|done]. by rewrite where3_not_true in H1.
  - apply orb_true_iff in H2 as [H2|H2]; [left; by apply bool_decide_eq_true in H2|by right].
  - by apply negb_true_iff.
Qed.

Lemma length_filter_evicted (l : list PermReq) (ids : list Z) :
  NoDup (pr_request_id <$> l) ->
  (length l <= length (filter (fun r => pr_request_id r ∉ ids) l) + length ids)%nat.
Proof.
  intros Hnd.
  assert (length (filter (fun r => pr_request_id r ∈ ids) l) <= length ids)%nat.
  { rewrite <- (length_fmap pr_request_id). apply submseteq_length, NoDup_submseteq.
    - by apply NoDup_fmap_filter.
    - intros i (r & -> & Hr)%list_elem_of_fmap. by apply list_elem_of_filter in Hr as [? _]. }
  enough (length l = length (filter (fun r => pr_request_id r ∈ ids) l)
                     + length (filter (fun r => pr_request_id r ∉ ids) l))%nat by lia.
  clear. induction l as [|r l IH]; [done|]. rewrite !filter_cons. repeat case_decide; simpl; naive_solver lia.
Qed.

(** ** Properties *)

(** On every well-formed request the SQL conditions that guard writes and
    the Go methods that guard verbs give the same answer: awaitingAnswerSQL
    is AwaitsAnswer, and cursorHoldsDialogSQL is HoldsDialog for a Cursor row
    with any launch token. *)
Theorem request_readings_agree (pr : PermReq) (token : string) :
  pr_wf pr ->
  where3 (awaitingAnswerSQL pr) = AwaitsAnswer (scanPermissionRow pr) /\
  where3 (cursorHoldsDialogSQL token pr) = HoldsDialog (scanPermissionRow pr) AgentCursor token.
Proof.
  intros Hwf. split; [by apply awaiting_agrees|].
  unfold cursorHoldsDialogSQL, HoldsDialog, ProvenGone, OfEarlierCursorLaunch. simpl.
  rewrite where3_and, where3_is_null, IsZero_millisTime, negb_involutive by apply Hwf.
  f_equal. unfold sql_ne, sql_eq, lift2. rewrite !not3_Some.
  set (owner := coalesce (pr_owner_launch_token pr) "").
  assert (bool_decide (owner ∈ [""; token]) = bool_decide (owner = "") || bool_decide (owner = token)) as ->.
  { rewrite <- bool_decide_or. apply bool_decide_ext. rewrite !elem_of_cons, elem_of_nil. tauto. }
  destruct (bool_decide (token = "")), (bool_decide (owner = "")), (bool_decide (owner = token)); done.
Qed.

(** A close of a Spawn's requests (the Spawn's agent is gone, or judged
    gone) leaves none of its requests awaiting an answer: an undecided one
    that awaited an answer is denied with the close's reason, a decided one
    keeps its verdict, reason and time, a request of another Spawn is
    untouched, and every request of a non-Cursor Spawn is proven gone while a
    Cursor one keeps its proof state. *)
Theorem close_closes_every_request (id reason : string) (at_ : Z) (s s' : Store)
    (gs gs' : list (gap Store)) (closed : list closedRequest) :
  closeOrphanedRequests id reason at_ s gs = (Ok (closed, s'), gs') ->
  db_spawns s' = db_spawns s /\
  (forall pr, pr ∈ db_requests s' -> pr_instance_id pr = id -> where3 (awaitingAnswerSQL pr) = false) /\
  Forall2 (fun pr pr' =>
    (pr_instance_id pr <> id -> pr' = pr) /\
    (forall d, pr_decision pr = Some d ->
       pr_decision pr' = Some d /\ pr_decision_reason pr' = pr_decision_reason pr /\
       pr_decided_at pr' = pr_decided_at pr) /\
    (pr_instance_id pr = id -> pr_decision pr = None -> where3 (awaitingAnswerSQL pr) = true ->
       pr_decision pr' = Some "deny" /\ pr_decision_reason pr' = Some reason /\
       pr_decided_at pr' = Some (nowSec s) /\ pr_closed_at pr' = Some at_) /\
    (pr_instance_id pr = id ->
       pr_proven_gone_at pr' =
         if bool_decide (pr_proven_gone_at pr = None) && spawnAgentIsNotCursor s id
         then Some at_ else pr_proven_gone_at pr))
    (db_requests s) (db_requests s') /\
  closed ≡ₚ db_requests s ≫= closeReturns id.
Proof.
  intros [-> Hp]%closeOrphanedRequests_spec. rewrite db_requests_set. split_and!; [done| | |done].
  - intros pr' (pr & -> & _)%list_elem_of_fmap Hid. apply closeOne_not_awaiting.
    destruct (decide (pr_instance_id pr = id)) as [|Hne]; [done|].
    by rewrite closeOne_other in Hid.
  - apply Forall2_fmap_r, Forall_Forall2_diag, Forall_forall. intros pr _. split_and!.
    + apply closeOne_other.
    + intros d. apply closeOne_decided.
    + apply closeOne_undecided.
    + apply closeOne_proof.
Qed.

(** The cap eviction deletes only requests that no longer await an answer
    and whose dialog is proven gone or whose Spawn is finished, never a
    Spawn's newest request while the Spawn has one awaiting an answer; it
    deletes nothing at or under the cap, and never brings the table below
    the cap. *)
Theorem eviction_keeps_open_requests (cap : Z) (s s' : Store) (gs gs' : list (gap Store)) (u : unit) :
  NoDup (pr_request_id <$> db_requests s) ->
  evictClosedRequests cap s gs = (Ok (u, s'), gs') ->
  db_requests s' `sublist_of` db_requests s /\
  (forall r, r ∈ db_requests s -> r ∉ db_requests s' ->
     0 < cap < Z.of_nat (length (db_requests s)) /\
     where3 (awaitingAnswerSQL r) = false /\
     (is_Some (pr_proven_gone_at r) \/ spawnFinished s (pr_instance_id r) = true) /\
     exemptFromEviction s r = false) /\
  (0 < cap -> Z.min cap (Z.of_nat (length (db_requests s))) <= Z.of_nat (length (db_requests s'))).
Proof.
  intros Hnd ->%evictClosedRequests_spec.
  destruct ((0 <? cap) && _) eqn:E; [|split_and!; [done|by intros r ?|lia]].
  apply andb_true_iff in E as [Hc%Z.ltb_lt Hx%Z.ltb_lt]. rewrite db_requests_set.
  set (n := Z.to_nat (Z.of_nat (length (db_requests s)) - cap)). split_and!.
  - apply filter_sublist.
  - intros r Hin Hout. split; [lia|].
    assert (pr_request_id r ∈ evictedIds s n) as (r' & Hin' & Hid & Hev)%evicted_evictable.
    { destruct (decide (pr_request_id r ∈ evictedIds s n)); [done|].
      destruct Hout. by apply list_elem_of_filter. }
    assert (r' = r) as -> by by eapply NoDup_fmap_eq. by apply evictable_spec.
  - intros _. pose proof (length_filter_evicted (db_requests s) (evictedIds s n) Hnd).
    assert (length (evictedIds s n) <= n)%nat.
    { unfold evictedIds. rewrite length_fmap, length_take. lia. }
    lia.
Qed.

(** ** Witnesses: one open request, one decided and unacked, one acked *)

Definition openReq : PermReq := mkPermReq 2 "leaf" "tok1" "Bash" "{}" None None None 100
  (Some 90) (Some "h90") None (Some "use1") None None (Some 700000) None None None PaneAnswerNone
  None None None None None None None None true (Some "0123456789abcdef") (Some 3) (Some 100000) None None.
Definition decidedReq : PermReq :=
  openReq <| pr_request_id := 3 |> <| pr_request_token := "tok2" |> <| pr_decision := Some "allow" |>
          <| pr_decision_reason := Some DecisionReasonOperator |> <| pr_decided_at := Some 101 |>.
Definition ackedReq : PermReq :=
  decidedReq <| pr_request_id := 1 |> <| pr_request_token := "tok3" |> <| pr_delivered_at := Some 101500 |>
             <| pr_proven_gone_at := Some 102000 |> <| pr_proven_gone_how := Some ProvenGoneTurnEnd |>.

Definition reqStore : Store := mkStore {[ "leaf" := soloRow ]} [ackedReq; openReq; decidedReq] 4 [] [] [] ∅ 200000 1 1.

Lemma openReq_wf : pr_wf openReq.
Proof. split; try (by vm_compute); try (by intros [=]). by apply (bool_decide_eq_true_1 _). Qed.

Lemma request_readings_agree_witness :
  AwaitsAnswer (scanPermissionRow openReq) = true /\
  where3 (awaitingAnswerSQL openReq) = AwaitsAnswer (scanPermissionRow openReq).
Proof. split; [reflexivity|]. apply (request_readings_agree openReq "x" openReq_wf). Defined.

Lemma close_closes_every_request_witness :
  exists closed s' gs', closeOrphanedRequests "leaf" DecisionReasonEnded 200000 reqStore []
    = (Ok (closed, s'), gs') /\ length closed = 2%nat /\
  (forall pr, pr ∈ db_requests s' -> pr_instance_id pr = "leaf" -> where3 (awaitingAnswerSQL pr) = false).
Proof.
  destruct (closeOrphanedRequests "leaf" DecisionReasonEnded 200000 reqStore [])
    as [[[closed s']|e] gs'] eqn:E; [|by vm_compute in E].
  exists closed, s', gs'. split; [done|].
  destruct (close_closes_every_request _ _ _ _ _ _ _ _ E) as (_ & H & _ & Hp). split; [|done].
  rewrite Hp. reflexivity.
Defined.

Lemma eviction_keeps_open_requests_witness :
  exists s' gs', evictClosedRequests 1 reqStore [] = (Ok (tt, s'), gs') /\
    (pr_request_id <$> db_requests s' = [2; 3]) /\ db_requests s' `sublist_of` db_requests reqStore.
Proof.
  destruct (evictClosedRequests 1 reqStore []) as [[[[] s']|e] gs'] eqn:E; [|by vm_compute in E].
  exists s', gs'. split; [done|]. split; [vm_compute in E; injection E as <- <-; reflexivity|].
  refine (proj1 (eviction_keeps_open_requests 1 reqStore s' [] gs' tt _ E)).
  by apply (bool_decide_eq_true_1 _).
Defined.
