(* ===== verification/History.v ===== *)
(** * Session history (internal/store/session_history.go)

    The transcripts a Spawn previously pointed at: one entry per (instance,
    session id), in a life of the row. [db_history] is in history_id order. *)

From S2P Require Import Prelude Sql Rows Display Settle Family Requests.

#[export] Instance eta_HistoryRow : Eta HistoryRow := fun r =>
  mkHistoryRow (hi_instance_id r) (hi_session_id r) (hi_jsonl_path r) (hi_recorded_at r) (hi_life_number r).
#[export] Instance set_hi_jsonl_path : Setter hi_jsonl_path. Proof. solve_setter. Defined.
#[export] Instance set_hi_recorded_at : Setter hi_recorded_at. Proof. solve_setter. Defined.
#[export] Instance set_hi_life_number : Setter hi_life_number. Proof. solve_setter. Defined.

Definition historyKey (e : HistoryRow) : string * string := (hi_instance_id e, hi_session_id e).

(** upsertSessionHistoryEntry: the INSERT ... ON CONFLICT DO UPDATE; the
    foreign key refuses an entry of no row. *)
Definition upsertHistory (key : string * string) (path : option string) (life now : Z)
    (l : list HistoryRow) : list HistoryRow :=
  if bool_decide (key ∈ historyKey <$> l) then
    (fun e => if bool_decide (historyKey e = key) then
                e <| hi_jsonl_path := case3 (sql_eq (Some (hi_life_number e)) (Some life))
                                        (coalesce2 path (hi_jsonl_path e)) path |>
                  <| hi_life_number := life |> <| hi_recorded_at := now |>
              else e) <$> l
  else l ++ [mkHistoryRow (fst key) (snd key) path now life].

Definition upsertSessionHistoryEntry (id session jsonlPath : string) (life : Z) (s : Store)
    : result (unit * Store) :=
  if bool_decide (is_Some (db_spawns s !! id)) then
    Ok (tt, s <| db_history := upsertHistory (id, session) (nullif_empty jsonlPath) life (nowSec s)
                                 (db_history s) |>)
  else Err EForeignKey.

(** ListSessionHistory: newest recorded first, then newest entry first. *)
Record SessionHistoryEntry := mkEntry { he_SessionID : string; he_JSONLPath : string; he_RecordedAt : Z }.

Definition recorded_ge (a b : HistoryRow) : Prop := hi_recorded_at b <= hi_recorded_at a.
#[export] Instance recorded_ge_dec a b : Decision (recorded_ge a b).
Proof. unfold recorded_ge. apply _. Defined.

Definition entryOf (e : HistoryRow) : SessionHistoryEntry :=
  mkEntry (hi_session_id e) (coalesce (hi_jsonl_path e) "") (hi_recorded_at e).

Definition ofLife (id : string) (life : Z) (e : HistoryRow) : Prop :=
  hi_instance_id e = id /\ hi_life_number e = life.
#[export] Instance ofLife_dec id life e : Decision (ofLife id life e).
Proof. unfold ofLife. apply _. Defined.

Definition listHistory (id : string) (life : Z) (l : list HistoryRow) : list SessionHistoryEntry :=
  entryOf <$> merge_sort recorded_ge (reverse (filter (ofLife id life) l)).

Definition ListSessionHistory (id : string) (life : Z) : M Store Event (list SessionHistoryEntry) :=
  read (fun s => listHistory id life (db_history s)).

(** HealJsonlPath *)
Definition healRow (session path : string) (r : SpawnRow) : option SpawnRow :=
  if where3 (sql_eq (sp_session_id r) (Some session) AND is_null (sp_jsonl_path r))
  then Some (r <| sp_jsonl_path := Some path |> <| sp_row_version := sp_row_version r + 1 |>)
  else None.

Definition HealJsonlPath (id session path : string) : M Store Event bool :=
  n <- stmt (fun s => Ok (update1 id (fun _ => healRow session path) s));;
  if n : bool then emit (EvHealed id session path);;; ret true else ret false.

(** ** Lemmas *)

Lemma upsert_keys key path life now l :
  historyKey <$> upsertHistory key path life now l
  = if bool_decide (key ∈ historyKey <$> l) then historyKey <$> l else (historyKey <$> l) ++ [key].
Proof.
  unfold upsertHistory. case_bool_decide.
  - rewrite <- list_fmap_compose. apply list_fmap_ext. intros _ e _. unfold compose.
    case_bool_decide; [|done]. unfold historyKey. by rsimp.
  - rewrite fmap_app. f_equal. by destruct key.
Qed.

Lemma upsert_NoDup key path life now l :
  NoDup (historyKey <$> l) -> NoDup (historyKey <$> upsertHistory key path life now l).
Proof.
  intros H. rewrite upsert_keys. case_bool_decide; [done|].
  apply NoDup_app. split_and!; [done| |apply NoDup_singleton]. set_solver.
Qed.

(** ** Properties *)

(** Archiving a session keeps one entry per (instance, session id), puts
    that entry in the given life with recorded_at now, keeps a recorded path
    against a NULL one only within the same life, and changes no other entry. *)
Theorem history_upsert_behaviour (id session jsonlPath : string) (life : Z) (s s' : Store) (u : unit) :
  NoDup (historyKey <$> db_history s) ->
  upsertSessionHistoryEntry id session jsonlPath life s = Ok (u, s') ->
  NoDup (historyKey <$> db_history s') /\
  (forall e, historyKey e <> (id, session) -> e ∈ db_history s' <-> e ∈ db_history s) /\
  exists e', e' ∈ db_history s' /\ historyKey e' = (id, session) /\
    hi_life_number e' = life /\ hi_recorded_at e' = nowSec s /\
    (forall e, e ∈ db_history s -> historyKey e = (id, session) ->
       hi_jsonl_path e' = if bool_decide (jsonlPath = "") && (hi_life_number e =? life)
                          then hi_jsonl_path e else nullif_empty jsonlPath) /\
    ((id, session) ∉ historyKey <$> db_history s -> hi_jsonl_path e' = nullif_empty jsonlPath).
Proof.
  intros Hnd. unfold upsertSessionHistoryEntry. case_bool_decide as Hs; [|done]. intros [= <- <-].
  rsimp. set (l := db_history s) in *. split; [by apply upsert_NoDup|].
  unfold upsertHistory. case_bool_decide as Hk.
  - split.
    + intros e He. rewrite list_elem_of_fmap. split.
      * intros (y & Hy & Hin). case_bool_decide; subst; [|done]. destruct He.
        unfold historyKey in *. by rsimp.
      * intros Hin. exists e. by rewrite bool_decide_false.
    + apply list_elem_of_fmap in Hk as (e0 & Hk0 & Hin0).
      eexists. split; [apply list_elem_of_fmap; exists e0; split; [reflexivity|done]|].
      rewrite bool_decide_true by done. unfold historyKey in *. rsimp. split_and!; [done..| |].
      * intros e Hin He. assert (e = e0) as -> by (eapply (NoDup_fmap_eq historyKey); eauto; unfold historyKey; congruence).
        rewrite case3_eq. unfold coalesce2, nullif_empty.
        destruct (Z.eqb_spec (hi_life_number e0) life), (decide (jsonlPath = "")) as [->|];
          repeat case_bool_decide; done.
      * intros []. apply list_elem_of_fmap. exists e0. done.
  - split.
    + intros e He. rewrite elem_of_app, list_elem_of_singleton. split; [|by left].
      intros [?| ->]; [done|]. by destruct He.
    + eexists. split; [apply elem_of_app; right; by apply list_elem_of_singleton|].
      split_and!; [done..| |done]. intros e Hin He. destruct Hk. apply list_elem_of_fmap. by exists e.
Qed.

(** Lazy healing never overwrites a recorded path: HealJsonlPath writes
    only a row whose path is NULL and whose session id is the given one, and
    then only the path and the version. *)
Theorem heal_never_clobbers (id session path : string) (s : Store) :
  forall r', db_spawns (snd (update1 id (fun _ => healRow session path) s)) !! id = Some r' ->
  exists r, db_spawns s !! id = Some r /\
    (r' = r \/ (sp_jsonl_path r = None /\ sp_session_id r = Some session /\
                r' = r <| sp_jsonl_path := Some path |> <| sp_row_version := sp_row_version r + 1 |>)).
Proof.
  intros r'. unfold update1. destruct (db_spawns s !! id) as [r|] eqn:Hr; simpl; [|congruence].
  unfold healRow. destruct (where3 _) eqn:E; simpl.
  - rsimp. rewrite lookup_insert_eq. intros [= <-]. exists r. split; [done|right].
    rewrite where3_and, where3_is_null, where3_sql_eq in E. by bsimp.
  - intros [= <-]%(eq_trans (eq_sym Hr)). eauto.
Qed.

(** ** Witnesses *)

Definition histStore : Store := mkStore {[ "leaf" := sampleRow <| sp_session_id := Some "s2" |> ]} [] 1
  [mkHistoryRow "leaf" "s1" (Some "/old") 5 1] [] [] ∅ 9000 1 1.

Lemma history_upsert_behaviour_witness :
  exists s', upsertSessionHistoryEntry "leaf" "s1" "" 1 histStore = Ok (tt, s') /\
    db_history s' = [mkHistoryRow "leaf" "s1" (Some "/old") 9 1] /\
    NoDup (historyKey <$> db_history s').
Proof.
  eexists. split; [reflexivity|]. split; [reflexivity|].
  refine (proj1 (history_upsert_behaviour "leaf" "s1" "" 1 histStore _ tt _ _)).
  - apply NoDup_singleton.
  - reflexivity.
Defined.

Lemma heal_never_clobbers_witness :
  exists r r', db_spawns (snd (update1 "leaf" (fun _ => healRow "s2" "/new") histStore)) !! "leaf" = Some r' /\
    db_spawns histStore !! "leaf" = Some r /\ sp_jsonl_path r' = Some "/new".
Proof.
  destruct (db_spawns (snd (update1 "leaf" (fun _ => healRow "s2" "/new") histStore)) !! "leaf")
    as [r'|] eqn:E; [|by vm_compute in E].
  destruct (heal_never_clobbers "leaf" "s2" "/new" histStore r' E) as (r & Hr & _).
  exists r, r'. split; [done|]. split; [done|]. vm_compute in E. by injection E as <-.
Defined.
