(* ===== verification/Steps.v ===== *)
(** * Reasoning about writes of Spawn rows

    What one committed write may do to each row ([rows_step]), the columns
    the epilogue of a lifecycle transaction may touch ([same_core]), and the
    two rules the operations' theorems rest on: what [execGuarded] commits
    under any interference ([guarantees_execGuarded]), and what it does when
    run alone ([execGuarded_alone]). *)

From S2P Require Import Prelude Sql Rows Display Settle Family Requests History.

(** Every row of [s] is still there in [s'], in the relation [P]; no row is
    new. *)
Definition rows_step (P : Store -> string -> SpawnRow -> SpawnRow -> Prop) (s s' : Store) : Prop :=
  forall id, match db_spawns s !! id, db_spawns s' !! id with
             | Some r, Some r' => P s id r r'
             | None, None => True
             | _, _ => False
             end.

(** The columns the epilogue writes, out of the way: the family aggregate and
    the drained exit marker. *)
Definition core (r : SpawnRow) : SpawnRow :=
  r <| sp_family_state := "" |> <| sp_family_settled_state := "" |> <| sp_family_changed_ms := 0 |>
    <| sp_display_exit := None |>.
Definition same_core (r r' : SpawnRow) : Prop := core r = core r'.

Lemma core_field {E} (p : SpawnRow -> E) r r' :
  same_core r r' -> (forall q, p (core q) = p q) -> p r = p r'.
Proof. unfold same_core. intros H Hp. rewrite <- (Hp r), <- (Hp r'). by rewrite H. Qed.

(** [core_eq H p]: the field [p] is the same on both sides of [H]. *)
Ltac core_eq H p :=
  let E := fresh "E" in
  pose proof (core_field p _ _ H ltac:(intros ?; unfold core; by rsimp)) as E.

#[export] Instance same_core_equiv : Equivalence same_core.
Proof. unfold same_core. split; [done|by intros ??|intros ???; congruence]. Qed.

Lemma core_refreshRow T now v r : same_core r (refreshRow T now v r).
Proof.
  unfold refreshRow, same_core. destruct (where3 _); [|done]. by destruct r.
Qed.

Lemma core_drain r : same_core r (r <| sp_display_exit := None |>).
Proof. by destruct r. Qed.

(** *** The rows relation *)

Lemma rows_step_refl (P : Store -> string -> SpawnRow -> SpawnRow -> Prop) s s' :
  (forall id r r', same_core r r' -> P s id r r') -> db_spawns s' = db_spawns s -> rows_step P s s'.
Proof.
  intros HP E id. rewrite E. destruct (db_spawns s !! id); [|done]. by apply HP.
Qed.

(** The epilogue keeps what the body did, up to [same_core]. *)
Definition core_step (s s' : Store) : Prop := rows_step (fun _ _ => same_core) s s'.

Lemma rows_step_core P s s1 s' :
  (forall id r r1 r', P s id r r1 -> same_core r1 r' -> P s id r r') ->
  rows_step P s s1 -> core_step s1 s' -> rows_step P s s'.
Proof.
  intros HP H1 H2 id. specialize (H1 id). specialize (H2 id).
  destruct (db_spawns s !! id), (db_spawns s1 !! id), (db_spawns s' !! id); try done. by eapply HP.
Qed.

Lemma core_step_refl s : core_step s s.
Proof. by apply rows_step_refl. Qed.
Lemma core_step_trans s s1 s' : core_step s s1 -> core_step s1 s' -> core_step s s'.
Proof. intros H1 H2. eapply rows_step_core; [|done..]. intros ? ? ? ? H H'. by etrans. Qed.

Lemma core_step_refresh T s : core_step s (refreshFamilies T s).
Proof.
  intros id. unfold refreshFamilies. rsimp. rewrite map_lookup_imap.
  destruct (db_spawns s !! id) as [r|]; simpl; [|done]. apply core_refreshRow.
Qed.

(** *** What a transaction leaves of the other tables *)

Definition tables_eq (s s' : Store) : Prop :=
  db_requests s' = db_requests s /\ db_next_request s' = db_next_request s /\
  db_history s' = db_history s /\ db_subagents s' = db_subagents s /\ db_launches s' = db_launches s /\
  db_runtimes s' = db_runtimes s /\ db_now s' = db_now s /\
  db_next_subagent s' = db_next_subagent s /\ db_next_launch s' = db_next_launch s.

Lemma tables_eq_refl s : tables_eq s s.
Proof. done. Qed.
Lemma tables_eq_trans s s1 s' : tables_eq s s1 -> tables_eq s1 s' -> tables_eq s s'.
Proof. unfold tables_eq. intros (?&?&?&?&?&?&?&?&?) (?&?&?&?&?&?&?&?&?). split_and!; congruence. Qed.
Lemma tables_eq_spawns m s : tables_eq s (s <| db_spawns := m |>).
Proof. by destruct s. Qed.

Lemma takeDisplayExits_spec id s gs ex s' gs' :
  takeDisplayExits id s gs = (Ok (ex, s'), gs') ->
  core_step s s' /\ tables_eq s s' /\ (sp_display_exit <$> db_spawns s !! id = Some None -> ex = [] /\ s' = s).
Proof.
  unfold takeDisplayExits. intros (f & s1 & gs1 & [= <- <-]%tstmt_Ok & H)%tbind_Ok.
  destruct (db_spawns s !! id) as [r|] eqn:Er; [destruct (sp_display_exit r) as [e|] eqn:Ee|].
  - apply tstmt_Ok in H. injection H as <- <-. split_and!.
    + intros j. rsimp. destruct (decide (j = id)) as [->|].
      * rewrite lookup_alter_eq, Er. apply core_drain.
      * rewrite lookup_alter_ne by done. by destruct (db_spawns s !! j).
    + apply tables_eq_spawns.
    + simpl. rewrite Ee. done.
  - injection H as <- <- <-. split_and!; auto using core_step_refl, tables_eq_refl.
  - injection H as <- <- <-. split_and!; auto using core_step_refl, tables_eq_refl.
Qed.

(** The epilogue of [inImmediateTx], as a relation. *)
Lemma inImmediateTx_spec {A} (T : Z) (id : string) (body : Tx Store A) (R : Store -> Store -> Prop) :
  tx_spec (fun s _ s1 => forall s', core_step s1 s' -> tables_eq s1 s' -> R s s') body ->
  guarantees R (inImmediateTx T id body).
Proof.
  intros Hb. unfold inImmediateTx. guar. apply guarantees_txImmediate.
  intros s gs [a ex] s' gs' H.
  apply tbind_Ok in H as (a1 & s1 & gs1 & H1 & H).
  apply tbind_Ok in H as ([] & s2 & gs2 & [= <-]%tstmt_Ok & H).
  apply tbind_Ok in H as (ex1 & s3 & gs3 & [H3 [H4 _]]%takeDisplayExits_spec & [= <- <- <- <-]).
  eapply Hb; [done| |].
  - eapply core_step_trans; [apply core_step_refresh|done].
  - eapply tables_eq_trans; [apply tables_eq_spawns|done].
Qed.

(** *** Guarded updates *)

Lemma update1_step P id upd s :
  (forall j r, P s j r r) ->
  (forall r r1, db_spawns s !! id = Some r -> upd s r = Some r1 -> P s id r r1) ->
  rows_step P s (snd (update1 id upd s)).
Proof.
  intros Hr Hu j. unfold update1. destruct (db_spawns s !! id) as [r|] eqn:Er; simpl.
  - destruct (upd s r) as [r1|] eqn:Eu; simpl; [rsimp|by destruct (db_spawns s !! j)].
    destruct (decide (j = id)) as [->|].
    + rewrite Er, lookup_insert_eq. by apply Hu.
    + rewrite lookup_insert_ne by done. by destruct (db_spawns s !! j).
  - by destruct (db_spawns s !! j).
Qed.

Lemma update1_tables id upd s : tables_eq s (snd (update1 id upd s)).
Proof.
  unfold update1. destruct (db_spawns s !! id) as [r|]; [|done]. destruct (upd s r); [|done].
  apply tables_eq_spawns.
Qed.

Lemma refreshAfter_tables T prior new exits s : tables_eq s (refreshFamiliesAfterStateChange T prior new exits s).
Proof.
  unfold refreshFamiliesAfterStateChange. repeat dmatch; try apply tables_eq_refl; apply tables_eq_spawns.
Qed.
Lemma refreshAfter_core T prior new exits s : core_step s (refreshFamiliesAfterStateChange T prior new exits s).
Proof.
  unfold refreshFamiliesAfterStateChange. repeat dmatch; try apply core_step_refl; apply core_step_refresh.
Qed.

(** Under any interference, every write a guarded update commits is [P] on
    the rows and leaves the other tables alone. *)
Lemma guarantees_execGuarded (P : Store -> string -> SpawnRow -> SpawnRow -> Prop) T id upd :
  (forall s j r r', same_core r r' -> P s j r r') ->
  (forall s r r1 r', db_spawns s !! id = Some r -> upd s r = Some r1 -> same_core r1 r' -> P s id r r') ->
  guarantees (fun s s' => rows_step P s s' /\ tables_eq s s') (execGuarded T id (update1 id upd)).
Proof.
  intros Hc Hu. unfold execGuarded. apply guarantees_catch; [|intros [?|[]]; guar].
  apply inImmediateTx_spec. intros s gs a s1 gs'.
  intros (n & s2 & gs1 & [= Hn]%tstmt_Ok & H)%tbind_Ok s' Hcs Ht.
  assert (s2 = s1) as -> by (destruct n; [by injection H|done]).
  assert (s1 = snd (update1 id upd s)) as -> by (by rewrite Hn). split.
  - set (P' := fun s j r r1 => forall r', same_core r1 r' -> P s j r r').
    assert (rows_step P' s (snd (update1 id upd s))) as Hs.
    { apply update1_step; [by intros j r r' ?; apply Hc|]. intros r r1 Hr E r' Hr'. by eapply Hu. }
    intros j. specialize (Hs j). specialize (Hcs j).
    destruct (db_spawns s !! j), (db_spawns (snd (update1 id upd s)) !! j), (db_spawns s' !! j); try done.
    by apply Hs.
  - eapply tables_eq_trans; [apply update1_tables|done].
Qed.

(** Run alone, a guarded update applies exactly when its WHERE selects the
    row; one that matches no row changes nothing. *)
Definition alone (s : Store) (tr : list Event) (own : list (Store * Store)) : World Store Event :=
  mkWorld s [] tr own.

Lemma read_alone {A} (f : Store -> A) s tr own : read f (alone s tr own) = (Ok (f s), alone s tr own).
Proof. done. Qed.

Lemma takeDisplayExits_alone id s : exists ex s',
  takeDisplayExits id s [] = (Ok (ex, s'), []).
Proof.
  unfold takeDisplayExits, tbind, tread, tstmt. simpl.
  destruct (db_spawns s !! id) as [r|]; [destruct (sp_display_exit r)|]; eexists _, _; reflexivity.
Qed.

Lemma display_exit_refresh T s id :
  sp_display_exit <$> db_spawns (refreshFamilies T s) !! id = sp_display_exit <$> db_spawns s !! id.
Proof.
  unfold refreshFamilies. rsimp. rewrite map_lookup_imap. destruct (db_spawns s !! id) as [r|]; [|done].
  simpl. f_equal. unfold refreshRow. destruct (where3 _); [by destruct r|done].
Qed.

Lemma execGuarded_alone T id (q : Store -> bool * Store) s tr own :
  if fst (q s) then
    exists s' ex, execGuarded T id q (alone s tr own)
      = (Ok true, alone s' (tr ++ ex) (own ++ [(s, s')])) /\
      core_step (snd (q s)) s' /\ tables_eq (snd (q s)) s' /\
      (sp_display_exit <$> db_spawns (snd (q s)) !! id = Some None -> ex = [])
  else execGuarded T id q (alone s tr own) = (Ok false, alone s tr own).
Proof.
  unfold execGuarded, catch, inImmediateTx, bind, txImmediate, alone, tbind, tstmt, tret, tfail.
  destruct (q s) as [[] s1] eqn:Eq; simpl; rewrite Eq; simpl; [|done].
  destruct (takeDisplayExits_alone id (refreshFamilies T s1)) as (ex & s' & E).
  rewrite E. simpl. exists s', ex.
  destruct (takeDisplayExits_spec _ _ _ _ _ _ E) as (H1 & H2 & H3).
  split; [done|]. split_and!.
  - eapply core_step_trans; [apply core_step_refresh|done].
  - eapply tables_eq_trans; [apply tables_eq_spawns|done].
  - intros Hx. apply H3. by rewrite display_exit_refresh.
Qed.

(** *** Results and writes together *)

Section Ensures.
Context {S Ev : Type}.

(** Under any interference, [Q] relates the result to the own writes. *)
Definition ensures {A} (Q : result A -> list (S * S) -> Prop) (m : M S Ev A) : Prop :=
  forall w, exists own, w_own (snd (m w)) = w_own w ++ own /\ Q (fst (m w)) own.

Lemma ensures_mono {A} (Q Q' : result A -> list (S * S) -> Prop) (m : M S Ev A) :
  ensures Q m -> (forall r own, Q r own -> Q' r own) -> ensures Q' m.
Proof. intros H HQ w. destruct (H w) as (own & E & HR). eauto. Qed.

Lemma ensures_guarantees {A} (Q : result A -> list (S * S) -> Prop) (R : S -> S -> Prop) (m : M S Ev A) :
  ensures Q m -> (forall r own, Q r own -> Forall (fun p => R (fst p) (snd p)) own) -> guarantees R m.
Proof. intros H HQ w. destruct (H w) as (own & E & HR). eauto. Qed.

Lemma ensures_ret {A} (Q : result A -> list (S * S) -> Prop) a : Q (Ok a) [] -> ensures Q (ret a).
Proof. intros H w. exists []. by rewrite app_nil_r. Qed.
Lemma ensures_fail {A} (Q : result A -> list (S * S) -> Prop) e : Q (Err e) [] -> ensures Q (fail e).
Proof. intros H w. exists []. by rewrite app_nil_r. Qed.
Lemma ensures_emit (Q : result unit -> list (S * S) -> Prop) e : Q (Ok tt) [] -> ensures Q (emit e).
Proof. intros H w. exists []. by rewrite app_nil_r. Qed.
Lemma ensures_emits (Q : result unit -> list (S * S) -> Prop) e : Q (Ok tt) [] -> ensures Q (emits e).
Proof. intros H w. exists []. by rewrite app_nil_r. Qed.

Lemma ensures_read {A} (Q : result A -> list (S * S) -> Prop) (f : S -> A) :
  (forall r, Q r []) -> ensures Q (read f).
Proof.
  intros H w. exists []. rewrite app_nil_r. unfold read.
  destruct (next_gap (w_gaps w)) as [[e|e why] gs]; split; auto.
Qed.

Lemma ensures_catch {A B} (Q1 : result A -> list (S * S) -> Prop) (Q : result B -> list (S * S) -> Prop)
    (m : M S Ev A) (h : result A -> M S Ev B) :
  ensures Q1 m ->
  (forall r o1, Q1 r o1 -> ensures (fun r' o2 => Q r' (o1 ++ o2)) (h r)) -> ensures Q (catch m h).
Proof.
  intros Hm Hh w. unfold catch. destruct (Hm w) as (o1 & E1 & H1).
  destruct (m w) as [r w1]. simpl in *. destruct (Hh r o1 H1 w1) as (o2 & E2 & H2).
  exists (o1 ++ o2). split; [|done]. by rewrite E2, E1, app_assoc.
Qed.

Lemma ensures_bind {A B} (Q1 : result A -> list (S * S) -> Prop) (Q : result B -> list (S * S) -> Prop)
    (m : M S Ev A) (k : A -> M S Ev B) :
  ensures Q1 m ->
  (forall a o1, Q1 (Ok a) o1 -> ensures (fun r' o2 => Q r' (o1 ++ o2)) (k a)) ->
  (forall e o1, Q1 (Err e) o1 -> Q (Err e) o1) ->
  ensures Q (bind m k).
Proof.
  intros Hm Hk He w. rewrite bind_catch. eapply ensures_catch; [done|].
  intros [a|e] o1 H1; [by apply Hk|]. apply ensures_fail. rewrite app_nil_r. auto.
Qed.

(** A transaction that fails has written nothing. *)
Lemma ensures_txImmediate {A} (body : Tx S A) :
  ensures (fun r own => match r with Err _ => own = [] | Ok _ => True end) (txImmediate body : M S Ev A).
Proof.
  intros w. unfold txImmediate. destruct (next_gap (w_gaps w)) as [[e|e why] gs]; simpl.
  - destruct (body (e (w_store w)) gs) as [[[a s']|err] gs1]; simpl.
    + destruct (next_gap gs1) as [[e2|e2 why2] gs2]; simpl.
      * by eexists.
      * exists []. by rewrite app_nil_r.
    + exists []. rewrite app_nil_r. by destruct err.
  - exists []. by rewrite app_nil_r.
Qed.
End Ensures.

(** A guarded update that reports false or fails has written nothing. *)
Lemma ensures_execGuarded T id (q : Store -> bool * Store) :
  ensures (fun r own => r <> Ok true -> own = []) (execGuarded T id q).
Proof.
  unfold execGuarded. eapply ensures_catch.
  - instantiate (1 := fun r own => match r with Err _ => own = [] | Ok b => b = true end).
    unfold inImmediateTx, bind. intros w.
    destruct (ensures_txImmediate (Ev := Event)
      (a <-- (n <-- tstmt (fun s => Ok (q s));; if n then tret true else tfail ENotApplied);;
       tstmt (fun s => Ok (tt, refreshFamilies T s));;> exits <-- takeDisplayExits id;; tret (a, exits)) w)
      as (own & E & H).
    destruct (txImmediate _ w) as [[[b ex]|e] w1] eqn:Et; simpl in *; exists own; split; try done.
    clear E H. unfold txImmediate in Et. destruct (next_gap (w_gaps w)) as [[e|e why] gs]; [|done].
    destruct (tbind _ _ _ _) as [[[[b' ex'] s']|err] gs1] eqn:Eb; [|by destruct err].
    destruct (next_gap gs1) as [[e2|e2 why2] gs2]; simplify_eq.
    apply tbind_Ok in Eb as (a & s1 & gs3 & H1 & H2).
    apply tbind_Ok in H1 as (n & s2 & gs4 & _ & H1). destruct n; [|done].
    injection H1 as <- <- <-.
    apply tbind_Ok in H2 as (? & ? & ? & _ & H2). apply tbind_Ok in H2 as (? & ? & ? & _ & H2).
    by injection H2.
  - intros [b|e] o1 H1.
    + subst b. apply ensures_ret. by rewrite app_nil_r.
    + subst o1. destruct e; try (apply ensures_fail; done). by apply ensures_ret.
Qed.

(** Alone, a guarded update depends on the store it starts from only. *)
Lemma execGuarded_ext T id (q q' : Store -> bool * Store) s tr own :
  q s = q' s -> execGuarded T id q (alone s tr own) = execGuarded T id q' (alone s tr own).
Proof.
  intros E. unfold execGuarded, catch, inImmediateTx, bind, txImmediate, alone, tbind, tstmt. simpl.
  by rewrite E.
Qed.

(** ** Transactions that keep a preorder of stores

    [tx_keeps R m]: every statement of the body [m] relates the store before
    it to the store after it by the reflexive and transitive [R]. *)

Abbreviation tx_keeps R := (tx_spec (fun s _ s' => R s s')).

Section Keeps.
Context {R : Store -> Store -> Prop} `{!PreOrder R}.

Lemma keeps_bind {A B} (m : Tx Store A) (k : A -> Tx Store B) :
  tx_keeps R m -> (forall a, tx_keeps R (k a)) -> tx_keeps R (tbind m k).
Proof.
  intros Hm Hk. apply (tx_spec_tbind m k (fun s _ s' => R s s') (fun _ s _ s' => R s s')); [done..|].
  intros s a s1 b s' H1 H2. by etrans.
Qed.
Lemma keeps_ret {A} (a : A) : tx_keeps R (tret a).
Proof. by apply tx_spec_tret. Qed.
Lemma keeps_fail {A} e : tx_keeps R (@tfail Store A e).
Proof. apply tx_spec_tfail. Qed.
Lemma keeps_read {A} (f : Store -> A) : tx_keeps R (tread f).
Proof. by apply tx_spec_tread. Qed.
Lemma keeps_stmt {A} (f : Store -> result (A * Store)) :
  (forall s a s', f s = Ok (a, s') -> R s s') -> tx_keeps R (tstmt f).
Proof. apply tx_spec_tstmt. Qed.
Lemma keeps_pure (f : Store -> Store) : (forall s, R s (f s)) -> tx_keeps R (tstmt (fun s => Ok (tt, f s))).
Proof. intros H. apply keeps_stmt. by intros s a s' [= _ <-]. Qed.
Lemma keeps_counted (q : Store -> bool * Store) : (forall s, R s (snd (q s))) -> tx_keeps R (tstmt (fun s => Ok (q s))).
Proof. intros H. apply keeps_stmt. intros s n s' [= E]. pose proof (H s) as Hs. by rewrite E in Hs. Qed.
End Keeps.

Create HintDb keeps.
#[export] Hint Extern 0 (tx_spec _ (tret _)) => apply keeps_ret : keeps.
#[export] Hint Extern 0 (tx_spec _ (tfail _)) => apply keeps_fail : keeps.
#[export] Hint Extern 0 (tx_spec _ (tread _)) => apply keeps_read : keeps.

(** [ktx] takes a transaction body apart, one statement at a time. *)
Ltac ktx :=
  repeat (intros; match goal with
  | |- tx_spec _ (tbind _ _) => apply keeps_bind
  | |- tx_spec _ (match ?x with _ => _ end) => destruct x eqn:?
  | |- tx_spec _ (let '(_, _) := ?x in _) => destruct x eqn:?
  | |- tx_spec _ _ => solve [auto with keeps]
  end); intros.
