(* ===== verification/Programs.v ===== *)
(** * Programs that write nothing, programs that never fail

    Facts most pieces of a call have, whatever the other processes do and
    whatever fails: that it commits no write of its own ([silent]), that it
    returns a value with some property ([results]), and, for a call that
    begins with a read, how its result and writes depend on the store it read
    ([ensures_from]). *)

From S2P Require Import Prelude Sql Rows Display Settle Steps.

Abbreviation Op := (M Store Event).

(** ** Programs that write nothing *)

Section Silent.
Context {S Ev : Type}.

Definition silent {A} (m : M S Ev A) : Prop := forall w, w_own (snd (m w)) = w_own w.

Lemma silent_ret {A} (a : A) : silent (ret a).
Proof. done. Qed.
Lemma silent_fail {A} e : silent (@fail S Ev A e).
Proof. done. Qed.
Lemma silent_emit e : silent (emit e).
Proof. done. Qed.
Lemma silent_emits es : silent (emits es).
Proof. done. Qed.
Lemma silent_read {A} (f : S -> A) : silent (read f).
Proof. intros w. unfold read. by destruct (next_gap (w_gaps w)) as [[e|e why] gs]. Qed.
Lemma silent_readWithin {A} (f : S -> A) : silent (readWithin f).
Proof. intros w. unfold readWithin. by destruct (next_gap (w_gaps w)) as [[e|e [|b]] gs]. Qed.
Lemma silent_catch {A B} (m : M S Ev A) (h : result A -> M S Ev B) :
  silent m -> (forall r, silent (h r)) -> silent (catch m h).
Proof.
  intros Hm Hh w. unfold catch. specialize (Hm w). destruct (m w) as [r w1]. simpl in Hm. by rewrite Hh.
Qed.
Lemma silent_bind {A B} (m : M S Ev A) (k : A -> M S Ev B) :
  silent m -> (forall a, silent (k a)) -> silent (bind m k).
Proof. intros Hm Hk w. rewrite bind_catch. apply silent_catch; [done|]. intros [a|e]; [apply Hk|done]. Qed.

Lemma ensures_silent {A} (Q : result A -> list (S * S) -> Prop) (m : M S Ev A) :
  silent m -> (forall r, Q r []) -> ensures Q m.
Proof. intros Hm HQ w. exists []. by rewrite app_nil_r. Qed.
Lemma ensures_catch_silent {A B} (Q : result B -> list (S * S) -> Prop) (m : M S Ev A) (h : result A -> M S Ev B) :
  silent m -> (forall r, ensures Q (h r)) -> ensures Q (catch m h).
Proof.
  intros Hm Hh. apply (ensures_catch (fun _ own => own = [])); [by apply ensures_silent|]. by intros r o1 ->.
Qed.
Lemma ensures_bind_silent {A B} (Q : result B -> list (S * S) -> Prop) (m : M S Ev A) (k : A -> M S Ev B) :
  silent m -> (forall a, ensures Q (k a)) -> (forall e, Q (Err e) []) -> ensures Q (bind m k).
Proof.
  intros Hm Hk He. apply (ensures_bind (fun _ own => own = [])); [by apply ensures_silent| |].
  - by intros a o1 ->.
  - by intros e o1 ->.
Qed.
End Silent.

Create HintDb silent.
#[export] Hint Resolve silent_ret silent_fail silent_emit silent_emits silent_read silent_readWithin : silent.
Ltac sil :=
  repeat (intros; match goal with
  | |- silent (bind _ _) => apply silent_bind
  | |- silent (catch _ _) => apply silent_catch
  | |- silent (match ?x with _ => _ end) => destruct x eqn:?
  | |- silent (let '(_, _) := ?x in _) => destruct x eqn:?
  | |- silent _ => solve [auto with silent]
  end).

(** ** Programs that begin with a read *)

Section From.
Context {S Ev : Type}.
Implicit Types w : World S Ev.

(** The store the first statement of a program finds in [w]: what the other
    processes left of it by then, and [None] where that statement fails. *)
Definition firstStore w : option S :=
  match fst (next_gap (w_gaps w)) with
  | GapOk env => Some (env (w_store w))
  | GapFail _ _ => None
  end.

(** Under any interference, [Q] relates the store the program's first
    statement read to its result and its own writes. *)
Definition ensures_from {A} (Q : option S -> result A -> list (S * S) -> Prop) (m : M S Ev A) : Prop :=
  forall w, exists own, w_own (snd (m w)) = w_own w ++ own /\ Q (firstStore w) (fst (m w)) own.

Lemma ensures_from_mono {A} (Q Q' : option S -> result A -> list (S * S) -> Prop) (m : M S Ev A) :
  ensures_from Q m -> (forall s0 r own, Q s0 r own -> Q' s0 r own) -> ensures_from Q' m.
Proof. intros H HQ w. destruct (H w) as (own & E & HR). eauto. Qed.

Lemma ensures_any {A} (Q : option S -> result A -> list (S * S) -> Prop) (m : M S Ev A) :
  ensures (fun r own => forall s0, Q s0 r own) m -> ensures_from Q m.
Proof. intros H w. destruct (H w) as (own & E & HR). eauto. Qed.

Lemma ensures_from_read {A} (Q : option S -> result A -> list (S * S) -> Prop) (f : S -> A) :
  (forall s, Q (Some s) (Ok (f s)) []) -> Q None (Err EDriver) [] -> ensures_from Q (read f).
Proof.
  intros H Hn w. exists []. rewrite app_nil_r. unfold read, firstStore.
  destruct (next_gap (w_gaps w)) as [[e|e why] gs]; simpl; auto.
Qed.

Lemma ensures_from_catch {A B} (Q1 : option S -> result A -> list (S * S) -> Prop)
    (Q : option S -> result B -> list (S * S) -> Prop) (m : M S Ev A) (h : result A -> M S Ev B) :
  ensures_from Q1 m ->
  (forall s0 r o1, Q1 s0 r o1 -> ensures (fun r' o2 => Q s0 r' (o1 ++ o2)) (h r)) -> ensures_from Q (catch m h).
Proof.
  intros Hm Hh w. unfold catch. destruct (Hm w) as (o1 & E1 & H1).
  destruct (m w) as [r w1]. simpl in *. destruct (Hh _ r o1 H1 w1) as (o2 & E2 & H2).
  exists (o1 ++ o2). split; [|done]. by rewrite E2, E1, app_assoc.
Qed.

Lemma ensures_from_bind {A B} (Q1 : option S -> result A -> list (S * S) -> Prop)
    (Q : option S -> result B -> list (S * S) -> Prop) (m : M S Ev A) (k : A -> M S Ev B) :
  ensures_from Q1 m ->
  (forall s0 a o1, Q1 s0 (Ok a) o1 -> ensures (fun r' o2 => Q s0 r' (o1 ++ o2)) (k a)) ->
  (forall s0 e o1, Q1 s0 (Err e) o1 -> Q s0 (Err e) o1) ->
  ensures_from Q (bind m k).
Proof.
  intros Hm Hk He w. rewrite bind_catch.
  apply (ensures_from_catch Q1 Q m (fun r => match r with Ok a => k a | Err e => fail e end)); [done|].
  intros s0 [a|e] o1 H1; [by apply Hk|]. apply ensures_fail. rewrite app_nil_r. auto.
Qed.
End From.

(** ** Programs that never fail *)

(** Whatever the other processes do and whatever fails, [m] returns a value
    in [P]. *)
Definition results {A} (P : A -> Prop) (m : M Store Event A) : Prop := forall w, exists a, fst (m w) = Ok a /\ P a.

Section Results.
Lemma results_ret {A} (P : A -> Prop) a : P a -> results P (ret a).
Proof. intros H w. by exists a. Qed.
Lemma results_emit e : results (fun _ => True) (emit e : Op unit).
Proof. intros w. by exists tt. Qed.
Lemma results_catch {A B} (P : B -> Prop) (m : Op A) (h : result A -> Op B) :
  (forall r, results P (h r)) -> results P (catch m h).
Proof. intros H w. unfold catch. destruct (m w) as [r w1]. apply H. Qed.
Lemma results_bind {A B} (P : A -> Prop) (Q : B -> Prop) (m : Op A) (k : A -> Op B) :
  results P m -> (forall a, P a -> results Q (k a)) -> results Q (bind m k).
Proof.
  intros Hm Hk w. unfold bind. destruct (Hm w) as (a & E & Ha). destruct (m w) as [r w1]. simpl in E. subst r. by apply Hk.
Qed.

Lemma results_guarantees {A} (R : Store -> Store -> Prop) (P : A -> Prop) (m : Op A) :
  guarantees R m -> results P m ->
  ensures (fun r own => (exists a, r = Ok a /\ P a) /\ Forall (fun p => R (fst p) (snd p)) own) m.
Proof. intros Hg Hr w. destruct (Hg w) as (own & E & H). exists own. split; [done|]. split; [apply Hr|done]. Qed.

Lemma results_ensures {A} (P : A -> Prop) (m : Op A) :
  guarantees (fun _ _ => True) m -> results P m -> ensures (fun r _ => exists a, r = Ok a /\ P a) m.
Proof. intros Hg Hr w. destruct (Hg w) as (own & E & _). exists own. split; [done|apply Hr]. Qed.
End Results.

Create HintDb res.
#[export] Hint Resolve results_emit : res.

(** [rsl] proves that a program always returns. *)
Ltac rsl :=
  repeat (intros; match goal with
  | |- results _ (ret _) => apply results_ret; try done
  | |- results _ (bind _ _) => apply (results_bind (fun _ => True))
  | |- results _ (catch _ _) => apply results_catch
  | |- results _ (match ?x with _ => _ end) => destruct x eqn:?
  | |- results _ (let '(_, _) := ?x in _) => destruct x eqn:?
  | |- results _ _ => solve [auto with res]
  end).
