(* ===== verification/Gate.v ===== *)
(** * The hook gate (internal/store/hook_gate.go, codex_turn.go,
      hook_writes.go: gatedHookUpdate)

    A hook's write is conditioned on its parent process being the Spawn's
    recorded pane process, in the write's own WHERE ([hookGateSQL]), and every
    applied hook write carries the same SET fragments ([gatedHookUpdate]): the
    liveness markers cleared, the session record, the Codex turn, the pane
    start time, the row version. *)

From S2P Require Import Prelude Sql Rows Display Settle Family Requests.

Record HookGate := mkGate {
  g_CodexStartup : bool;
  g_Cursor : option CursorRuntime;
  g_Event : string;
  g_ParentPID : Z;
  g_ParentStart : string;
  g_SessionID : string;
  g_SessionStart : bool;
  g_Examined : RowSnapshot;
  g_CodexTurn : string;
  g_CodexTurnStart : bool;
  g_CodexTurnEnd : bool;
  g_CodexToolTurn : bool;
}.

#[export] Instance eta_HookGate : Eta HookGate := fun g =>
  mkGate (g_CodexStartup g) (g_Cursor g) (g_Event g) (g_ParentPID g) (g_ParentStart g) (g_SessionID g)
    (g_SessionStart g) (g_Examined g) (g_CodexTurn g) (g_CodexTurnStart g) (g_CodexTurnEnd g) (g_CodexToolTurn g).
#[export] Instance set_g_Cursor : Setter g_Cursor. Proof. solve_setter. Defined.
#[export] Instance set_g_SessionID : Setter g_SessionID. Proof. solve_setter. Defined.
#[export] Instance set_g_SessionStart : Setter g_SessionStart. Proof. solve_setter. Defined.
#[export] Instance set_g_Examined : Setter g_Examined. Proof. solve_setter. Defined.

Record HookApplied := mkApplied { ha_Applied : bool; ha_Reason : string }.
Definition notApplied : HookApplied := mkApplied false "".
Definition appliedOk : HookApplied := mkApplied true "".

Definition HookReasonPIDMismatch : string := "pid_mismatch".
Definition HookReasonNoPaneRecorded : string := "no_pane_recorded".
Definition HookReasonSubagentEvent : string := "subagent_event".

Inductive UpsertOutcome := UpsertInserted | UpsertUpdated | UpsertNoChange | UpsertError.

(** ** The gate *)

(** The Cursor binding a gate presents must be the registered one, of the
    row's current launch, life and pane. *)
Definition cursorBindingSQL (g : HookGate) (b : CursorRuntime) (id : string) (r : SpawnRow)
    (cr : CursorRuntime) : tvl :=
  (sql_eq (Some (cr_InstanceID cr)) (Some id)
   AND sql_eq (Some (cr_Token cr)) (sp_launch_token r)
   AND sql_eq (Some (cr_Life cr)) (Some (sp_life_number r))
   AND sql_eq (Some (cr_GatewayPID cr)) (sp_pane_pid r)
   AND sql_eq (Some (cr_GatewayStart cr)) (sp_pane_starttime r)
   AND sql_eq (Some (cr_InstanceID cr)) (Some (cr_InstanceID b))
   AND sql_eq (Some (cr_Token cr)) (Some (cr_Token b))
   AND sql_eq (Some (cr_Life cr)) (Some (cr_Life b))
   AND sql_eq (Some (cr_GatewayPID cr)) (Some (cr_GatewayPID b))
   AND sql_eq (Some (cr_GatewayStart cr)) (Some (cr_GatewayStart b))
   AND sql_eq (Some (cr_RuntimePID cr)) (Some (cr_RuntimePID b))
   AND sql_eq (Some (cr_RuntimeStart cr)) (Some (cr_RuntimeStart b))
   AND sql_eq (Some (cr_Connection cr)) (Some (cr_Connection b))
   AND sql_eq (Some (cr_InputPipe cr)) (Some (cr_InputPipe b))
   AND sql_eq (Some (cr_OutputPipe cr)) (Some (cr_OutputPipe b))
   AND sql_eq (Some (cr_InputFD cr)) (Some (cr_InputFD b))
   AND sql_eq (Some (cr_OutputFD cr)) (Some (cr_OutputFD b))
   AND sql_eq (Some (cr_SessionID cr)) (Some (g_SessionID g))
   AND sql_eq (Some (cr_Terminated cr)) (Some (cr_Terminated b))).

Definition zeroRuntime : CursorRuntime := mkCursorRuntime "" "" 0 0 "" 0 "" "" "" "" 0 0 "" false.

(** hookGateSQL with hookGateArgs. *)
Definition hookGateSQL (s : Store) (g : HookGate) (id : string) (r : SpawnRow) : tvl :=
  let b := default zeroRuntime (g_Cursor g) in
  (sql_eq (sp_pane_pid r) (positiveIntArg (g_ParentPID g))
   AND sql_ne (Some (g_ParentStart g)) (Some "")
   AND (sql_eq (sp_pane_starttime r) (Some (g_ParentStart g)) OR is_null (sp_pane_starttime r))
   AND (sql_is_not (sp_agent r) (Some AgentCursor)
        OR (Some (bool_decide (is_Some (g_Cursor g)))
            AND Some (existsb (fun p => where3 (cursorBindingSQL g b id r (snd p)))
                        (map_to_list (db_runtimes s)))))).

Definition gateHolds (s : Store) (g : HookGate) (id : string) (r : SpawnRow) : bool :=
  where3 (hookGateSQL s g id r).

(** readHookGateRow, notAppliedReason, hookNotApplied *)
Record hookGateRow := mkGateRow {
  hg_found : bool;
  hg_state : string;
  hg_paneNull : bool;
  hg_gateMatches : bool;
}.

Definition readHookGateRow (id : string) (g : HookGate) : M Store Event hookGateRow :=
  read (fun s =>
    match db_spawns s !! id with
    | Some r => mkGateRow true (sp_state r) (bool_decide (sp_pane_pid r = None)) (gateHolds s g id r)
    | None => mkGateRow false "" false false
    end).

Definition notAppliedReason (r : hookGateRow) : HookApplied :=
  if negb (hg_found r) then notApplied
  else if hg_paneNull r then mkApplied false HookReasonNoPaneRecorded
  else mkApplied false HookReasonPIDMismatch.

Definition hookNotApplied (id : string) (g : HookGate) : M Store Event HookApplied :=
  r <- readHookGateRow id g;;
  ret (notAppliedReason r).

(** ** SET fragments of every gated hook write *)

(** hookSessionRecordSet *)
Definition hookSessionRecordSet (g : HookGate) (jsonlPath : string) (jsonlPresent : bool)
    (old r : SpawnRow) : SpawnRow :=
  if bool_decide (g_SessionID g = "") then r
  else
    let noSession := sql_eq (Some (coalesce (sp_session_id old) "")) (Some "") in
    let r := r <| sp_session_id := case3 noSession (Some (g_SessionID g)) (sp_session_id old) |> in
    if negb (bool_decide (jsonlPath = "")) && jsonlPresent then
      r <| sp_jsonl_path := case3 noSession (Some jsonlPath) (sp_jsonl_path old) |>
    else if negb (bool_decide (jsonlPath = "")) then
      r <| sp_jsonl_path := case3 noSession None (sp_jsonl_path old) |>
    else r.

(** codexTurnSet *)
Definition codexTurnSet (g : HookGate) (old r : SpawnRow) : SpawnRow :=
  if g_CodexTurnStart g then r <| sp_codex_turn := nullableStringArg (g_CodexTurn g) |>
  else if g_CodexTurnEnd g && negb (bool_decide (g_CodexTurn g = "")) then
    r <| sp_codex_turn :=
           case3 (is_null (sp_codex_turn old) OR sql_is (sp_codex_turn old) (sp_codex_turn_ended old)
                  OR sql_is (sp_codex_turn old) (Some (g_CodexTurn g)))
             (Some (g_CodexTurn g)) (sp_codex_turn old) |>
      <| sp_codex_turn_ended := Some (g_CodexTurn g) |>
  else r.

Definition codexToolTurn (g : HookGate) : bool :=
  g_CodexToolTurn g && negb (bool_decide (g_CodexTurn g = "")).

Definition codexToolTurnCurrentSQL (turn : string) (r : SpawnRow) : tvl :=
  case3 (is_null (sp_codex_turn r)) (sql_is_not (sp_codex_turn_ended r) (Some turn))
    (sql_is (sp_codex_turn r) (Some turn) AND sql_is_not (sp_codex_turn r) (sp_codex_turn_ended r)).

(** codexToolTurnLate *)
Definition codexToolTurnLate (id turn : string) : M Store Event bool :=
  read (fun s => match db_spawns s !! id with
                 | Some r => where3 (NOT (codexToolTurnCurrentSQL turn r))
                 | None => false
                 end).

(** hookPaneStartSet, rowVersionAdvance, launchStartClear, idleClear, idleSet *)
Definition hookPaneStartSet (g : HookGate) (r : SpawnRow) : SpawnRow :=
  r <| sp_pane_starttime := coalesce2 (sp_pane_starttime r) (Some (g_ParentStart g)) |>.
Definition rowVersionAdvance (r : SpawnRow) : SpawnRow := r <| sp_row_version := sp_row_version r + 1 |>.
Definition launchStartClear (r : SpawnRow) : SpawnRow := r <| sp_launch_started_at := None |>.
Definition idleClear (r : SpawnRow) : SpawnRow := r <| sp_idle_since := None |>.
Definition idleSet (sec : Z) (r : SpawnRow) : SpawnRow := r <| sp_idle_since := Some sec |>.
Definition livenessClear (r : SpawnRow) : SpawnRow :=
  r <| sp_liveness_unverified_since := None |> <| sp_liveness_note := None |>.

(** A write's own SET fragment, at the statement's clock. *)
Definition fragment : Type := Store -> SpawnRow -> SpawnRow.

(** gatedHookUpdate: the UPDATE, its extra conditions [cond] joined to the
    gate. [update1] applies it to the one row it names. *)
Definition gatedRow (s : Store) (g : HookGate) (set : fragment) (jsonlPath : string)
    (jsonlPresent : bool) (r : SpawnRow) : SpawnRow :=
  rowVersionAdvance (hookPaneStartSet g (codexTurnSet g r (hookSessionRecordSet g jsonlPath jsonlPresent r
    (livenessClear (set s r))))).

Definition gatedHookUpdate (id : string) (g : HookGate) (set : fragment) (jsonlPath : string)
    (jsonlPresent : bool) (cond : Store -> SpawnRow -> tvl) (s : Store) : bool * Store :=
  update1 id (fun s r =>
    if where3 (hookGateSQL s g id r AND cond s r)
    then Some (gatedRow s g set jsonlPath jsonlPresent r) else None) s.

Definition noCond : Store -> SpawnRow -> tvl := fun _ _ => Some true.

(** The SET fragments of the writes. *)
Definition softRefreshSet : fragment := fun s r =>
  idleClear (r <| sp_last_seen_at := nowSec s |>).
Definition idleRefreshSet : fragment := fun s r =>
  idleSet (nowSec s) (r <| sp_last_seen_at := nowSec s |>).
Definition endReportSet : fragment := fun s r =>
  softRefreshSet s r <| sp_end_reported_at := Some (db_now s) |>.
Definition transitionSet (settleMs : Z) (newState : string) : fragment := fun s r =>
  let r := hookWriteStateSet newState settleMs (db_now s) r in
  let r := idleClear (r <| sp_last_seen_at := nowSec s |> <| sp_ended_at := None |>) in
  if bool_decide (newState = StatePending) then r else launchStartClear r.
Definition waitingSet (settleMs : Z) : fragment := fun s r =>
  let r := hookWriteStateSet StateWaiting settleMs (db_now s) r in
  idleSet (nowSec s) (launchStartClear (r <| sp_last_seen_at := nowSec s |> <| sp_ended_at := None |>)).
Definition endedTransitionSet : fragment := fun s r =>
  let r := immediateStateSet StateEnded (db_now s) r in
  idleClear (launchStartClear (r <| sp_last_seen_at := nowSec s |> <| sp_ended_at := Some (nowSec s) |>)).

(** ** Lemmas *)

Lemma gate_parent s g id r : gateHolds s g id r = true ->
  0 < g_ParentPID g /\ sp_pane_pid r = Some (g_ParentPID g) /\ g_ParentStart g <> "" /\
  (sp_pane_starttime r = Some (g_ParentStart g) \/ sp_pane_starttime r = None).
Proof.
  unfold gateHolds, hookGateSQL, positiveIntArg.
  rewrite !where3_and. intros [H1 [H2 [H3 _]%andb_true_iff]%andb_true_iff]%andb_true_iff.
  destruct (0 <? g_ParentPID g) eqn:E; [|by destruct (sp_pane_pid r)].
  rewrite where3_sql_eq in H1. rewrite where3_or, where3_is_null, where3_sql_eq in H3.
  unfold sql_ne, sql_eq, lift2 in H2. rewrite not3_Some, where3_Some in H2.
  apply orb_true_iff in H3. split_and!; [lia| | |destruct H3; [left|right]]; by bsimp.
Qed.
