(* ===== verification/HookWrites.v ===== *)
(** * Hook writes (internal/store/hook_writes.go, codex_turn.go: EndCodexTurn)

    The gated writes of an agent's hooks. Each is a sequence of reads,
    guarded statements and transactions ([M]); between two of them any other
    process may write. [settleMs] is the store's settle time, [startupText]
    the JSON text encoding/json gives of a CodexStartup. *)

From S2P Require Import Prelude Sql Rows Display Settle Family Requests History Steps Gate.

(** ** Codex startup provenance (codex_startup.go) *)

Record CodexStartup := mkStartup {
  cs_LaunchToken : string;
  cs_SessionID : string;
  cs_JSONLPath : string;
  cs_PID : Z;
  cs_Starttime : string;
}.

Definition maxCodexStartupBytes : Z := 8192.
Definition len (s : string) : Z := Z.of_nat (String.length s).

(** filepath.IsAbs, on Unix. *)
Definition IsAbs (p : string) : bool :=
  String.prefix "/" p.

Definition startup_valid (p : CodexStartup) : bool :=
  negb (bool_decide (decodeLaunchToken (DText (cs_LaunchToken p)) = ""))
  && negb (bool_decide (cs_SessionID p = "")) && (len (cs_SessionID p) <=? 256)
  && IsAbs (cs_JSONLPath p) && (len (cs_JSONLPath p) <=? 4096)
  && (0 <? cs_PID p) && negb (bool_decide (cs_Starttime p = ""))
  && (len (cs_Starttime p) <=? 128).

Record sessionStartPrior := mkPrior {
  sp0_agent : string;
  sp0_launchToken : string;
  sp0_state : string;
  sp0_jsonlPath : string;
  sp0_life : Z;
}.

Section HookWrites.
Context (settleMs : Z) (startupText : CodexStartup -> string).

Abbreviation Op := (M Store Event).

Definition codexStartupArg (prior : sessionStartPrior) (gate : HookGate) (path : string)
    : option string :=
  let p := mkStartup (sp0_launchToken prior) (g_SessionID gate) path (g_ParentPID gate)
             (g_ParentStart gate) in
  if negb (bool_decide (sp0_agent prior = AgentCodex)) || negb (bool_decide (g_Event gate = "SessionStart"))
     || negb (bool_decide (rs_SessionID (g_Examined gate) = "")) || negb (g_CodexStartup gate)
     || negb (startup_valid p)
  then None
  else if maxCodexStartupBytes <? len (startupText p) then None
  else Some (startupText p).

Definition selectPriorState (id : string) : Op (option string) :=
  read (fun s => sp_state <$> db_spawns s !! id).

Definition transition (id prior new trig : string) (soft : bool) : Op unit :=
  emit (EvStateTransition id prior new trig soft).

(** applyGatedHookWrite *)
Definition applyGatedHookWrite (id : string) (gate : HookGate) (set : fragment)
    (priorState trailNew : string) (softRefresh : bool) (trig path : string) (present : bool)
    : Op (UpsertOutcome * HookApplied) :=
  n <- execGuarded settleMs id (gatedHookUpdate id gate set path present noCond);;
  if negb n then
    a <- hookNotApplied id gate;;
    ret (UpsertNoChange, a)
  else
    transition id priorState trailNew trig softRefresh;;;
    ret (UpsertUpdated, appliedOk).

(** clearIdleSinceSQL and codexHeldTurnSQL *)
Definition clearIdleSince (id : string) (gate : HookGate) (s : Store) : bool * Store :=
  update1 id (fun s r =>
    if where3 (not_null (sp_idle_since r) AND hookGateSQL s gate id r)
    then Some (rowVersionAdvance (idleClear r)) else None) s.
Definition codexHeldTurn (id : string) (gate : HookGate) (s : Store) : bool * Store :=
  let turn := nullableStringArg (g_CodexTurn gate) in
  update1 id (fun s r =>
    if where3 ((not_null (sp_idle_since r) OR sql_is_not (sp_codex_turn r) turn)
               AND hookGateSQL s gate id r)
    then Some (rowVersionAdvance (idleClear r <| sp_codex_turn := turn |>)) else None) s.

Definition reportWorkingHeld (id : string) (gate : HookGate) (trig : string)
    : Op (UpsertOutcome * HookApplied) :=
  r <- readHookGateRow id gate;;
  if negb (hg_found r) || negb (hg_gateMatches r) then ret (UpsertNoChange, notAppliedReason r)
  else
    execGuarded settleMs id
      (if g_CodexTurnStart gate then codexHeldTurn id gate else clearIdleSince id gate);;;
    transition id (hg_state r) (hg_state r) trig false;;;
    ret (UpsertNoChange, appliedOk).

(** holdWorkingTransition: [None] when no request holds the row at the read. *)
Definition holdWorkingTransition (id : string) (gate : HookGate) (trig : string)
    : Op (option (UpsertOutcome * HookApplied)) :=
  holding <- read (fun s => requestHoldsRow s id);;
  if negb holding then ret None
  else
    res <- reportWorkingHeld id gate trig;;
    ret (Some res).

(** applyWorkingWrite *)
Definition workingCond (id newState : string) (gate : HookGate) (s : Store) (r : SpawnRow) : tvl :=
  (noRequestHoldsRowSQL s id
   AND (if bool_decide (newState = StateWorking) && codexToolTurn gate
        then codexToolTurnCurrentSQL (g_CodexTurn gate) r else Some true)).

Definition applyWorkingWrite (id : string) (gate : HookGate) (set : fragment)
    (priorState newState trig path : string) (present : bool) : Op (UpsertOutcome * HookApplied) :=
  let turnGuarded := bool_decide (newState = StateWorking) && codexToolTurn gate in
  moved <- execGuarded settleMs id
             (gatedHookUpdate id gate set path present (workingCond id newState gate));;
  if negb moved then
    soft <- (if bool_decide (is_Some (g_Cursor gate)) then ret true
             else if turnGuarded then codexToolTurnLate id (g_CodexTurn gate)
             else ret false);;
    if soft : bool then
      prior <- selectPriorState id;;
      match prior with
      | None => ret (UpsertNoChange, notApplied)
      | Some prior =>
          applyGatedHookWrite id gate softRefreshSet prior prior true trig path present
      end
    else reportWorkingHeld id gate trig
  else
    transition id priorState newState trig false;;;
    ret (UpsertUpdated, appliedOk).

(** applyEndedTransition *)
Definition endedBody (id : string) (gate : HookGate) (path : string) (present : bool)
    : Tx Store (string * list closedRequest) :=
  prior <-- tread (fun s => sp_state <$> db_spawns s !! id);;
  match prior with
  | None => tfail ENotApplied
  | Some prior =>
      n <-- tstmt (fun s => Ok (gatedHookUpdate id gate endedTransitionSet path present noCond s));;
      if negb n then tfail ENotApplied
      else
        at_ <-- tread storeNowMillis;;
        closed <-- closeOrphanedRequests id DecisionReasonEnded at_;;
        closeSubagentsAgentGone id at_;;>
        tret (prior, closed)
  end.

Definition applyEndedTransition (id : string) (gate : HookGate) (trig path : string) (present : bool)
    : Op (UpsertOutcome * HookApplied) :=
  catch (inImmediateTx settleMs id (endedBody id gate path present))
    (fun r => match r with
     | Err ENotApplied =>
         a <- hookNotApplied id gate;;
         ret (UpsertNoChange, a)
     | Err e => fail e
     | Ok (prior, closed) =>
         emits (closed ≫= emitDeny id DecisionReasonEnded WriterProcessHook);;;
         transition id prior StateEnded trig false;;;
         ret (UpsertUpdated, appliedOk)
     end).

(** ApplyHookTransitionResult: from its read of the prior state on, and
    whole. [guarded] moves carry the hold condition in their own WHERE. *)
Definition writeTransition (id : string) (gate : HookGate) (newState : string)
    (softRefresh guarded : bool) (trig path : string) (present : bool) : Op (UpsertOutcome * HookApplied) :=
  if negb softRefresh && bool_decide (newState = StateEnded) then
    applyEndedTransition id gate trig path present
  else
    prior <- selectPriorState id;;
    match prior with
    | None => ret (UpsertNoChange, notApplied)
    | Some prior =>
        let set := if softRefresh then softRefreshSet else transitionSet settleMs newState in
        let trailNew := if softRefresh then prior else newState in
        if guarded then applyWorkingWrite id gate set prior newState trig path present
        else applyGatedHookWrite id gate set prior trailNew softRefresh trig path present
    end.

Definition guardedTransition (gate : HookGate) (newState : string) (softRefresh working : bool) : bool :=
  working || (negb softRefresh && bool_decide (newState = StateWaiting)
              && bool_decide (is_Some (g_Cursor gate))).

Definition ApplyHookTransitionResult (id : string) (gate : HookGate) (newState : string)
    (softRefresh : bool) (trig path : string) (present : bool) : Op (UpsertOutcome * HookApplied) :=
  let working := negb softRefresh && bool_decide (newState = StateWorking) in
  late <- (if working && codexToolTurn gate then codexToolTurnLate id (g_CodexTurn gate) else ret false);;
  let '(working, softRefresh, newState) :=
    if late : bool then (false, true, "") else (working, softRefresh, newState) in
  let guarded := guardedTransition gate newState softRefresh working in
  held <- (if working && bool_decide (g_Cursor gate = None)
           then holdWorkingTransition id gate trig else ret None);;
  match held with
  | Some res => ret res
  | None => writeTransition id gate newState softRefresh guarded trig path present
  end.

(** ApplyHookEndReport *)
Definition ApplyHookEndReport (id : string) (gate : HookGate) (trig path : string) (present : bool)
    : Op (UpsertOutcome * HookApplied) :=
  prior <- selectPriorState id;;
  match prior with
  | None => ret (UpsertNoChange, notApplied)
  | Some prior => applyGatedHookWrite id gate endReportSet prior prior true trig path present
  end.

(** ApplyHookWaitingIfWorking *)
Definition fromWorking (s : Store) (r : SpawnRow) : tvl := sql_eq (Some (sp_state r)) (Some StateWorking).
Definition fromCheckPermission (id : string) (s : Store) (r : SpawnRow) : tvl :=
  (sql_eq (Some (sp_state r)) (Some StateCheckPermission)
   AND sql_eq (Some (sp_relay_mode r)) (Some "on") AND noRequestHoldsRowSQL s id).

Definition ApplyHookWaitingIfWorking (id : string) (gate : HookGate) (trig path : string) (present : bool)
    : Op (UpsertOutcome * HookApplied) :=
  let attempt cond := execGuarded settleMs id
    (gatedHookUpdate id gate (waitingSet settleMs) path present cond) in
  moved <- attempt fromWorking;;
  if moved : bool then
    transition id StateWorking StateWaiting trig false;;;
    ret (UpsertUpdated, appliedOk)
  else
    moved <- attempt (fromCheckPermission id);;
    if moved : bool then
      transition id StateCheckPermission StateWaiting trig false;;;
      ret (UpsertUpdated, appliedOk)
    else
      prior <- selectPriorState id;;
      match prior with
      | None => ret (UpsertNoChange, notApplied)
      | Some prior => applyGatedHookWrite id gate idleRefreshSet prior prior true trig path present
      end.

(** readSessionStartPrior and sessionStartNotApplied *)
Definition readSessionStartPrior (id : string) (examined : RowSnapshot) : Op (option sessionStartPrior) :=
  read (fun s =>
    match db_spawns s !! id with
    | Some r =>
        if where3 (snapshotMatchSQL r examined)
        then Some (mkPrior (coalesce (sp_agent r) "") (coalesce (sp_launch_token r) "") (sp_state r)
                     (coalesce (sp_jsonl_path r) "") (sp_life_number r))
        else None
    | None => None
    end).

Definition sessionStartNotApplied (id : string) (gate : HookGate) : Op (HookApplied * bool) :=
  r <- readHookGateRow id gate;;
  if hg_found r && hg_gateMatches r then ret (notApplied, true)
  else ret (notAppliedReason r, false).

(** RecordSessionStartIdentity *)
Definition sessionStartSet (gate : HookGate) (startup : option string) (path : string) (present : bool)
    : fragment := fun s old =>
  let r := hookWriteStateSet StateWaiting settleMs (db_now s) old in
  let r := r <| sp_last_seen_at := nowSec s |> <| sp_ended_at := None |>
             <| sp_session_id := coalesce2 (nullableStringArg (g_SessionID gate)) (sp_session_id old) |>
             <| sp_codex_startup := startup |> <| sp_claude_capacity := None |> in
  let r := if negb (bool_decide (path = "")) && present then r <| sp_jsonl_path := Some path |>
           else if negb (bool_decide (path = "")) then r <| sp_jsonl_path := None |> else r in
  let r := r <| sp_pid := positiveIntArg (g_ParentPID gate) |>
             <| sp_proc_starttime := nullableStringArg (g_ParentStart gate) |> in
  rowVersionAdvance (launchStartClear (hookPaneStartSet gate
    (idleClear (livenessClear r) <| sp_end_reported_at := None |>))).

Definition sessionStartUpdate (id : string) (gate : HookGate) (startup : option string)
    (path : string) (present : bool) (s : Store) : bool * Store :=
  update1 id (fun s r =>
    if where3 (hookGateSQL s gate id r AND snapshotMatchSQL r (g_Examined gate))
    then Some (sessionStartSet gate startup path present s r) else None) s.

Definition sessionStartArchives (gate : HookGate) : bool :=
  let outgoing := rs_SessionID (g_Examined gate) in
  negb (bool_decide (outgoing = "")) && negb (bool_decide (g_SessionID gate = ""))
  && negb (bool_decide (outgoing = g_SessionID gate)).

Definition sessionStartBody (id : string) (gate : HookGate) (prior : sessionStartPrior)
    (path : string) (present : bool) : Tx Store (result unit) :=
  n <-- tstmt (fun s => Ok (sessionStartUpdate id gate (codexStartupArg prior gate path) path present s));;
  if negb n then tfail ENotApplied
  else
    archived <-- (if sessionStartArchives gate
                  then ttry (tstmt (upsertSessionHistoryEntry id (rs_SessionID (g_Examined gate))
                               (sp0_jsonlPath prior) (sp0_life prior)))
                  else tret (Ok tt));;
    tstmt (fun s => Ok (tt, refreshFamilies settleMs s));;>
    tret archived.

Definition RecordSessionStartIdentity (id : string) (gate : HookGate) (path : string) (present : bool)
    : Op (HookApplied * bool) :=
  prior <- readSessionStartPrior id (g_Examined gate);;
  match prior with
  | None => sessionStartNotApplied id gate
  | Some prior =>
      catch (txImmediate (sessionStartBody id gate prior path present))
        (fun r => match r with
         | Err ENotApplied => sessionStartNotApplied id gate
         | Err e => fail e
         | Ok archived =>
             let event := if bool_decide (g_Event gate = "") then "SessionStart" else g_Event gate in
             transition id (sp0_state prior) StateWaiting event false;;;
             (match archived with
              | Err _ => emit (EvArchiveFailed id (rs_SessionID (g_Examined gate)))
              | Ok _ => if sessionStartArchives gate
                        then emit (EvArchived id (rs_SessionID (g_Examined gate)) (g_SessionID gate))
                        else ret tt
              end);;;
             ret (appliedOk, false)
         end)
  end.

(** EndCodexTurn *)
Record CodexOpenTurn := mkOpenTurn {
  ct_InstanceID : string;
  ct_SessionID : string;
  ct_JSONLPath : string;
  ct_Turn : string;
}.

Definition codexOpenTurnSQL (r : SpawnRow) : tvl :=
  (sql_eq (sp_agent r) (Some AgentCodex) AND sql_eq (Some (sp_state r)) (Some StateWorking)
   AND not_null (sp_codex_turn r) AND sql_is_not (sp_codex_turn r) (sp_codex_turn_ended r)
   AND sql_ne (Some (coalesce (sp_jsonl_path r) "")) (Some "")).

Definition endCodexTurnUpdate (t : CodexOpenTurn) (s : Store) : bool * Store :=
  update1 (ct_InstanceID t) (fun s r =>
    if where3 (sql_eq (sp_codex_turn r) (Some (ct_Turn t)) AND sql_eq (sp_jsonl_path r) (Some (ct_JSONLPath t))
               AND codexOpenTurnSQL r)
    then Some (rowVersionAdvance (hookWriteStateSet StateWaiting settleMs (db_now s) r
                 <| sp_codex_turn_ended := sp_codex_turn r |>))
    else None) s.

Definition endCodexTurnBody (t : CodexOpenTurn) : Tx Store (bool * list Event) :=
  n <-- tstmt (fun s => Ok (endCodexTurnUpdate t s));;
  if negb n then tret (false, [])
  else
    tstmt (fun s => Ok (tt, refreshFamilies settleMs s));;>
    exits <-- takeDisplayExits (ct_InstanceID t);;
    tret (true, exits).

Definition EndCodexTurn (t : CodexOpenTurn) : Op bool :=
  catch (txBounded (endCodexTurnBody t))
    (fun r => match r with
     | Err ECommitUnconfirmed => ret false
     | Err e => fail e
     | Ok (moved, exits) =>
         if negb moved then ret false
         else
           emits exits;;;
           transition (ct_InstanceID t) StateWorking StateWaiting "task_complete" false;;;
           ret true
     end).

(** CodexOpenTurns over the whole store (instanceID ""). *)
Definition CodexOpenTurns : Op (list CodexOpenTurn) :=
  read (fun s => omap (fun p =>
    let r := snd p in
    if where3 (codexOpenTurnSQL r)
    then Some (mkOpenTurn (fst p) (coalesce (sp_session_id r) "") (coalesce (sp_jsonl_path r) "")
                 (coalesce (sp_codex_turn r) ""))
    else None) (map_to_list (db_spawns s))).
End HookWrites.

#[global] Arguments reportWorkingHeld : simpl never.
#[global] Arguments applyGatedHookWrite : simpl never.
#[global] Arguments applyWorkingWrite : simpl never.
#[global] Arguments applyEndedTransition : simpl never.
#[global] Arguments writeTransition : simpl never.
#[global] Arguments gatedRow : simpl never.
#[global] Arguments gateHolds : simpl never.
#[global] Arguments requestHoldsRow : simpl never.

(** ** What a hook write may do to a row *)

(** The columns no hook writes: the Spawn's identity, its launch's token,
    owner, socket and server, and its pane's id and pid. *)
Definition hookIdentity (r : SpawnRow) :=
  (sp_parent_id r, sp_cwd r, sp_tmux_session_name r, sp_agent_args r, sp_relay_mode r, sp_labels r,
   sp_started_at r, sp_extra_env r, sp_life_number r, sp_no_pre_trust r, sp_launch_token r,
   (sp_tmux_socket r, sp_tmux_server_pid r, sp_tmux_server_started r, sp_tmux_server_starttime r,
    sp_pane_id r, sp_pane_pid r, sp_launch_owner_pid r, sp_launch_owner_starttime r,
    sp_launch_owner_pidns r, sp_agent r, sp_subagent_tracking r, sp_idle_screen_timeout_seconds r)).

(** The two launch columns a hook does write: the pane's start time, recorded
    once, from the hook's parent, where the create left none; and the launch's
    start, cleared by a write that leaves the row in another state than
    pending. *)
Definition launchCleared (r r' : SpawnRow) : Prop :=
  sp_launch_started_at r' = sp_launch_started_at r \/
  (sp_launch_started_at r' = None /\ sp_state r' <> StatePending).
Definition hookLaunch (g : HookGate) (r r' : SpawnRow) : Prop :=
  (sp_pane_starttime r' = sp_pane_starttime r \/
   (sp_pane_starttime r = None /\ sp_pane_starttime r' = Some (g_ParentStart g))) /\
  launchCleared r r'.

Definition hook_change (g : HookGate) (id : string) (s : Store) (j : string) (r r' : SpawnRow) : Prop :=
  same_core r r' \/
  (j = id /\ gateHolds s g id r = true /\ sp_row_version r' = sp_row_version r + 1 /\
   (hookIdentity r' = hookIdentity r /\ hookLaunch g r r') /\
   (sp_state r' = StateWorking -> sp_state r <> StateWorking ->
    where3 (workingCond id StateWorking g s r) = true)).

(** A SET fragment of the hook writes: it keeps the identity, leaves the
    version to [rowVersionAdvance] and the pane's start time to
    [hookPaneStartSet]. *)
Definition set_launch (set : fragment) : Prop :=
  forall s r, sp_pane_starttime (set s r) = sp_pane_starttime r /\ launchCleared r (set s r).
Definition set_ok (set : fragment) : Prop :=
  (forall s r, hookIdentity (set s r) = hookIdentity r /\ sp_row_version (set s r) = sp_row_version r) /\ set_launch set.

Ltac fields :=
  unfold hookIdentity, softRefreshSet, idleRefreshSet, endReportSet, transitionSet, waitingSet,
    endedTransitionSet, rowVersionAdvance, hookPaneStartSet, launchStartClear, idleClear, idleSet,
    livenessClear, hookWriteStateSet, hookStateSet, immediateStateSet, immediateSettleSet; cbv zeta.

Lemma hookWrite_fields v T now r :
  hookIdentity (hookWriteStateSet v T now r) = hookIdentity r /\
  sp_row_version (hookWriteStateSet v T now r) = sp_row_version r /\
  sp_state (hookWriteStateSet v T now r) = v.
Proof. fields. destruct (isTerminalState v); rsimp; done. Qed.

Lemma hookWrite_launch v T now r :
  sp_pane_starttime (hookWriteStateSet v T now r) = sp_pane_starttime r /\
  sp_launch_started_at (hookWriteStateSet v T now r) = sp_launch_started_at r.
Proof. fields. destruct (isTerminalState v); rsimp; done. Qed.

Lemma launch_kept q r : sp_pane_starttime q = sp_pane_starttime r -> sp_launch_started_at q = sp_launch_started_at r ->
  sp_pane_starttime q = sp_pane_starttime r /\ launchCleared r q.
Proof. intros. split; [done|by left]. Qed.

Lemma soft_ok : set_ok softRefreshSet.
Proof. split; intros s r; [|apply launch_kept]; fields; rsimp; done. Qed.
Lemma idleRefresh_ok : set_ok idleRefreshSet.
Proof. split; intros s r; [|apply launch_kept]; fields; rsimp; done. Qed.
Lemma endReport_ok : set_ok endReportSet.
Proof. split; intros s r; [|apply launch_kept]; fields; rsimp; done. Qed.
Lemma ended_ok : set_ok endedTransitionSet.
Proof.
  split; intros s r; [fields; rsimp; done|]. unfold launchCleared. fields. rsimp. split; [done|]. by right.
Qed.

Lemma transition_identity T v s r :
  hookIdentity (transitionSet T v s r) = hookIdentity r /\ sp_row_version (transitionSet T v s r) = sp_row_version r.
Proof.
  unfold transitionSet. cbv zeta.
  destruct (hookWrite_fields v T (db_now s) r) as (E1 & E2 & _). revert E1 E2.
  generalize (hookWriteStateSet v T (db_now s) r). intros q E1 E2.
  rewrite <- E1, <- E2. fields. case_bool_decide; rsimp; done.
Qed.

Lemma waiting_identity T s r :
  hookIdentity (waitingSet T s r) = hookIdentity r /\ sp_row_version (waitingSet T s r) = sp_row_version r.
Proof.
  unfold waitingSet. cbv zeta.
  destruct (hookWrite_fields StateWaiting T (db_now s) r) as (E1 & E2 & _). revert E1 E2.
  generalize (hookWriteStateSet StateWaiting T (db_now s) r). intros q E1 E2.
  rewrite <- E1, <- E2. fields. rsimp. done.
Qed.

Lemma transition_state T v s r : sp_state (transitionSet T v s r) = v.
Proof.
  unfold transitionSet. cbv zeta. destruct (hookWrite_fields v T (db_now s) r) as (_ & _ & E).
  revert E. generalize (hookWriteStateSet v T (db_now s) r). intros q <-.
  fields. case_bool_decide; rsimp; done.
Qed.

Lemma waiting_state T s r : sp_state (waitingSet T s r) = StateWaiting.
Proof.
  unfold waitingSet. cbv zeta. destruct (hookWrite_fields StateWaiting T (db_now s) r) as (_ & _ & E).
  revert E. generalize (hookWriteStateSet StateWaiting T (db_now s) r). intros q <-. fields. by rsimp.
Qed.

Lemma transition_ok T v : set_ok (transitionSet T v).
Proof.
  split; [by apply transition_identity|]. intros s r. pose proof (transition_state T v s r) as Hv. unfold launchCleared.
  rewrite Hv. clear Hv. unfold transitionSet. cbv zeta. destruct (hookWrite_launch v T (db_now s) r) as [E1 E2]. revert E1 E2.
  generalize (hookWriteStateSet v T (db_now s) r). intros q E1 E2. rewrite <- E1, <- E2. fields.
  case_bool_decide; rsimp; (split; [done|]); [by left|by right].
Qed.

Lemma waiting_ok T : set_ok (waitingSet T).
Proof.
  split; [by apply waiting_identity|]. intros s r. pose proof (waiting_state T s r) as Hv. unfold launchCleared.
  rewrite Hv. clear Hv. unfold waitingSet. cbv zeta. destruct (hookWrite_launch StateWaiting T (db_now s) r) as [E1 E2].
  revert E1 E2. generalize (hookWriteStateSet StateWaiting T (db_now s) r). intros q E1 E2. rewrite <- E1. fields. rsimp.
  split; [done|]. by right.
Qed.

Lemma sessionRecord_fields g path present old r :
  let r' := hookSessionRecordSet g path present old r in
  hookIdentity r' = hookIdentity r /\ sp_row_version r' = sp_row_version r /\ sp_state r' = sp_state r.
Proof.
  cbv zeta. unfold hookSessionRecordSet. cbv zeta.
  destruct (bool_decide _); [done|]. destruct (_ && present); [|destruct (negb _)];
    unfold hookIdentity; rsimp; done.
Qed.

Lemma codexTurn_fields g old r :
  let r' := codexTurnSet g old r in
  hookIdentity r' = hookIdentity r /\ sp_row_version r' = sp_row_version r /\ sp_state r' = sp_state r.
Proof.
  cbv zeta. unfold codexTurnSet. destruct (g_CodexTurnStart g); [|destruct (_ && _); [|done]];
    unfold hookIdentity; rsimp; done.
Qed.

Lemma gatedRow_fields s g set path present r : set_ok set ->
  let r' := gatedRow s g set path present r in
  hookIdentity r' = hookIdentity r /\ sp_row_version r' = sp_row_version r + 1 /\
  sp_state r' = sp_state (set s r).
Proof.
  intros [Hok _]. cbv zeta. unfold gatedRow. destruct (Hok s r) as [E1 E2].
  set (q := livenessClear (set s r)).
  assert (hookIdentity q = hookIdentity r /\ sp_row_version q = sp_row_version r /\
          sp_state q = sp_state (set s r)) as (F1 & F2 & F3).
  { unfold q. rewrite <- E1, <- E2. fields. rsimp. done. }
  destruct (sessionRecord_fields g path present r q) as (G1 & G2 & G3).
  destruct (codexTurn_fields g r (hookSessionRecordSet g path present r q)) as (H1 & H2 & H3).
  revert H1 H2 H3. generalize (codexTurnSet g r (hookSessionRecordSet g path present r q)).
  intros q' H1 H2 H3. rewrite <- F1, <- F3, <- G1, <- G3, <- H1, <- H3, <- F2, <- G2, <- H2.
  fields. rsimp. done.
Qed.

Lemma sessionRecord_launch g path present old r :
  sp_pane_starttime (hookSessionRecordSet g path present old r) = sp_pane_starttime r /\
  sp_launch_started_at (hookSessionRecordSet g path present old r) = sp_launch_started_at r.
Proof.
  unfold hookSessionRecordSet. cbv zeta.
  destruct (bool_decide _); [done|]. destruct (_ && present); [|destruct (negb _)]; rsimp; done.
Qed.
Lemma codexTurn_launch g old r :
  sp_pane_starttime (codexTurnSet g old r) = sp_pane_starttime r /\
  sp_launch_started_at (codexTurnSet g old r) = sp_launch_started_at r.
Proof. unfold codexTurnSet. destruct (g_CodexTurnStart g); [|destruct (_ && _); [|done]]; rsimp; done. Qed.

Lemma paneStart_launch g q r : sp_pane_starttime q = sp_pane_starttime r ->
  sp_pane_starttime (hookPaneStartSet g q) = sp_pane_starttime r \/
  (sp_pane_starttime r = None /\ sp_pane_starttime (hookPaneStartSet g q) = Some (g_ParentStart g)).
Proof.
  intros E. unfold hookPaneStartSet. rsimp. rewrite E. destruct (sp_pane_starttime r) as [st|]; [by left|by right].
Qed.

Lemma gatedRow_launch s g set path present r : set_ok set -> hookLaunch g r (gatedRow s g set path present r).
Proof.
  intros Hok. pose proof (gatedRow_fields s g set path present r Hok) as (_ & _ & Hst). cbv zeta in Hst.
  destruct Hok as [_ Hl]. destruct (Hl s r) as [E1 E2].
  assert (sp_launch_started_at (gatedRow s g set path present r) = sp_launch_started_at (set s r) /\
    (sp_pane_starttime (gatedRow s g set path present r) = sp_pane_starttime r \/
     (sp_pane_starttime r = None /\ sp_pane_starttime (gatedRow s g set path present r) = Some (g_ParentStart g)))) as [H1 H2].
  { unfold gatedRow. set (q := livenessClear (set s r)). destruct (sessionRecord_launch g path present r q) as [G1 G2].
    destruct (codexTurn_launch g r (hookSessionRecordSet g path present r q)) as [F1 F2].
    assert (sp_pane_starttime q = sp_pane_starttime r /\ sp_launch_started_at q = sp_launch_started_at (set s r)) as [Q1 Q2]
      by (unfold q; rewrite <-E1; fields; rsimp; done).
    revert F1 F2. generalize (codexTurnSet g r (hookSessionRecordSet g path present r q)). intros q' F1 F2.
    split; [rewrite <-Q2, <-G2, <-F2; fields; by rsimp|].
    destruct (paneStart_launch g q' r) as [H|[Hn H]]; [by rewrite F1, G1, Q1|left|right]; rewrite <-H; fields; by rsimp. }
  split; [done|]. unfold launchCleared in *. by rewrite H1, Hst.
Qed.

Lemma hook_change_core g id s j r r1 r' :
  hook_change g id s j r r1 -> same_core r1 r' -> hook_change g id s j r r'.
Proof.
  intros [H|(-> & Hg & Hv & [Hi Hl] & Hw)] Hc; [left; by etrans|right].
  core_eq Hc sp_row_version. core_eq Hc hookIdentity. core_eq Hc sp_state. core_eq Hc sp_pane_starttime.
  core_eq Hc sp_launch_started_at. split_and!; [done..|congruence|congruence| |intros H; apply Hw; congruence].
  unfold hookLaunch, launchCleared in *. by repeat match goal with E : ?a = ?b |- _ => rewrite <-E; clear E end.
Qed.

(** ** Every write of a hook, under any interference *)

Definition hook_writes (g : HookGate) (id : string) (s s' : Store) : Prop :=
  rows_step (hook_change g id) s s'.

Lemma gatedHookUpdate_guarantees T id g set path present cond :
  set_ok set ->
  (forall s r, where3 (cond s r) = true -> sp_state (set s r) = StateWorking ->
     sp_state r <> StateWorking -> where3 (workingCond id StateWorking g s r) = true) ->
  guarantees (hook_writes g id) (execGuarded T id (gatedHookUpdate id g set path present cond)).
Proof.
  intros Hok Hcond. eapply guarantees_mono.
  - apply (guarantees_execGuarded (hook_change g id)).
    + intros s j r r' H. by left.
    + intros s r r1 r' Hr Hu Hc. destruct (where3 _) eqn:E; [|done]. injection Hu as <-.
      rewrite where3_and in E. apply andb_true_iff in E as [Eg Ec].
      apply (hook_change_core g id s id r (gatedRow s g set path present r)); [right|done].
      destruct (gatedRow_fields s g set path present r Hok) as (E1 & E2 & E3).
      split_and!; [done..|by apply gatedRow_launch|]. rewrite E3. by apply Hcond.
  - intros s s' [H _]. exact H.
Qed.

Lemma rowUpdate_guarantees T id g (upd : Store -> SpawnRow -> option SpawnRow) :
  (forall s r r1, upd s r = Some r1 -> gateHolds s g id r = true /\
     sp_row_version r1 = sp_row_version r + 1 /\ hookIdentity r1 = hookIdentity r /\
     sp_state r1 = sp_state r /\ sp_pane_starttime r1 = sp_pane_starttime r /\
     sp_launch_started_at r1 = sp_launch_started_at r) ->
  guarantees (hook_writes g id) (execGuarded T id (update1 id upd)).
Proof.
  intros Hu. eapply guarantees_mono.
  - apply (guarantees_execGuarded (hook_change g id)).
    + intros s j r r' H. by left.
    + intros s r r1 r' Hr E Hc. destruct (Hu s r r1 E) as (H1 & H2 & H3 & H4 & H5 & H6).
      apply (hook_change_core g id s id r r1); [right|done].
      split_and!; [done..|split; [by left|by left]|congruence].
  - intros s s' [H _]. exact H.
Qed.

Lemma clearIdleSince_guarantees T id g :
  guarantees (hook_writes g id) (execGuarded T id (clearIdleSince id g)).
Proof.
  apply rowUpdate_guarantees. intros s r r1. destruct (where3 _) eqn:E; [|done]. intros [= <-].
  rewrite where3_and in E. apply andb_true_iff in E as [_ Eg]. split; [done|]. fields. rsimp. done.
Qed.

Lemma codexHeldTurn_guarantees T id g :
  guarantees (hook_writes g id) (execGuarded T id (codexHeldTurn id g)).
Proof.
  apply rowUpdate_guarantees. intros s r r1. destruct (where3 _) eqn:E; [|done]. intros [= <-].
  rewrite where3_and in E. apply andb_true_iff in E as [_ Eg]. split; [done|]. fields. rsimp. done.
Qed.

Lemma applyGatedHookWrite_guarantees T id g set prior new soft trig path present :
  set_ok set -> (forall s r, sp_state (set s r) = StateWorking -> sp_state r = StateWorking) ->
  guarantees (hook_writes g id) (applyGatedHookWrite T id g set prior new soft trig path present).
Proof.
  intros Hok Hst. unfold applyGatedHookWrite, hookNotApplied, readHookGateRow, transition. guar.
  apply gatedHookUpdate_guarantees; [done|]. intros s r _ H Hn. by destruct (Hn (Hst s r H)).
Qed.

#[export] Hint Resolve clearIdleSince_guarantees codexHeldTurn_guarantees : guar.

Lemma reportWorkingHeld_guarantees T id g trig :
  guarantees (hook_writes g id) (reportWorkingHeld T id g trig).
Proof.
  unfold reportWorkingHeld, readHookGateRow, transition. guar.
  destruct (g_CodexTurnStart g); auto with guar.
Qed.
#[export] Hint Resolve reportWorkingHeld_guarantees : guar.

Lemma softRefresh_guarantees T id g prior new soft trig path present :
  guarantees (hook_writes g id) (applyGatedHookWrite T id g softRefreshSet prior new soft trig path present).
Proof. apply applyGatedHookWrite_guarantees; [apply soft_ok|]. intros s r. fields. by rsimp. Qed.
#[export] Hint Resolve softRefresh_guarantees : guar.

Lemma workingCond_no_hold id new g s r :
  where3 (workingCond id new g s r) = true -> requestHoldsRow s id = false.
Proof.
  unfold workingCond, noRequestHoldsRowSQL. rewrite where3_and, where3_Some.
  intros [H _]%andb_true_iff. by apply negb_true_iff.
Qed.

Lemma applyWorkingWrite_guarantees T id g set prior new trig path present :
  set_ok set ->
  (forall s r, sp_state (set s r) = StateWorking -> sp_state r <> StateWorking -> new = StateWorking) ->
  guarantees (hook_writes g id) (applyWorkingWrite T id g set prior new trig path present).
Proof.
  intros Hok Hnew. unfold applyWorkingWrite, codexToolTurnLate, selectPriorState, transition. cbv zeta. guar.
  apply gatedHookUpdate_guarantees; [done|]. intros s r H H1 H2. by rewrite <- (Hnew s r H1 H2).
Qed.

Lemma endedBody_step id g path present :
  tx_spec (fun s _ s1 => forall s', core_step s1 s' -> tables_eq s1 s' -> hook_writes g id s s')
    (endedBody id g path present).
Proof.
  intros s gs [prior closed] s1 gs1. unfold endedBody.
  intros (p & s2 & gs2 & [= <- <-]%tstmt_Ok & H)%tbind_Ok.
  destruct (db_spawns s !! id) as [r|] eqn:Er; simpl in H; [|done].
  apply tbind_Ok in H as (n & s3 & gs3 & [= Hn]%tstmt_Ok & H). destruct n; [|done]. simpl in H.
  apply tbind_Ok in H as (at_ & s4 & gs4 & [= <- <-]%tstmt_Ok & H).
  apply tbind_Ok in H as (cl & s5 & gs5 & [H1 _]%closeOrphanedRequests_spec & H).
  apply tbind_Ok in H as ([] & s6 & gs6 & H2 & [= <- <- <- <-]).
  assert (db_spawns s6 = db_spawns s3) as E6.
  { unfold closeSubagentsAgentGone in H2. destruct (_ <=? 0); [done|].
    apply tbind_Ok in H2 as ([] & s7 & gs7 & [= <-]%tstmt_Ok & [= <-]%tstmt_Ok).
    unfold closeClaimableLaunches, closeRunningSubagents. rsimp. rewrite H1. by rsimp. }
  assert (s3 = snd (gatedHookUpdate id g endedTransitionSet path present noCond s)) as E3 by (by rewrite Hn).
  intros s' Hc _ j. specialize (Hc j). rewrite E6 in Hc. clear -E3 Hc.
  enough (rows_step (hook_change g id) s s3) as Hs.
  { specialize (Hs j). destruct (db_spawns s !! j), (db_spawns s3 !! j), (db_spawns s' !! j); try done.
    by eapply hook_change_core. }
  rewrite E3. apply update1_step; [by intros; left|]. intros r r1 _ Hu.
  destruct (where3 _) eqn:E; [|done]. injection Hu as <-. right.
  rewrite where3_and in E. apply andb_true_iff in E as [Eg _].
  destruct (gatedRow_fields s g endedTransitionSet path present r ended_ok) as (F1 & F2 & F3).
  split_and!; [done..|apply gatedRow_launch, ended_ok|]. rewrite F3. fields. rsimp. done.
Qed.

Lemma applyEndedTransition_guarantees T id g trig path present :
  guarantees (hook_writes g id) (applyEndedTransition T id g trig path present).
Proof.
  unfold applyEndedTransition, hookNotApplied, readHookGateRow, transition. guar.
  apply inImmediateTx_spec, endedBody_step.
Qed.
#[export] Hint Resolve applyEndedTransition_guarantees : guar.

Lemma set_ok_if (b : bool) T v : set_ok (if b then softRefreshSet else transitionSet T v).
Proof. destruct b; [apply soft_ok|apply transition_ok]. Qed.

Lemma writeTransition_guarantees T id g v sf guarded trig path present :
  (sf = false -> v = StateWorking -> guarded = true) ->
  guarantees (hook_writes g id) (writeTransition T id g v sf guarded trig path present).
Proof.
  intros Hg. unfold writeTransition, selectPriorState. cbv zeta.
  destruct (negb sf && _); [auto with guar|].
  apply guarantees_bind; [guar|]. intros [prior|]; [|guar]. destruct guarded.
  - apply applyWorkingWrite_guarantees; [apply set_ok_if|].
    intros s r. destruct sf; [fields; by rsimp|]. by rewrite transition_state.
  - apply applyGatedHookWrite_guarantees; [apply set_ok_if|].
    intros s r. destruct sf; [fields; by rsimp|]. rewrite transition_state. intros Hv. by discriminate Hg.
Qed.

Lemma hookTransition_guarantees T id g new soft trig path present :
  guarantees (hook_writes g id) (ApplyHookTransitionResult T id g new soft trig path present).
Proof.
  unfold ApplyHookTransitionResult, codexToolTurnLate, holdWorkingTransition. cbv zeta.
  apply guarantees_bind; [guar|]. intros late.
  set (c := if late then (false, true, "") else (negb soft && bool_decide (new = StateWorking), soft, new)).
  assert (snd (fst c) = false -> snd c = StateWorking -> fst (fst c) = true) as Hc.
  { unfold c. destruct late; simpl; [done|]. by intros -> ->. }
  destruct c as [[w sf] v]. simpl in Hc.
  apply guarantees_bind; [guar|]. intros [res|]; [guar|].
  apply writeTransition_guarantees. intros H1 H2. unfold guardedTransition. by rewrite Hc.
Qed.

Lemma hookEndReport_guarantees T id g trig path present :
  guarantees (hook_writes g id) (ApplyHookEndReport T id g trig path present).
Proof.
  unfold ApplyHookEndReport, selectPriorState. guar.
  apply applyGatedHookWrite_guarantees; [apply endReport_ok|]. intros s' r. fields. by rsimp.
Qed.

Lemma hookWaiting_guarantees T id g trig path present :
  guarantees (hook_writes g id) (ApplyHookWaitingIfWorking T id g trig path present).
Proof.
  unfold ApplyHookWaitingIfWorking, selectPriorState, transition. cbv zeta. guar.
  - apply gatedHookUpdate_guarantees; [apply waiting_ok|]. intros s r _. by rewrite waiting_state.
  - apply gatedHookUpdate_guarantees; [apply waiting_ok|]. intros s r _. by rewrite waiting_state.
  - apply applyGatedHookWrite_guarantees; [apply idleRefresh_ok|]. intros s' r. fields. by rsimp.
Qed.

(** The same identity, version and state; one layer of updates at a time. *)
Definition same_hook (r r' : SpawnRow) : Prop :=
  hookIdentity r' = hookIdentity r /\ sp_row_version r' = sp_row_version r /\ sp_state r' = sp_state r.

Lemma same_hook_set {E} (p : SpawnRow -> E) `{!Setter p} (v : E) q r :
  same_hook q (q <| p := v |>) -> same_hook r q -> same_hook r (q <| p := v |>).
Proof. intros (H1 & H2 & H3) (G1 & G2 & G3). split_and!; congruence. Qed.

Ltac same_hook_tac :=
  lazymatch goal with
  | |- same_hook ?r ?r => done
  | |- same_hook _ _ =>
      apply same_hook_set;
      [ match goal with |- same_hook ?q _ => generalize q end; intros ?;
        unfold same_hook, hookIdentity; rsimp; done
      | same_hook_tac ]
  end.

Lemma sessionStart_fields T g startup path present s r :
  let r' := sessionStartSet T g startup path present s r in
  hookIdentity r' = hookIdentity r /\ sp_row_version r' = sp_row_version r + 1 /\
  sp_state r' = StateWaiting.
Proof.
  cbv zeta. unfold sessionStartSet. cbv zeta.
  destruct (hookWrite_fields StateWaiting T (db_now s) r) as (E1 & E2 & E3). revert E1 E2 E3.
  generalize (hookWriteStateSet StateWaiting T (db_now s) r). intros q E1 E2 E3.
  rewrite <- E1, <- E2, <- E3. unfold rowVersionAdvance.
  match goal with |- hookIdentity (?x <| sp_row_version := _ |>) = _ /\ _ =>
    assert (same_hook q x) as (F1 & F2 & F3) end.
  { fields. destruct (_ && present); [|destruct (negb _)]; same_hook_tac. }
  rewrite <- F1, <- F2, <- F3.
  match goal with |- hookIdentity (?x <| sp_row_version := _ |>) = _ /\ _ => generalize x end.
  intros x. unfold hookIdentity. rsimp. done.
Qed.

Lemma sessionStart_launch T g startup path present s r :
  hookLaunch g r (sessionStartSet T g startup path present s r).
Proof.
  pose proof (sessionStart_fields T g startup path present s r) as (_ & _ & Hst). cbv zeta in Hst.
  unfold hookLaunch, launchCleared. rewrite Hst. clear Hst. unfold sessionStartSet. cbv zeta.
  destruct (hookWrite_launch StateWaiting T (db_now s) r) as [E _]. revert E.
  generalize (hookWriteStateSet StateWaiting T (db_now s) r). intros q E. split.
  - match goal with |- context [hookPaneStartSet g ?x] => assert (sp_pane_starttime x = sp_pane_starttime r) as Ex end.
    { rewrite <-E. fields. destruct (_ && present); [|destruct (negb _)]; by rsimp. }
    revert Ex. match goal with |- context [hookPaneStartSet g ?x] => generalize x end. intros x Ex.
    destruct (paneStart_launch g x r Ex) as [H|[Hn H]]; [left|right]; rewrite <-H; fields; by rsimp.
  - right. split; [|done]. match goal with |- context [hookPaneStartSet g ?x] => generalize x end. intros x. fields. by rsimp.
Qed.

Lemma ttry_Ok {A} (m : Tx Store A) s gs x s' gs' :
  ttry m s gs = (Ok (x, s'), gs') ->
  (exists a, x = Ok a /\ m s gs = (Ok (a, s'), gs')) \/ (exists e, x = Err e /\ s' = s).
Proof. unfold ttry. destruct (m s gs) as [[[a s1]|e] gs1]; naive_solver. Qed.

Lemma sessionStartBody_step T text id g prior path present :
  tx_spec (fun s _ s' => hook_writes g id s s') (sessionStartBody T text id g prior path present).
Proof.
  intros s gs arch s' gs'. unfold sessionStartBody.
  intros (n & s1 & gs1 & [= Hn]%tstmt_Ok & H)%tbind_Ok. destruct n; [|done]. simpl in H.
  apply tbind_Ok in H as (x & s2 & gs2 & H1 & H).
  apply tbind_Ok in H as ([] & s3 & gs3 & [= <-]%tstmt_Ok & [= <- <- <-]).
  assert (db_spawns s2 = db_spawns s1) as E2.
  { destruct (sessionStartArchives g); [|by injection H1 as <- <- <-].
    apply ttry_Ok in H1 as [([] & _ & H1%tstmt_Ok)|(e & _ & ->)]; [|done].
    unfold upsertSessionHistoryEntry in H1. case_bool_decide; [|done]. injection H1 as <-. by rsimp. }
  apply (rows_step_core _ s s1).
  - intros j r r1 r'. apply hook_change_core.
  - assert (s1 = snd (sessionStartUpdate T id g (codexStartupArg text prior g path) path present s)) as ->
      by (by rewrite Hn).
    apply update1_step; [by intros; left|]. intros r r1 _ Hu.
    destruct (where3 _) eqn:E; [|done]. injection Hu as <-. right.
    rewrite where3_and in E. apply andb_true_iff in E as [Eg _].
    destruct (sessionStart_fields T g (codexStartupArg text prior g path) path present s r) as (F1 & F2 & F3).
    split_and!; [done..|apply sessionStart_launch|]. by rewrite F3.
  - intros j. pose proof (core_step_refresh T s2 j) as Hj. by rewrite E2 in Hj.
Qed.

Lemma sessionStart_guarantees T text id g path present :
  guarantees (hook_writes g id) (RecordSessionStartIdentity T text id g path present).
Proof.
  unfold RecordSessionStartIdentity, readSessionStartPrior, sessionStartNotApplied, readHookGateRow,
    transition. cbv zeta. guar. apply guarantees_txImmediate, sessionStartBody_step.
Qed.
