(* ===== verification/SubagentWrites.v ===== *)
(** * Subagent writes (internal/store: subagents.go, subagent_writes.go,
      subagent_hook_writes.go)

    What a hook's event does to the subagent entries and claimable launches
    of its Spawn. Each function is a step of one BEGIN IMMEDIATE transaction
    ([Tx]); every statement that creates, changes or deletes an entry or a
    launch carries the hook's gate and the row's own conditions in its WHERE
    ([subagentGateExists]). The two transactions are
    [ApplySubagentLifecycle] and [ApplySubagentAfterWrite]. *)

From S2P Require Import Prelude Sql Rows Display Settle Family Requests History Steps Gate HookWrites.
From Stdlib Require Ascii.

Definition SubagentStateStopped : string := "stopped".
Definition SubagentCloseStopEvent : string := "stop_event".
Definition SubagentCloseAbsentFromSnapshot : string := "absent_from_snapshot".
Definition SubagentParentAgent : string := "agent".
Definition SubagentParentSubagent : string := "subagent".
Definition SubagentRunModeBackground : string := "background".
Definition SubagentRunModeForeground : string := "foreground".
Definition SubagentSourceStart : string := "start".
Definition SubagentSourceDetails : string := "details".
Definition SubagentSourceSnapshot : string := "snapshot".
Definition SubagentSourceStop : string := "stop".
Definition SubagentCap : nat := 300.
Definition SubagentGraceMs : Z := 2000.
Definition SubagentStringMaxBytes : nat := 1024.
Definition SubagentLifecycleStart : string := "start".
Definition SubagentLifecycleStop : string := "stop".

(** ** The events *)

(** utf8.RuneStart of the byte at [n]. *)
Definition RuneStart (a : Ascii.ascii) : bool :=
  negb (Z.land (Z.of_nat (Ascii.nat_of_ascii a)) 192 =? 128).
Definition runeStartAt (s : string) (n : nat) : bool :=
  match String.get n s with Some a => RuneStart a | None => true end.

(** The longest whole-character prefix of at most [n] bytes. *)
Fixpoint cutAt (s : string) (n : nat) : nat :=
  match n with O => O | S k => if runeStartAt s n then n else cutAt s k end.

Definition CutSubagentString (s : string) : string :=
  if (String.length s <=? SubagentStringMaxBytes)%nat then s
  else String.substring 0 (cutAt s SubagentStringMaxBytes) s.

Record SubagentListed := mkListed { sl_ID : string; sl_Type : string }.

Record SubagentLifecycleEvent := mkLifecycleEvent {
  le_Kind : string;
  le_SubagentID : string;
  le_SessionID : string;
  le_Type : string;
  le_SupersedesBlockedStop : bool;
  le_Listing : list SubagentListed;
  le_ReceivedMs : Z;
}.

Inductive SubagentLaunchOutcome :=
  | SubagentLaunchOther | SubagentLaunchBackgroundStarted | SubagentLaunchForegroundFinished.
#[export] Instance SubagentLaunchOutcome_eq_dec : EqDecision SubagentLaunchOutcome.
Proof. solve_decision. Defined.

Record SubagentLaunchDetails := mkDetails {
  ld_ToolUseID : string;
  ld_SubagentID : string;
  ld_LauncherID : string;
  ld_SessionID : string;
  ld_Type : string;
  ld_Description : string;
  ld_Model : string;
  ld_Outcome : SubagentLaunchOutcome;
  ld_ReceivedMs : Z;
}.

Record SubagentLaunchRequest := mkLaunchRequest { lr_ToolUseID : string; lr_Type : string; lr_ReceivedMs : Z }.
Record SubagentLaunchFailure := mkLaunchFailure { lf_ToolUseID : string }.
Record SubagentSnapshot := mkSnapshot { sn_SessionID : string; sn_Listed : list SubagentListed }.
Record SubagentTurnEnd := mkTurnEnd { te_ReceivedMs : Z; te_Snapshot : option SubagentSnapshot }.

Record SubagentAfterWrite := mkAfterWrite {
  aw_LaunchRequest : option SubagentLaunchRequest;
  aw_LaunchDetails : option SubagentLaunchDetails;
  aw_LaunchFailure : option SubagentLaunchFailure;
  aw_TurnEnd : option SubagentTurnEnd;
}.

(** The cut methods. *)
Definition cutEvent (ev : SubagentLifecycleEvent) : SubagentLifecycleEvent :=
  mkLifecycleEvent (le_Kind ev) (CutSubagentString (le_SubagentID ev)) (CutSubagentString (le_SessionID ev))
    (CutSubagentString (le_Type ev)) (le_SupersedesBlockedStop ev) (le_Listing ev) (le_ReceivedMs ev).
Definition cutDetails (d : SubagentLaunchDetails) : SubagentLaunchDetails :=
  mkDetails (CutSubagentString (ld_ToolUseID d)) (CutSubagentString (ld_SubagentID d))
    (CutSubagentString (ld_LauncherID d)) (CutSubagentString (ld_SessionID d)) (CutSubagentString (ld_Type d))
    (CutSubagentString (ld_Description d)) (CutSubagentString (ld_Model d)) (ld_Outcome d) (ld_ReceivedMs d).
Definition cutRequest (r : SubagentLaunchRequest) : SubagentLaunchRequest :=
  mkLaunchRequest (CutSubagentString (lr_ToolUseID r)) (CutSubagentString (lr_Type r)) (lr_ReceivedMs r).
Definition cutFailure (f : SubagentLaunchFailure) : SubagentLaunchFailure :=
  mkLaunchFailure (CutSubagentString (lf_ToolUseID f)).

Fixpoint cutListedFrom (seen : gset string) (l : list SubagentListed) : list SubagentListed :=
  match l with
  | [] => []
  | x :: l =>
      let id := CutSubagentString (sl_ID x) in
      if bool_decide (id = "") || bool_decide (id ∈ seen) then cutListedFrom seen l
      else mkListed id (CutSubagentString (sl_Type x)) :: cutListedFrom ({[ id ]} ∪ seen) l
  end.
Definition cutListed (l : list SubagentListed) : list SubagentListed := cutListedFrom ∅ l.

(** ** The gate *)

Definition subagentRowLiveSQL (r : SpawnRow) : tvl :=
  (sql_ne (Some (sp_state r)) (Some StateEnded) AND sql_ne (Some (sp_state r)) (Some StateMissing)
   AND sql_eq (Some (sp_subagent_tracking r)) (Some 1) AND not_null (sp_launch_token r)).

Definition subagentRowGateSQL (s : Store) (g : HookGate) (id : string) (r : SpawnRow) : tvl :=
  (subagentRowLiveSQL r AND hookGateSQL s g id r).

(** The EXISTS fragment; [belongsTo] is the outer row's launch_token, when it
    must be the row's own. *)
Definition subagentGateExists (s : Store) (g : HookGate) (id : string) (belongsTo : option string) : bool :=
  match db_spawns s !! id with
  | Some r => where3 (subagentRowGateSQL s g id r
                      AND match belongsTo with Some t => sql_eq (sp_launch_token r) (Some t) | None => Some true end)
  | None => false
  end.

(** ** Evictions *)

(** The first in an order; ORDER BY ... LIMIT 1. *)
Definition firstBy {A} (le : A -> A -> bool) (l : list A) : option A :=
  foldr (fun x acc => match acc with Some y => if le x y then Some x else Some y | None => Some x end) None l.

(** Rows ordered by columns, left to right. *)
Fixpoint lexLe (a b : list Z) : bool :=
  match a, b with
  | x :: a, y :: b => if x =? y then lexLe a b else x <? y
  | _, _ => true
  end.

Definition entriesOf (id : string) (s : Store) : list SubagentRow :=
  filter (fun e => sa_instance_id e = id) (db_subagents s).
Definition launchesOf (id : string) (s : Store) : list LaunchRow :=
  filter (fun l => la_instance_id l = id) (db_launches s).

Definition evictRank (e : SubagentRow) : Z :=
  if negb (bool_decide (sa_state e = SubagentStateRunning)) && negb (sa_confirmed e) then 0
  else if negb (bool_decide (sa_state e = SubagentStateRunning)) then 1 else 2.
Definition evictKey (e : SubagentRow) : list Z := [evictRank e; sa_activity_at e; sa_created_seq e].
Definition launchKey (l : LaunchRow) : list Z := [la_opened_at l; la_created_seq l].

(** DELETE ... WHERE created_seq = seq: whether it deleted a row. *)
Definition deleteEntry (seq : Z) (s : Store) : bool * Store :=
  (existsb (fun e => sa_created_seq e =? seq) (db_subagents s),
   s <| db_subagents := filter (fun e => sa_created_seq e <> seq) (db_subagents s) |>).
Definition deleteLaunches (c : LaunchRow -> bool) (s : Store) : bool * Store :=
  (existsb c (db_launches s), s <| db_launches := filter (fun l => c l = false) (db_launches s) |>).

Definition evictSubagentEntryGated (id : string) (g : HookGate) : Tx Store bool :=
  tstmt (fun s => Ok
    match firstBy (fun a b => lexLe (evictKey a) (evictKey b)) (entriesOf id s) with
    | Some e => if (SubagentCap <=? length (entriesOf id s))%nat && subagentGateExists s g id None
                then deleteEntry (sa_created_seq e) s else (false, s)
    | None => (false, s)
    end).

Definition evictSubagentLaunchGated (id : string) (g : HookGate) : Tx Store bool :=
  tstmt (fun s => Ok
    match firstBy (fun a b => lexLe (launchKey a) (launchKey b)) (launchesOf id s) with
    | Some l => if (SubagentCap <=? length (launchesOf id s))%nat && subagentGateExists s g id None
                then deleteLaunches (fun l' => la_created_seq l' =? la_created_seq l) s else (false, s)
    | None => (false, s)
    end).

(** ** Precedence of sources *)

Definition sourceRank (src : string) : Z :=
  if bool_decide (src = SubagentSourceStart) || bool_decide (src = SubagentSourceStop) then 3
  else if bool_decide (src = SubagentSourceDetails) then 2
  else if bool_decide (src = SubagentSourceSnapshot) then 1 else 0.

(** The value and its source after [v] from [src]. *)
Definition applyRanked (val valSource : option string) (v src : string) : option string * option string :=
  if bool_decide (v = "") then (val, valSource)
  else if bool_decide (val = None) || (sourceRank (coalesce valSource "") <? sourceRank src)
  then (Some v, Some src) else (val, valSource).
Definition applyFirst (val : option string) (v : string) : option string :=
  if negb (bool_decide (v = "")) && bool_decide (val = None) then Some v else val.
Definition earlier (t : option Z) (at_ : Z) : option Z :=
  match t with Some x => if at_ <? x then Some at_ else t | None => Some at_ end.

(** ** One event's transaction

    A [subagentEntry] is the row as it was read; a statement never writes its
    ids, session_id and life_number, which [zeroEntry] leaves blank. *)

Abbreviation subagentEntry := SubagentRow.
Definition zeroEntry : subagentEntry :=
  mkSubagentRow 0 "" "" "" false None None None None None None None None None None None None "" None 0 0
    None None None 0.

Record subagentTx := mkSubagentTx {
  tx_instanceID : string;
  tx_gate : HookGate;
  tx_token : string;
  tx_tokenOK : bool;
}.

Definition newSubagentTx (id : string) (g : HookGate) : Tx Store subagentTx :=
  row <-- tread (fun s => sp_launch_token <$> db_spawns s !! id);;
  tret (match row with
        | None => mkSubagentTx id g "" false
        | Some tok => mkSubagentTx id g (coalesce tok "") (negb (bool_decide (coalesce tok "" = "")))
        end).

Section Transitions.
Context (t : subagentTx).

Definition lifeOf (s : Store) : option Z := sp_life_number <$> db_spawns s !! tx_instanceID t.
Definition launchTokenOf (s : Store) : option string := db_spawns s !! tx_instanceID t ≫= sp_launch_token.

(** readEntry *)
Definition entryNamed (subagentID : string) (s : Store) (e : SubagentRow) : bool :=
  where3 (sql_eq (Some (sa_instance_id e)) (Some (tx_instanceID t))
          AND sql_eq (Some (sa_subagent_id e)) (Some subagentID)
          AND sql_eq (Some (sa_life_number e)) (lifeOf s)).
Definition readEntry (subagentID : string) : Tx Store (option subagentEntry) :=
  tread (fun s => find (entryNamed subagentID s) (db_subagents s)).

(** writeEntry: the UPDATE's SET. *)
Definition entryColumns (token : string) (next r : SubagentRow) : SubagentRow :=
  next <| sa_launch_token := token |> <| sa_created_seq := sa_created_seq r |>
    <| sa_instance_id := sa_instance_id r |> <| sa_subagent_id := sa_subagent_id r |>
    <| sa_session_id := sa_session_id r |> <| sa_life_number := sa_life_number r |>.

Definition writeEntryStmt (old next : subagentEntry) (move currentOnly : bool) (s : Store) : Store :=
  s <| db_subagents := (fun r =>
         if where3 (sql_eq (Some (sa_created_seq r)) (Some (sa_created_seq old))
                    AND sql_eq (Some (sa_instance_id r)) (Some (tx_instanceID t))
                    AND Some (subagentGateExists s (tx_gate t) (tx_instanceID t)
                                (if currentOnly then Some (sa_launch_token r) else None)))
         then entryColumns (if move then coalesce (launchTokenOf s) "" else sa_launch_token r) next r
         else r) <$> db_subagents s |>.

Definition writeEntry (old next : subagentEntry) (at_ : Z) (move currentOnly : bool) : Tx Store unit :=
  if bool_decide (next <| sa_activity_at := sa_activity_at old |> = old) then tret tt
  else tstmt (fun s => Ok (tt, writeEntryStmt old (next <| sa_activity_at := at_ |>) move currentOnly s)).

(** insertEntry; a second entry of the same id and life breaks the UNIQUE
    key. *)
Definition insertEntryStmt (subagentID : string) (e : subagentEntry) (s : Store) : result (bool * Store) :=
  match db_spawns s !! tx_instanceID t with
  | Some r =>
      if where3 (subagentRowGateSQL s (tx_gate t) (tx_instanceID t) r) then
        if existsb (fun x => bool_decide (sa_instance_id x = tx_instanceID t /\ sa_subagent_id x = subagentID
                                          /\ sa_life_number x = sp_life_number r)) (db_subagents s)
        then Err EDriver
        else
          let row := e <| sa_created_seq := db_next_subagent s |> <| sa_instance_id := tx_instanceID t |>
                       <| sa_subagent_id := subagentID |> <| sa_launch_token := coalesce (sp_launch_token r) "" |>
                       <| sa_life_number := sp_life_number r |> in
          Ok (true, s <| db_subagents := db_subagents s ++ [row] |> <| db_next_subagent := db_next_subagent s + 1 |>)
      else Ok (false, s)
  | None => Ok (false, s)
  end.
Definition insertEntry (subagentID : string) (e : subagentEntry) : Tx Store bool :=
  tstmt (insertEntryStmt subagentID e).

(** claim *)
Definition claimable (typ : string) (s : Store) (l : LaunchRow) : bool :=
  where3 (sql_eq (Some (la_instance_id l)) (Some (tx_instanceID t)) AND sql_eq (Some (la_subagent_type l)) (Some typ)
          AND sql_eq (Some (la_launch_token l)) (launchTokenOf s)).
Definition claim (typ : string) : Tx Store bool :=
  tstmt (fun s => Ok
    match firstBy (fun a b => lexLe (launchKey a) (launchKey b))
            (filter (fun l => claimable typ s l = true) (db_launches s)) with
    | Some l => deleteLaunches (fun l' => (la_created_seq l' =? la_created_seq l)
                  && subagentGateExists s (tx_gate t) (tx_instanceID t) (Some (la_launch_token l'))) s
    | None => (false, s)
    end).

Definition closeLaunch (toolUseID : string) : Tx Store unit :=
  if bool_decide (toolUseID = "") then tret tt
  else
    tstmt (fun s => Ok (deleteLaunches (fun l =>
      where3 (sql_eq (Some (la_instance_id l)) (Some (tx_instanceID t))
              AND sql_eq (Some (la_tool_use_id l)) (Some toolUseID)
              AND Some (subagentGateExists s (tx_gate t) (tx_instanceID t) None))) s));;>
    tret tt.

(** create *)
Definition create (subagentID : string) (e : subagentEntry) (claimType : string) : Tx Store unit :=
  evicted <-- evictSubagentEntryGated (tx_instanceID t) (tx_gate t);;
  claimed <-- (if bool_decide (claimType = "") then tret false else claim claimType);;
  inserted <-- insertEntry subagentID (e <| sa_confirmed := sa_confirmed e || claimed |>);;
  if negb inserted && (evicted || claimed) then tfail ESubagentRefused else tret tt.

(** start (SubagentStart) *)
Definition rankedType (e : subagentEntry) (v src : string) : subagentEntry :=
  let '(ty, tysrc) := applyRanked (sa_subagent_type e) (sa_subagent_type_source e) v src in
  e <| sa_subagent_type := ty |> <| sa_subagent_type_source := tysrc |>.
Definition rankedRunMode (e : subagentEntry) (v src : string) : subagentEntry :=
  let '(m, msrc) := applyRanked (sa_run_mode e) (sa_run_mode_source e) v src in
  e <| sa_run_mode := m |> <| sa_run_mode_source := msrc |>.

Definition startedEntry (ev : SubagentLifecycleEvent) : subagentEntry :=
  let at_ := le_ReceivedMs ev in
  rankedType (zeroEntry <| sa_session_id := nullableStringArg (le_SessionID ev) |> <| sa_state := SubagentStateRunning |>
                <| sa_first_started_at := Some at_ |> <| sa_started_at := Some at_ |>
                <| sa_opened_at := at_ |> <| sa_activity_at := at_ |>)
    (le_Type ev) SubagentSourceStart.

Definition restartedEntry (ev : SubagentLifecycleEvent) (e : subagentEntry) : subagentEntry :=
  let at_ := le_ReceivedMs ev in
  let n := rankedType e (le_Type ev) SubagentSourceStart <| sa_launch_token := tx_token t |> in
  let n := if negb (bool_decide (sa_state n = SubagentStateRunning)) then
             n <| sa_state := SubagentStateRunning |> <| sa_started_at := Some at_ |> <| sa_opened_at := at_ |>
               <| sa_close_reason := None |> <| sa_lost_at := None |>
           else if bool_decide (sa_started_at n = None) then n <| sa_started_at := Some at_ |> else n in
  n <| sa_first_started_at := earlier (sa_first_started_at n) at_ |>.

Definition start (ev : SubagentLifecycleEvent) : Tx Store unit :=
  e <-- readEntry (le_SubagentID ev);;
  match e with
  | None => create (le_SubagentID ev) (startedEntry ev) (le_Type ev)
  | Some e => writeEntry e (restartedEntry ev e) (le_ReceivedMs ev) true false
  end.

(** applyListed *)
Definition listedEntry (sessionID : string) (at_ : Z) (l : SubagentListed) : subagentEntry :=
  rankedType (zeroEntry <| sa_confirmed := true |> <| sa_session_id := nullableStringArg sessionID |>
                <| sa_state := SubagentStateRunning |> <| sa_run_mode := Some SubagentRunModeBackground |>
                <| sa_run_mode_source := Some SubagentSourceSnapshot |> <| sa_opened_at := at_ |>
                <| sa_activity_at := at_ |>)
    (sl_Type l) SubagentSourceSnapshot.
Definition relistedEntry (e : subagentEntry) : subagentEntry :=
  let n := e <| sa_confirmed := true |> <| sa_launch_token := tx_token t |> in
  if bool_decide (sa_run_mode n = None) then
    n <| sa_run_mode := Some SubagentRunModeBackground |> <| sa_run_mode_source := Some SubagentSourceSnapshot |>
  else n.

Fixpoint applyListed (listed : list SubagentListed) (at_ : Z) (doCreate : bool) (sessionID : string) : Tx Store unit :=
  match listed with
  | [] => tret tt
  | l :: listed =>
      e <-- readEntry (sl_ID l);;
      (match e with
       | None => if negb doCreate then tret tt else create (sl_ID l) (listedEntry sessionID at_ l) ""
       | Some e => writeEntry e (relistedEntry e) at_ true false
       end);;>
      applyListed listed at_ doCreate sessionID
  end.

(** stop (SubagentStop) *)
Definition stoppedEntry (ev : SubagentLifecycleEvent) (e : subagentEntry) : subagentEntry :=
  let stopAt n := n <| sa_stopped_at := Some (le_ReceivedMs ev) |>
                    <| sa_stopped_at_source := Some SubagentSourceStop |> in
  if bool_decide (sa_state e = SubagentStateRunning) || bool_decide (sa_state e = SubagentStateLost) then
    stopAt e <| sa_state := SubagentStateStopped |> <| sa_close_reason := Some SubagentCloseStopEvent |>
      <| sa_lost_at := None |>
  else if bool_decide (sa_state e = SubagentStateStopped)
          && (le_SupersedesBlockedStop ev || bool_decide (sa_stopped_at e = None)
              || negb (bool_decide (coalesce (sa_stopped_at_source e) "" = SubagentSourceStop)))
  then stopAt e else e.

Definition stopEntry (ev : SubagentLifecycleEvent) : Tx Store unit :=
  e <-- readEntry (le_SubagentID ev);;
  match e with
  | None => tret tt
  | Some e =>
      if negb (bool_decide (sa_launch_token e = tx_token t)) then tret tt
      else writeEntry e (stoppedEntry ev e) (le_ReceivedMs ev) false true
  end.

Definition stop (ev : SubagentLifecycleEvent) : Tx Store unit :=
  stopEntry ev;;>
  applyListed (cutListed (le_Listing ev)) (le_ReceivedMs ev) false "".

(** launchDetails *)
Definition detailsRunMode (d : SubagentLaunchDetails) : string :=
  match ld_Outcome d with
  | SubagentLaunchBackgroundStarted => SubagentRunModeBackground
  | SubagentLaunchForegroundFinished => SubagentRunModeForeground
  | SubagentLaunchOther => ""
  end.
Definition fillDetails (d : SubagentLaunchDetails) (n : subagentEntry) : subagentEntry :=
  let '(parentType, parentID) :=
    if negb (bool_decide (ld_LauncherID d = "")) then (SubagentParentSubagent, ld_LauncherID d)
    else (SubagentParentAgent, tx_instanceID t) in
  let n := rankedRunMode (rankedType n (ld_Type d) SubagentSourceDetails) (detailsRunMode d) SubagentSourceDetails in
  let n := n <| sa_description := applyFirst (sa_description n) (ld_Description d) |>
             <| sa_model := applyFirst (sa_model n) (ld_Model d) |>
             <| sa_tool_use_id := applyFirst (sa_tool_use_id n) (ld_ToolUseID d) |> in
  if bool_decide (sa_parent_type n = None) then
    n <| sa_parent_type := nullableStringArg parentType |> <| sa_parent_id := nullableStringArg parentID |>
  else n.

Definition stoppedByDetails (at_ : Z) (n : subagentEntry) : subagentEntry :=
  n <| sa_state := SubagentStateStopped |> <| sa_stopped_at := Some at_ |>
    <| sa_stopped_at_source := Some SubagentSourceDetails |> <| sa_close_reason := Some SubagentCloseStopEvent |>.

Definition launchedEntry (d : SubagentLaunchDetails) : subagentEntry :=
  let at_ := ld_ReceivedMs d in
  let n := fillDetails d (zeroEntry <| sa_confirmed := true |> <| sa_session_id := nullableStringArg (ld_SessionID d) |>
                            <| sa_opened_at := at_ |> <| sa_activity_at := at_ |>) in
  if bool_decide (ld_Outcome d = SubagentLaunchBackgroundStarted) then
    n <| sa_state := SubagentStateRunning |> <| sa_first_started_at := Some at_ |> <| sa_started_at := Some at_ |>
  else stoppedByDetails at_ n.

Definition detailedEntry (d : SubagentLaunchDetails) (e : subagentEntry) : subagentEntry :=
  let at_ := ld_ReceivedMs d in
  let n := fillDetails d e <| sa_confirmed := true |> <| sa_launch_token := tx_token t |> in
  match ld_Outcome d with
  | SubagentLaunchBackgroundStarted =>
      let n := if bool_decide (sa_started_at n = None) then n <| sa_started_at := Some at_ |> else n in
      n <| sa_first_started_at := earlier (sa_first_started_at n) at_ |>
  | SubagentLaunchForegroundFinished =>
      if bool_decide (sa_state n = SubagentStateRunning) || bool_decide (sa_state n = SubagentStateLost)
      then stoppedByDetails at_ n <| sa_lost_at := None |> else n
  | SubagentLaunchOther => n
  end.

Definition launchDetails (d : SubagentLaunchDetails) : Tx Store unit :=
  closeLaunch (ld_ToolUseID d);;>
  if bool_decide (ld_SubagentID d = "") then tret tt
  else
    e <-- readEntry (ld_SubagentID d);;
    match e with
    | None =>
        if bool_decide (ld_Outcome d = SubagentLaunchOther) then tret tt
        else create (ld_SubagentID d) (launchedEntry d) ""
    | Some e => writeEntry e (detailedEntry d e) (ld_ReceivedMs d) true false
    end.

(** launchRequest *)
Definition launchKnown (use : string) (s : Store) : bool :=
  existsb (fun l => bool_decide (la_instance_id l = tx_instanceID t /\ la_tool_use_id l = use)) (db_launches s)
  || existsb (fun e => where3 (sql_eq (Some (sa_instance_id e)) (Some (tx_instanceID t))
                               AND sql_eq (sa_tool_use_id e) (Some use)
                               AND sql_eq (Some (sa_launch_token e)) (Some (tx_token t)))) (db_subagents s).

Definition openLaunchStmt (r : SubagentLaunchRequest) (s : Store) : bool * Store :=
  match db_spawns s !! tx_instanceID t with
  | Some sp =>
      if where3 (subagentRowGateSQL s (tx_gate t) (tx_instanceID t) sp)
         && negb (existsb (fun l => bool_decide (la_instance_id l = tx_instanceID t /\ la_tool_use_id l = lr_ToolUseID r))
                    (db_launches s))
      then (true, s <| db_launches := db_launches s ++
                         [mkLaunchRow (db_next_launch s) (tx_instanceID t) (coalesce (sp_launch_token sp) "")
                            (lr_ToolUseID r) (lr_Type r) (lr_ReceivedMs r)] |>
                      <| db_next_launch := db_next_launch s + 1 |>)
      else (false, s)
  | None => (false, s)
  end.

Definition launchRequest (r : SubagentLaunchRequest) : Tx Store unit :=
  if bool_decide (lr_ToolUseID r = "") || bool_decide (lr_Type r = "") || negb (tx_tokenOK t) then tret tt
  else
    known <-- tread (launchKnown (lr_ToolUseID r));;
    if known : bool then tret tt
    else
      evicted <-- evictSubagentLaunchGated (tx_instanceID t) (tx_gate t);;
      n <-- tstmt (fun s => Ok (openLaunchStmt r s));;
      if negb n && evicted then tfail ESubagentRefused else tret tt.

Definition launchFailure (f : SubagentLaunchFailure) : Tx Store unit := closeLaunch (lf_ToolUseID f).

(** closeAbsent *)
Definition unlistedCandidate (listed : list SubagentListed) (at_ : Z) (e : SubagentRow) : bool :=
  where3 (sql_eq (Some (sa_instance_id e)) (Some (tx_instanceID t))
          AND sql_eq (Some (sa_launch_token e)) (Some (tx_token t))
          AND sql_eq (Some (sa_state e)) (Some SubagentStateRunning)
          AND sql_eq (sa_run_mode e) (Some SubagentRunModeBackground)
          AND Some (sa_opened_at e <? at_ - SubagentGraceMs))
  && negb (bool_decide (sa_subagent_id e ∈ sl_ID <$> listed)).
Definition readUnlistedCandidates (listed : list SubagentListed) (at_ : Z) : Tx Store (list Z) :=
  tread (fun s => sa_created_seq <$> filter (fun e => unlistedCandidate listed at_ e = true) (db_subagents s)).

Definition absentSet (at_ : Z) (e : SubagentRow) : SubagentRow :=
  e <| sa_state := SubagentStateLost |> <| sa_close_reason := Some SubagentCloseAbsentFromSnapshot |>
    <| sa_lost_at := Some at_ |> <| sa_activity_at := at_ |>.
Definition absentCond (seq at_ : Z) (s : Store) (e : SubagentRow) : bool :=
  where3 (sql_eq (Some (sa_created_seq e)) (Some seq)
          AND sql_eq (Some (sa_instance_id e)) (Some (tx_instanceID t))
          AND sql_eq (Some (sa_state e)) (Some SubagentStateRunning)
          AND sql_eq (sa_run_mode e) (Some SubagentRunModeBackground)
          AND Some (sa_opened_at e <? at_ - SubagentGraceMs)
          AND Some (subagentGateExists s (tx_gate t) (tx_instanceID t) (Some (sa_launch_token e)))).

Definition closeAbsentStmt (seq at_ : Z) (s : Store) : Store :=
  s <| db_subagents := (fun e => if absentCond seq at_ s e then absentSet at_ e else e) <$> db_subagents s |>.

Fixpoint closeAbsentLoop (seqs : list Z) (at_ : Z) : Tx Store unit :=
  match seqs with
  | [] => tret tt
  | seq :: seqs => tstmt (fun s => Ok (tt, closeAbsentStmt seq at_ s));;> closeAbsentLoop seqs at_
  end.

Definition closeAbsent (listed : list SubagentListed) (at_ : Z) : Tx Store unit :=
  if negb (tx_tokenOK t) then tret tt
  else
    stale <-- readUnlistedCandidates listed at_;;
    closeAbsentLoop stale at_.

(** turnEnd *)
Definition staleLaunch (at_ : Z) (s : Store) (l : LaunchRow) : bool :=
  where3 (sql_eq (Some (la_instance_id l)) (Some (tx_instanceID t)) AND Some (la_opened_at l <? at_ - SubagentGraceMs)
          AND Some (subagentGateExists s (tx_gate t) (tx_instanceID t) (Some (la_launch_token l)))).
Definition turnEnd (te : SubagentTurnEnd) : Tx Store unit :=
  tstmt (fun s => Ok (deleteLaunches (staleLaunch (te_ReceivedMs te) s) s));;>
  match te_Snapshot te with
  | None => tret tt
  | Some snap =>
      let listed := cutListed (sn_Listed snap) in
      applyListed listed (te_ReceivedMs te) true (CutSubagentString (sn_SessionID snap));;>
      closeAbsent listed (te_ReceivedMs te)
  end.
End Transitions.

(** ** The transactions *)

Section SubagentHooks.
Context (settleMs : Z).

(** The SET of the lifecycle's row write. *)
Definition lifecycleSet : fragment := fun s r => r <| sp_last_seen_at := nowSec s |>.

Definition lifecycleBody (id : string) (g : HookGate) (ev : SubagentLifecycleEvent) (path : string) (present : bool)
    : Tx Store string :=
  prior <-- tread (fun s => sp_state <$> db_spawns s !! id);;
  match prior with
  | None => tfail ENotApplied
  | Some prior =>
      n <-- tstmt (fun s => Ok (gatedHookUpdate id g lifecycleSet path present noCond s));;
      if negb n then tfail ENotApplied
      else if bool_decide (le_SubagentID ev = "") then tret prior
      else
        t <-- newSubagentTx id g;;
        (if bool_decide (le_Kind ev = SubagentLifecycleStart) then start t ev else stop t ev);;>
        tret prior
  end.

Definition ApplySubagentLifecycle (id : string) (g : HookGate) (ev : SubagentLifecycleEvent) (trig path : string)
    (present : bool) : M Store Event (UpsertOutcome * HookApplied) :=
  let ev := cutEvent ev in
  if negb (bool_decide (le_SubagentID ev = "")) && negb (bool_decide (le_Kind ev = SubagentLifecycleStart))
     && negb (bool_decide (le_Kind ev = SubagentLifecycleStop))
  then fail EUnknownKind
  else
    catch (inImmediateTx settleMs id (lifecycleBody id g ev path present))
      (fun r => match r with
       | Err ENotApplied =>
           a <- hookNotApplied id g;;
           ret (UpsertNoChange, a)
       | Err e => fail e
       | Ok prior =>
           emit (EvStateTransition id prior prior trig true);;;
           ret (UpsertUpdated, appliedOk)
       end).

Definition isSet {A} (o : option A) : nat := match o with Some _ => 1%nat | None => 0%nat end.
Definition writesSet (w : SubagentAfterWrite) : nat :=
  (isSet (aw_LaunchRequest w) + isSet (aw_LaunchDetails w) + isSet (aw_LaunchFailure w) + isSet (aw_TurnEnd w))%nat.

Definition afterWriteBody (id : string) (g : HookGate) (w : SubagentAfterWrite) : Tx Store unit :=
  t <-- newSubagentTx id g;;
  match aw_LaunchRequest w, aw_LaunchDetails w, aw_LaunchFailure w, aw_TurnEnd w with
  | Some r, _, _, _ => launchRequest t (cutRequest r)
  | None, Some d, _, _ => launchDetails t (cutDetails d)
  | None, None, Some f, _ => launchFailure t (cutFailure f)
  | None, None, None, Some te => turnEnd t te
  | None, None, None, None => tret tt
  end.

Definition ApplySubagentAfterWrite (id : string) (g : HookGate) (w : SubagentAfterWrite) : M Store Event unit :=
  if negb (writesSet w =? 1)%nat then fail EOneWrite
  else inImmediateTx settleMs id (afterWriteBody id g w).
End SubagentHooks.

(** SubagentTurnEndHasWork *)
Definition turnEndHasWork (id : string) (te : SubagentTurnEnd) (s : Store) : bool :=
  let cutoff := te_ReceivedMs te - SubagentGraceMs in
  match db_spawns s !! id with
  | None => false
  | Some sp =>
      existsb (fun l => where3 (sql_eq (sp_launch_token sp) (Some (la_launch_token l))
                                AND sql_eq (Some (la_instance_id l)) (Some id)
                                AND Some (la_opened_at l <? cutoff))) (db_launches s)
      || (bool_decide (is_Some (te_Snapshot te))
          && existsb (fun e => where3 (sql_eq (sp_launch_token sp) (Some (sa_launch_token e))
                                       AND sql_eq (Some (sa_instance_id e)) (Some id)
                                       AND sql_eq (Some (sa_state e)) (Some SubagentStateRunning)
                                       AND sql_eq (sa_run_mode e) (Some SubagentRunModeBackground)
                                       AND Some (sa_opened_at e <? cutoff))) (db_subagents s))
  end.
Definition SubagentTurnEndHasWork (id : string) (te : SubagentTurnEnd) : M Store Event bool :=
  match te_Snapshot te with
  | Some snap => if bool_decide (cutListed (sn_Listed snap) = []) then read (turnEndHasWork id te) else ret true
  | None => read (turnEndHasWork id te)
  end.
