(* ===== verification/SubagentInv.v ===== *)
(** * The subagent tables stay well formed

    What an entry and a launch always satisfy ([entry_good], [subs_good]),
    the one relation every write of the two tables is in ([sub_step]), and
    the proof for each transition. *)

From S2P Require Import Prelude Sql Rows Display Settle Family Requests History Steps Gate HookWrites SubagentWrites.

Lemma cap_positive : (0 < SubagentCap)%nat.
Proof. unfold SubagentCap. lia. Qed.
#[local] Opaque SubagentCap.

(** ** The invariant *)

(** A value and the source that set it are known together. *)
Definition sourced (sources : list string) (v src : option string) : Prop :=
  match v, src with
  | None, None => True
  | Some v, Some src => v <> "" /\ src ∈ sources
  | _, _ => False
  end.

Definition lifecycle_ok (e : SubagentRow) : Prop :=
  (sa_state e = SubagentStateRunning /\ sa_close_reason e = None /\ sa_lost_at e = None) \/
  (sa_state e = SubagentStateStopped /\ sa_close_reason e = Some SubagentCloseStopEvent /\ sa_lost_at e = None /\
     is_Some (sa_stopped_at e)) \/
  (sa_state e = SubagentStateLost /\ is_Some (sa_lost_at e) /\
     (sa_close_reason e = Some SubagentCloseAgentGone \/ sa_close_reason e = Some SubagentCloseAbsentFromSnapshot)).

Record entry_good (e : SubagentRow) : Prop := {
  eg_lifecycle : lifecycle_ok e;
  eg_type : sourced [SubagentSourceStart; SubagentSourceDetails; SubagentSourceSnapshot]
              (sa_subagent_type e) (sa_subagent_type_source e);
  eg_mode : sourced [SubagentSourceDetails; SubagentSourceSnapshot] (sa_run_mode e) (sa_run_mode_source e) /\
            (sa_run_mode e = None \/ sa_run_mode e = Some SubagentRunModeBackground \/
             sa_run_mode e = Some SubagentRunModeForeground);
  eg_stopped : match sa_stopped_at e with
               | None => sa_stopped_at_source e = None
               | Some _ => sa_stopped_at_source e = Some SubagentSourceStop \/
                           sa_stopped_at_source e = Some SubagentSourceDetails
               end;
  eg_parent : match sa_parent_type e with
              | None => sa_parent_id e = None
              | Some ty => ty = SubagentParentAgent \/ ty = SubagentParentSubagent
              end;
  eg_times : match sa_first_started_at e, sa_started_at e with
             | None, None => True
             | Some first, Some last => first <= last
             | _, _ => False
             end;
}.

Definition entryKey (e : SubagentRow) : string * Z * string := (sa_instance_id e, sa_life_number e, sa_subagent_id e).
Definition useKey (l : LaunchRow) : string * string := (la_instance_id l, la_tool_use_id l).

Record subs_good (s : Store) : Prop := {
  sg_entries : Forall entry_good (db_subagents s);
  sg_keys : NoDup (entryKey <$> db_subagents s);
  sg_seqs : NoDup (sa_created_seq <$> db_subagents s);
  sg_next : Forall (fun e => sa_created_seq e < db_next_subagent s) (db_subagents s);
  sg_cap : forall id, (length (entriesOf id s) <= SubagentCap)%nat;
  sg_uses : NoDup (useKey <$> db_launches s);
  sg_launch_seqs : NoDup (la_created_seq <$> db_launches s);
  sg_launch_next : Forall (fun l => la_created_seq l < db_next_launch s) (db_launches s);
  sg_launch_cap : forall id, (length (launchesOf id s) <= SubagentCap)%nat;
}.

(** A value with several sources changes only to one of a higher rank, one
    with a single source keeps its first value, and a first start only moves
    earlier. *)
Definition outranked (v src v' src' : option string) : Prop :=
  (v' = v /\ src' = src) \/ sourceRank (coalesce src "") < sourceRank (coalesce src' "").
Definition kept {A} (o o' : option A) : Prop := o = None \/ o' = o.

Record entry_gains (e e' : SubagentRow) : Prop := {
  eg_confirmed : sa_confirmed e = true -> sa_confirmed e' = true;
  eg_typed : outranked (sa_subagent_type e) (sa_subagent_type_source e) (sa_subagent_type e') (sa_subagent_type_source e');
  eg_moded : outranked (sa_run_mode e) (sa_run_mode_source e) (sa_run_mode e') (sa_run_mode_source e');
  eg_described : kept (sa_description e) (sa_description e') /\ kept (sa_model e) (sa_model e') /\
                 kept (sa_tool_use_id e) (sa_tool_use_id e');
  eg_parented : sa_parent_type e = None \/
                (sa_parent_type e' = sa_parent_type e /\ sa_parent_id e' = sa_parent_id e);
  eg_earlier : forall x, sa_first_started_at e = Some x ->
                 exists x', sa_first_started_at e' = Some x' /\ x' <= x;
}.

Definition entryIdentity (e : SubagentRow) :=
  (sa_created_seq e, sa_instance_id e, sa_subagent_id e, sa_session_id e, sa_life_number e).
Definition entry_evolves (e e' : SubagentRow) : Prop := entryIdentity e' = entryIdentity e /\ entry_gains e e'.

(** What a write of the store makes of the subagent tables. *)
Record subs_step (s s' : Store) : Prop := {
  st_good : subs_good s';
  st_next : db_next_subagent s <= db_next_subagent s';
  st_from : forall e', e' ∈ db_subagents s' ->
    (exists e, e ∈ db_subagents s /\ entry_evolves e e') \/ db_next_subagent s <= sa_created_seq e';
}.
Definition subs_kept (s s' : Store) : Prop := subs_good s -> subs_step s s'.

(** A write of the subagent tables. *)
Record sub_step (s s' : Store) : Prop := {
  ss_spawns : db_spawns s' = db_spawns s;
  ss_requests : db_requests s' = db_requests s /\ db_next_request s' = db_next_request s;
  ss_history : db_history s' = db_history s;
  ss_runtimes : db_runtimes s' = db_runtimes s;
  ss_now : db_now s' = db_now s;
  ss_good : subs_kept s s';
  ss_entry_refs : forall e, e ∈ db_subagents s' ->
    (exists e0, e0 ∈ db_subagents s /\ sa_instance_id e0 = sa_instance_id e) \/ is_Some (db_spawns s !! sa_instance_id e);
  ss_launch_refs : forall l, l ∈ db_launches s' ->
    l ∈ db_launches s \/ is_Some (db_spawns s !! la_instance_id l);
}.

Lemma outranked_trans v src v1 src1 v2 src2 :
  outranked v src v1 src1 -> outranked v1 src1 v2 src2 -> outranked v src v2 src2.
Proof. unfold outranked. intros [[-> ->]|H1] [[-> ->]|H2]; auto; right; lia. Qed.

#[export] Instance entry_gains_preorder : PreOrder entry_gains.
Proof.
  split.
  - intros e. split; unfold outranked, kept; try done; try tauto. intros x Hx. exists x. split; [done|lia].
  - intros e e1 e2 [A1 A2 A3 A4 A5 A6] [B1 B2 B3 B4 B5 B6]. unfold kept in *. split; unfold kept.
    + auto.
    + by eapply outranked_trans.
    + by eapply outranked_trans.
    + destruct A4 as (A41 & A42 & A43), B4 as (B41 & B42 & B43).
      split_and!; [destruct A41, B41|destruct A42, B42|destruct A43, B43]; ((by left) || (right; congruence) || (left; congruence)).
    + destruct A5 as [|[A51 A52]]; [by left|]. destruct B5 as [|[B51 B52]]; [left|right; split]; congruence.
    + intros x Hx. destruct (A6 x Hx) as (y & Hy & ?). destruct (B6 y Hy) as (z & Hz & ?). exists z. split; [done|lia].
Qed.

#[export] Instance entry_evolves_preorder : PreOrder entry_evolves.
Proof.
  split; [by intros e; split|]. intros e e1 e2 [E1 G1] [E2 G2]. split; [congruence|by etrans].
Qed.

#[export] Instance subs_kept_preorder : PreOrder subs_kept.
Proof.
  split.
  - intros s G. split; [done|lia|]. intros e He. left. exists e. split; [done|reflexivity].
  - intros s s1 s2 H1 H2 G. destruct (H1 G) as [G1 N1 F1]. destruct (H2 G1) as [G2 N2 F2]. split; [done|lia|].
    intros e He. destruct (F2 e He) as [(e1 & Hin & Ev)|]; [|right; lia].
    destruct (F1 e1 Hin) as [(e0 & Hin0 & Ev0)|Hn]; [left; exists e0; split; [done|by etrans]|right].
    destruct Ev as [Ev _]. unfold entryIdentity in Ev. injection Ev as -> _. lia.
Qed.

#[export] Instance sub_step_preorder : PreOrder sub_step.
Proof.
  split.
  - intros s. split; try done; [by intros e; left; eauto|by left].
  - intros s s1 s2 [A1 [A2 A3] A4 A5 A6 A7 A8 A9] [B1 [B2 B3] B4 B5 B6 B7 B8 B9].
    split; try (split_and!; congruence); try congruence.
    + by etrans.
    + intros e He. destruct (B8 e He) as [(e0 & Hin & E)|Hs]; [|right; by rewrite <- A1]. rewrite <- E. eauto.
    + intros l Hl. destruct (B9 l Hl) as [Hin|Hs]; [eauto|right; by rewrite <- A1].
Qed.

(** ** The primitive steps *)

Lemma filter_fmap_length {A} (P : A -> Prop) `{!forall x, Decision (P x)} (f : A -> A) (l : list A) :
  (forall x, P (f x) <-> P x) -> length (filter P (f <$> l)) = length (filter P l).
Proof.
  intros Hf. induction l as [|a l IH]; [done|]. rewrite fmap_cons, !filter_cons. specialize (Hf a).
  destruct (decide (P (f a))), (decide (P a)); simpl; tauto || lia.
Qed.

Lemma filter_filter_length {A} (P Q : A -> Prop) `{!forall x, Decision (P x)} `{!forall x, Decision (Q x)} (l : list A) :
  (length (filter P (filter Q l)) <= length (filter P l))%nat.
Proof.
  induction l as [|a l IH]; [done|]. rewrite !filter_cons. destruct (decide (Q a)); [rewrite filter_cons|];
    destruct (decide (P a)); simpl; lia.
Qed.

(** Entries changed in place. *)
Lemma step_update (f : SubagentRow -> SubagentRow) s :
  (forall e, entryIdentity (f e) = entryIdentity e) ->
  (forall e, e ∈ db_subagents s -> entry_good e -> subs_good s -> entry_good (f e) /\ entry_gains e (f e)) ->
  sub_step s (s <| db_subagents := f <$> db_subagents s |>).
Proof.
  intros Hk Hg. assert (forall e, sa_instance_id (f e) = sa_instance_id e /\ sa_created_seq (f e) = sa_created_seq e /\
    entryKey (f e) = entryKey e) as Hi.
  { intros e. specialize (Hk e). unfold entryIdentity, entryKey in *. injection Hk as -> -> -> _ ->. done. }
  assert ((entryKey <$> (f <$> db_subagents s)) = (entryKey <$> db_subagents s)) as E1.
  { rewrite <- list_fmap_compose. apply list_fmap_ext. intros i e _. apply (Hi e). }
  assert ((sa_created_seq <$> (f <$> db_subagents s)) = (sa_created_seq <$> db_subagents s)) as E2.
  { rewrite <- list_fmap_compose. apply list_fmap_ext. intros i e _. apply (Hi e). }
  split; rsimp; try done; [|intros e (e0 & -> & He)%list_elem_of_fmap; left; exists e0; by destruct (Hi e0) as [-> _]|auto].
  intros G. pose proof G as [G1 G2 G3 G4 G5 G6 G7 G8 G9]. rewrite Forall_forall in G1. split; rsimp.
  - split; unfold entriesOf, launchesOf in *; rsimp; try done.
    + apply Forall_fmap, Forall_forall. intros e He. by apply Hg; auto.
    + by rewrite E1.
    + by rewrite E2.
    + apply Forall_fmap. eapply Forall_impl; [done|]. simpl. intros e. by destruct (Hi e) as (_ & -> & _).
    + intros id. rewrite filter_fmap_length; [done|]. intros e. by destruct (Hi e) as [-> _].
  - lia.
  - intros e (e0 & -> & He)%list_elem_of_fmap. left. exists e0. split; [done|]. split; [done|]. apply Hg; auto.
Qed.

(** Entries and launches deleted. *)
Lemma step_delete (P : SubagentRow -> Prop) (Q : LaunchRow -> Prop) `{!forall x, Decision (P x)}
    `{!forall x, Decision (Q x)} s :
  sub_step s (s <| db_subagents := filter P (db_subagents s) |> <| db_launches := filter Q (db_launches s) |>).
Proof.
  split; rsimp; try done.
  - intros [G1 G2 G3 G4 G5 G6 G7 G8 G9]. split; rsimp.
    + split; unfold entriesOf, launchesOf in *; rsimp; try done;
        try (by apply NoDup_fmap_filter); try (rewrite Forall_forall in *; intros x [_ Hx]%list_elem_of_filter; auto; fail).
      * intros id. etrans; [apply filter_filter_length|done].
      * intros id. etrans; [apply filter_filter_length|done].
    + lia.
    + intros e [_ He]%list_elem_of_filter. left. exists e. split; [done|reflexivity].
  - intros e [_ He]%list_elem_of_filter. left. eauto.
  - intros l [_ Hl]%list_elem_of_filter. by left.
Qed.

Lemma filter_true {A} (l : list A) : filter (fun _ => True) l = l.
Proof. induction l as [|a l IH]; [done|]. rewrite filter_cons_True by done. by rewrite IH. Qed.

Lemma step_delete_entries (P : SubagentRow -> Prop) `{!forall x, Decision (P x)} s :
  sub_step s (s <| db_subagents := filter P (db_subagents s) |>).
Proof.
  pose proof (step_delete P (fun _ => True) s) as Hs. rewrite filter_true in Hs. by destruct s.
Qed.
Lemma step_delete_launches c s : sub_step s (snd (deleteLaunches c s)).
Proof.
  pose proof (step_delete (fun _ => True) (fun l => c l = false) s) as Hs. rewrite filter_true in Hs. by destruct s.
Qed.

(** An entry inserted, or a launch opened, after other writes of the same
    transaction made room for it. *)
Lemma step_insert s0 s row : sub_step s0 s -> is_Some (db_spawns s !! sa_instance_id row) ->
  sa_created_seq row = db_next_subagent s -> entryKey row ∉ entryKey <$> db_subagents s -> entry_good row ->
  (subs_good s0 -> length (entriesOf (sa_instance_id row) s) < SubagentCap)%nat ->
  sub_step s0 (s <| db_subagents := db_subagents s ++ [row] |> <| db_next_subagent := db_next_subagent s + 1 |>).
Proof.
  intros [A1 A2 A3 A4 A5 A6 A7 A8] Hsp Hseq Hkey Hrow Hroom. split; rsimp; try done.
  - intros G0. destruct (A6 G0) as [[G1 G2 G3 G4 G5 G6 G7 G8 G9] Hn Hf]. split; rsimp; [|lia|].
    + split; unfold entriesOf, launchesOf in *; rsimp; try done.
      * apply Forall_app. split; [done|by constructor].
      * rewrite fmap_app. apply NoDup_app. split_and!; [done| |apply NoDup_singleton].
        intros k Hk [= ->]%list_elem_of_singleton. done.
      * rewrite fmap_app. apply NoDup_app. split_and!; [done| |apply NoDup_singleton].
        intros k (e & -> & He)%list_elem_of_fmap Hk. simpl in Hk. apply list_elem_of_singleton in Hk.
        rewrite Forall_forall in G4. specialize (G4 e He). simpl in G4. lia.
      * apply Forall_app. split; [|constructor; [lia|constructor]]. eapply Forall_impl; [done|]. simpl. lia.
      * intros id. rewrite filter_app, length_app. specialize (Hroom G0). rewrite filter_cons.
        case_decide as E; simpl; [subst id; simpl; lia|specialize (G5 id); lia].
    + intros e [He|He]%elem_of_app; [by apply Hf|]. apply list_elem_of_singleton in He as ->. right. lia.
  - intros e [He|He]%elem_of_app; [by apply A7|]. apply list_elem_of_singleton in He as ->. right. by rewrite <- A1.
Qed.

Lemma step_open s0 s l : sub_step s0 s -> is_Some (db_spawns s !! la_instance_id l) ->
  la_created_seq l = db_next_launch s -> useKey l ∉ useKey <$> db_launches s ->
  (subs_good s0 -> length (launchesOf (la_instance_id l) s) < SubagentCap)%nat ->
  sub_step s0 (s <| db_launches := db_launches s ++ [l] |> <| db_next_launch := db_next_launch s + 1 |>).
Proof.
  intros [A1 A2 A3 A4 A5 A6 A7 A8] Hsp Hseq Hkey Hroom. split; rsimp; try done.
  - intros G0. destruct (A6 G0) as [[G1 G2 G3 G4 G5 G6 G7 G8 G9] Hn Hf]. split; rsimp; [|done|done].
    split; unfold entriesOf, launchesOf in *; rsimp; try done.
    + rewrite fmap_app. apply NoDup_app. split_and!; [done| |apply NoDup_singleton].
      intros k Hk [= ->]%list_elem_of_singleton. done.
    + rewrite fmap_app. apply NoDup_app. split_and!; [done| |apply NoDup_singleton].
      intros k (e & -> & He)%list_elem_of_fmap Hk. simpl in Hk. apply list_elem_of_singleton in Hk.
      rewrite Forall_forall in G8. specialize (G8 e He). simpl in G8. lia.
    + apply Forall_app. split; [|constructor; [lia|constructor]]. eapply Forall_impl; [done|]. simpl. lia.
    + intros id. rewrite filter_app, length_app. specialize (Hroom G0). rewrite filter_cons.
      case_decide as E; simpl; [subst id; simpl; lia|specialize (G9 id); lia].
  - intros x [Hx|Hx]%elem_of_app; [by apply A8|]. apply list_elem_of_singleton in Hx as ->. right. by rewrite <- A1.
Qed.

(** ** The closes of a Spawn's launch *)

Definition gained (e : SubagentRow) :=
  (sa_confirmed e, (sa_subagent_type e, sa_subagent_type_source e), (sa_run_mode e, sa_run_mode_source e),
   (sa_description e, sa_model e, sa_tool_use_id e), (sa_parent_type e, sa_parent_id e), sa_first_started_at e).

(** A change of other columns gains nothing. *)
Lemma gains_same e e' : gained e' = gained e -> entry_gains e e'.
Proof.
  unfold gained. intros [= E1 E2 E3 E4 E5 E6 E7 E8 E9 E10 E11]. split; unfold outranked, kept; rewrite ?E1, ?E2, ?E3, ?E4, ?E5, ?E6, ?E7, ?E8, ?E9, ?E10, ?E11; auto.
  intros x Hx. exists x. split; [done|lia].
Qed.

Lemma step_closeRunning id at_ s : sub_step s (closeRunningSubagents id at_ s).
Proof.
  apply step_update.
  - intros e. destruct (where3 _); [|done]. unfold entryIdentity. by rsimp.
  - intros e _ [G1 G2 G3 G4 G5 G6] _. destruct (where3 _); [split|done].
    + split; unfold lifecycle_ok; rsimp; try done. right. right. split_and!; [done|by eexists|by left].
    + eapply gains_same; by rsimp.
Qed.

Lemma step_closeLaunches id s : sub_step s (closeClaimableLaunches id s).
Proof.
  pose proof (step_delete (fun _ => True) (fun l => la_instance_id l <> id) s) as Hs. rewrite filter_true in Hs.
  by destruct s.
Qed.

(** ** What the transitions make of an entry *)

Lemma applyRanked_sourced sources val src v from : sourced sources val src -> from ∈ sources ->
  sourced sources (fst (applyRanked val src v from)) (snd (applyRanked val src v from)).
Proof.
  intros Hs Hin. unfold applyRanked. case_bool_decide; [done|]. destruct (_ || _); simpl; [|done]. done.
Qed.

Lemma applyRanked_value val src v from :
  fst (applyRanked val src v from) = val \/ (v <> "" /\ fst (applyRanked val src v from) = Some v).
Proof. unfold applyRanked. case_bool_decide; [by left|]. destruct (_ || _); simpl; [by right|by left]. Qed.

Lemma rankedType_eq e v from : rankedType e v from =
  e <| sa_subagent_type := fst (applyRanked (sa_subagent_type e) (sa_subagent_type_source e) v from) |>
    <| sa_subagent_type_source := snd (applyRanked (sa_subagent_type e) (sa_subagent_type_source e) v from) |>.
Proof. unfold rankedType. by destruct (applyRanked _ _ _ _). Qed.
Lemma rankedRunMode_eq e v from : rankedRunMode e v from =
  e <| sa_run_mode := fst (applyRanked (sa_run_mode e) (sa_run_mode_source e) v from) |>
    <| sa_run_mode_source := snd (applyRanked (sa_run_mode e) (sa_run_mode_source e) v from) |>.
Proof. unfold rankedRunMode. by destruct (applyRanked _ _ _ _). Qed.

(** [good_by]: each field of [entry_good], from the facts at hand. *)
Ltac good_by := split; unfold lifecycle_ok; rsimp; unfold zeroEntry; simpl; try done; try tauto; try lia.

Lemma earlier_le t at_ : exists x, earlier t at_ = Some x /\ x <= at_ /\ (forall y, t = Some y -> x <= y).
Proof.
  unfold earlier. destruct t as [y|]; [destruct (at_ <? y) eqn:E|]; eexists; (split; [done|]);
    split; try lia; intros ? [= ->]; lia.
Qed.

Lemma good_started ev : entry_good (startedEntry ev).
Proof.
  unfold startedEntry. rewrite rankedType_eq. good_by. apply applyRanked_sourced; [done|set_solver].
Qed.

Lemma good_listed session at_ l : entry_good (listedEntry session at_ l).
Proof.
  unfold listedEntry. rewrite rankedType_eq. good_by.
  - apply applyRanked_sourced; [done|set_solver].
  - split; [|by right; left]. split; [done|set_solver].
Qed.

Lemma good_restarted t ev e : entry_good e -> entry_good (restartedEntry t ev e).
Proof.
  intros [G1 G2 G3 G4 G5 G6]. unfold restartedEntry. rewrite rankedType_eq. rsimp.
  destruct (earlier_le (sa_first_started_at e) (le_ReceivedMs ev)) as (x & Ex & Hx & Hy).
  pose proof (applyRanked_sourced _ _ _ (le_Type ev) SubagentSourceStart G2 ltac:(set_solver)) as Hty.
  unfold lifecycle_ok in G1. destruct (bool_decide (sa_state e = SubagentStateRunning)) eqn:Er; simpl; bsimp.
  - destruct (bool_decide (sa_started_at e = None)) eqn:Es; bsimp; good_by; rewrite Ex.
    + done.
    + destruct (sa_started_at e) as [y|]; [|done]. destruct (sa_first_started_at e) as [z|]; [|done].
      specialize (Hy z eq_refl). lia.
  - good_by. by rewrite Ex.
Qed.

Lemma good_relisted t e : entry_good e -> entry_good (relistedEntry t e).
Proof.
  intros [G1 G2 G3 G4 G5 G6]. unfold relistedEntry. rsimp. case_bool_decide; good_by.
  split; [|by right; left]. split; [done|set_solver].
Qed.

Lemma good_stopped ev e : entry_good e -> entry_good (stoppedEntry ev e).
Proof.
  intros [G1 G2 G3 G4 G5 G6]. unfold stoppedEntry. unfold lifecycle_ok in G1.
  destruct (_ || _) eqn:E1; [|destruct (bool_decide _ && _) eqn:E2; [|done]].
  - good_by. right. left. split_and!; done || by eexists.
  - bsimp. good_by. right. left. destruct G1 as [G1|[G1|G1]]; [destruct G1; congruence| |destruct G1; congruence].
    split_and!; try apply G1. by eexists.
Qed.

Lemma fillDetails_good t d e : entry_good e -> entry_good (fillDetails t d e).
Proof.
  intros [G1 G2 G3 G4 G5 G6]. unfold fillDetails. rewrite rankedType_eq, rankedRunMode_eq.
  destruct (if negb _ then _ else _) as [pt pid] eqn:Ep.
  assert (nullableStringArg pt = Some pt /\ (pt = SubagentParentAgent \/ pt = SubagentParentSubagent)) as [Hpt Hty]
    by (destruct (negb _); injection Ep as <- <-; split; auto).
  pose proof (applyRanked_sourced _ _ _ (ld_Type d) SubagentSourceDetails G2 ltac:(set_solver)) as Hk.
  pose proof (applyRanked_sourced _ _ _ (detailsRunMode d) SubagentSourceDetails (proj1 G3) ltac:(set_solver)) as Hm.
  pose proof (applyRanked_value (sa_run_mode e) (sa_run_mode_source e) (detailsRunMode d) SubagentSourceDetails) as Hv.
  assert (fst (applyRanked (sa_run_mode e) (sa_run_mode_source e) (detailsRunMode d) SubagentSourceDetails) = None \/
    fst (applyRanked (sa_run_mode e) (sa_run_mode_source e) (detailsRunMode d) SubagentSourceDetails) = Some SubagentRunModeBackground \/
    fst (applyRanked (sa_run_mode e) (sa_run_mode_source e) (detailsRunMode d) SubagentSourceDetails) = Some SubagentRunModeForeground) as Hmv.
  { destruct Hv as [->|[Hne ->]]; [apply G3|]. right. unfold detailsRunMode in *. destruct (ld_Outcome d); auto. done. }
  rsimp. revert Hk Hm Hmv. generalize (applyRanked (sa_subagent_type e) (sa_subagent_type_source e) (ld_Type d) SubagentSourceDetails).
  generalize (applyRanked (sa_run_mode e) (sa_run_mode_source e) (detailsRunMode d) SubagentSourceDetails).
  intros [m1 m2] [k1 k2]. simpl. intros Hk Hm Hmv.
  destruct (bool_decide (sa_parent_type e = None)) eqn:Hn; bsimp; good_by. by rewrite Hpt.
Qed.

Lemma good_stoppedByDetails at_ n : entry_good n -> sa_lost_at n = None -> entry_good (stoppedByDetails at_ n).
Proof. intros [G1 G2 G3 G4 G5 G6] Hl. unfold stoppedByDetails. good_by. right. left. split_and!; done || by eexists. Qed.

Lemma fill_parts t d e : sa_lost_at (fillDetails t d e) = sa_lost_at e /\ sa_state (fillDetails t d e) = sa_state e /\
  sa_started_at (fillDetails t d e) = sa_started_at e /\ sa_first_started_at (fillDetails t d e) = sa_first_started_at e /\
  sa_close_reason (fillDetails t d e) = sa_close_reason e.
Proof.
  unfold fillDetails. rewrite rankedType_eq, rankedRunMode_eq. destruct (if negb _ then _ else _) as [pt pid].
  destruct (bool_decide _); rsimp; done.
Qed.

Lemma good_launched t d : ld_Outcome d <> SubagentLaunchOther -> entry_good (launchedEntry t d).
Proof.
  intros Ho. set (z := zeroEntry <| sa_confirmed := true |> <| sa_session_id := nullableStringArg (ld_SessionID d) |>
                   <| sa_opened_at := ld_ReceivedMs d |> <| sa_activity_at := ld_ReceivedMs d |>
                   <| sa_state := SubagentStateRunning |>).
  assert (entry_good (fillDetails t d z)) as Hf by (apply fillDetails_good; unfold z; good_by).
  pose proof (fill_parts t d z) as Hp.
  assert (launchedEntry t d = if bool_decide (ld_Outcome d = SubagentLaunchBackgroundStarted)
    then fillDetails t d z <| sa_state := SubagentStateRunning |> <| sa_first_started_at := Some (ld_ReceivedMs d) |>
           <| sa_started_at := Some (ld_ReceivedMs d) |>
    else stoppedByDetails (ld_ReceivedMs d) (fillDetails t d z)) as ->.
  { unfold launchedEntry, stoppedByDetails, fillDetails, z. rewrite !rankedType_eq, !rankedRunMode_eq.
    destruct (if negb _ then _ else _) as [pt pid]. unfold zeroEntry. by destruct (bool_decide (ld_Outcome d = _)). }
  destruct (bool_decide _); [|apply good_stoppedByDetails; [done|by destruct Hp as [-> _]]].
  revert Hf Hp. generalize (fillDetails t d z). intros n [G1 G2 G3 G4 G5 G6] (H1 & H2 & H3 & H4 & H5).
  unfold z, zeroEntry in *. rsimp_in H1. rsimp_in H5. simpl in *. good_by.
Qed.

Lemma good_detailed t d e : entry_good e -> entry_good (detailedEntry t d e).
Proof.
  intros Hg. pose proof (fillDetails_good t d e Hg) as Hf. unfold detailedEntry.
  revert Hf. generalize (fillDetails t d e). intros n [G1 G2 G3 G4 G5 G6]. rsimp. destruct (ld_Outcome d).
  - good_by.
  - destruct (earlier_le (sa_first_started_at n) (ld_ReceivedMs d)) as (x & Ex & Hx & Hy).
    destruct (bool_decide (sa_started_at n = None)) eqn:Es; bsimp; good_by; rewrite Ex; [done|].
    destruct (sa_started_at n) as [y|]; [|done]. destruct (sa_first_started_at n) as [v|]; [|done].
    specialize (Hy v eq_refl). lia.
  - destruct (_ || _) eqn:E; unfold stoppedByDetails; good_by. right. left. split_and!; done || by eexists.
Qed.

(** *** What they gain *)

Lemma applyRanked_outranked sources val src v from : sourced sources val src -> 0 < sourceRank from ->
  outranked val src (fst (applyRanked val src v from)) (snd (applyRanked val src v from)).
Proof.
  intros Hs Hr. unfold applyRanked. case_bool_decide; [by left|]. destruct (_ || _) eqn:E; simpl; [|by left].
  right. simpl. apply orb_true_iff in E as [E|E]; [|lia]. bsimp. subst val. by destruct src.
Qed.

Lemma applyFirst_kept val v : kept val (applyFirst val v).
Proof. unfold applyFirst, kept. destruct (_ && _) eqn:E; [|by right]. bsimp. by left. Qed.

(** [gains_by]: each field of [entry_gains], from the facts at hand. *)
Ltac gains_by := split; unfold kept; rsimp; try done; try tauto; try (by left).

Lemma gains_earlier (e : SubagentRow) at_ x : sa_first_started_at e = Some x ->
  exists x', earlier (sa_first_started_at e) at_ = Some x' /\ x' <= x.
Proof. intros Hx. destruct (earlier_le (sa_first_started_at e) at_) as (y & E & _ & H). exists y. split; [done|auto]. Qed.
Lemma gains_first (e : SubagentRow) x : sa_first_started_at e = Some x ->
  exists x', sa_first_started_at e = Some x' /\ x' <= x.
Proof. intros Hx. exists x. split; [done|lia]. Qed.

Lemma gains_restarted t ev e : entry_good e -> entry_gains e (restartedEntry t ev e).
Proof.
  intros [_ G2 _ _ _ _]. pose proof (applyRanked_outranked _ _ _ (le_Type ev) SubagentSourceStart G2 ltac:(done)) as Ht.
  unfold restartedEntry. rewrite rankedType_eq. rsimp.
  destruct (bool_decide (sa_state e = _)); simpl; [destruct (bool_decide (sa_started_at e = None))|];
    gains_by; intros x; apply gains_earlier.
Qed.

Lemma gains_relisted t e : entry_good e -> entry_gains e (relistedEntry t e).
Proof.
  intros [_ _ [G3 _] _ _ _]. unfold relistedEntry. rsimp. case_bool_decide as E; gains_by; try apply gains_first.
  rewrite E in G3. right. destruct (sa_run_mode_source e); [done|]. done.
Qed.

Lemma gains_stopped ev e : entry_gains e (stoppedEntry ev e).
Proof.
  unfold stoppedEntry. destruct (_ || _); [|destruct (bool_decide _ && _); [|reflexivity]];
    apply gains_same; unfold gained; by rsimp.
Qed.

Lemma gains_fill t d e : entry_good e -> entry_gains e (fillDetails t d e).
Proof.
  intros [_ G2 [G3 _] _ _ _].
  pose proof (applyRanked_outranked _ _ _ (ld_Type d) SubagentSourceDetails G2 ltac:(done)) as Ht.
  pose proof (applyRanked_outranked _ _ _ (detailsRunMode d) SubagentSourceDetails G3 ltac:(done)) as Hm.
  unfold fillDetails. rewrite rankedType_eq, rankedRunMode_eq. destruct (if negb _ then _ else _) as [pt pid]. rsimp.
  pose proof (applyFirst_kept (sa_description e) (ld_Description d)) as K1.
  pose proof (applyFirst_kept (sa_model e) (ld_Model d)) as K2.
  pose proof (applyFirst_kept (sa_tool_use_id e) (ld_ToolUseID d)) as K3.
  destruct (bool_decide (sa_parent_type e = None)) eqn:E; bsimp; gains_by; apply gains_first.
Qed.

Lemma gains_detailed t d e : entry_good e -> entry_gains e (detailedEntry t d e).
Proof.
  intros Hg. etrans; [by apply (gains_fill t d)|]. unfold detailedEntry. generalize (fillDetails t d e). intros n.
  rsimp. destruct (ld_Outcome d).
  - gains_by. apply gains_first.
  - destruct (bool_decide (sa_started_at n = None)); gains_by; intros x; apply gains_earlier.
  - destruct (_ || _); unfold stoppedByDetails; gains_by; apply gains_first.
Qed.

(** ** The gated statements *)

Section Transitions.
Context (t : subagentTx).

Lemma gate_ext s s' g id b : db_spawns s' = db_spawns s -> db_runtimes s' = db_runtimes s ->
  subagentGateExists s' g id b = subagentGateExists s g id b.
Proof. intros E1 E2. unfold subagentGateExists, subagentRowGateSQL, hookGateSQL. by rewrite E1, E2. Qed.

Lemma gate_row s g id b : subagentGateExists s g id b = true ->
  exists r, db_spawns s !! id = Some r /\ where3 (subagentRowGateSQL s g id r) = true.
Proof.
  unfold subagentGateExists. destruct (db_spawns s !! id) as [r|]; [|done]. intros H. exists r. split; [done|].
  revert H. rewrite where3_and. by intros [? _]%andb_true_iff.
Qed.

Lemma gate_of_row s g id r : db_spawns s !! id = Some r ->
  subagentGateExists s g id None = where3 (subagentRowGateSQL s g id r).
Proof. intros E. unfold subagentGateExists. by rewrite E, where3_and, andb_true_r. Qed.

Lemma entryColumns_good token n r : entry_good n -> entry_good (entryColumns token n r).
Proof. intros [G1 G2 G3 G4 G5 G6]. unfold lifecycle_ok in G1. unfold entryColumns. good_by. Qed.

Lemma writeEntry_step e n at_ move cur : tx_spec (fun s _ s' =>
  (subs_good s -> e ∈ db_subagents s /\ entry_good n /\ entry_gains e n) -> sub_step s s') (writeEntry t e n at_ move cur).
Proof.
  intros s gs a s' gs'. unfold writeEntry. case_bool_decide; [by intros [= _ <- _]|].
  intros [= _ <-]%tstmt_Ok Hn. unfold writeEntryStmt. apply step_update.
  - intros r. destruct (where3 _); [|done]. unfold entryColumns, entryIdentity. by rsimp.
  - intros r Hin Hr Hg. destruct (where3 _) eqn:Ew; [|done]. destruct (Hn Hg) as (He & Hng & Hgain).
    rewrite where3_and, where3_sql_eq in Ew. bsimp.
    assert (r = e) as -> by (eapply (NoDup_fmap_eq sa_created_seq); [apply (sg_seqs _ Hg)|done..|congruence]).
    split.
    + apply entryColumns_good. destruct Hng as [G1 G2 G3 G4 G5 G6]. unfold lifecycle_ok in G1. good_by.
    + etrans; [exact Hgain|]. apply gains_same. unfold gained, entryColumns. by rsimp.
Qed.

Lemma readEntry_found id s e : find (entryNamed t id s) (db_subagents s) = Some e -> subs_good s ->
  e ∈ db_subagents s /\ entry_good e.
Proof.
  intros H Hg. apply find_some in H as [Hin _]. apply list_elem_of_In in Hin. split; [done|].
  by eapply Forall_forall in Hin; [|apply (sg_entries _ Hg)].
Qed.

(** An eviction that finds the gate holding leaves room. *)
Lemma filter_drops {A} (P Q : A -> Prop) `{!forall x, Decision (P x)} `{!forall x, Decision (Q x)} (l : list A) x :
  x ∈ filter P l -> ~ Q x -> (length (filter P (filter Q l)) < length (filter P l))%nat.
Proof.
  intros [Hp Hx]%list_elem_of_filter Hq. revert Hp Hq.
  induction Hx as [x l|x y l Hx IH]; intros Hp Hq; rewrite !filter_cons.
  - rewrite (decide_False (P := Q x)), decide_True by done. simpl. pose proof (filter_filter_length P Q l). lia.
  - specialize (IH Hp Hq). destruct (decide (Q y)); [rewrite filter_cons|]; destruct (decide (P y)); simpl; lia.
Qed.

Lemma firstBy_in {A} le (l : list A) x : firstBy le l = Some x -> x ∈ l.
Proof.
  revert x. induction l as [|a l IH]; intros x; simpl; [done|]. destruct (firstBy le l) as [y|].
  - destruct (le a y); intros [= ->]; [by left|right; by apply IH].
  - intros [= ->]. by left.
Qed.
Lemma firstBy_None {A} le (l : list A) : firstBy le l = None -> l = [].
Proof. destruct l as [|a l]; [done|]. simpl. destruct (firstBy le l); [destruct (le _ _)|]; done. Qed.

Lemma evictEntry_step id g s gs b s' gs' : evictSubagentEntryGated id g s gs = (Ok (b, s'), gs') ->
  sub_step s s' /\ db_runtimes s' = db_runtimes s /\
  (subs_good s -> subagentGateExists s g id None = true -> length (entriesOf id s') < SubagentCap)%nat.
Proof.
  intros [= Hb]%tstmt_Ok. destruct (firstBy _ _) as [e|] eqn:Ef.
  - pose proof (firstBy_in _ _ _ Ef) as Hin. destruct (_ && _) eqn:Ec.
    + injection Hb as _ <-. split_and!; [apply step_delete_entries|by rsimp|].
      intros G _. eapply Nat.lt_le_trans; [|apply (sg_cap _ G id)]. unfold entriesOf in *. rsimp.
      eapply filter_drops; [done|auto].
    + injection Hb as _ <-. split_and!; [done..|]. intros G Hg. rewrite Hg, andb_true_r in Ec.
      apply Nat.leb_gt in Ec. lia.
  - injection Hb as _ <-. split_and!; [done..|]. intros _ _. apply firstBy_None in Ef. rewrite Ef. apply cap_positive.
Qed.

Lemma evictLaunch_step id g s gs b s' gs' : evictSubagentLaunchGated id g s gs = (Ok (b, s'), gs') ->
  sub_step s s' /\ db_runtimes s' = db_runtimes s /\
  (subs_good s -> subagentGateExists s g id None = true -> length (launchesOf id s') < SubagentCap)%nat.
Proof.
  intros [= Hb]%tstmt_Ok. destruct (firstBy _ _) as [l|] eqn:Ef.
  - pose proof (firstBy_in _ _ _ Ef) as Hin. destruct (_ && _) eqn:Ec.
    + injection Hb as _ <-. split_and!; [apply step_delete_launches|by rsimp|].
      intros G _. eapply Nat.lt_le_trans; [|apply (sg_launch_cap _ G id)]. unfold launchesOf in *. rsimp.
      eapply filter_drops; [done|]. rewrite Z.eqb_refl. done.
    + injection Hb as _ <-. split_and!; [done..|]. intros G Hg. rewrite Hg, andb_true_r in Ec.
      apply Nat.leb_gt in Ec. lia.
  - injection Hb as _ <-. split_and!; [done..|]. intros _ _. apply firstBy_None in Ef. rewrite Ef. apply cap_positive.
Qed.

Lemma claim_step typ s gs b s' gs' : claim t typ s gs = (Ok (b, s'), gs') ->
  sub_step s s' /\ db_subagents s' = db_subagents s.
Proof.
  intros [= Hb]%tstmt_Ok. destruct (firstBy _ _) as [l|]; injection Hb as _ <-; [|done].
  split; [apply step_delete_launches|by rsimp].
Qed.

Lemma good_confirmed e b : entry_good e -> entry_good (e <| sa_confirmed := b |>).
Proof. intros [G1 G2 G3 G4 G5 G6]. unfold lifecycle_ok in G1. good_by. Qed.

Lemma create_step id e typ : entry_good e -> tx_keeps sub_step (create t id e typ).
Proof.
  intros Hg s gs a s' gs'. unfold create. intros (ev & s1 & gs1 & (H1 & R1 & Hroom)%evictEntry_step & H)%tbind_Ok.
  apply tbind_Ok in H as (cl & s2 & gs2 & H2 & H).
  assert (sub_step s1 s2 /\ db_subagents s2 = db_subagents s1) as [H2' E2].
  { revert H2. case_bool_decide; [by intros [= _ <- _]|]. apply claim_step. }
  apply tbind_Ok in H as (ins & s3 & gs3 & H3%tstmt_Ok & H).
  assert (s' = s3) as -> by (destruct (_ && _); [done|by injection H]).
  assert (sub_step s s2) as H12 by (by etrans). unfold insertEntryStmt in H3.
  destruct (db_spawns s2 !! tx_instanceID t) as [r|] eqn:Er; [|by injection H3 as _ <-].
  destruct (where3 _) eqn:Ew; [|by injection H3 as _ <-]. destruct (existsb _ _) eqn:Ex; [done|].
  injection H3 as _ <-. apply step_insert; rsimp; [done|by rewrite Er|done| | |].
  - intros (x & Hk & Hx)%list_elem_of_fmap. unfold entryKey in Hk. rsimp_in Hk. injection Hk as K1 K2 K3.
    rewrite <- not_true_iff_false, existsb_exists in Ex. apply Ex. exists x. split; [by apply list_elem_of_In|].
    by apply bool_decide_eq_true.
  - destruct (good_confirmed e (sa_confirmed e || cl) Hg) as [G1 G2 G3 G4 G5 G6]. unfold lifecycle_ok in G1.
    rsimp_in G1. good_by.
  - intros G. unfold entriesOf. rewrite E2. apply (Hroom G).
    rewrite <- (gate_of_row s2 _ _ r Er) in Ew. rewrite <- Ew. symmetry. apply gate_ext.
    + apply (ss_spawns _ _ H12).
    + apply (ss_runtimes _ _ H12).
Qed.

Lemma closeLaunch_step use : tx_keeps sub_step (closeLaunch t use).
Proof.
  unfold closeLaunch. ktx. apply keeps_counted. intros s. apply step_delete_launches.
Qed.

(** A read of an entry, and the write of what becomes of it. *)
Lemma found_step id (f : SubagentRow -> SubagentRow) none at_ move cur :
  (forall e, entry_good e -> entry_good (f e) /\ entry_gains e (f e)) -> tx_keeps sub_step none ->
  tx_keeps sub_step (e <-- readEntry t id;;
                     match e with None => none | Some e => writeEntry t e (f e) at_ move cur end).
Proof.
  intros Hf Hn s gs a s' gs' (e & s1 & gs1 & [= <- <-]%tstmt_Ok & H)%tbind_Ok.
  destruct (find _ _) as [e|] eqn:Ee; [|by eapply Hn].
  eapply writeEntry_step; [exact H|]. intros G. destruct (readEntry_found _ _ _ Ee G). auto.
Qed.

Lemma start_step ev : tx_keeps sub_step (start t ev).
Proof. apply found_step; [auto using good_restarted, gains_restarted|]. apply create_step, good_started. Qed.

Lemma applyListed_step l at_ doCreate session : tx_keeps sub_step (applyListed t l at_ doCreate session).
Proof.
  induction l as [|x l IH]; simpl; [ktx|].
  intros s gs a s' gs' (e & s1 & gs1 & He & H)%tbind_Ok. apply tbind_Ok in H as ([] & s2 & gs2 & H1 & H2).
  etrans; [|by eapply IH].
  eapply (found_step (sl_ID x) (relistedEntry t) (if negb doCreate then tret tt else create t (sl_ID x) (listedEntry session at_ x) "")
            at_ true false); [auto using good_relisted, gains_relisted|destruct doCreate; simpl; [apply create_step, good_listed|ktx]|].
  unfold tbind. rewrite He. exact H1.
Qed.

Lemma stop_step ev : tx_keeps sub_step (stop t ev).
Proof.
  unfold stop, stopEntry. apply keeps_bind; [|intros; apply applyListed_step].
  intros s gs a s' gs' (e & s1 & gs1 & [= <- <-]%tstmt_Ok & H)%tbind_Ok.
  destruct (find _ _) as [e|] eqn:Ee; [|by injection H as _ <-].
  destruct (negb _); [by injection H as _ <-|].
  eapply writeEntry_step; [exact H|]. intros G. destruct (readEntry_found _ _ _ Ee G).
  auto using good_stopped, gains_stopped.
Qed.

Lemma launchDetails_step d : tx_keeps sub_step (launchDetails t d).
Proof.
  unfold launchDetails. apply keeps_bind; [apply closeLaunch_step|]. intros _. case_bool_decide; [ktx|].
  apply found_step; [auto using good_detailed, gains_detailed|]. case_bool_decide; [ktx|]. by apply create_step, good_launched.
Qed.

Lemma launchRequest_step r : tx_keeps sub_step (launchRequest t r).
Proof.
  unfold launchRequest. destruct (_ || _); [ktx|]. apply keeps_bind; [ktx|]. intros [|]; [ktx|].
  intros s gs a s' gs' (ev & s1 & gs1 & (H1 & R1 & Hroom)%evictLaunch_step & H)%tbind_Ok.
  apply tbind_Ok in H as (n & s2 & gs2 & [= H2]%tstmt_Ok & H).
  assert (s' = s2) as -> by (destruct (_ && _); [done|by injection H]).
  unfold openLaunchStmt in H2. destruct (db_spawns s1 !! tx_instanceID t) as [sp|] eqn:Er; [|by injection H2 as _ <-].
  destruct (_ && _) eqn:Ec; [|by injection H2 as _ <-]. injection H2 as _ <-.
  apply andb_true_iff in Ec as [Ew Ex]. apply step_open; simpl; [done|by rewrite Er|done| |].
  - intros (x & Hk & Hx)%list_elem_of_fmap. unfold useKey in Hk. simpl in Hk. injection Hk as K1 K2.
    rewrite negb_true_iff, <- not_true_iff_false, existsb_exists in Ex. apply Ex. exists x.
    split; [by apply list_elem_of_In|]. by apply bool_decide_eq_true.
  - intros G. apply (Hroom G). rewrite <- (gate_of_row s1 _ _ sp Er) in Ew. rewrite <- Ew. symmetry.
    apply gate_ext; [apply (ss_spawns _ _ H1)|done].
Qed.

Lemma closeAbsentStmt_step seq at_ :
  tx_keeps sub_step (tstmt (fun s => Ok (tt, closeAbsentStmt t seq at_ s))).
Proof.
  apply keeps_pure. intros s. apply step_update.
  - intros e. destruct (absentCond _ _ _ _ _); [|done]. unfold absentSet, entryIdentity. by rsimp.
  - intros e _ [G1 G2 G3 G4 G5 G6] _. destruct (absentCond _ _ _ _ _); [unfold absentSet; split|done].
    + good_by. right. right. split_and!; [done|by eexists|by right].
    + apply gains_same. unfold gained. by rsimp.
Qed.

Lemma closeAbsent_step l at_ : tx_keeps sub_step (closeAbsent t l at_).
Proof.
  unfold closeAbsent, readUnlistedCandidates. destruct (negb _); [ktx|]. apply keeps_bind; [ktx|]. intros seqs.
  induction seqs as [|seq seqs IH]; simpl; [ktx|]. apply keeps_bind; [apply closeAbsentStmt_step|done].
Qed.

Lemma turnEnd_step te : tx_keeps sub_step (turnEnd t te).
Proof.
  unfold turnEnd. apply keeps_bind; [apply keeps_counted; intros; apply step_delete_launches|]. intros _.
  destruct (te_Snapshot te); [|ktx]. apply keeps_bind; [apply applyListed_step|]. intros. apply closeAbsent_step.
Qed.
End Transitions.

Lemma newSubagentTx_step id g : tx_keeps sub_step (newSubagentTx id g).
Proof. unfold newSubagentTx. ktx. Qed.

Lemma afterWriteBody_step id g w : tx_keeps sub_step (afterWriteBody id g w).
Proof.
  unfold afterWriteBody. apply keeps_bind; [apply newSubagentTx_step|]. intros t. repeat dmatch.
  - apply launchRequest_step.
  - apply launchDetails_step.
  - apply closeLaunch_step.
  - apply turnEnd_step.
  - ktx.
Qed.
