(* ===== verification/HookProps.v ===== *)
(** * Properties of the hook writes

    What every hook write of HookWrites.v commits whatever other processes do
    between its statements, and what each does on every branch when it runs
    alone. *)

From S2P Require Import Prelude Sql Rows Display Settle Family Requests History Steps Gate HookWrites.

(** The five hook writes, as one operation. *)
Inductive hookOp :=
  | HookTransition (newState : string) (softRefresh : bool) (trig path : string) (present : bool)
  | HookEndReport (trig path : string) (present : bool)
  | HookIdle (trig path : string) (present : bool)
  | HookSessionStart (path : string) (present : bool).

Definition runHook (T : Z) (text : CodexStartup -> string) (id : string) (g : HookGate) (op : hookOp)
    : M Store Event HookApplied :=
  match op with
  | HookTransition v soft trig path present =>
      r <- ApplyHookTransitionResult T id g v soft trig path present;; ret (snd r)
  | HookEndReport trig path present =>
      r <- ApplyHookEndReport T id g trig path present;; ret (snd r)
  | HookIdle trig path present =>
      r <- ApplyHookWaitingIfWorking T id g trig path present;; ret (snd r)
  | HookSessionStart path present =>
      r <- RecordSessionStartIdentity T text id g path present;; ret (fst r)
  end.

Lemma runHook_guarantees T text id g op : guarantees (hook_writes g id) (runHook T text id g op).
Proof.
  destruct op; simpl; (apply guarantees_bind; [|guar]).
  - apply hookTransition_guarantees.
  - apply hookEndReport_guarantees.
  - apply hookWaiting_guarantees.
  - apply sessionStart_guarantees.
Qed.

(** ** Alone: the statements of a world nobody else writes *)

Lemma bind_Ok {A B} (m : M Store Event A) (k : A -> M Store Event B) w a w' :
  m w = (Ok a, w') -> bind m k w = k a w'.
Proof. unfold bind. by intros ->. Qed.

Lemma gatedHookUpdate_row id g set path present cond s :
  gatedHookUpdate id g set path present cond s =
  match db_spawns s !! id with
  | Some r => if gateHolds s g id r && where3 (cond s r)
              then (true, s <| db_spawns := <[id := gatedRow s g set path present r]> (db_spawns s) |>)
              else (false, s)
  | None => (false, s)
  end.
Proof.
  unfold gatedHookUpdate, update1. destruct (db_spawns s !! id) as [r|]; [|done].
  rewrite where3_and. unfold gateHolds. by destruct (_ && _).
Qed.

Lemma hookNotApplied_alone id g s tr own r : db_spawns s !! id = Some r ->
  hookNotApplied id g (alone s tr own)
  = (Ok (if bool_decide (sp_pane_pid r = None) then mkApplied false HookReasonNoPaneRecorded
         else mkApplied false HookReasonPIDMismatch), alone s tr own).
Proof.
  intros Hr. unfold hookNotApplied, readHookGateRow. erewrite bind_Ok by apply read_alone.
  rewrite Hr. unfold notAppliedReason. simpl. by destruct (bool_decide _).
Qed.

(** The state the write leaves: [r'] is [r1] up to the epilogue's columns. *)
Definition row_is (s : Store) (id : string) (r1 : SpawnRow) : Prop :=
  exists r', db_spawns s !! id = Some r' /\ same_core r1 r'.

Lemma row_is_core s s' id r1 : db_spawns s !! id = Some r1 -> core_step s s' -> row_is s' id r1.
Proof.
  intros Hr Hc. specialize (Hc id). rewrite Hr in Hc.
  destruct (db_spawns s' !! id) as [r'|] eqn:E; [|done]. by exists r'.
Qed.

Definition exits_none (r : SpawnRow) (v : string) (ex : list Event) : Prop :=
  sp_display_exit r = None -> isTerminalState v = false -> ex = [].

Lemma gatedRow_exit s g set path present r :
  sp_display_exit (gatedRow s g set path present r) = sp_display_exit (set s r).
Proof.
  unfold gatedRow, rowVersionAdvance, hookPaneStartSet. rsimp.
  assert (forall q, sp_display_exit (codexTurnSet g r q) = sp_display_exit q) as ->.
  { intros q. unfold codexTurnSet. destruct (g_CodexTurnStart g); [by rsimp|].
    destruct (g_CodexTurnEnd g && negb (bool_decide (g_CodexTurn g = ""))); by rsimp. }
  unfold hookSessionRecordSet, livenessClear. cbv zeta. destruct (bool_decide _); [by rsimp|].
  destruct (_ && present); [by rsimp|]. destruct (negb _); by rsimp.
Qed.

Lemma transition_exit T v s r : isTerminalState v = false ->
  sp_display_exit (transitionSet T v s r) = sp_display_exit r.
Proof.
  intros Hv. unfold transitionSet, hookWriteStateSet. rewrite Hv. cbv zeta.
  assert (sp_display_exit (hookStateSet v T (db_now s) r) = sp_display_exit r) as <-
    by (unfold hookStateSet; by rsimp).
  generalize (hookStateSet v T (db_now s) r). intros q. fields. case_bool_decide; by rsimp.
Qed.

(** One gated, unconditional UPDATE run alone. *)
Lemma applyGatedHookWrite_alone T id g set prior new soft trig path present s :
  let '(res, s', tr) := run (applyGatedHookWrite T id g set prior new soft trig path present) s in
  match db_spawns s !! id with
  | None => res = Ok (UpsertNoChange, notApplied) /\ s' = s /\ tr = []
  | Some r =>
      if gateHolds s g id r then
        res = Ok (UpsertUpdated, appliedOk) /\ row_is s' id (gatedRow s g set path present r) /\
        tables_eq s s' /\
        exists ex, tr = ex ++ [EvStateTransition id prior new trig soft] /\
          (sp_display_exit (set s r) = None -> ex = [])
      else
        res = Ok (UpsertNoChange, mkApplied false
                (if bool_decide (sp_pane_pid r = None) then HookReasonNoPaneRecorded
                 else HookReasonPIDMismatch)) /\ s' = s /\ tr = []
  end.
Proof.
  unfold run, applyGatedHookWrite.
  pose proof (execGuarded_alone T id (gatedHookUpdate id g set path present noCond) s [] []) as H.
  rewrite gatedHookUpdate_row in H. fold (alone s [] []).
  destruct (db_spawns s !! id) as [r|] eqn:Hr.
  - unfold noCond in H. rewrite where3_Some, andb_true_r in H. destruct (gateHolds s g id r).
    + simpl in H. destruct H as (s' & ex & E & Hc & Ht & Hex). erewrite bind_Ok by exact E.
      simpl. split_and!; [done| | |].
      * eapply row_is_core; [|done]. rsimp. by rewrite lookup_insert_eq.
      * eapply tables_eq_trans; [apply tables_eq_spawns|done].
      * exists ex. split; [done|]. intros Hd. apply Hex. rsimp. rewrite lookup_insert_eq.
        change (Some (sp_display_exit (gatedRow s g set path present r)) = Some None).
        by rewrite gatedRow_exit, Hd.
    + simpl in H. erewrite bind_Ok by exact H. cbn [negb].
      erewrite bind_Ok by (by apply hookNotApplied_alone). simpl. by destruct (bool_decide _).
  - simpl in H. erewrite bind_Ok by exact H. cbn [negb]. unfold hookNotApplied, readHookGateRow.
    erewrite bind_Ok by (erewrite bind_Ok by apply read_alone; reflexivity). simpl. by rewrite Hr.
Qed.

(** The held report's one write clears idle_since, and only bookkeeping else. *)
Definition heldUpdate (id : string) (g : HookGate) : Store -> bool * Store :=
  if g_CodexTurnStart g then codexHeldTurn id g else clearIdleSince id g.

Lemma heldUpdate_row id g s r : db_spawns s !! id = Some r -> gateHolds s g id r = true ->
  exists r1, sp_idle_since r1 = None /\ sp_state r1 = sp_state r /\
    sp_state_changed_ms r1 = sp_state_changed_ms r /\ sp_settled_state r1 = sp_settled_state r /\
    sp_display_exit r1 = sp_display_exit r /\
    (heldUpdate id g s = (true, s <| db_spawns := <[id := r1]> (db_spawns s) |>) \/
     heldUpdate id g s = (false, s) /\ r1 = r).
Proof.
  unfold gateHolds, heldUpdate, codexHeldTurn, clearIdleSince, update1. intros Hr Hg.
  destruct (g_CodexTurnStart g); rewrite Hr, where3_and, Hg, andb_true_r, ?where3_or, where3_not_null.
  - destruct (sp_idle_since r) as [i|] eqn:Ei; simpl.
    + eexists. split_and!; [| | | | |by left]; fields; by rsimp.
    + destruct (where3 (sql_is_not _ _)); [|exists r; auto 10].
      eexists. split_and!; [| | | | |by left]; fields; by rsimp.
  - destruct (sp_idle_since r) as [i|] eqn:Ei; simpl; [|exists r; auto 10].
    eexists. split_and!; [| | | | |by left]; fields; by rsimp.
Qed.

Lemma reportWorkingHeld_alone T id g trig s r : db_spawns s !! id = Some r -> gateHolds s g id r = true ->
  let '(res, s', tr) := run (reportWorkingHeld T id g trig) s in
  res = Ok (UpsertNoChange, appliedOk) /\ tables_eq s s' /\
  (exists r', db_spawns s' !! id = Some r' /\ sp_state r' = sp_state r /\ sp_idle_since r' = None /\
     sp_state_changed_ms r' = sp_state_changed_ms r /\ sp_settled_state r' = sp_settled_state r) /\
  (exists ex, tr = ex ++ [EvStateTransition id (sp_state r) (sp_state r) trig false] /\
     (sp_display_exit r = None -> ex = [])).
Proof.
  intros Hr Hg. destruct (heldUpdate_row id g s r Hr Hg) as (r1 & I1 & I2 & I3 & I4 & I5 & Hq).
  unfold run, reportWorkingHeld. fold (alone s [] []). unfold readHookGateRow.
  erewrite bind_Ok by apply read_alone. rewrite Hr, Hg. cbn [hg_found hg_gateMatches negb orb].
  fold (heldUpdate id g).
  pose proof (execGuarded_alone T id (heldUpdate id g) s [] []) as H.
  destruct Hq as [Hq|[Hq ->]]; rewrite Hq in H; simpl in H.
  - destruct H as (s' & ex & E & Hc & Ht & Hex). erewrite bind_Ok by exact E. simpl.
    assert (row_is s' id r1) as (r' & Hr' & Hcore).
    { eapply row_is_core; [|done]. rsimp. by rewrite lookup_insert_eq. }
    split_and!; [done| | |].
    + eapply tables_eq_trans; [apply tables_eq_spawns|done].
    + exists r'. core_eq Hcore sp_state. core_eq Hcore sp_idle_since. core_eq Hcore sp_state_changed_ms.
      core_eq Hcore sp_settled_state. split_and!; congruence.
    + exists ex. split; [done|]. intros Hd. apply Hex. rsimp. rewrite lookup_insert_eq.
      change (Some (sp_display_exit r1) = Some None). congruence.
  - erewrite bind_Ok by exact H. simpl. split_and!; [done..| |].
    + exists r. done.
    + by exists [].
Qed.

(** ** Properties *)

(** C4: Whatever other processes write between its statements and whichever of
    them fail, a hook moves a row to working only while no permission request
    holds the row (none awaits an answer with its dialog unproven), judged in
    the write's own statement: a request recorded at any moment before the
    write keeps its Spawn out of working. *)
Theorem no_working_over_held_dialog (T : Z) (text : CodexStartup -> string) (id : string) (g : HookGate)
    (op : hookOp) :
  guarantees (fun s s' => forall j r r', db_spawns s !! j = Some r -> db_spawns s' !! j = Some r' ->
      sp_state r <> StateWorking -> sp_state r' = StateWorking -> requestHoldsRow s j = false)
    (runHook T text id g op).
Proof.
  eapply guarantees_mono; [apply runHook_guarantees|]. intros s s' H j r r' Hr Hr' Hn Hw.
  specialize (H j). rewrite Hr, Hr' in H. destruct H as [H|(-> & _ & _ & _ & H)].
  - core_eq H sp_state. congruence.
  - by eapply workingCond_no_hold, H.
Qed.

(** C6: A hook's write changes a row only when the hook's parent process is
    that row's recorded pane process (its pid, and its start time or none
    recorded yet) at the moment of the write; it then advances the version by
    one and leaves the Spawn's identity, its launch's token, owner, socket and
    server, and its pane's id and pid alone. The pane's start time changes only
    from none to the parent's own; the launch's start only to none, in a write
    that leaves the row in another state than pending. No other row changes
    beyond its stored family aggregate and drained exit marker, and no row
    appears or disappears. *)
Theorem hook_writes_only_its_own_pane (T : Z) (text : CodexStartup -> string) (id : string)
    (g : HookGate) (op : hookOp) :
  guarantees (fun s s' => dom (db_spawns s') = dom (db_spawns s) /\
      forall j r r', db_spawns s !! j = Some r -> db_spawns s' !! j = Some r' ->
      same_core r r' \/
      (j = id /\ 0 < g_ParentPID g /\ g_ParentStart g <> "" /\
       sp_pane_pid r = Some (g_ParentPID g) /\
       (sp_pane_starttime r = Some (g_ParentStart g) \/ sp_pane_starttime r = None) /\
       sp_row_version r' = sp_row_version r + 1 /\ hookIdentity r' = hookIdentity r /\
       (sp_pane_starttime r' = sp_pane_starttime r \/
        (sp_pane_starttime r = None /\ sp_pane_starttime r' = Some (g_ParentStart g))) /\
       (sp_launch_started_at r' = sp_launch_started_at r \/
        (sp_launch_started_at r' = None /\ sp_state r' <> StatePending))))
    (runHook T text id g op).
Proof.
  eapply guarantees_mono; [apply runHook_guarantees|]. intros s s' H. split.
  - apply set_eq. intros j. specialize (H j). rewrite !elem_of_dom.
    destruct (db_spawns s !! j), (db_spawns s' !! j); split; intros [? ?]; done.
  - intros j r r' Hr Hr'. specialize (H j). rewrite Hr, Hr' in H.
    destruct H as [H|(-> & Hg & Hv & [Hi [Hp Hl]] & _)]; [by left|right].
    destruct (gate_parent _ _ _ _ Hg) as (? & ? & ? & ?). split_and!; done.
Qed.

(** A Codex tool hook of a turn that is not the row's current, unended
    turn never moves the row to working, even when the turn ends between the
    hook's read and its write. *)
Theorem late_codex_tool_hook_never_works (T : Z) (text : CodexStartup -> string) (id : string)
    (g : HookGate) (op : hookOp) :
  codexToolTurn g = true ->
  guarantees (fun s s' => forall j r r', db_spawns s !! j = Some r -> db_spawns s' !! j = Some r' ->
      sp_state r <> StateWorking -> sp_state r' = StateWorking ->
      sp_codex_turn_ended r <> Some (g_CodexTurn g) /\
      (sp_codex_turn r = None \/ sp_codex_turn r = Some (g_CodexTurn g)))
    (runHook T text id g op).
Proof.
  intros Ht. eapply guarantees_mono; [apply runHook_guarantees|]. intros s s' H j r r' Hr Hr' Hn Hw.
  specialize (H j). rewrite Hr, Hr' in H. destruct H as [H|(-> & _ & _ & _ & H)].
  { core_eq H sp_state. congruence. }
  specialize (H Hw Hn). unfold workingCond in H. rewrite Ht, where3_and in H.
  apply andb_true_iff in H as [_ H]. rewrite bool_decide_true in H by done. simpl in H.
  unfold codexToolTurnCurrentSQL, case3 in H. rewrite where3_is_null in H.
  case_bool_decide as Hc.
  - unfold sql_is_not, sql_is in H. rewrite not3_Some, where3_Some in H. bsimp. auto.
  - rewrite where3_and in H. apply andb_true_iff in H as [H1 H2].
    unfold sql_is_not, sql_is in H2. rewrite where3_sql_is in H1.
    rewrite not3_Some, where3_Some in H2. bsimp. split; [congruence|auto].
Qed.

(** *** The ended transition *)

Lemma endedBody_spec id g path present s gs prior closed s1 gs1 :
  endedBody id g path present s gs = (Ok ((prior, closed), s1), gs1) ->
  exists r, db_spawns s !! id = Some r /\ prior = sp_state r /\ gateHolds s g id r = true /\
    let r1 := gatedRow s g endedTransitionSet path present r in
    let s3 := s <| db_spawns := <[id := r1]> (db_spawns s) |> in
    db_spawns s1 = <[id := r1]> (db_spawns s) /\
    db_requests s1 = closeOne s3 id DecisionReasonEnded (db_now s) <$> db_requests s /\
    db_subagents s1 = db_subagents (closeRunningSubagents id (db_now s) s) /\
    db_launches s1 = filter (fun l => la_instance_id l <> id) (db_launches s).
Proof.
  unfold endedBody. intros (p & s2 & gs2 & [= <- <-]%tstmt_Ok & H)%tbind_Ok.
  destruct (db_spawns s !! id) as [r|] eqn:Er; simpl in H; [|done].
  apply tbind_Ok in H as (n & s3 & gs3 & [= Hn]%tstmt_Ok & H). destruct n; [|done]. simpl in H.
  rewrite gatedHookUpdate_row, Er in Hn. unfold noCond in Hn. rewrite where3_Some, andb_true_r in Hn.
  destruct (gateHolds s g id r) eqn:Eg; [|done]. injection Hn as <-.
  apply tbind_Ok in H as (at_ & s4 & gs4 & [= <- <-]%tstmt_Ok & H).
  apply tbind_Ok in H as (cl & s5 & gs5 & [H1 _]%closeOrphanedRequests_spec & H).
  apply tbind_Ok in H as ([] & s6 & gs6 & H2 & [= <- <- <- <-]).
  exists r. do 3 (split; [done|]).
  unfold closeSubagentsAgentGone, storeNowMillis in *. rsimp_in H1. rsimp_in H2.
  destruct (_ <=? 0); [done|].
  apply tbind_Ok in H2 as ([] & s7 & gs7 & [= <-]%tstmt_Ok & [= <-]%tstmt_Ok). subst s5.
  unfold closeClaimableLaunches, closeRunningSubagents. rsimp. done.
Qed.

Lemma closeRunning_none_running id at_ s e :
  e ∈ db_subagents (closeRunningSubagents id at_ s) -> sa_instance_id e = id ->
  sa_state e <> SubagentStateRunning.
Proof.
  unfold closeRunningSubagents. rsimp. intros (e0 & -> & _)%list_elem_of_fmap.
  rewrite where3_and, !where3_sql_eq. destruct (_ && _) eqn:E; rsimp; [done|].
  intros Hid Hs. rewrite Hid, Hs, !bool_decide_true in E by done. done.
Qed.

Lemma gatedRow_keeps {E} (p : SpawnRow -> E) s g set path present r :
  (forall q v, p (q <| sp_session_id := v |>) = p q) -> (forall q v, p (q <| sp_jsonl_path := v |>) = p q) ->
  (forall q v, p (q <| sp_codex_turn := v |>) = p q) -> (forall q v, p (q <| sp_codex_turn_ended := v |>) = p q) ->
  (forall q v, p (q <| sp_pane_starttime := v |>) = p q) -> (forall q v, p (q <| sp_row_version := v |>) = p q) ->
  (forall q v, p (q <| sp_liveness_unverified_since := v |>) = p q) ->
  (forall q v, p (q <| sp_liveness_note := v |>) = p q) ->
  p (gatedRow s g set path present r) = p (set s r).
Proof.
  intros H1 H2 H3 H4 H5 H6 H7 H8. unfold gatedRow, rowVersionAdvance, hookPaneStartSet. rewrite H6, H5.
  assert (forall q, p (codexTurnSet g r q) = p q) as ->.
  { intros q. unfold codexTurnSet. destruct (g_CodexTurnStart g); [by rewrite H3|].
    destruct (g_CodexTurnEnd g && _); [by rewrite H4, H3|done]. }
  unfold hookSessionRecordSet, livenessClear. cbv zeta. destruct (bool_decide _); [by rewrite H8, H7|].
  destruct (_ && present); [by rewrite H2, H1, H8, H7|].
  destruct (negb _); [by rewrite H2, H1, H8, H7|by rewrite H1, H8, H7].
Qed.

Ltac gated_keeps := rewrite gatedRow_keeps by (intros; by rsimp).

Lemma ended_row s g path present r :
  let r1 := gatedRow s g endedTransitionSet path present r in
  sp_state r1 = StateEnded /\ sp_settled_state r1 = StateEnded /\ sp_ended_at r1 = Some (nowSec s) /\
  sp_launch_started_at r1 = None /\ sp_idle_since r1 = None.
Proof. cbv zeta. split_and!; gated_keeps; fields; by rsimp. Qed.

(** C37: A hook's committed move to ended leaves the Spawn with nothing open: the row
    is ended with ended_at now, none of its requests awaits an answer (every
    request of a non-Cursor Spawn is proven gone), none of its subagent
    entries runs and no launch of it is claimable, all in the one
    transaction, under any interference. *)
Theorem ended_transition_closes_all (T : Z) (id : string) (g : HookGate) (trig path : string)
    (present : bool) :
  guarantees (fun s s' =>
      (exists r', db_spawns s' !! id = Some r' /\ sp_state r' = StateEnded /\
         sp_settled_state r' = StateEnded /\ sp_ended_at r' = Some (nowSec s) /\
         sp_launch_started_at r' = None /\ sp_idle_since r' = None) /\
      (forall pr, pr ∈ db_requests s' -> pr_instance_id pr = id ->
         where3 (awaitingAnswerSQL pr) = false /\
         (forall r', db_spawns s' !! id = Some r' -> sp_agent r' <> Some AgentCursor ->
            is_Some (pr_proven_gone_at pr))) /\
      (forall e, e ∈ db_subagents s' -> sa_instance_id e = id -> sa_state e <> SubagentStateRunning) /\
      (forall l, l ∈ db_launches s' -> la_instance_id l <> id))
    (applyEndedTransition T id g trig path present).
Proof.
  unfold applyEndedTransition, hookNotApplied, readHookGateRow, transition. guar.
  apply inImmediateTx_spec.
  intros s gs [prior closed] s1 gs1 (r & Hr & _ & Hg & E1 & E2 & E3 & E4)%endedBody_spec s' Hc Ht.
  destruct Ht as (T1 & _ & _ & T2 & T3 & _).
  set (r1 := gatedRow s g endedTransitionSet path present r) in *.
  assert (row_is s' id r1) as (r' & Hr' & Hcore).
  { eapply row_is_core; [|done]. by rewrite E1, lookup_insert_eq. }
  assert (sp_agent r' = sp_agent r1) as Ha by (core_eq Hcore sp_agent; done).
  split_and!.
  - exists r'. core_eq Hcore sp_state. core_eq Hcore sp_settled_state. core_eq Hcore sp_ended_at.
    core_eq Hcore sp_launch_started_at. core_eq Hcore sp_idle_since.
    destruct (ended_row s g path present r) as (F1 & F2 & F3 & F4 & F5). fold r1 in F1, F2, F3, F4, F5.
    split_and!; congruence.
  - rewrite T1, E2. intros pr (pr0 & -> & Hin)%list_elem_of_fmap Hid.
    set (s3 := s <| db_spawns := _ |>) in *.
    assert (pr_instance_id pr0 = id) as Hid0.
    { destruct (decide (pr_instance_id pr0 = id)) as [|Hne]; [done|]. by rewrite closeOne_other in Hid. }
    split; [by apply closeOne_not_awaiting|]. intros q Hq Hq'.
    rewrite closeOne_proof by done.
    assert (spawnAgentIsNotCursor s3 id = true) as ->.
    { unfold spawnAgentIsNotCursor, s3. rsimp. rewrite lookup_insert_eq. fold r1.
      unfold sql_is_not, sql_is. rewrite not3_Some, where3_Some, bool_decide_false; [done|]. congruence. }
    rewrite andb_true_r. case_bool_decide; [by eexists|]. by destruct (pr_proven_gone_at pr0).
  - rewrite T2, E3. apply closeRunning_none_running.
  - rewrite T3, E4. by intros l [H _]%list_elem_of_filter.
Qed.

(** *** Every branch of a hook's transition *)

Lemma requestHoldsRow_spawns s m id : requestHoldsRow (s <| db_spawns := m |>) id = requestHoldsRow s id.
Proof. unfold requestHoldsRow. by rsimp. Qed.

Lemma transition_outcome_unguarded T id g v trig path present s :
  codexToolTurn g = false -> g_Cursor g = None -> v <> StateEnded -> v <> StateWorking ->
  ApplyHookTransitionResult T id g v false trig path present (alone s [] [])
  = match db_spawns s !! id with
    | None => (Ok (UpsertNoChange, notApplied), alone s [] [])
    | Some r => applyGatedHookWrite T id g (transitionSet T v) (sp_state r) v false trig path present
                  (alone s [] [])
    end.
Proof.
  intros Ht Hc He Hw. unfold ApplyHookTransitionResult, guardedTransition. rewrite Ht, Hc.
  rewrite (bool_decide_false (v = StateWorking)) by done.
  rewrite (bool_decide_false (is_Some _)) by by intros []. cbn. unfold writeTransition. cbn.
  rewrite (bool_decide_false (v = StateEnded)), andb_false_r by done. unfold bind. cbn.
  by destruct (db_spawns s !! id).
Qed.

Lemma transition_outcome_working T id g trig path present s :
  codexToolTurn g = false -> g_Cursor g = None ->
  ApplyHookTransitionResult T id g StateWorking false trig path present (alone s [] [])
  = if requestHoldsRow s id then reportWorkingHeld T id g trig (alone s [] [])
    else match db_spawns s !! id with
    | None => (Ok (UpsertNoChange, notApplied), alone s [] [])
    | Some r => applyWorkingWrite T id g (transitionSet T StateWorking) (sp_state r) StateWorking trig path
                  present (alone s [] [])
    end.
Proof.
  intros Ht Hc. unfold ApplyHookTransitionResult, guardedTransition. rewrite Ht, Hc.
  rewrite (bool_decide_true (StateWorking = StateWorking)) by done. cbn [negb andb orb].
  rewrite (bool_decide_true (None = None)) by done. unfold holdWorkingTransition, selectPriorState.
  unfold bind at 1. cbn. unfold bind at 1. unfold bind at 1. rewrite read_alone.
  destruct (requestHoldsRow s id) eqn:Eh; cbn.
  - unfold bind. destruct (reportWorkingHeld T id g trig (alone s [] [])) as [[res|e] w]; done.
  - unfold writeTransition. rewrite (bool_decide_false (StateWorking = StateEnded)) by done. unfold bind. cbn.
    by destruct (db_spawns s !! id).
Qed.

Lemma applyWorkingWrite_alone T id g r trig path present s :
  codexToolTurn g = false -> g_Cursor g = None -> db_spawns s !! id = Some r ->
  requestHoldsRow s id = false ->
  applyWorkingWrite T id g (transitionSet T StateWorking) (sp_state r) StateWorking trig path present
    (alone s [] [])
  = if gateHolds s g id r
    then applyGatedHookWrite T id g (transitionSet T StateWorking) (sp_state r) StateWorking false trig
           path present (alone s [] [])
    else reportWorkingHeld T id g trig (alone s [] []).
Proof.
  intros Ht Hc Hr Hn. unfold applyWorkingWrite. rewrite Ht, Hc. cbv zeta.
  rewrite (bool_decide_false (is_Some None)) by by intros [].
  set (q := gatedHookUpdate id g (transitionSet T StateWorking) path present noCond).
  unfold bind at 1. rewrite (execGuarded_ext T id _ q).
  2: { unfold q. rewrite !gatedHookUpdate_row, Hr. unfold workingCond, noRequestHoldsRowSQL, noCond.
       rewrite Ht, andb_false_r, where3_and, !where3_Some, Hn. done. }
  assert (q s = if gateHolds s g id r
    then (true, s <| db_spawns := <[id := gatedRow s g (transitionSet T StateWorking) path present r]>
                                    (db_spawns s) |>) else (false, s)) as Hq.
  { unfold q. rewrite gatedHookUpdate_row, Hr. unfold noCond. by rewrite where3_Some, andb_true_r. }
  pose proof (execGuarded_alone T id q s [] []) as H. rewrite Hq in H.
  unfold applyGatedHookWrite. fold q. destruct (gateHolds s g id r); simpl in H.
  - destruct H as (s' & ex & E & _). unfold bind. by rewrite E.
  - rewrite H. done.
Qed.

(** Run alone, a hook's transition to a state other than ended (no Cursor
    binding, no Codex tool turn) does exactly this: no row, nothing; a gate
    that does not hold, nothing, and the reason; a move to working while a
    request holds the row, the held report (state and settle columns kept,
    idle_since cleared, a no-op transition event); otherwise the gated row is
    written and the transition is emitted. *)
Theorem hook_transition_every_branch (T : Z) (id : string) (g : HookGate) (v trig path : string)
    (present : bool) (s : Store) :
  codexToolTurn g = false -> g_Cursor g = None -> v <> StateEnded ->
  let '(res, s', tr) := run (ApplyHookTransitionResult T id g v false trig path present) s in
  match db_spawns s !! id with
  | None => res = Ok (UpsertNoChange, notApplied) /\ s' = s /\ tr = []
  | Some r =>
      if negb (gateHolds s g id r) then
        res = Ok (UpsertNoChange, mkApplied false
                (if bool_decide (sp_pane_pid r = None) then HookReasonNoPaneRecorded
                 else HookReasonPIDMismatch)) /\ s' = s /\ tr = []
      else if bool_decide (v = StateWorking) && requestHoldsRow s id then
        res = Ok (UpsertNoChange, appliedOk) /\ tables_eq s s' /\
        (exists r', db_spawns s' !! id = Some r' /\ sp_state r' = sp_state r /\ sp_idle_since r' = None /\
           sp_state_changed_ms r' = sp_state_changed_ms r /\ sp_settled_state r' = sp_settled_state r) /\
        (exists ex, tr = ex ++ [EvStateTransition id (sp_state r) (sp_state r) trig false] /\
           (sp_display_exit r = None -> ex = []))
      else
        res = Ok (UpsertUpdated, appliedOk) /\
        row_is s' id (gatedRow s g (transitionSet T v) path present r) /\ tables_eq s s' /\
        exists ex, tr = ex ++ [EvStateTransition id (sp_state r) v trig false] /\
          (sp_display_exit (transitionSet T v s r) = None -> ex = [])
  end.
Proof.
  intros Ht Hc He. unfold run. fold (alone s [] []).
  destruct (decide (v = StateWorking)) as [->|Hw].
  - rewrite transition_outcome_working by done. rewrite (bool_decide_true (_ = StateWorking)) by done.
    destruct (db_spawns s !! id) as [r|] eqn:Hr.
    + destruct (gateHolds s g id r) eqn:Hg; simpl.
      * destruct (requestHoldsRow s id) eqn:Eh; [by apply reportWorkingHeld_alone|].
        rewrite (applyWorkingWrite_alone T id g r) by done. rewrite Hg.
        pose proof (applyGatedHookWrite_alone T id g (transitionSet T StateWorking) (sp_state r)
          StateWorking false trig path present s) as H.
        unfold run in H. fold (alone s [] []) in H. rewrite Hr, Hg in H. exact H.
      * assert (reportWorkingHeld T id g trig (alone s [] []) =
          (Ok (UpsertNoChange, mkApplied false
             (if bool_decide (sp_pane_pid r = None) then HookReasonNoPaneRecorded
              else HookReasonPIDMismatch)), alone s [] [])) as E.
        { unfold reportWorkingHeld, readHookGateRow. erewrite bind_Ok by apply read_alone.
          rewrite Hr, Hg. simpl. unfold notAppliedReason. simpl. by destruct (bool_decide _). }
        destruct (requestHoldsRow s id) eqn:Eh; [by rewrite E|].
        rewrite (applyWorkingWrite_alone T id g r) by done. by rewrite Hg, E.
    + destruct (requestHoldsRow s id); [|done]. unfold reportWorkingHeld, readHookGateRow.
      erewrite bind_Ok by apply read_alone. by rewrite Hr.
  - rewrite transition_outcome_unguarded by done. rewrite (bool_decide_false (v = _)) by done. simpl.
    destruct (db_spawns s !! id) as [r|] eqn:Hr; [|done].
    pose proof (applyGatedHookWrite_alone T id g (transitionSet T v) (sp_state r) v false trig path present s) as H.
    unfold run in H. fold (alone s [] []) in H. rewrite Hr in H.
    destruct (gateHolds s g id r); exact H.
Qed.

(** *** A hook write that is not applied has written nothing *)

(** An operation that fails, or whose result [ap] calls not applied, has
    committed no write. *)
Definition quiet {A} (ap : A -> bool) (r : result A) (own : list (Store * Store)) : Prop :=
  match r with Ok a => ap a = false -> own = [] | Err _ => own = [] end.

Lemma quiet_read {A B} (ap : B -> bool) (f : Store -> A) (k : A -> M Store Event B) :
  (forall a, ensures (quiet ap) (k a)) -> ensures (quiet ap) (bind (read f) k).
Proof.
  intros Hk. apply (ensures_bind (fun _ own => own = [])); [by apply ensures_read| |by intros ?? ->].
  intros a o1 ->. apply Hk.
Qed.

Lemma quiet_bind_ret {A B} (ap : A -> bool) (ap' : B -> bool) (m : M Store Event A) (f : A -> B) :
  (forall a, ap' (f a) = ap a) -> ensures (quiet ap) m -> ensures (quiet ap') (a <- m;; ret (f a)).
Proof.
  intros Hf Hm. eapply ensures_bind; [exact Hm| |done].
  intros a o1 H. apply ensures_ret. unfold quiet. rewrite Hf, app_nil_r. exact H.
Qed.

(** The shape of every gated write: applied, the event and an applied result;
    not applied, whatever [m] does. *)
Lemma quiet_exec {B} (ap : B -> bool) T id q (m : M Store Event B) e b :
  ap b = true -> ensures (quiet ap) m ->
  ensures (quiet ap) (n <- execGuarded T id q;; if negb n then m else emit e;;; ret b).
Proof.
  intros Hb Hm. eapply ensures_bind; [apply ensures_execGuarded| |].
  - intros [] o1 H1; simpl.
    + intros w. exists []. simpl. rewrite !app_nil_r. split; [done|]. by rewrite Hb.
    + rewrite H1 by done. exact Hm.
  - intros e0 o1 H1. by apply H1.
Qed.

Definition ap2 : UpsertOutcome * HookApplied -> bool := fun r => ha_Applied (snd r).

Lemma quiet_ret {A} (ap : A -> bool) (a : A) : ensures (quiet ap) (ret a : M Store Event A).
Proof. by apply ensures_ret. Qed.

Lemma quiet_notApplied id g o : ensures (quiet ap2) (a <- hookNotApplied id g;; ret (o, a)).
Proof.
  unfold hookNotApplied, readHookGateRow. intros w. exists []. rewrite app_nil_r.
  unfold bind, read, ret. destruct (next_gap (w_gaps w)) as [[e|e why] gs]; done.
Qed.

Lemma applyGated_quiet T id g set prior new soft trig path present :
  ensures (quiet ap2) (applyGatedHookWrite T id g set prior new soft trig path present).
Proof. unfold applyGatedHookWrite, transition. apply quiet_exec; [done|apply quiet_notApplied]. Qed.

Lemma reportHeld_quiet T id g trig : ensures (quiet ap2) (reportWorkingHeld T id g trig).
Proof.
  unfold reportWorkingHeld, readHookGateRow, transition. apply quiet_read. intros r.
  destruct (_ || _); [apply quiet_ret|]. eapply ensures_bind; [apply ensures_execGuarded| |].
  - intros n o1 _ w. exists []. simpl. rewrite !app_nil_r. done.
  - intros e o1 H1. by apply H1.
Qed.

Lemma applyWorking_quiet T id g set prior new trig path present :
  ensures (quiet ap2) (applyWorkingWrite T id g set prior new trig path present).
Proof.
  unfold applyWorkingWrite, transition. cbv zeta. apply quiet_exec; [done|].
  assert (forall soft : bool, ensures (quiet ap2)
    (if soft then prior <- selectPriorState id;;
       match prior with
       | None => ret (UpsertNoChange, notApplied)
       | Some prior => applyGatedHookWrite T id g softRefreshSet prior prior true trig path present
       end else reportWorkingHeld T id g trig)) as Hs.
  { intros []; [|apply reportHeld_quiet]. unfold selectPriorState. apply quiet_read.
    intros [prior'|]; [apply applyGated_quiet|apply quiet_ret]. }
  destruct (bool_decide _); [apply (Hs true)|]. destruct (_ && _); [|apply (Hs false)].
  unfold codexToolTurnLate. apply quiet_read. exact Hs.
Qed.

Lemma ensures_inImmediateTx {A} T id (body : Tx Store A) :
  ensures (fun r own => match r with Err _ => own = [] | Ok _ => True end) (inImmediateTx T id body).
Proof.
  unfold inImmediateTx. eapply ensures_bind; [apply ensures_txImmediate| |done].
  intros [a ex] o1 _ w. exists []. simpl. by rewrite app_nil_r.
Qed.

Lemma applyEnded_quiet T id g trig path present :
  ensures (quiet ap2) (applyEndedTransition T id g trig path present).
Proof.
  unfold applyEndedTransition. eapply ensures_catch; [apply ensures_inImmediateTx|].
  intros [[prior closed]|e] o1 H1.
  - intros w. exists []. simpl. rewrite !app_nil_r. done.
  - subst o1. destruct e; try (by apply ensures_fail). apply quiet_notApplied.
Qed.

Lemma quiet_hold T id g trig (rest : M Store Event (UpsertOutcome * HookApplied)) :
  ensures (quiet ap2) rest ->
  ensures (quiet ap2)
    (held <- holdWorkingTransition T id g trig;; match held with Some res => ret res | None => rest end).
Proof.
  intros Hrest. unfold holdWorkingTransition.
  apply (ensures_bind (fun r own => match r with
    | Ok (Some res) => ap2 res = false -> own = [] | _ => own = [] end)).
  - eapply (ensures_bind (fun _ own => own = [])); [by apply ensures_read| |by intros ?? ->].
    intros [] o1 ->; simpl; [|by apply ensures_ret].
    eapply ensures_bind; [apply reportHeld_quiet| |done].
    intros res o1 H. apply ensures_ret. by rewrite app_nil_r.
  - intros [res|] o1 H.
    + apply ensures_ret. by rewrite app_nil_r.
    + by subst o1.
  - done.
Qed.

Lemma writeTransition_quiet T id g v sf guarded trig path present :
  ensures (quiet ap2) (writeTransition T id g v sf guarded trig path present).
Proof.
  unfold writeTransition, selectPriorState. destruct (negb sf && _); [apply applyEnded_quiet|].
  apply quiet_read. intros [prior|]; [|apply quiet_ret].
  destruct guarded; [apply applyWorking_quiet|apply applyGated_quiet].
Qed.

Lemma quiet_if_read {A B} (ap : B -> bool) (c : bool) (f : Store -> A) (d : A) (k : A -> M Store Event B) :
  (forall a, ensures (quiet ap) (k a)) -> ensures (quiet ap) (bind (if c then read f else ret d) k).
Proof.
  intros Hk. destruct c; [by apply quiet_read|]. intros w. exact (Hk d w).
Qed.

Lemma hookTransition_quiet T id g v soft trig path present :
  ensures (quiet ap2) (ApplyHookTransitionResult T id g v soft trig path present).
Proof.
  unfold ApplyHookTransitionResult, codexToolTurnLate. cbv zeta. apply quiet_if_read. intros late.
  destruct (if late then _ else _) as [[w sf] u]. destruct (w && _).
  - unfold holdWorkingTransition. intros w0.
    destruct (quiet_hold T id g trig (writeTransition T id g u sf (guardedTransition g u sf w) trig path present)
      (writeTransition_quiet _ _ _ _ _ _ _ _ _) w0) as (own & E & H). by exists own.
  - intros w0. exact (writeTransition_quiet _ _ _ _ _ _ _ _ _ w0).
Qed.

Lemma quiet_fmap {A} (ap : A -> HookApplied) (m : M Store Event A) :
  ensures (quiet (fun a => ha_Applied (ap a))) m ->
  ensures (quiet ha_Applied) (r <- m;; ret (ap r)).
Proof. by apply quiet_bind_ret. Qed.

Lemma hookWaiting_quiet T id g trig path present :
  ensures (quiet ap2) (ApplyHookWaitingIfWorking T id g trig path present).
Proof.
  unfold ApplyHookWaitingIfWorking, transition. cbv zeta.
  assert (forall q st (m : M Store Event (UpsertOutcome * HookApplied)), ensures (quiet ap2) m ->
    ensures (quiet ap2) (moved <- execGuarded T id q;;
      if moved : bool then emit (EvStateTransition id st StateWaiting trig false);;;
                           ret (UpsertUpdated, appliedOk) else m)) as Hex.
  { intros q st m Hm. eapply ensures_bind; [apply ensures_execGuarded| |].
    - intros [] o1 H1.
      + intros w. exists []. simpl. rewrite !app_nil_r. done.
      + rewrite H1 by done. exact Hm.
    - intros e o1 H1. by apply H1. }
  apply Hex, Hex. unfold selectPriorState. apply quiet_read.
  intros [prior|]; [apply applyGated_quiet|apply quiet_ret].
Qed.

Lemma sessionStart_quiet T text id g path present :
  ensures (quiet (fun r => ha_Applied (fst r))) (RecordSessionStartIdentity T text id g path present).
Proof.
  assert (ensures (quiet (fun r : HookApplied * bool => ha_Applied (fst r))) (sessionStartNotApplied id g)) as Hn.
  { unfold sessionStartNotApplied, readHookGateRow. apply quiet_read. intros r.
    destruct (_ && _); apply quiet_ret. }
  unfold RecordSessionStartIdentity, readSessionStartPrior. apply quiet_read. intros [prior|]; [|exact Hn].
  eapply ensures_catch; [apply ensures_txImmediate|]. intros [arch|e] o1 H1.
  - intros w. unfold transition. exists []. unfold bind, emit, ret, fail. simpl.
    destruct arch; [destruct (sessionStartArchives g)|]; simpl; rewrite !app_nil_r; done.
  - subst o1. destruct e; try (by apply ensures_fail). exact Hn.
Qed.

(** A hook write that fails, or that reports itself not applied, has
    committed nothing at all, on every branch and under any interference:
    the error or the reason a caller sees is never paired with a write. *)
Theorem hook_not_applied_writes_nothing (T : Z) (text : CodexStartup -> string) (id : string)
    (g : HookGate) (op : hookOp) :
  ensures (fun r own => (match r with Ok a => ha_Applied a = false | Err _ => True end) -> own = [])
    (runHook T text id g op).
Proof.
  apply (ensures_mono (quiet ha_Applied)); [|by intros [a|e] own; simpl; auto].
  destruct op; simpl; apply quiet_fmap.
  - apply hookTransition_quiet.
  - unfold ApplyHookEndReport, selectPriorState. apply quiet_read.
    intros [prior|]; [apply applyGated_quiet|apply quiet_ret].
  - apply hookWaiting_quiet.
  - apply sessionStart_quiet.
Qed.

(** *** SessionStart *)

Lemma sessionStart_row T g startup path present s r :
  let r' := sessionStartSet T g startup path present s r in
  sp_pid r' = positiveIntArg (g_ParentPID g) /\ sp_proc_starttime r' = nullableStringArg (g_ParentStart g) /\
  sp_session_id r' = coalesce2 (nullif_empty (g_SessionID g)) (sp_session_id r) /\
  sp_end_reported_at r' = None.
Proof.
  cbv zeta. unfold sessionStartSet. cbv zeta. generalize (hookWriteStateSet StateWaiting T (db_now s) r).
  intros q. unfold rowVersionAdvance, launchStartClear, hookPaneStartSet, livenessClear, idleClear.
  destruct (_ && present); [|destruct (negb _)]; rsimp; done.
Qed.

Definition sessionStarted (g : HookGate) (id : string) (s s' : Store) : Prop :=
  exists r r', db_spawns s !! id = Some r /\ db_spawns s' !! id = Some r' /\
    lifeSnapshot r = g_Examined g /\ gateHolds s g id r = true /\
    sp_state r' = StateWaiting /\ sp_pid r' = Some (g_ParentPID g) /\
    sp_proc_starttime r' = Some (g_ParentStart g) /\
    sp_session_id r' = coalesce2 (nullif_empty (g_SessionID g)) (sp_session_id r) /\
    sp_row_version r' = sp_row_version r + 1 /\ sp_end_reported_at r' = None /\
    db_requests s' = db_requests s /\
    (db_history s' = db_history s \/
     (sessionStartArchives g = true /\ exists path0 life0,
      db_history s' = upsertHistory (id, rs_SessionID (g_Examined g)) (nullif_empty path0) life0
        (nowSec s) (db_history s))).

Lemma sessionStartBody_started T text id g prior path present :
  tx_spec (fun s _ s' => sessionStarted g id s s') (sessionStartBody T text id g prior path present).
Proof.
  intros s gs arch s' gs'. unfold sessionStartBody.
  intros (n & s1 & gs1 & [= Hn]%tstmt_Ok & H)%tbind_Ok. destruct n; [|done]. simpl in H.
  unfold sessionStartUpdate, update1 in Hn. destruct (db_spawns s !! id) as [r|] eqn:Hr; [|done].
  destruct (where3 _) eqn:E; [|done]. injection Hn as <-.
  rewrite where3_and, snapshot_match in E. apply andb_true_iff in E as [Eg Es]. bsimp.
  set (r1 := sessionStartSet T g _ path present s r) in *.
  apply tbind_Ok in H as (x & s2 & gs2 & H1 & H).
  apply tbind_Ok in H as ([] & s3 & gs3 & [= <-]%tstmt_Ok & [= <- <- <-]).
  set (s1 := s <| db_spawns := <[id := r1]> (db_spawns s) |>) in *.
  assert (db_spawns s2 = db_spawns s1 /\ db_requests s2 = db_requests s /\
    (db_history s2 = db_history s \/ (sessionStartArchives g = true /\ exists path0 life0,
      db_history s2 = upsertHistory (id, rs_SessionID (g_Examined g)) (nullif_empty path0) life0
        (nowSec s) (db_history s)))) as (E2 & Er & Eh).
  { unfold s1 in *. destruct (sessionStartArchives g); [|injection H1 as <- <- <-; rsimp; auto].
    apply ttry_Ok in H1 as [([] & _ & H1%tstmt_Ok)|(e & _ & ->)]; [|rsimp; auto].
    unfold upsertSessionHistoryEntry in H1. case_bool_decide; [|done]. injection H1 as <-. rsimp.
    split_and!; [done..|]. right. split; [done|]. eexists _, _. unfold nowSec. rsimp. reflexivity. }
  assert (row_is (refreshFamilies T s2) id r1) as (r' & Hr' & Hc).
  { apply (row_is_core s2); [|apply core_step_refresh]. rewrite E2. unfold s1. rsimp. apply lookup_insert_eq. }
  exists r, r'. destruct (gate_parent _ _ _ _ Eg) as (Hp & _ & Hps & _).
  destruct (sessionStart_row T g (codexStartupArg text prior g path) path present s r) as (F1 & F2 & F3 & F4).
  destruct (sessionStart_fields T g (codexStartupArg text prior g path) path present s r) as (_ & F5 & F6).
  fold r1 in F1, F2, F3, F4, F5, F6.
  core_eq Hc sp_state. core_eq Hc sp_pid. core_eq Hc sp_proc_starttime. core_eq Hc sp_session_id.
  core_eq Hc sp_row_version. core_eq Hc sp_end_reported_at.
  unfold positiveIntArg in F1. rewrite (proj2 (Z.ltb_lt 0 _)) in F1 by done.
  unfold nullableStringArg, nullif_empty in F2. rewrite bool_decide_false in F2 by done.
  split_and!; try congruence; try done; unfold refreshFamilies; rsimp; done.
Qed.

(** A SessionStart applies only to the life its caller examined: every
    write it commits finds the row holding the examined snapshot with the gate
    open, moves it to waiting as the hook's parent's process, records the
    session, and archives the outgoing session, when the new one differs, in
    the same transaction (a failed archive still commits the rest). *)
Theorem session_start_pins_the_examined_life (T : Z) (text : CodexStartup -> string) (id : string)
    (g : HookGate) (path : string) (present : bool) :
  guarantees (sessionStarted g id) (RecordSessionStartIdentity T text id g path present).
Proof.
  unfold RecordSessionStartIdentity, readSessionStartPrior, sessionStartNotApplied, readHookGateRow,
    transition. cbv zeta. guar. apply guarantees_txImmediate, sessionStartBody_started.
Qed.

(** *** The turn end a read writes *)

Lemma hookWrite_last_seen v T now r : sp_last_seen_at (hookWriteStateSet v T now r) = sp_last_seen_at r.
Proof.
  unfold hookWriteStateSet. destruct (isTerminalState v);
    unfold immediateStateSet, immediateSettleSet, hookStateSet; cbv zeta; by rsimp.
Qed.

(** EndCodexTurn moves a row to waiting only from working, for a Codex
    row whose current turn is the one whose end the caller found, not
    recorded ended, with that rollout: a row that is no longer so is left as
    it is up to stored aggregates, whatever raced it. It bumps no
    last_seen_at, since no hook reported. *)
Theorem codex_turn_end_guarded (T : Z) (t : CodexOpenTurn) :
  guarantees (rows_step (fun s j r r' => same_core r r' \/
      (j = ct_InstanceID t /\ sp_agent r = Some AgentCodex /\ sp_state r = StateWorking /\
       sp_codex_turn r = Some (ct_Turn t) /\ sp_codex_turn_ended r <> Some (ct_Turn t) /\
       sp_jsonl_path r = Some (ct_JSONLPath t) /\
       sp_state r' = StateWaiting /\ sp_codex_turn_ended r' = Some (ct_Turn t) /\
       sp_last_seen_at r' = sp_last_seen_at r /\ sp_row_version r' = sp_row_version r + 1)))
    (EndCodexTurn T t).
Proof.
  unfold EndCodexTurn, transition. guar. apply guarantees_txBounded.
  intros s gs [moved ex] s' gs'. unfold endCodexTurnBody.
  intros (n & s1 & gs1 & [= Hn]%tstmt_Ok & H)%tbind_Ok.
  assert (s1 = snd (endCodexTurnUpdate T t s)) as E1 by (by rewrite Hn).
  assert (core_step s1 s') as Hc.
  { destruct n; simpl in H; [|injection H as <- <- <- <-; apply core_step_refl].
    apply tbind_Ok in H as ([] & s2 & gs2 & [= <-]%tstmt_Ok & H).
    apply tbind_Ok in H as (ex' & s3 & gs3 & [Hc _]%takeDisplayExits_spec & [= <- <- <- <-]).
    eapply core_step_trans; [apply core_step_refresh|done]. }
  apply (rows_step_core _ s s1); [|rewrite E1|exact Hc].
  - intros j r r1 r' [Hs|Hs] Hcr; [left; by etrans|right].
    core_eq Hcr sp_state. core_eq Hcr sp_codex_turn_ended. core_eq Hcr sp_last_seen_at.
    core_eq Hcr sp_row_version. destruct Hs as (? & ? & ? & ? & ? & ? & ? & ? & ? & ?).
    split_and!; congruence.
  - apply update1_step; [by left|]. intros r r1 _ Hu. right.
    destruct (where3 _) eqn:E; [|done]. injection Hu as <-. unfold codexOpenTurnSQL in E.
    rewrite !where3_and, !where3_sql_eq in E. bsimp. unfold sql_is_not, sql_is in *.
    rewrite not3_Some, where3_Some in *. bsimp. simplify_eq.
    destruct (hookWrite_fields StateWaiting T (db_now s) r) as (_ & F2 & F3).
    pose proof (hookWrite_last_seen StateWaiting T (db_now s) r) as F4.
    revert F2 F3 F4. generalize (hookWriteStateSet StateWaiting T (db_now s) r). intros q F2 F3 F4.
    unfold rowVersionAdvance. rsimp. split_and!; congruence.
Qed.

(** ** Witnesses *)

Definition sampleGate : HookGate :=
  mkGate false None "PreToolUse" 77 "s77" "sess" false (mkRowSnapshot 0 "" "" 0 "" "") "t1" false false true.
Definition plainGate : HookGate :=
  mkGate false None "Stop" 77 "s77" "sess" false (mkRowSnapshot 0 "" "" 0 "" "") "" false false false.
Definition paneRow : SpawnRow := soloRow <| sp_pane_pid := Some 77 |> <| sp_pane_starttime := Some "s77" |>.
Definition paneStore : Store := storeOf {[ "leaf" := paneRow ]} 5000.

Lemma late_codex_tool_hook_never_works_witness :
  codexToolTurn sampleGate = true /\
  guarantees (fun s s' => forall j r r', db_spawns s !! j = Some r -> db_spawns s' !! j = Some r' ->
      sp_state r <> StateWorking -> sp_state r' = StateWorking ->
      sp_codex_turn_ended r <> Some (g_CodexTurn sampleGate) /\
      (sp_codex_turn r = None \/ sp_codex_turn r = Some (g_CodexTurn sampleGate)))
    (runHook 0 (fun _ => "") "leaf" sampleGate (HookTransition StateWorking false "PreToolUse" "" false)).
Proof. split; [reflexivity|]. apply late_codex_tool_hook_never_works. reflexivity. Defined.

Lemma hook_transition_every_branch_witness :
  fst (fst (run (ApplyHookTransitionResult 0 "leaf" plainGate StateWaiting false "Stop" "" false) paneStore))
  = Ok (UpsertUpdated, appliedOk).
Proof.
  pose proof (hook_transition_every_branch 0 "leaf" plainGate StateWaiting "Stop" "" false paneStore
    eq_refl eq_refl ltac:(discriminate)) as H.
  destruct (run _ paneStore) as [[res s'] tr]. simpl.
  assert (db_spawns paneStore !! "leaf" = Some paneRow) as E by apply lookup_singleton_eq.
  rewrite E in H. assert (gateHolds paneStore plainGate "leaf" paneRow = true) as Eg by by vm_compute.
  rewrite Eg in H. apply H.
Defined.
