(* ===== verification/SubagentProps.v ===== *)
(** * Properties of the subagent writes

    A hook's event touches only the entries and launches of a Spawn whose
    pane it comes from and whose launch is tracked; a turn end's snapshot
    closes exactly the background entries it no longer lists; a stored string
    is cut at a character. *)

From S2P Require Import Prelude Sql Rows Display Settle Family Requests History Steps Gate HookWrites SubagentWrites SubagentInv HookProps.
From Stdlib Require Ascii.

(** ** The gate *)

Definition othersEntries (id : string) (s : Store) : list SubagentRow :=
  filter (fun e => sa_instance_id e <> id) (db_subagents s).
Definition othersLaunches (id : string) (s : Store) : list LaunchRow :=
  filter (fun l => la_instance_id l <> id) (db_launches s).

(** What a gated write leaves: the tables when the gate does not hold, and
    always the other Spawns' rows. *)
Record gated (id : string) (g : HookGate) (s s' : Store) : Prop := {
  ga_gate : subagentGateExists s g id None = false ->
    db_subagents s' = db_subagents s /\ db_launches s' = db_launches s;
  ga_others : subs_good s -> othersEntries id s' = othersEntries id s /\ othersLaunches id s' = othersLaunches id s;
}.
Definition gated_step (id : string) (g : HookGate) (s s' : Store) : Prop := sub_step s s' /\ gated id g s s'.

Lemma gated_trans id g s s1 s2 : sub_step s s1 -> gated id g s s1 -> gated id g s1 s2 -> gated id g s s2.
Proof.
  intros H1 [A1 A2] [B1 B2]. split.
  - intros Hg. destruct (A1 Hg) as [<- <-]. apply B1. rewrite <- Hg.
    apply gate_ext; [apply (ss_spawns _ _ H1)|apply (ss_runtimes _ _ H1)].
  - intros G. destruct (A2 G) as [<- <-]. apply B2. apply (st_good _ _ (ss_good _ _ H1 G)).
Qed.
Lemma gated_refl id g s : gated id g s s.
Proof. by split. Qed.

#[export] Instance gated_step_preorder id g : PreOrder (gated_step id g).
Proof.
  split; [intros s; split; [reflexivity|apply gated_refl]|].
  intros s s1 s2 [H1 G1] [H2 G2]. split; [by etrans|by eapply gated_trans].
Qed.

Lemma keeps_gated {A} id g (m : Tx Store A) :
  tx_keeps sub_step m -> tx_spec (fun s _ s' => gated id g s s') m -> tx_keeps (gated_step id g) m.
Proof. intros H1 H2 s gs a s' gs' E. split; [by eapply H1|by eapply H2]. Qed.

Lemma filter_fmap_same {A} (P : A -> Prop) `{!forall x, Decision (P x)} (f : A -> A) (l : list A) :
  (forall x, P (f x) <-> P x) -> (forall x, P x -> f x = x) -> filter P (f <$> l) = filter P l.
Proof.
  intros Hp Hf. induction l as [|a l IH]; [done|]. rewrite fmap_cons, !filter_cons. specialize (Hp a).
  destruct (decide (P (f a))), (decide (P a)); try tauto. f_equal; auto.
Qed.

Lemma filter_filter_same {A} (P Q : A -> Prop) `{!forall x, Decision (P x)} `{!forall x, Decision (Q x)} (l : list A) :
  (forall x, x ∈ l -> P x -> Q x) -> filter P (filter Q l) = filter P l.
Proof.
  intros Hq. induction l as [|a l IH]; [done|]. rewrite !filter_cons.
  assert (filter P (filter Q l) = filter P l) as E by (apply IH; intros x Hx; apply Hq; by right).
  destruct (decide (Q a)) as [|Hn].
  - rewrite filter_cons, E. done.
  - rewrite decide_False; [done|]. intros Hp. apply Hn, Hq; [by left|done].
Qed.

Lemma fmap_same {A} (f : A -> A) (l : list A) : (forall x, x ∈ l -> f x = x) -> f <$> l = l.
Proof.
  intros H. induction l as [|a l IH]; [done|]. rewrite fmap_cons, H by by left. f_equal. apply IH.
  intros x Hx. apply H. by right.
Qed.
Lemma filter_all {A} (P : A -> Prop) `{!forall x, Decision (P x)} (l : list A) : (forall x, x ∈ l -> P x) -> filter P l = l.
Proof.
  intros Hp. induction l as [|a l IH]; [done|]. rewrite filter_cons_True by (apply Hp; by left). f_equal. apply IH.
  intros x Hx. apply Hp. by right.
Qed.

Section Gated.
Context (t : subagentTx).
Abbreviation id := (tx_instanceID t).
Abbreviation g := (tx_gate t).

Lemma gated_update (f : SubagentRow -> SubagentRow) s :
  (forall e, sa_instance_id (f e) = sa_instance_id e) -> (forall e, f e = e \/ sa_instance_id e = id) ->
  (subagentGateExists s g id None = false -> forall e, f e = e) ->
  gated id g s (s <| db_subagents := f <$> db_subagents s |>).
Proof.
  intros Hi Hid Hg. split; unfold othersEntries, othersLaunches; rsimp.
  - intros E. split; [|done]. by apply fmap_same; auto.
  - intros _. split; [|done]. apply filter_fmap_same; [intros e; by rewrite Hi|].
    intros e He. by destruct (Hid e).
Qed.

Lemma gated_deleteLaunches c s :
  (subs_good s -> forall l, l ∈ db_launches s -> c l = true -> la_instance_id l = id) ->
  (subagentGateExists s g id None = false -> forall l, c l = false) -> gated id g s (snd (deleteLaunches c s)).
Proof.
  intros Hid Hg. split; unfold othersEntries, othersLaunches, deleteLaunches; rsimp.
  - intros E. split; [done|]. apply filter_all. auto.
  - intros G. split; [done|]. apply filter_filter_same. intros l Hl Hne. destruct (c l) eqn:E; [|done].
    by destruct Hne; auto.
Qed.

Lemma gate_weaken s b : subagentGateExists s g id b = true -> subagentGateExists s g id None = true.
Proof. intros (r & Er & Hr)%gate_row. by rewrite (gate_of_row _ _ _ _ Er). Qed.

Lemma writeEntry_gated e n at_ move cur : tx_spec (fun s _ s' => gated id g s s') (writeEntry t e n at_ move cur).
Proof.
  intros s gs a s' gs'. unfold writeEntry. case_bool_decide; [by intros [= _ <- _]; apply gated_refl|].
  intros [= _ <-]%tstmt_Ok. unfold writeEntryStmt. apply gated_update.
  - intros r. destruct (where3 _); [|done]. unfold entryColumns. by rsimp.
  - intros r. destruct (where3 _) eqn:Ew; [|by left]. right. rewrite !where3_and, !where3_sql_eq in Ew. bsimp. congruence.
  - intros Hg r. destruct (where3 _) eqn:Ew; [|done]. exfalso. rewrite !where3_and, where3_Some in Ew. bsimp.
    match goal with H : subagentGateExists _ _ _ _ = true |- _ => apply gate_weaken in H end. congruence.
Qed.

Lemma evictEntry_gated s gs b s' gs' : evictSubagentEntryGated id g s gs = (Ok (b, s'), gs') -> gated id g s s'.
Proof.
  intros [= Hb]%tstmt_Ok. destruct (firstBy _ _) as [e|] eqn:Ef; [|injection Hb as _ <-; apply gated_refl].
  destruct (_ && _) eqn:Ec; injection Hb as _ <-; [|apply gated_refl].
  apply andb_true_iff in Ec as [_ Hg]. apply firstBy_in in Ef. unfold entriesOf in Ef.
  apply list_elem_of_filter in Ef as [Hid Hin]. split; unfold othersEntries, othersLaunches; rsimp; [congruence|].
  intros G. split; [|done]. apply filter_filter_same. intros x Hx Hne Hs.
  assert (x = e) as -> by (eapply (NoDup_fmap_eq sa_created_seq); [apply (sg_seqs _ G)|done..]). done.
Qed.

Lemma seqLaunch_gated (c : LaunchRow -> bool) l0 s : l0 ∈ db_launches s -> la_instance_id l0 = id ->
  (forall l, c l = true -> la_created_seq l = la_created_seq l0) ->
  (subagentGateExists s g id None = false -> forall l, c l = false) -> gated id g s (snd (deleteLaunches c s)).
Proof.
  intros Hin Hid Hc Hg. apply gated_deleteLaunches; [|done]. intros G l Hl E.
  assert (l = l0) as -> by (eapply (NoDup_fmap_eq la_created_seq); [apply (sg_launch_seqs _ G)|auto..]). done.
Qed.

Lemma evictLaunch_gated s gs b s' gs' : evictSubagentLaunchGated id g s gs = (Ok (b, s'), gs') -> gated id g s s'.
Proof.
  intros [= Hb]%tstmt_Ok. destruct (firstBy _ _) as [l|] eqn:Ef; [|injection Hb as _ <-; apply gated_refl].
  destruct (_ && _) eqn:Ec; [|injection Hb as _ <-; apply gated_refl].
  apply andb_true_iff in Ec as [_ Hg]. apply firstBy_in in Ef. unfold launchesOf in Ef.
  apply list_elem_of_filter in Ef as [Hid Hin].
  replace s' with (snd (deleteLaunches (fun l' => la_created_seq l' =? la_created_seq l) s)) by by rewrite Hb.
  eapply seqLaunch_gated; [done..|intros; lia|congruence].
Qed.

Lemma claim_gated typ s gs b s' gs' : claim t typ s gs = (Ok (b, s'), gs') -> gated id g s s'.
Proof.
  intros [= Hb]%tstmt_Ok. destruct (firstBy _ _) as [l|] eqn:Ef; [|injection Hb as _ <-; apply gated_refl].
  apply firstBy_in in Ef. apply list_elem_of_filter in Ef as [Hc Hin].
  match type of Hb with deleteLaunches ?c s = _ => replace s' with (snd (deleteLaunches c s)) by by rewrite Hb end.
  eapply (seqLaunch_gated _ l); [done| |intros l'; rewrite andb_true_iff; lia|].
  - unfold claimable in Hc. rewrite !where3_and, !where3_sql_eq in Hc. bsimp. congruence.
  - intros Hg l'. apply andb_false_iff. right. apply not_true_iff_false. intros H%gate_weaken. congruence.
Qed.

Lemma insertEntry_gated subid e s gs b s' gs' : insertEntry t subid e s gs = (Ok (b, s'), gs') -> gated id g s s'.
Proof.
  intros H%tstmt_Ok. unfold insertEntryStmt in H.
  destruct (db_spawns s !! id) as [r|] eqn:Er; [|injection H as _ <-; apply gated_refl].
  destruct (where3 _) eqn:Ew; [|injection H as _ <-; apply gated_refl]. destruct (existsb _ _); [done|].
  injection H as _ <-. split; unfold othersEntries, othersLaunches; rsimp.
  - rewrite (gate_of_row _ _ _ _ Er). congruence.
  - intros _. split; [|done]. rewrite filter_app, filter_cons_False by (rsimp; auto). by rewrite app_nil_r.
Qed.

Lemma create_gated subid e typ : entry_good e -> tx_keeps (gated_step id g) (create t subid e typ).
Proof.
  intros Hgood. apply keeps_gated; [by apply create_step|].
  intros s gs a s' gs'. unfold create. intros (ev & s1 & gs1 & Hev & H)%tbind_Ok.
  pose proof (evictEntry_gated _ _ _ _ _ Hev) as G1. apply evictEntry_step in Hev as (H1 & _ & _).
  apply tbind_Ok in H as (cl & s2 & gs2 & H2 & H).
  assert (sub_step s1 s2 /\ gated id g s1 s2) as [S2 G2].
  { revert H2. case_bool_decide; [intros [= _ <- _]; split; [reflexivity|apply gated_refl]|].
    intros Hc. split; [by eapply claim_step|by eapply claim_gated]. }
  apply tbind_Ok in H as (ins & s3 & gs3 & H3%insertEntry_gated & H).
  assert (s' = s3) as -> by (destruct (_ && _); [done|by injection H]).
  eapply gated_trans; [|by eapply gated_trans|done]. by etrans.
Qed.

Lemma closeLaunch_gated use : tx_keeps (gated_step id g) (closeLaunch t use).
Proof.
  apply keeps_gated; [apply closeLaunch_step|]. unfold closeLaunch. case_bool_decide as Hu.
  { intros s gs a s' gs' [= _ <- _]. apply gated_refl. }
  intros s gs a s' gs' (n & s1 & gs1 & H1%tstmt_Ok & [= _ <- _])%tbind_Ok.
  match type of H1 with Ok (deleteLaunches ?c s) = _ => assert (deleteLaunches c s = (n, s1)) as E1 by (by injection H1 as <- <-);
    replace s1 with (snd (deleteLaunches c s)) by by rewrite E1 end.
  apply gated_deleteLaunches.
  - intros _ l _. rewrite !where3_and, !where3_sql_eq. intros E. bsimp. congruence.
  - intros Hg l. rewrite Hg, !where3_and, where3_Some, !andb_false_r. done.
Qed.

Lemma found_gated subid (f : SubagentRow -> SubagentRow) none at_ move cur :
  (forall e, entry_good e -> entry_good (f e) /\ entry_gains e (f e)) -> tx_keeps (gated_step id g) none ->
  tx_keeps (gated_step id g) (e <-- readEntry t subid;;
                              match e with None => none | Some e => writeEntry t e (f e) at_ move cur end).
Proof.
  intros Hf Hn. apply keeps_gated.
  - apply found_step; [done|]. intros s gs a s' gs' H. by destruct (Hn _ _ _ _ _ H).
  - intros s gs a s' gs' (e & s1 & gs1 & [= <- <-]%tstmt_Ok & H)%tbind_Ok.
    destruct (find _ _) as [e|]; [by eapply writeEntry_gated|]. by destruct (Hn _ _ _ _ _ H).
Qed.

Lemma start_gated ev : tx_keeps (gated_step id g) (start t ev).
Proof. apply found_gated; [auto using good_restarted, gains_restarted|]. apply create_gated, good_started. Qed.

Lemma applyListed_gated l at_ doCreate session : tx_keeps (gated_step id g) (applyListed t l at_ doCreate session).
Proof.
  induction l as [|x l IH]; simpl; [ktx|].
  intros s gs a s' gs' (e & s1 & gs1 & He & H)%tbind_Ok. apply tbind_Ok in H as ([] & s2 & gs2 & H1 & H2).
  etrans; [|by eapply IH].
  eapply (found_gated (sl_ID x) (relistedEntry t) (if negb doCreate then tret tt else create t (sl_ID x) (listedEntry session at_ x) "")
            at_ true false); [auto using good_relisted, gains_relisted|destruct doCreate; simpl; [apply create_gated, good_listed|ktx]|].
  unfold tbind. rewrite He. exact H1.
Qed.

Lemma stop_gated ev : tx_keeps (gated_step id g) (stop t ev).
Proof.
  apply keeps_gated; [apply stop_step|]. unfold stop, stopEntry.
  intros s gs a s' gs' ([] & s1 & gs1 & H & H2)%tbind_Ok. apply applyListed_gated in H2 as [_ G2].
  apply tbind_Ok in H as (e & s0 & gs0 & [= <- <-]%tstmt_Ok & H).
  destruct (find _ _) as [e|] eqn:Ee; [|by injection H as <-]. destruct (negb _); [by injection H as <-|].
  pose proof (writeEntry_gated _ _ _ _ _ _ _ _ _ _ H) as G1. eapply gated_trans; [|exact G1|exact G2].
  eapply writeEntry_step; [exact H|]. intros G. destruct (readEntry_found _ _ _ _ Ee G).
  auto using good_stopped, gains_stopped.
Qed.

Lemma launchDetails_gated d : tx_keeps (gated_step id g) (launchDetails t d).
Proof.
  unfold launchDetails. apply keeps_bind; [apply closeLaunch_gated|]. intros _. case_bool_decide; [ktx|].
  apply found_gated; [auto using good_detailed, gains_detailed|]. case_bool_decide; [ktx|].
  by apply create_gated, good_launched.
Qed.

Lemma launchRequest_gated r : tx_keeps (gated_step id g) (launchRequest t r).
Proof.
  apply keeps_gated; [apply launchRequest_step|]. unfold launchRequest.
  destruct (_ || _); [intros s gs a s' gs' [= _ <- _]; apply gated_refl|].
  intros s gs a s' gs' (k & s0 & gs0 & [= <- <-]%tstmt_Ok & H)%tbind_Ok.
  destruct (launchKnown _ _ _); [injection H as _ <- _; apply gated_refl|].
  apply tbind_Ok in H as (ev & s1 & gs1 & H1 & H). pose proof (evictLaunch_gated _ _ _ _ _ H1) as G1.
  apply evictLaunch_step in H1 as (S1 & _ & _). eapply gated_trans; [done..|].
  apply tbind_Ok in H as (n & s2 & gs2 & [= H2]%tstmt_Ok & H).
  assert (s' = s2) as -> by (destruct (_ && _); [done|by injection H]).
  unfold openLaunchStmt in H2. destruct (db_spawns s1 !! id) as [sp|] eqn:Er; [|injection H2 as _ <-; apply gated_refl].
  destruct (_ && _) eqn:Ec; [|injection H2 as _ <-; apply gated_refl]. injection H2 as _ <-.
  apply andb_true_iff in Ec as [Ew Ex]. split; unfold othersEntries, othersLaunches; rsimp.
  - rewrite (gate_of_row _ _ _ _ Er). congruence.
  - intros _. split; [done|]. rewrite filter_app, filter_cons_False by (simpl; auto). by rewrite app_nil_r.
Qed.

Lemma closeAbsent_gated l at_ : tx_keeps (gated_step id g) (closeAbsent t l at_).
Proof.
  unfold closeAbsent, readUnlistedCandidates. destruct (negb _); [ktx|]. apply keeps_bind; [ktx|]. intros seqs.
  induction seqs as [|seq seqs IH]; simpl; [ktx|]. apply keeps_bind; [|done].
  apply keeps_gated; [apply closeAbsentStmt_step|].
  intros s gs a s' gs' [= _ <-]%tstmt_Ok. apply gated_update.
  - intros e. destruct (absentCond _ _ _ _ _); [|done]. unfold absentSet. by rsimp.
  - intros e. destruct (absentCond _ _ _ _ _) eqn:E; [|by left]. right. unfold absentCond in E.
    rewrite !where3_and, !where3_sql_eq in E. bsimp. congruence.
  - intros Hg e. destruct (absentCond _ _ _ _ _) eqn:E; [|done]. exfalso. unfold absentCond in E.
    rewrite !where3_and, !where3_Some in E. bsimp.
    match goal with H : subagentGateExists _ _ _ _ = true |- _ => apply gate_weaken in H end. congruence.
Qed.

Lemma turnEnd_gated te : tx_keeps (gated_step id g) (turnEnd t te).
Proof.
  unfold turnEnd. apply keeps_bind.
  - apply keeps_gated; [apply keeps_counted; intros; apply step_delete_launches|].
    intros s gs a s' gs' H%tstmt_Ok.
    assert (s' = snd (deleteLaunches (staleLaunch t (te_ReceivedMs te) s) s)) as -> by by injection H as _ <-.
    unfold staleLaunch. apply gated_deleteLaunches.
    + intros _ l _. rewrite !where3_and, !where3_sql_eq. intros E. bsimp. congruence.
    + intros Hg l. apply not_true_iff_false. rewrite !where3_and, !where3_Some. intros E. bsimp.
      match goal with H : subagentGateExists _ _ _ _ = true |- _ => apply gate_weaken in H end. congruence.
  - intros _. destruct (te_Snapshot te); [|ktx]. apply keeps_bind; [apply applyListed_gated|].
    intros. apply closeAbsent_gated.
Qed.
End Gated.

Lemma newSubagentTx_spec id g s gs t s' gs' : newSubagentTx id g s gs = (Ok (t, s'), gs') ->
  s' = s /\ tx_instanceID t = id /\ tx_gate t = g /\
  tx_token t = coalesce (db_spawns s !! id ≫= sp_launch_token) "" /\
  tx_tokenOK t = negb (bool_decide (tx_token t = "")).
Proof.
  intros (row & s1 & gs1 & [= <- <-]%tstmt_Ok & H)%tbind_Ok. injection H as <- <- _.
  by destruct (db_spawns s !! id).
Qed.

Lemma afterWriteBody_gated id g w : tx_keeps (gated_step id g) (afterWriteBody id g w).
Proof.
  intros s gs a s' gs' (t & s1 & gs1 & (-> & <- & <- & _)%newSubagentTx_spec & H)%tbind_Ok.
  repeat dmatch_in H.
  - by eapply launchRequest_gated.
  - by eapply launchDetails_gated.
  - by eapply closeLaunch_gated.
  - by eapply turnEnd_gated.
  - injection H as _ <- _. reflexivity.
Qed.

(** The write needs the gate: what one committed write of either operation
    did to the subagent tables. *)
Definition spawn_gated (id : string) (g : HookGate) (s s' : Store) : Prop :=
  (db_subagents s' = db_subagents s /\ db_launches s' = db_launches s \/
   exists r, db_spawns s !! id = Some r /\ where3 (subagentRowGateSQL s g id r) = true) /\
  (subs_good s -> othersEntries id s' = othersEntries id s /\ othersLaunches id s' = othersLaunches id s).

Lemma gated_spawn id g s s1 s' : gated id g s s1 -> db_subagents s' = db_subagents s1 -> db_launches s' = db_launches s1 ->
  spawn_gated id g s s'.
Proof.
  intros [H1 H2] E1 E2. unfold spawn_gated, othersEntries, othersLaunches. rewrite E1, E2. split; [|exact H2].
  destruct (subagentGateExists s g id None) eqn:Eg; [right; by eapply gate_row|left; auto].
Qed.

(** The row write of a lifecycle event leaves the gate as it was. *)
Lemma live_gated s g path present r : subagentRowLiveSQL (gatedRow s g lifecycleSet path present r) = subagentRowLiveSQL r.
Proof.
  unfold subagentRowLiveSQL. rewrite (gatedRow_keeps sp_state), (gatedRow_keeps sp_subagent_tracking),
    (gatedRow_keeps sp_launch_token) by (intros; by rsimp). unfold lifecycleSet. by rsimp.
Qed.

(** A subagent event touches only its own Spawn's entries and launches,
    and only when it comes from that Spawn's pane. Whatever else writes, every
    write a SubagentStart or SubagentStop, or the transaction after an Agent
    tool hook or a Stop, commits leaves every other Spawn's entries and
    launches as they were; and it changes an entry or a launch only when the
    Spawn's row was live, its launch tracked, and the hook's parent its
    recorded pane process. *)
Theorem subagent_writes_stay_in_their_spawn (T : Z) (id : string) (g : HookGate) (ev : SubagentLifecycleEvent)
    (w : SubagentAfterWrite) (trig path : string) (present : bool) :
  guarantees (spawn_gated id g) (ApplySubagentLifecycle T id g ev trig path present) /\
  guarantees (spawn_gated id g) (ApplySubagentAfterWrite T id g w).
Proof.
  split.
  - unfold ApplySubagentLifecycle, hookNotApplied, readHookGateRow. cbv zeta. guar. apply inImmediateTx_spec.
    intros s gs a s1 gs' (p & s0 & gs0 & [= <- <-]%tstmt_Ok & H)%tbind_Ok s' _ (_ & _ & _ & E1 & E2 & _).
    destruct (db_spawns s !! id) as [r|] eqn:Er; [|done]. simpl in H.
    apply tbind_Ok in H as (n & s2 & gs2 & [= Hn]%tstmt_Ok & H). destruct n; [|done]. simpl in H.
    rewrite gatedHookUpdate_row, Er in Hn. unfold noCond in Hn. rewrite where3_Some, andb_true_r in Hn.
    destruct (gateHolds s g id r) eqn:Eg; [|done]. injection Hn as <-.
    destruct (bool_decide (CutSubagentString (le_SubagentID ev) = "")).
    + injection H as _ <- _. eapply gated_spawn; [apply gated_refl|by rewrite E1; rsimp|by rewrite E2; rsimp].
    + apply tbind_Ok in H as (t & s3 & gs3 & (-> & Et1 & Et2 & _)%newSubagentTx_spec & H).
      apply tbind_Ok in H as ([] & s4 & gs4 & H & [= _ <- _]).
      assert (gated_step id g (s <| db_spawns := <[id := gatedRow s g lifecycleSet path present r]> (db_spawns s) |>) s4) as [Hsub [Hg Ho]].
      { clear Er Eg. subst id g. revert H. destruct (bool_decide (le_Kind ev = SubagentLifecycleStart)); [apply start_gated|apply stop_gated]. }
      unfold spawn_gated, othersEntries, othersLaunches in *. rewrite E1, E2. rsimp_in Hg. rsimp_in Ho. split.
      * destruct (subagentGateExists (s <| db_spawns := _ |>) g id None) eqn:Ex; [right|left; auto].
        apply gate_row in Ex as (r1 & Er1 & Hw). rsimp_in Er1. rewrite lookup_insert_eq in Er1. injection Er1 as <-.
        exists r. split; [done|]. unfold subagentRowGateSQL in *. rewrite where3_and, live_gated in Hw.
        rewrite where3_and. apply andb_true_iff in Hw as [-> _]. exact Eg.
      * intros G. apply Ho. destruct G. by split.
  - unfold ApplySubagentAfterWrite. guar. apply inImmediateTx_spec.
    intros s gs a s1 gs' H s' _ (_ & _ & _ & E1 & E2 & _). apply afterWriteBody_gated in H as [_ H].
    by eapply gated_spawn.
Qed.

(** ** A turn end's snapshot *)

Section Snapshot.
Context (t : subagentTx).

(** Entries a listing does not name are left or evicted; one it names is new
    and running, or keeps its state. *)
Definition same_state (s : Store) (e : SubagentRow) : Prop :=
  sa_state e = SubagentStateRunning \/
  exists e0, e0 ∈ db_subagents s /\ sa_created_seq e0 = sa_created_seq e /\ sa_state e0 = sa_state e.
Definition named_only (ids : list string) (s s' : Store) : Prop :=
  forall e, e ∈ db_subagents s' -> e ∈ db_subagents s \/ (sa_subagent_id e ∈ ids /\ same_state s e).

Lemma evict_fewer id g s gs b s' gs' : evictSubagentEntryGated id g s gs = (Ok (b, s'), gs') ->
  forall e, e ∈ db_subagents s' -> e ∈ db_subagents s.
Proof.
  intros [= Hb]%tstmt_Ok e. destruct (firstBy _ _); [destruct (_ && _)|]; injection Hb as _ <-; [|done..].
  rsimp. by intros [_ ?]%list_elem_of_filter.
Qed.

Lemma create_named id e typ s gs a s' gs' : sa_state e = SubagentStateRunning ->
  create t id e typ s gs = (Ok (a, s'), gs') -> named_only [id] s s'.
Proof.
  intros Hrun (ev & s1 & gs1 & H1 & H)%tbind_Ok. apply tbind_Ok in H as (cl & s2 & gs2 & H2 & H).
  assert (db_subagents s2 = db_subagents s1) as E2.
  { revert H2. case_bool_decide; [by intros [= _ <- _]|]. by intros [_ ?]%claim_step. }
  apply tbind_Ok in H as (ins & s3 & gs3 & H3%tstmt_Ok & H).
  assert (s' = s3) as -> by (destruct (_ && _); [done|by injection H]). intros x Hx.
  assert (x ∈ db_subagents s2 \/ (sa_subagent_id x ∈ [id] /\ same_state s x)) as [Hin|];
    [|left; eapply evict_fewer; [done|by rewrite <- E2]|by right].
  unfold insertEntryStmt in H3. destruct (db_spawns s2 !! _); [|injection H3 as _ <-; by left].
  destruct (where3 _); [|injection H3 as _ <-; by left]. destruct (existsb _ _); [done|]. injection H3 as _ <-.
  rsimp_in Hx. apply elem_of_app in Hx as [|Hx]; [by left|]. apply list_elem_of_singleton in Hx as ->. right. unfold same_state.
  rsimp. split; [by left|by left].
Qed.

Lemma writeEntry_named e n at_ move cur s gs a s' gs' : writeEntry t e n at_ move cur s gs = (Ok (a, s'), gs') ->
  subs_good s -> e ∈ db_subagents s -> sa_state n = sa_state e -> named_only [sa_subagent_id e] s s'.
Proof.
  unfold writeEntry. case_bool_decide; [intros [= _ <- _] _ _ _ x Hx; by left|].
  intros [= _ <-]%tstmt_Ok G He Hst x. unfold writeEntryStmt. rsimp. intros (r & -> & Hr)%list_elem_of_fmap.
  destruct (where3 _) eqn:Ew; [right|by left]. rewrite where3_and, where3_sql_eq in Ew. bsimp.
  assert (r = e) as -> by (eapply (NoDup_fmap_eq sa_created_seq); [apply (sg_seqs _ G)|done..|congruence]).
  unfold entryColumns, same_state. rsimp. split; [by left|]. right. exists e. by rewrite Hst.
Qed.

Lemma relisted_state e : sa_state (relistedEntry t e) = sa_state e.
Proof. unfold relistedEntry. destruct (bool_decide _); by rsimp. Qed.
Lemma listed_state session at_ l : sa_state (listedEntry session at_ l) = SubagentStateRunning.
Proof. unfold listedEntry. rewrite rankedType_eq. by rsimp. Qed.

Lemma applyListed_named l at_ doCreate session s gs a s' gs' :
  applyListed t l at_ doCreate session s gs = (Ok (a, s'), gs') -> subs_good s -> named_only (sl_ID <$> l) s s'.
Proof.
  revert s gs. induction l as [|x l IH]; intros s gs; simpl; [intros [= _ <- _] _ e He; by left|].
  intros (e & s1 & gs1 & H0 & H)%tbind_Ok G. pose proof H0 as [= <- <-]%tstmt_Ok.
  apply tbind_Ok in H as ([] & s2 & gs2 & H1 & H2).
  assert (sub_step s s2) as Hs.
  { assert (applyListed t [x] at_ doCreate session s gs = (Ok (tt, s2), gs2)) as E.
    { simpl. unfold tbind at 1. rewrite H0. unfold tbind. by rewrite H1. }
    by eapply applyListed_step. }
  assert (named_only [sl_ID x] s s2) as Hn.
  { destruct (find _ _) as [e|] eqn:Ee.
    - destruct (readEntry_found _ _ _ _ Ee G) as [Hin _]. apply find_some in Ee as [_ Ee]. unfold entryNamed in Ee.
      rewrite !where3_and, !where3_sql_eq in Ee. bsimp.
      assert (sa_subagent_id e = sl_ID x) as <- by congruence.
      eapply writeEntry_named; [done..|apply relisted_state].
    - destruct doCreate; simpl in H1; [eapply create_named; [apply listed_state|done]|injection H1 as <- _; intros e He; by left]. }
  intros e He. destruct (IH _ _ H2 (st_good _ _ (ss_good _ _ Hs G)) e He) as [Hin|[Hin Hst]].
  - destruct (Hn e Hin) as [|[Hx ?]]; [by left|right]. split; [|done]. apply list_elem_of_singleton in Hx as ->. by left.
  - right. split; [by right|]. destruct Hst as [|(e0 & Hin0 & Eq & Es)]; [by left|]. unfold same_state. rewrite <- Eq, <- Es.
    destruct (Hn e0 Hin0) as [|[_ [Hr|(e1 & Hin1 & Eq1 & Es1)]]]; [right; by exists e0|by left|].
    right. by exists e1.
Qed.

(** What a snapshot closes. *)
Definition absentBase (at_ : Z) (s : Store) (e : SubagentRow) : bool :=
  where3 (sql_eq (Some (sa_instance_id e)) (Some (tx_instanceID t))
          AND sql_eq (Some (sa_state e)) (Some SubagentStateRunning)
          AND sql_eq (sa_run_mode e) (Some SubagentRunModeBackground)
          AND Some (sa_opened_at e <? at_ - SubagentGraceMs)
          AND Some (subagentGateExists s (tx_gate t) (tx_instanceID t) (Some (sa_launch_token e)))).

Lemma absentCond_base seq at_ s e : absentCond t seq at_ s e = (sa_created_seq e =? seq) && absentBase at_ s e.
Proof.
  unfold absentCond, absentBase. rewrite where3_and, where3_sql_eq. f_equal.
  destruct (sa_created_seq e =? seq) eqn:E; [apply bool_decide_true|apply bool_decide_false]; [f_equal|intros [= ?]]; lia.
Qed.

Lemma absentBase_ext at_ s s' e : db_spawns s' = db_spawns s -> db_runtimes s' = db_runtimes s ->
  absentBase at_ s' e = absentBase at_ s e.
Proof. intros E1 E2. unfold absentBase. by rewrite (gate_ext s s') by done. Qed.

Lemma absentBase_lost at_ at1 s e : absentBase at1 s (absentSet at_ e) = false.
Proof.
  unfold absentBase, absentSet. rsimp. rewrite !where3_and, !where3_sql_eq.
  rewrite (bool_decide_false (Some SubagentStateLost = Some SubagentStateRunning)) by done. by rewrite andb_false_r.
Qed.

Lemma closeAbsentLoop_spec seqs at_ s gs a s' gs' : closeAbsentLoop t seqs at_ s gs = (Ok (a, s'), gs') ->
  db_subagents s' = (fun e => if bool_decide (sa_created_seq e ∈ seqs) && absentBase at_ s e then absentSet at_ e else e)
                      <$> db_subagents s.
Proof.
  revert s gs. induction seqs as [|seq seqs IH]; intros s gs; cbn [closeAbsentLoop].
  - intros [= _ <- _]. symmetry. apply fmap_same. intros e _. by rewrite bool_decide_false by apply not_elem_of_nil.
  - intros ([] & s1 & gs1 & [= <-]%tstmt_Ok & H)%tbind_Ok. rewrite (IH _ _ H). unfold closeAbsentStmt. rsimp.
    rewrite <- list_fmap_compose. apply list_fmap_ext. intros i e _. simpl.
    rewrite absentCond_base.
    assert (forall x, absentBase at_ (closeAbsentStmt t seq at_ s) x = absentBase at_ s x) as Hb
      by (intros x; apply absentBase_ext; unfold closeAbsentStmt; by rsimp).
    unfold closeAbsentStmt in Hb. rewrite !Hb.
    destruct (sa_created_seq e =? seq) eqn:E; simpl.
    + rewrite (bool_decide_true (sa_created_seq e ∈ seq :: seqs)) by (apply elem_of_cons; left; lia). simpl.
      destruct (absentBase at_ s e) eqn:Eb; [by rewrite absentBase_lost, andb_false_r|].
      by rewrite Eb, andb_false_r.
    + assert (bool_decide (sa_created_seq e ∈ seqs) = bool_decide (sa_created_seq e ∈ seq :: seqs)) as ->; [|done].
      apply bool_decide_ext. rewrite elem_of_cons. split; [by right|]. apply Z.eqb_neq in E.
      intros [Hs|]; [congruence|done].
Qed.
End Snapshot.

(** A running background entry of the launch [tok] that a listing of the
    instant [at_] no longer names, past the grace. *)
Definition unlisted (id tok : string) (listed : list string) (at_ : Z) (e : SubagentRow) : Prop :=
  sa_instance_id e = id /\ sa_launch_token e = tok /\ sa_state e = SubagentStateRunning /\
  sa_run_mode e = Some SubagentRunModeBackground /\ sa_opened_at e < at_ - SubagentGraceMs /\
  sa_subagent_id e ∉ listed.

(** What one committed turn end did to the entries of its Spawn: [tok] is the
    current launch. *)
Record snapshot_closed (id tok : string) (listed : list string) (at_ : Z) (s s' : Store) : Prop := {
  sc_none : forall e', e' ∈ db_subagents s' -> ~ unlisted id tok listed at_ e';
  sc_only : forall e e', e ∈ db_subagents s -> e' ∈ db_subagents s' -> sa_created_seq e' = sa_created_seq e ->
    sa_state e = SubagentStateRunning -> sa_state e' <> SubagentStateRunning ->
    unlisted id tok listed at_ e /\ e' = absentSet at_ e;
  sc_each : forall e e', e ∈ db_subagents s -> e' ∈ db_subagents s' -> sa_created_seq e' = sa_created_seq e ->
    unlisted id tok listed at_ e -> e' = absentSet at_ e;
}.

(** The entries the close picks and its statements then match. *)
Definition picked (t : subagentTx) (listed : list SubagentListed) (at_ : Z) (s : Store) (e : SubagentRow) : bool :=
  bool_decide (sa_created_seq e ∈ sa_created_seq <$> filter (fun e => unlistedCandidate t listed at_ e = true) (db_subagents s))
  && absentBase t at_ s e.

Lemma picked_iff t listed at_ s x : subs_good s -> x ∈ db_subagents s ->
  subagentGateExists s (tx_gate t) (tx_instanceID t) None = true ->
  db_spawns s !! tx_instanceID t ≫= sp_launch_token = Some (tx_token t) ->
  picked t listed at_ s x = true <-> unlisted (tx_instanceID t) (tx_token t) (sl_ID <$> listed) at_ x.
Proof.
  intros G Hx Hg Hlt. unfold picked. rewrite andb_true_iff, bool_decide_eq_true. unfold unlisted. split.
  - intros [(y & Ey & [Hc Hy]%list_elem_of_filter)%list_elem_of_fmap _].
    assert (x = y) as -> by (eapply (NoDup_fmap_eq sa_created_seq); [apply (sg_seqs _ G)|done..]).
    unfold unlistedCandidate in Hc. rewrite !where3_and, !where3_sql_eq, where3_Some in Hc. bsimp.
    split_and!; congruence || lia || done.
  - intros (C1 & C2 & C3 & C4 & C5 & C6). split.
    + apply list_elem_of_fmap. exists x. split; [done|]. apply list_elem_of_filter. split; [|done].
      unfold unlistedCandidate. rewrite !where3_and, !where3_sql_eq, where3_Some.
      rewrite !bool_decide_true, bool_decide_false by congruence. simpl. lia.
    + unfold absentBase. rewrite !where3_and, !where3_sql_eq, !where3_Some, !bool_decide_true by congruence. simpl.
      rewrite C2. apply andb_true_iff. split; [lia|]. destruct (gate_row _ _ _ _ Hg) as (r & Er & Hr).
      unfold subagentGateExists. rewrite Er in *. simpl in Hlt. rewrite where3_and, Hr, where3_sql_eq, Hlt.
      by apply bool_decide_true.
Qed.

(** The listing and the close of one turn end. *)
Lemma snapshot_body t listed at_ s s3 s' gs gs3 u :
  subs_good s -> sub_step s s3 -> named_only (sl_ID <$> listed) s s3 ->
  subagentGateExists s (tx_gate t) (tx_instanceID t) None = true ->
  db_spawns s !! tx_instanceID t ≫= sp_launch_token = Some (tx_token t) -> tx_tokenOK t = true ->
  closeAbsent t listed at_ s3 gs = (Ok (u, s'), gs3) ->
  snapshot_closed (tx_instanceID t) (tx_token t) (sl_ID <$> listed) at_ s s'.
Proof.
  intros G S3 Hn Hg Hlt Hok H. destruct (ss_good _ _ S3 G) as [G3 _ F3].
  unfold closeAbsent in H. rewrite Hok in H. simpl in H.
  apply tbind_Ok in H as (stale & s4 & gs4 & [= <- <-]%tstmt_Ok & H%closeAbsentLoop_spec).
  assert (forall x, x ∈ db_subagents s3 ->
    picked t listed at_ s3 x = true <-> unlisted (tx_instanceID t) (tx_token t) (sl_ID <$> listed) at_ x) as Hp.
  { intros x Hx. apply picked_iff; [done..| |by rewrite (ss_spawns _ _ S3)].
    by rewrite (gate_ext s s3) by (apply (ss_spawns _ _ S3) || apply (ss_runtimes _ _ S3)). }
  assert (forall e', e' ∈ db_subagents s' -> exists x, x ∈ db_subagents s3 /\ sa_created_seq x = sa_created_seq e' /\
    e' = if picked t listed at_ s3 x then absentSet at_ x else x) as Hfrom.
  { intros e'. rewrite H. intros (x & -> & Hx)%list_elem_of_fmap. exists x. split; [done|]. fold (picked t listed at_ s3 x).
    destruct (picked _ _ _ _ _); [|done]. unfold absentSet. by rsimp. }
  assert (forall e e0, e ∈ db_subagents s -> e0 ∈ db_subagents s -> sa_created_seq e0 = sa_created_seq e -> e0 = e) as Huniq
    by (intros; by eapply (NoDup_fmap_eq sa_created_seq); [apply (sg_seqs _ G)|..]).
  assert (forall e x, e ∈ db_subagents s -> x ∈ db_subagents s3 -> sa_created_seq x = sa_created_seq e ->
    sa_subagent_id x = sa_subagent_id e) as Hname.
  { intros e x He Hx Eseq. destruct (F3 x Hx) as [(e0 & Hin0 & [Ei _])|Hnext].
    - unfold entryIdentity in Ei. injection Ei as I1 _ I3 _ _. by rewrite I3, (Huniq e e0) by congruence.
    - pose proof (sg_next _ G) as Hlast. rewrite Forall_forall in Hlast. specialize (Hlast e He). simpl in Hlast. lia. }
  assert (forall e x, e ∈ db_subagents s -> x ∈ db_subagents s3 -> sa_created_seq x = sa_created_seq e ->
    x = e \/ (sa_subagent_id e ∈ sl_ID <$> listed /\ (sa_state x = SubagentStateRunning \/ sa_state x = sa_state e))) as Hback.
  { intros e x He Hx Eseq. destruct (Hn x Hx) as [Hin|[Hid Hst]].
    - left. by apply (Huniq e x).
    - right. rewrite <- (Hname e x) by done. split; [done|]. destruct Hst as [|(e1 & Hin1 & Eq1 & Es1)]; [by left|right].
      rewrite <- Es1. f_equal. apply (Huniq e e1); congruence. }
  split.
  - intros e' He' Hu. destruct (Hfrom e' He') as (x & Hx & _ & ->). destruct (picked _ _ _ _ _) eqn:Ep.
    + destruct Hu as (_ & _ & Hr & _). unfold absentSet in Hr. by rsimp_in Hr.
    + apply (Hp x Hx) in Hu. congruence.
  - intros e e' He He' Eseq Hr Hnr. destruct (Hfrom e' He') as (x & Hx & Ex & ->).
    destruct (Hback e x He Hx ltac:(congruence)) as [->|[Hid Hst]].
    + destruct (picked _ _ _ _ _) eqn:Ep; [|done]. split; [by apply Hp|done].
    + destruct (picked _ _ _ _ _) eqn:Ep; [|naive_solver congruence].
      apply (Hp x Hx) in Ep as (_ & _ & _ & _ & _ & Hout). by rewrite (Hname e x) in Hout by congruence.
  - intros e e' He He' Eseq Hu. destruct (Hfrom e' He') as (x & Hx & Ex & ->).
    destruct (Hback e x He Hx ltac:(congruence)) as [->|[Hid _]].
    + apply (Hp e Hx) in Hu. by rewrite Hu.
    + by destruct Hu as (_ & _ & _ & _ & _ & Hout).
Qed.

(** A main agent's turn end closes exactly what its snapshot no longer
    lists. For every committed entry transaction of a Stop with a snapshot,
    under any interference, in well-formed tables and for a live, tracked
    Spawn whose launch is [tok]: after it, no running background entry of
    that launch opened more than the grace before the Stop is unlisted; an
    entry that was running and no longer is was one, and is lost as absent
    from the snapshot; and each such entry that was not evicted is. *)
Theorem snapshot_closes_the_unlisted (T : Z) (id tok : string) (g : HookGate) (at_ : Z) (snap : SubagentSnapshot) :
  tok <> "" ->
  guarantees (fun s s' => subs_good s -> subagentGateExists s g id None = true ->
      db_spawns s !! id ≫= sp_launch_token = Some tok ->
      snapshot_closed id tok (sl_ID <$> cutListed (sn_Listed snap)) at_ s s')
    (ApplySubagentAfterWrite T id g (mkAfterWrite None None None (Some (mkTurnEnd at_ (Some snap))))).
Proof.
  intros Htok. unfold ApplySubagentAfterWrite. guar. apply inImmediateTx_spec.
  intros s gs a s1 gs' H s' _ (_ & _ & _ & E1 & _) G Hg Hlt.
  apply tbind_Ok in H as (t & s0 & gs0 & (-> & Et1 & Et2 & Et3 & Et4)%newSubagentTx_spec & H).
  rewrite Hlt in Et3. simpl in Et3. rewrite Et3, bool_decide_false in Et4 by done. subst id g tok. simpl in H.
  apply tbind_Ok in H as (n & s2 & gs2 & H2%tstmt_Ok & H). apply tbind_Ok in H as ([] & s3 & gs3 & H3 & H).
  assert (s2 = snd (deleteLaunches (staleLaunch t at_ s) s)) as -> by by injection H2 as _ <-.
  pose proof (step_delete_launches (staleLaunch t at_ s) s) as S2.
  pose proof (applyListed_named _ _ _ _ _ _ _ _ _ _ H3 (st_good _ _ (ss_good _ _ S2 G))) as Hn.
  pose proof (applyListed_step _ _ _ _ _ _ _ _ _ _ H3) as S3.
  assert (snapshot_closed (tx_instanceID t) (tx_token t) (sl_ID <$> cutListed (sn_Listed snap)) at_ s s1) as [Q1 Q2 Q3].
  { eapply (snapshot_body t _ at_ s s3); [done|by etrans|exact Hn|done..|exact H]. }
  split; rewrite E1; done.
Qed.

(** ** Cut strings *)

Lemma cutAt_le s n : (cutAt s n <= n)%nat.
Proof. induction n as [|n IH]; simpl; [lia|]. destruct (runeStartAt _ _); lia. Qed.
Lemma cutAt_start s n : (0 < cutAt s n)%nat -> runeStartAt s (cutAt s n) = true.
Proof. induction n as [|n IH]; simpl; [lia|]. destruct (runeStartAt s (S n)) eqn:E; auto. Qed.
Lemma cutAt_between s n m : (cutAt s n < m <= n)%nat -> runeStartAt s m = false.
Proof.
  induction n as [|n IH]; simpl; intros H; [lia|]. destruct (runeStartAt s (S n)) eqn:E; [lia|].
  destruct (decide (m = S n)) as [->|]; [done|]. apply IH. lia.
Qed.

#[local] Opaque SubagentStringMaxBytes.

Lemma prefix_refl s : String.prefix s s = true.
Proof. induction s as [|a s IH]; simpl; [done|]. by destruct (Ascii.ascii_dec a a). Qed.

Lemma length_substring s n : (n <= String.length s)%nat -> String.length (String.substring 0 n s) = n.
Proof.
  revert s. induction n as [|n IH]; intros [|a s] H; simpl in *; try done; [lia|]. f_equal. apply IH. lia.
Qed.
Lemma substring_is_prefix s n : String.prefix (String.substring 0 n s) s = true.
Proof.
  revert s. induction n as [|n IH]; intros [|a s]; simpl; try done.
  destruct (Ascii.ascii_dec a a); [apply IH|done].
Qed.

(** A string a hook stores is cut at a character: it is at most
    [SubagentStringMaxBytes] bytes and a prefix of the payload's, the whole
    of it when that fits; otherwise the cut, unless it is the empty string,
    is where a UTF-8 character starts, no later start would fit, and a string
    cut once is never cut again. *)
Theorem cut_string_at_a_character (s : string) :
  (String.length (CutSubagentString s) <= SubagentStringMaxBytes)%nat /\
  String.prefix (CutSubagentString s) s = true /\
  ((String.length s <= SubagentStringMaxBytes)%nat -> CutSubagentString s = s) /\
  ((SubagentStringMaxBytes < String.length s)%nat ->
     (CutSubagentString s <> "" -> runeStartAt s (String.length (CutSubagentString s)) = true) /\
     forall m, (String.length (CutSubagentString s) < m <= SubagentStringMaxBytes)%nat -> runeStartAt s m = false) /\
  CutSubagentString (CutSubagentString s) = CutSubagentString s.
Proof.
  assert (forall x, (String.length x <= SubagentStringMaxBytes)%nat -> CutSubagentString x = x) as Hshort
    by (intros x Hx; unfold CutSubagentString; by rewrite (proj2 (Nat.leb_le _ _) Hx)).
  destruct (decide (String.length s <= SubagentStringMaxBytes)%nat) as [Hs|Hs].
  { rewrite !(Hshort s) by done. split_and!; [done|apply prefix_refl|done|lia|auto]. }
  assert (CutSubagentString s = String.substring 0 (cutAt s SubagentStringMaxBytes) s) as ->
    by (unfold CutSubagentString; by rewrite (proj2 (Nat.leb_gt _ _)) by lia).
  pose proof (cutAt_le s SubagentStringMaxBytes) as Hle.
  assert (String.length (String.substring 0 (cutAt s SubagentStringMaxBytes) s) = cutAt s SubagentStringMaxBytes) as Hlen
    by (apply length_substring; lia).
  rewrite Hlen. split_and!; [done|apply substring_is_prefix|lia| |apply Hshort; lia].
  intros _. split; [|intros m Hm; by apply (cutAt_between s SubagentStringMaxBytes)].
  intros Hne. apply cutAt_start. destruct (cutAt s SubagentStringMaxBytes) eqn:E; [|lia].
  destruct Hne. by destruct s.
Qed.

(** ** Witnesses *)

Definition runningEntry : SubagentRow :=
  zeroEntry <| sa_created_seq := 1 |> <| sa_instance_id := "leaf" |> <| sa_subagent_id := "a1" |>
    <| sa_launch_token := "t1" |> <| sa_confirmed := true |> <| sa_state := SubagentStateRunning |>
    <| sa_run_mode := Some SubagentRunModeBackground |> <| sa_run_mode_source := Some SubagentSourceSnapshot |>
    <| sa_opened_at := 1000 |> <| sa_activity_at := 1000 |>.
Definition backgroundStore : Store :=
  storeOf {[ "leaf" := paneRow <| sp_subagent_tracking := 1 |> <| sp_launch_token := Some "t1" |> ]} 9000
    <| db_subagents := [runningEntry] |> <| db_next_subagent := 2 |>.
Definition emptySnapshotWrite : SubagentAfterWrite :=
  mkAfterWrite None None None (Some (mkTurnEnd 8000 (Some (mkSnapshot "sess" [])))).

Lemma background_good : subs_good backgroundStore.
Proof.
  assert (entry_good runningEntry) as Hg by (unfold runningEntry; good_by; split; [split; [done|set_solver]|auto]).
  split; [by constructor; [|constructor]|apply NoDup_singleton|apply NoDup_singleton| | |constructor|constructor|constructor|].
  - constructor; [vm_compute; reflexivity|constructor].
  - intros id. unfold entriesOf. change (db_subagents backgroundStore) with [runningEntry].
    rewrite filter_cons. destruct (decide _); simpl; unfold SubagentCap; lia.
  - intros id. change (launchesOf id backgroundStore) with ([] : list LaunchRow). simpl. lia.
Qed.

Lemma background_gate : subagentGateExists backgroundStore plainGate "leaf" None = true.
Proof. vm_compute. reflexivity. Qed.
Lemma background_token : db_spawns backgroundStore !! ("leaf" : string) ≫= sp_launch_token = Some ("t1" : string).
Proof. vm_compute. reflexivity. Qed.

Definition afterSnapshot : Store :=
  snd (fst (run (ApplySubagentAfterWrite 0 "leaf" plainGate emptySnapshotWrite) backgroundStore)).
Lemma background_closed : db_subagents afterSnapshot = [absentSet 8000 runningEntry].
Proof. vm_compute. reflexivity. Qed.

Lemma snapshot_closes_the_unlisted_witness :
  (("t1" : string) <> "" /\ subs_good backgroundStore /\ subagentGateExists backgroundStore plainGate "leaf" None = true /\
   db_spawns backgroundStore !! ("leaf" : string) ≫= sp_launch_token = Some ("t1" : string)) /\
  db_subagents afterSnapshot = [absentSet 8000 runningEntry] /\
  guarantees (fun s s' => subs_good s -> subagentGateExists s plainGate "leaf" None = true ->
      db_spawns s !! ("leaf" : string) ≫= sp_launch_token = Some ("t1" : string) ->
      snapshot_closed "leaf" "t1" [] 8000 s s')
    (ApplySubagentAfterWrite 0 "leaf" plainGate emptySnapshotWrite).
Proof.
  split; [split; [discriminate|]; split; [exact background_good|]; split; [exact background_gate|exact background_token]|].
  split; [exact background_closed|].
  exact (snapshot_closes_the_unlisted 0 "leaf" "t1" plainGate 8000 (mkSnapshot "sess" []) ltac:(discriminate)).
Defined.
