(* ===== verification/RelayWrites.v ===== *)
(** * The relay's and the pane's writes of a request (internal/store/
      relay_writes.go, pane_writes.go, request_proof.go, permission.go,
      display.go: RecordPermissionFallbacks)

    The relay hook records a request, acks its verdict or denies it at its
    timeout; decide records a verdict; a pane answer records an intent, then
    sent, or releases it; a hook closes a request whose tool ran and proves
    requests gone. Each is one transaction or one statement; [check]
    arguments are the error a caller's precondition returns inside it. *)

From S2P Require Import Prelude Sql Rows Display Settle Family Requests History Steps Gate HookWrites.

Abbreviation Op := (M Store Event).

(** [at] as the instant a Go time holds: never the zero time's own value. *)
Definition checkTx (check : option error) : Tx Store unit :=
  match check with Some e => tfail e | None => tret tt end.

(** UPDATE ... RETURNING read by QueryRow: every matching row is updated, the
    first one's values are returned. *)
Definition updFirst {X} (c : PermReq -> bool) (f : PermReq -> PermReq) (g : PermReq -> X)
    : Tx Store (option X) :=
  xs <-- tstmt (updReturning c f g);;
  tret (head xs).

Definition ofToken (id token : string) (pr : PermReq) : tvl :=
  (ofSpawn id pr AND sql_eq (Some (pr_request_token pr)) (Some token)).

(** emitDecisionCommitted *)
Definition decisionCommitted (id token : string) (rid : Z) (tool decision reason writer : string) : Event :=
  EvRowMutation id token rid tool (nullif_empty decision) (nullif_empty reason) writer "update".

(** ** The request insert (relay_writes.go: InsertRelayRequest) *)

Record RelayRequest := mkRelayRequest {
  rq_RequestToken : string;
  rq_ToolName : string;
  rq_ToolInput : string;
  rq_ToolUseID : string;
  rq_AgentID : string;
  rq_MainTurnEndEligible : option bool;
  rq_Hook : ProcessIdentity;
  rq_SettledAt : goTime;
  rq_TranscriptPath : string;
  rq_TranscriptPresent : bool;
}.

Definition mainTurnEndEligible (r : RelayRequest) (agent : option string) : bool :=
  if negb (bool_decide (rq_AgentID r = "")) then false
  else match rq_MainTurnEndEligible r with
       | Some b => b
       | None => negb (bool_decide (agent = Some AgentCursor))
       end.

(** The new row's columns both inserts share; every other column is NULL, or
    its default. *)
Definition newRequest (rid : Z) (id token tool input : string) (createdSec : Z) (hook : ProcessIdentity)
    (toolUse agentID : option string) (settled : option Z) (eligible : bool)
    (ownerToken : option string) (ownerEpoch admitted : Z) : PermReq :=
  mkPermReq rid id token tool input None None None createdSec
    (positiveIntArg (pi_PID hook)) (nullableStringArg (pi_Starttime hook)) (nullableStringArg (pi_PIDNamespace hook))
    toolUse agentID None settled None None None PaneAnswerNone None None None None None None None None
    eligible ownerToken (Some ownerEpoch) (Some admitted) None None.

(** INSERT under UNIQUE(instance_id, request_token); the id is the next
    AUTOINCREMENT value. *)
Definition insertRequest (mk : Z -> SpawnRow -> PermReq) (id token : string) (s : Store)
    : result (option Z * Store) :=
  match db_spawns s !! id with
  | None => Ok (None, s)
  | Some r =>
      if existsb (fun pr => where3 (ofToken id token pr)) (db_requests s) then Err ERequestTokenCollision
      else
        let rid := db_next_request s in
        Ok (Some rid, s <| db_requests := db_requests s ++ [mk rid r] |> <| db_next_request := rid + 1 |>)
  end.

Definition relayInsert (id : string) (req : RelayRequest) (agent : option string) (s : Store)
    : result (option Z * Store) :=
  insertRequest (fun rid r =>
    newRequest rid id (rq_RequestToken req) (rq_ToolName req) (rq_ToolInput req) (nowSec s) (rq_Hook req)
      (nullableStringArg (rq_ToolUseID req)) (nullableStringArg (rq_AgentID req)) (millisArg (rq_SettledAt req))
      (mainTurnEndEligible req agent) (sp_launch_token r) (sp_permission_epoch r) (db_now s))
    id (rq_RequestToken req) s.

Section RelayInsert.
Context (settleMs : Z).

Definition relayBody (id : string) (gate : HookGate) (req : RelayRequest) (cap : Z)
    : Tx Store (string * Z) :=
  prior <-- tread (fun s => (fun r => (sp_state r, sp_agent r)) <$> db_spawns s !! id);;
  match prior with
  | None => tfail ENotApplied
  | Some (prior, agent) =>
      n <-- tstmt (fun s => Ok (gatedHookUpdate id gate (transitionSet settleMs StateCheckPermission)
                              (rq_TranscriptPath req) (rq_TranscriptPresent req) noCond s));;
      if negb n then tfail ENotApplied
      else
        rid <-- tstmt (relayInsert id req agent);;
        evictClosedRequests cap;;>
        tstmt (fun s => Ok (tt, refreshFamiliesAfterStateChange settleMs prior StateCheckPermission [] s));;>
        tret (prior, default 0 rid)
  end.

Definition InsertRelayRequest (id : string) (gate : HookGate) (req : RelayRequest) (cap : Z)
    : Op (UpsertOutcome * HookApplied) :=
  catch (txBounded (relayBody id gate req cap))
    (fun r => match r with
     | Err ENotApplied =>
         a <- hookNotApplied id gate;;
         ret (UpsertNoChange, a)
     | Err e => fail e
     | Ok (prior, rid) =>
         let event := if bool_decide (g_Event gate = "") then "PermissionRequest" else g_Event gate in
         emit (EvStateTransition id prior StateCheckPermission event false);;;
         emit (EvRowMutation id (rq_RequestToken req) rid (rq_ToolName req) None None WriterProcessHook "insert");;;
         ret (UpsertInserted, appliedOk)
     end).

(** UpsertOpenPermissionRequestResult (permission.go): the gate is in the
    INSERT ... SELECT's own WHERE. *)
Definition upsertInsert (id : string) (gate : HookGate) (token tool input : string) (s : Store)
    : result (option Z * Store) :=
  match db_spawns s !! id with
  | Some r =>
      if gateHolds s gate id r then
        insertRequest (fun rid r =>
          newRequest rid id token tool input (nowSec s) (mkProcessIdentity 0 "" "") None None None
            (where3 (sql_is_not (sp_agent r) (Some AgentCursor))) (sp_launch_token r)
            (sp_permission_epoch r + case3 (sql_eq (Some (sp_state r)) (Some StateCheckPermission)) 0 1)
            (db_now s)) id token s
      else Ok (None, s)
  | None => Ok (None, s)
  end.

Definition upsertBody (id : string) (gate : HookGate) (token tool input : string) (cap : Z) : Tx Store Z :=
  rid <-- tstmt (upsertInsert id gate token tool input);;
  match rid with
  | None => tfail ENotApplied
  | Some rid => evictClosedRequests cap;;> tret rid
  end.

Definition UpsertOpenPermissionRequestResult (id : string) (gate : HookGate) (token tool input : string)
    (cap : Z) (writer : string) : Op (UpsertOutcome * HookApplied) :=
  catch (txImmediate (upsertBody id gate token tool input cap))
    (fun r => match r with
     | Err ENotApplied =>
         a <- hookNotApplied id gate;;
         ret (UpsertNoChange, a)
     | Err e => fail e
     | Ok rid =>
         emit (EvRowMutation id token rid tool None None writer "insert");;;
         ret (UpsertInserted, appliedOk)
     end).
End RelayInsert.

(** ** The relay hook's ack and timeout deny *)

Definition ackRelayDecisionCond (id token : string) (pr : PermReq) : tvl :=
  (ofToken id token pr AND not_null (pr_decision pr) AND is_null (pr_delivered_at pr)
   AND sql_eq (Some (pr_pane_answer pr)) (Some PaneAnswerNone)).

Definition AckRelayDecision (id token : string) (at_ : goTime) (check : option error)
    : Op (string * string * bool) :=
  r <- txBounded
    (checkTx check;;>
     updFirst (fun pr => where3 (ackRelayDecisionCond id token pr))
       (fun pr => pr <| pr_delivered_at := millisArg at_ |>)
       (fun pr => (coalesce (pr_decision pr) "", coalesce (pr_decision_reason pr) "")));;
  ret (match r with Some (d, why) => (d, why, true) | None => ("", "", false) end).

Definition denyRelayTimeoutCond (id token : string) (pr : PermReq) : tvl :=
  (ofToken id token pr AND is_null (pr_decision pr)
   AND sql_eq (Some (pr_pane_answer pr)) (Some PaneAnswerNone)).
Definition denyRelayTimeoutSet (at_ : goTime) (sec : Z) (pr : PermReq) : PermReq :=
  pr <| pr_decision := Some "deny" |> <| pr_decision_reason := Some DecisionReasonTimeout |>
     <| pr_decided_at := Some sec |> <| pr_delivered_at := millisArg at_ |>.

(** The request_id and tool_name a decision write returns. *)
Definition idTool (pr : PermReq) : Z * string := (pr_request_id pr, pr_tool_name pr).

Definition updFirstNow {X} (c : PermReq -> bool) (f : Z -> PermReq -> PermReq) (g : PermReq -> X)
    : Tx Store (option X) :=
  sec <-- tread nowSec;;
  updFirst c (f sec) g.

Definition DenyRelayTimeout (id token : string) (at_ : goTime) (check : option error) : Op bool :=
  r <- txBounded
    (checkTx check;;>
     updFirstNow (fun pr => where3 (denyRelayTimeoutCond id token pr)) (denyRelayTimeoutSet at_) idTool);;
  match r with
  | Some (rid, tool) =>
      emit (decisionCommitted id token rid tool "deny" DecisionReasonTimeout WriterProcessHook);;; ret true
  | None => ret false
  end.

(** ** decide *)

Definition decideRelayCond (id token : string) (cutoffSec : Z) (s : Store) (pr : PermReq) : tvl :=
  (ofToken id token pr AND is_null (pr_decision pr) AND is_null (pr_delivered_at pr)
   AND sql_eq (Some (pr_pane_answer pr)) (Some PaneAnswerNone) AND is_null (pr_closed_at pr)
   AND (not_null (pr_settled_at pr) OR Some (cutoffSec <? pr_created_at pr))
   AND NOT (Some (spawnFinished s id))).
Definition decideSet (decision reason : string) (sec : Z) (pr : PermReq) : PermReq :=
  pr <| pr_decision := Some decision |> <| pr_decision_reason := nullableStringArg reason |>
     <| pr_decided_at := Some sec |>.

Definition DecideRelayRequest (id token decision reason writer : string) (legacyCutoff : Z) : Op bool :=
  catch (txBounded
    (r <-- tstmt (fun s => updReturning (fun pr => where3 (decideRelayCond id token (storeTimestamp legacyCutoff) s pr))
                             (decideSet decision reason (nowSec s)) idTool s);;
     match head r with
     | None => tfail ENoRows
     | Some x => tret x
     end))
    (fun r => match r with
     | Err ENoRows => ret false
     | Err e => fail e
     | Ok (rid, tool) => emit (decisionCommitted id token rid tool decision reason writer);;; ret true
     end).

(** OpenPermissionRequestsForSpawn: by created_at, then id. *)
Definition created_le (a b : PermReq) : Prop := pr_created_at a <= pr_created_at b.
#[export] Instance created_le_dec a b : Decision (created_le a b).
Proof. unfold created_le. apply _. Defined.

Definition requestsOf (c : PermReq -> bool) (id : string) (s : Store) : list PermissionRow :=
  scanPermissionRow <$>
    merge_sort created_le (filter (fun pr => pr_instance_id pr = id /\ c pr = true) (db_requests s)).

Definition OpenPermissionRequestsForSpawn (id : string) (s : Store) : list PermissionRow :=
  requestsOf (fun pr => where3 (awaitingAnswerSQL pr)) id s.
Definition PermissionRequestsForSpawn (id : string) (s : Store) : list PermissionRow :=
  requestsOf (fun _ => true) id s.

Definition DecidePermissionRequest (id token decision reason writer : string) : Op bool :=
  (if bool_decide (token = "") then
     rows <- read (OpenPermissionRequestsForSpawn id);;
     if (1 <? length rows)%nat then fail EAmbiguousRequest else ret tt
   else ret tt);;;
  r <- stmt (fun s => updReturning (fun pr => where3 (ofToken id token pr AND is_null (pr_decision pr)))
                        (decideSet decision reason (nowSec s)) idTool s);;
  match head r with
  | None => ret false
  | Some (rid, tool) => emit (decisionCommitted id token rid tool decision reason writer);;; ret true
  end.

(** RecordRefusedDecision *)
Definition refusedSet (decision : string) (at_ gone : goTime) (pr : PermReq) : PermReq :=
  pr <| pr_attempted_decision := Some decision |> <| pr_attempted_at := millisArg at_ |>
     <| pr_hook_gone_at := coalesce2 (pr_hook_gone_at pr) (millisArg gone) |>.
Definition RecordRefusedDecision (id token decision : string) (at_ gone : goTime) : Op unit :=
  txBounded
    (tstmt (fun s => Ok (tt, updateReqs (fun pr => where3 (ofToken id token pr AND awaitingAnswerSQL pr))
                               (refusedSet decision at_ gone) s))).

(** RecordHookGone *)
Fixpoint recordHookGoneLoop (at_ : goTime) (ids : list Z) : Tx Store (list (Z * goTime)) :=
  match ids with
  | [] => tret []
  | rid :: ids =>
      found <-- updFirst (fun pr => pr_request_id pr =? rid)
                 (fun pr => pr <| pr_hook_gone_at := coalesce2 (pr_hook_gone_at pr) (millisArg at_) |>)
                 (fun pr => coalesce2 (pr_hook_gone_at pr) (millisArg at_));;
      rest <-- recordHookGoneLoop at_ ids;;
      tret (match found with Some v => (rid, millisTime v) :: rest | None => rest end)
  end.
Definition RecordHookGone (at_ : goTime) (ids : list Z) : Op (list (Z * goTime)) :=
  if bool_decide (ids = []) then ret [] else txBounded (recordHookGoneLoop at_ ids).

(** ** The fallback clock (display.go) *)

Definition FallbackProcess : string := "process".
Definition FallbackDeadline : string := "deadline".
Definition FallbackAdmission : string := "admission".

Record FallbackObservation := mkFallback {
  fo_RequestID : Z;
  fo_ConfirmBy : goTime;
  fo_ProcessGone : bool;
  fo_CantTell : bool;
}.

(** The last millisecond of the year 9999. *)
Definition maxYearMillis : Z := 253402300799999.

Definition fallbackStart (agent relayMode : string) (pr : PermissionRow) (o : FallbackObservation)
    (now : goTime) : goTime * string :=
  if negb (IsZero (pw_FallbackAt pr)) then (pw_FallbackAt pr, pw_FallbackBasis pr)
  else if bool_decide (agent = AgentCursor) && bool_decide (relayMode = "off") then
    (if IsZero (pw_AdmittedAt pr) then pw_CreatedAt pr else pw_AdmittedAt pr, FallbackAdmission)
  else if bool_decide (agent = AgentCursor) || fo_CantTell o || PreV7 pr then (fo_ConfirmBy o, FallbackDeadline)
  else if fo_ProcessGone o then
    (if IsZero (pw_HookGoneAt pr) then now else pw_HookGoneAt pr, FallbackProcess)
  else (None, "").

Definition FallbackClock (agent relayMode : string) (pr : PermissionRow) (o : FallbackObservation)
    (now : goTime) : goTime * string :=
  let '(start, basis) := fallbackStart agent relayMode pr o now in
  if (PreV7 pr && IsZero (pw_CreatedAt pr))
     || match start with Some ms => (ms <=? 0) || (maxYearMillis <? ms) | None => false end
  then (None, "") else (start, basis).

Definition fallbackSet (at_ start : goTime) (basis : string) (pr : PermReq) : PermReq :=
  pr <| pr_hook_gone_at := coalesce2 (pr_hook_gone_at pr) (millisArg at_) |>
     <| pr_fallback_at := coalesce2 (pr_fallback_at pr) (millisArg start) |>
     <| pr_fallback_basis := case3 (is_null (pr_fallback_at pr)) (nullif_empty basis) (pr_fallback_basis pr) |>.

Fixpoint recordFallbacksLoop (at_ : goTime) (os : list FallbackObservation) : Tx Store (list (Z * goTime)) :=
  match os with
  | [] => tret []
  | o :: os =>
      found <-- tread (fun s => find (fun pr => pr_request_id pr =? fo_RequestID o) (db_requests s));;
      match found with
      | None => recordFallbacksLoop at_ os
      | Some raw =>
          let pr := scanPermissionRow raw in
          owner <-- tread (fun s => db_spawns s !! pw_InstanceID pr);;
          match owner with
          | None => tfail ENoRows
          | Some sp =>
              match sp_agent sp with
              | None => tfail EDriver
              | Some agent =>
                  let '(start, basis) := FallbackClock agent (sp_relay_mode sp) pr o at_ in
                  gone <-- updFirst (fun r => pr_request_id r =? pw_RequestID pr) (fallbackSet at_ start basis)
                             (fun r => coalesce2 (pr_hook_gone_at r) (millisArg at_));;
                  rest <-- recordFallbacksLoop at_ os;;
                  tret ((pw_RequestID pr, millisTime (default None gone)) :: rest)
              end
          end
      end
  end.
Definition RecordPermissionFallbacks (at_ : goTime) (os : list FallbackObservation)
    : Op (list (Z * goTime)) :=
  txBounded (recordFallbacksLoop at_ os).

(** ** Pane answers (pane_writes.go) *)

Record PaneIntent := mkPaneIntent {
  pn_As : string;
  pn_Sender : ProcessIdentity;
  pn_At : goTime;
}.

Definition PaneCheck : Type := SpawnRow -> list PermissionRow -> option error.

(** runPaneCheck *)
Definition runPaneCheck (id : string) (check : option PaneCheck) : Tx Store unit :=
  match check with
  | None => tret tt
  | Some f =>
      sp <-- tread (fun s => db_spawns s !! id);;
      match sp with
      | None => tfail ESpawnNotFound
      | Some sp =>
          rows <-- tread (PermissionRequestsForSpawn id);;
          checkTx (f sp rows)
      end
  end.

Definition paneIntentSet (intent : PaneIntent) (pr : PermReq) : PermReq :=
  pr <| pr_pane_answer := PaneAnswerIntent |> <| pr_pane_as := Some (pn_As intent) |>
     <| pr_pane_sender_pid := positiveIntArg (pi_PID (pn_Sender intent)) |>
     <| pr_pane_sender_starttime := nullableStringArg (pi_Starttime (pn_Sender intent)) |>
     <| pr_pane_sender_pidns := nullableStringArg (pi_PIDNamespace (pn_Sender intent)) |>
     <| pr_pane_intent_at := millisArg (pn_At intent) |>
     <| pr_hook_gone_at := coalesce2 (pr_hook_gone_at pr) (millisArg (pn_At intent)) |>.

(** The intent's instant is read under the write lock, after the check. *)
Definition RecordPaneIntent (id token as_ : string) (sender : ProcessIdentity) (check : option PaneCheck)
    : Op (option PaneIntent) :=
  txBounded
    (runPaneCheck id check;;>
     now <-- tread db_now;;
     let intent := mkPaneIntent as_ sender (millisTime (Some now)) in
     n <-- tstmt (fun s =>
       let c pr := where3 (ofToken id token pr AND awaitingAnswerSQL pr) in
       Ok (length (filter (fun pr => c pr = true) (db_requests s)), updateReqs c (paneIntentSet intent) s));;
     tret (if (0 <? n)%nat then Some intent else None)).

Definition paneIntentOwnerSQL (intent : PaneIntent) (pr : PermReq) : tvl :=
  (sql_eq (Some (pr_pane_answer pr)) (Some PaneAnswerIntent)
   AND sql_eq (pr_pane_intent_at pr) (millisArg (pn_At intent))
   AND sql_is (pr_pane_sender_pid pr) (positiveIntArg (pi_PID (pn_Sender intent)))
   AND sql_is (pr_pane_sender_starttime pr) (nullableStringArg (pi_Starttime (pn_Sender intent)))
   AND sql_is (pr_pane_sender_pidns pr) (nullableStringArg (pi_PIDNamespace (pn_Sender intent)))).

Definition paneSentCond (id token : string) (intent : PaneIntent) (pr : PermReq) : tvl :=
  (ofToken id token pr AND is_null (pr_closed_at pr) AND paneIntentOwnerSQL intent pr).
Definition paneSentSet (sec : Z) (pr : PermReq) : PermReq :=
  pr <| pr_pane_answer := PaneAnswerSent |> <| pr_decision := pr_pane_as pr |>
     <| pr_decision_reason := Some DecisionReasonPane |> <| pr_decided_at := Some sec |>.

Definition RecordPaneSent (id token : string) (intent : PaneIntent) : Op bool :=
  r <- txBounded (updFirstNow (fun pr => where3 (paneSentCond id token intent pr)) paneSentSet
                    (fun pr => (pr_request_id pr, pr_tool_name pr, coalesce (pr_pane_as pr) "")));;
  match r with
  | Some (rid, tool, decision) =>
      emit (decisionCommitted id token rid tool decision DecisionReasonPane WriterProcessSendKeys);;; ret true
  | None => ret false
  end.

Definition paneReleaseSet (pr : PermReq) : PermReq :=
  pr <| pr_pane_sender_pid := None |> <| pr_pane_sender_starttime := None |>
     <| pr_pane_sender_pidns := None |> <| pr_pane_intent_at := None |>.
Definition ReleasePaneIntent (id token : string) (intent : PaneIntent) : Op bool :=
  r <- txBounded (updFirst (fun pr => where3 (ofToken id token pr AND paneIntentOwnerSQL intent pr))
                    paneReleaseSet pr_request_id);;
  ret (bool_decide (is_Some r)).

Definition claimedDecision (claim : string) : option string :=
  if bool_decide (claim = "allow") || bool_decide (claim = "deny") then Some claim else None.
Definition paneOutsideSet (claim : string) (sec : Z) (pr : PermReq) : PermReq :=
  pr <| pr_pane_answer := PaneAnswerOutside |> <| pr_pane_as := Some claim |>
     <| pr_decision := claimedDecision claim |> <| pr_decision_reason := Some DecisionReasonPaneOutside |>
     <| pr_decided_at := Some sec |>.

Definition RecordPaneOutside (id token claim : string) (check : option PaneCheck) : Op bool :=
  r <- txBounded
    (runPaneCheck id check;;>
     updFirstNow (fun pr => where3 (ofToken id token pr AND awaitingAnswerSQL pr)) (paneOutsideSet claim) idTool);;
  match r with
  | Some (rid, tool) =>
      emit (decisionCommitted id token rid tool (coalesce (claimedDecision claim) "")
              DecisionReasonPaneOutside WriterProcessRecordPaneAnswer);;; ret true
  | None => ret false
  end.

(** ** What the agent's own hooks prove *)

Definition ofToolUse (id use : string) (pr : PermReq) : tvl :=
  (ofSpawn id pr AND sql_eq (pr_tool_use_id pr) (Some use)).

(** EXISTS (the Spawn's row with the gate), with or without the Cursor bar. *)
Definition spawnGate (notCursor : bool) (s : Store) (gate : HookGate) (id : string) : bool :=
  match db_spawns s !! id with
  | Some r => (if notCursor then where3 (sql_is_not (sp_agent r) (Some AgentCursor)) else true)
              && gateHolds s gate id r
  | None => false
  end.

Definition toolRanSet (at_ : goTime) (sec : Z) (pr : PermReq) : PermReq :=
  pr <| pr_pane_answer := PaneAnswerToolRan |> <| pr_decision := Some "allow" |>
     <| pr_decision_reason := Some DecisionReasonToolRan |> <| pr_decided_at := Some sec |>
     <| pr_hook_gone_at := coalesce2 (pr_hook_gone_at pr) (millisArg at_) |>
     <| pr_proven_gone_how := case3 (is_null (pr_proven_gone_at pr)) (Some ProvenGoneToolRan) (pr_proven_gone_how pr) |>
     <| pr_proven_gone_at := coalesce2 (pr_proven_gone_at pr) (millisArg at_) |>.

Definition closeToolRan (id use : string) (gate : HookGate) (at_ : goTime) (rid : Z)
    : Op (option (string * string)) :=
  r <- stmt (fun s => updReturning
         (fun pr => where3 (sql_eq (Some (pr_request_id pr)) (Some rid) AND ofToolUse id use pr
                            AND awaitingAnswerSQL pr AND Some (spawnGate true s gate id)))
         (toolRanSet at_ (nowSec s)) (fun pr => (pr_request_token pr, pr_tool_name pr)) s);;
  ret (head r).

Fixpoint closeToolRanLoop (id use : string) (gate : HookGate) (at_ : goTime) (gone : PermissionRow -> bool)
    (prs : list PermissionRow) : Op (list string) :=
  match prs with
  | [] => ret []
  | pr :: prs =>
      if negb (gone pr) then closeToolRanLoop id use gate at_ gone prs
      else
        r <- closeToolRan id use gate at_ (pw_RequestID pr);;
        match r with
        | None => closeToolRanLoop id use gate at_ gone prs
        | Some (token, tool) =>
            emit (decisionCommitted id token (pw_RequestID pr) tool "allow" DecisionReasonToolRan WriterProcessHook);;;
            rest <- closeToolRanLoop id use gate at_ gone prs;;
            ret (token :: rest)
        end
  end.

Definition CloseToolRanRequests (id : string) (gate : HookGate) (use : string) (at_ : goTime)
    (gone : option (PermissionRow -> bool)) : Op (list string) :=
  match gone with
  | None => ret []
  | Some gone =>
      if bool_decide (use = "") then ret []
      else
        prs <- read (fun s => scanPermissionRow <$>
                 filter (fun pr => where3 (ofToolUse id use pr AND not_null (pr_settled_at pr)
                                           AND awaitingAnswerSQL pr) = true) (db_requests s));;
        closeToolRanLoop id use gate at_ gone prs
  end.

(** request_proof.go *)
Record RequestProof := mkProof {
  pf_How : string;
  pf_ToolUseID : string;
  pf_RecordedBefore : goTime;
  pf_At : goTime;
}.

(** RequestProof.match: the fragment, or that it proves nothing, or its error. *)
Definition proofMatch (p : RequestProof) : result (option (PermReq -> tvl)) :=
  if bool_decide (pf_How p = ProvenGoneToolRan) then
    if bool_decide (pf_ToolUseID p = "") then Ok None
    else Ok (Some (fun pr => sql_eq (pr_tool_use_id pr) (Some (pf_ToolUseID p))))
  else if bool_decide (pf_How p = ProvenGoneTurnEnd) then
    match pf_RecordedBefore p with
    | None => Err ETurnEndNoStart
    | Some before =>
        Ok (Some (fun pr => (Some (pr_main_turn_end_eligible pr) AND is_null (pr_agent_id pr)
                             AND Some (pr_created_at pr <? storeTimestamp before))))
    end
  else Err EUnknownProof.

Definition provable (id : string) (frag : PermReq -> tvl) (pr : PermReq) : tvl :=
  (ofSpawn id pr AND is_null (pr_proven_gone_at pr) AND frag pr).

Definition newestProvable (id : string) (frag : PermReq -> tvl) (s : Store) : option Z :=
  match filter (fun pr => where3 (provable id frag pr) = true) (db_requests s) with
  | [] => None
  | l => Some (foldr Z.max 0 (pr_request_id <$> l))
  end.

Definition proveSet (how : string) (at_ : goTime) (pr : PermReq) : PermReq :=
  pr <| pr_proven_gone_at := millisArg at_ |> <| pr_proven_gone_how := Some how |>.

Definition ProveRequestsGone (id : string) (gate : HookGate) (proof : RequestProof) (now : goTime) : Op Z :=
  match proofMatch proof with
  | Err e => fail e
  | Ok None => ret 0
  | Ok (Some frag) =>
      newest <- read (newestProvable id frag);;
      match newest with
      | None => ret 0
      | Some newest =>
          let at_ := match pf_At proof with Some t => Some t | None => now end in
          xs <- stmt (fun s => updReturning
                  (fun pr => where3 (provable id frag pr AND Some (pr_request_id pr <=? newest)
                     AND Some (spawnGate (bool_decide (pf_How proof = ProvenGoneToolRan)) s gate id)))
                  (proveSet (pf_How proof) at_) pr_request_id s);;
          ret (Z.of_nat (length xs))
      end
  end.
