(* ===== verification/Protocol.v ===== *)
(** * The protocol of a permission request

    What the store promises of a request, apart from how its columns keep it:
    the phases a request goes through ([phase]), who may move it from one to
    the next ([proto_step]), and the protocol of all requests at once
    ([Protocol], [protocol_step]). RequestInv.v proves that every write of a
    request is a step of it, System.v that every history of the store is a
    run of it. *)

From S2P Require Import Prelude Sql Rows Display Settle Family Requests History Steps Gate HookWrites RelayWrites.

(** [Waiting settled verdict claim]: nothing reached the agent yet; [settled]
    requests were recorded by a relay hook that waits for the verdict, and a
    standing pane intent is a [claim]. [Shut]: closed with its verdict when
    the Spawn ended. [Relayed]: the relay hook took the verdict. [AtPane]: the
    agent's own dialog was answered. *)
Inductive phase :=
  | Waiting (settled : bool) (verdict claim : option string)
  | Shut (verdict : string) (claim : option string)
  | Relayed (verdict : string)
  | AtPane (how : string) (verdict : option string).

(** A request that can still be answered at the pane, or asked about. *)
Definition answerable (p : phase) : bool :=
  match p with
  | Waiting settled verdict _ => settled || bool_decide (verdict = None)
  | _ => false
  end.

Inductive proto_step : phase -> phase -> Prop :=
  | decides settled d :
      d <> "" -> proto_step (Waiting settled None None) (Waiting settled (Some d) None)
  | relays settled v :
      proto_step (Waiting settled (Some v) None) (Relayed v)
  | relays_late v :
      proto_step (Shut v None) (Relayed v)
  | times_out settled :
      proto_step (Waiting settled None None) (Relayed "deny")
  | intends settled v c as_ :
      answerable (Waiting settled v c) = true -> as_ <> "" ->
      proto_step (Waiting settled v c) (Waiting settled v (Some as_))
  | sends settled v as_ :
      proto_step (Waiting settled v (Some as_)) (AtPane PaneAnswerSent (Some as_))
  | claims settled v as_ :
      answerable (Waiting settled v None) = true -> as_ <> "" ->
      proto_step (Waiting settled v None) (AtPane PaneAnswerSent (Some as_))
  | answered_outside settled v c claim :
      answerable (Waiting settled v c) = true ->
      proto_step (Waiting settled v c) (AtPane PaneAnswerOutside (claimedDecision claim))
  | ran settled v c :
      answerable (Waiting settled v c) = true ->
      proto_step (Waiting settled v c) (AtPane PaneAnswerToolRan (Some "allow"))
  | ran_decided settled v c :
      proto_step (Waiting settled v c) (AtPane PaneAnswerToolRan (Some (coalesce v "allow")))
  | ran_unsaid how :
      proto_step (AtPane how None) (AtPane how (Some "allow"))
  | denied settled c :
      proto_step (Waiting settled None c) (Shut "deny" c)
  | shut settled v c :
      proto_step (Waiting settled (Some v) c) (Shut v c).

(** What the agent was told is told for good; an answer seen at the pane that
    nobody named may still be named by the tool that ran. *)
Definition answered (p : phase) : bool :=
  match p with Relayed _ | AtPane _ (Some _) => true | _ => false end.

Lemma answered_final p p' : rtc proto_step p p' -> answered p = true -> p' = p.
Proof. induction 1 as [p|p p1 p' H _ IH]; [done|]. by destruct H. Qed.

Lemma told_at_pane p p' how v : rtc proto_step p p' -> p = AtPane how v ->
  p' = AtPane how v \/ v = None /\ p' = AtPane how (Some "allow").
Proof.
  intros H. revert v. induction H as [p|p p1 p' H Hr IH]; intros v ->; [by left|].
  inversion H; subst. right. split; [done|]. by eapply answered_final in Hr.
Qed.

(** A request that can no longer be asked about never can again. *)
Lemma proto_answerable p p' : rtc proto_step p p' -> answerable p' = true -> answerable p = true.
Proof.
  induction 1 as [p|p p1 p' H _ IH]; [done|]. intros H1. specialize (IH H1). clear H1. destruct H; simpl in *; try done;
    by rewrite ?orb_true_r.
Qed.

(** ** A request's phase *)

Definition completedPane (r : PermReq) : Prop :=
  pr_pane_answer r ∈ [PaneAnswerSent; PaneAnswerOutside; PaneAnswerToolRan].

Definition claim_of (r : PermReq) : option string :=
  if bool_decide (pr_pane_answer r = PaneAnswerIntent) then pr_pane_as r else None.

Definition phase_of (r : PermReq) : phase :=
  if bool_decide (is_Some (pr_delivered_at r)) then Relayed (coalesce (pr_decision r) "")
  else if bool_decide (pr_pane_answer r ∈ [PaneAnswerSent; PaneAnswerOutside; PaneAnswerToolRan])
  then AtPane (pr_pane_answer r) (pr_decision r)
  else if bool_decide (is_Some (pr_closed_at r)) then Shut (coalesce (pr_decision r) "") (claim_of r)
  else Waiting (bool_decide (is_Some (pr_settled_at r))) (pr_decision r) (claim_of r).

Lemma phase_relayed r : is_Some (pr_delivered_at r) -> phase_of r = Relayed (coalesce (pr_decision r) "").
Proof. intros H. unfold phase_of. by rewrite bool_decide_true. Qed.
Lemma phase_at_pane r : pr_delivered_at r = None -> completedPane r ->
  phase_of r = AtPane (pr_pane_answer r) (pr_decision r).
Proof.
  intros H1 H2. unfold phase_of. rewrite H1, bool_decide_false by (by intros [? ?]). by rewrite bool_decide_true.
Qed.
Lemma phase_shut r : pr_delivered_at r = None -> ~ completedPane r -> is_Some (pr_closed_at r) ->
  phase_of r = Shut (coalesce (pr_decision r) "") (claim_of r).
Proof.
  intros H1 H2 H3. unfold phase_of. rewrite H1, bool_decide_false by (by intros [? ?]).
  by rewrite bool_decide_false, bool_decide_true.
Qed.
Lemma phase_waiting r : pr_delivered_at r = None -> ~ completedPane r -> pr_closed_at r = None ->
  phase_of r = Waiting (bool_decide (is_Some (pr_settled_at r))) (pr_decision r) (claim_of r).
Proof.
  intros H1 H2 H3. unfold phase_of. rewrite H1, bool_decide_false by (by intros [? ?]).
  rewrite bool_decide_false by done. by rewrite H3, bool_decide_false by (by intros [? ?]).
Qed.

(** The phase reads six columns. *)
Lemma phase_same r r' :
  (pr_delivered_at r', pr_pane_answer r', pr_pane_as r', pr_decision r', pr_closed_at r', pr_settled_at r')
  = (pr_delivered_at r, pr_pane_answer r, pr_pane_as r, pr_decision r, pr_closed_at r, pr_settled_at r) ->
  rtc proto_step (phase_of r) (phase_of r').
Proof. intros [= E1 E2 E3 E4 E5 E6]. unfold phase_of, claim_of. by rewrite E1, E2, E3, E4, E5, E6. Qed.

(** ** The protocol of all requests *)

(** The next id, and each recorded request's Spawn and phase. *)
Record Protocol := mkProtocol {
  pt_next : Z;
  pt_requests : gmap Z (string * phase);
}.

Definition moved (x x' : option (string * phase)) : Prop :=
  match x, x' with
  | Some (id, p), Some (id', p') => id' = id /\ rtc proto_step p p'
  | None, None => True
  | _, _ => False
  end.

(** A transaction moves some requests ([moves]), records one ([records]), or
    drops some that can no longer be asked about ([drops]); [loses] is the end
    of a Spawn's row or of its life, which takes its requests with it. *)
Inductive protocol_step : Protocol -> Protocol -> Prop :=
  | moves n m m' :
      (forall i, moved (m !! i) (m' !! i)) -> protocol_step (mkProtocol n m) (mkProtocol n m')
  | records n m id settled :
      m !! n = None ->
      protocol_step (mkProtocol n m) (mkProtocol (n + 1) (<[n := (id, Waiting settled None None)]> m))
  | drops n m m' :
      m' ⊆ m -> (forall i id p, m !! i = Some (id, p) -> m' !! i = None -> answerable p = false) ->
      protocol_step (mkProtocol n m) (mkProtocol n m')
  | loses n m id :
      protocol_step (mkProtocol n m) (mkProtocol n (filter (fun x => fst (snd x) <> id) m)).

(** The protocol state a store is in. *)
Definition requestEntry (r : PermReq) : Z * (string * phase) := (pr_request_id r, (pr_instance_id r, phase_of r)).
Definition protocol_of (s : Store) : Protocol :=
  mkProtocol (db_next_request s) (list_to_map (requestEntry <$> db_requests s)).

Lemma moved_trans x y z : moved x y -> moved y z -> moved x z.
Proof.
  destruct x as [[? ?]|], y as [[? ?]|], z as [[? ?]|]; simpl; try done. intros [-> H1] [-> H2]. split; [done|by etrans].
Qed.
