(* ===== verification/HookEnv.v ===== *)
(** * What a hook process reads of its surroundings (internal/hook/gate.go)

    The hook's parent process, captured once before any store call, and the
    records of a hook that changed nothing: [emitIgnored]'s ad.hook.ignored
    and ad.hook.pane_is_grandparent. What the operating system answers is an
    argument ([HookEnv]); a reader that is not wired answers as one that
    fails. *)

From S2P Require Import Prelude Sql Text Rows Requests Settle Family Gate.

Abbreviation Op := (M Store Event).

Record HookEnv := mkHookEnv {
  hv_ParentPID : Z;
  hv_StartTime : Z -> option string;    (* of a process that is alive *)
  hv_CommandName : Z -> option string;
  hv_PPID : Z -> option Z;
}.

Record parentIdentity := mkParent { pa_pid : Z; pa_start : string }.

Definition captureParent (e : HookEnv) : parentIdentity :=
  mkParent (hv_ParentPID e) (if 0 <? hv_ParentPID e then coalesce (hv_StartTime e (hv_ParentPID e)) "" else "").

(** ** Standard input and the environment (internal/hook/io.go) *)

Definition MaxPayloadBytes : Z := 2 ^ 20.

(** What ReadPayload was given: a failed read, or the bytes up to one past the
    cap. *)
Inductive payloadError := ReadFailed | ErrPayloadTooLarge.
Definition ReadPayload (stdin : option string) : string + payloadError :=
  match stdin with
  | None => inr ReadFailed
  | Some bytes => if MaxPayloadBytes <? Z.of_nat (String.length bytes) then inr ErrPayloadTooLarge else inl bytes
  end.

Definition envInstanceID : string := "AGENT_DIRECTOR_INSTANCE_ID".
Definition EnvRelayMode : string := "AGENT_DIRECTOR_RELAY_MODE".
Definition RelayModeOn : string := "on".

Inductive instanceIDError := ErrInstanceIDMissing | ErrInstanceIDInvalid.
Definition ResolveInstanceID (getenv : string -> string) : string + instanceIDError :=
  let v := TrimSpace (getenv envInstanceID) in
  if bool_decide (v = "") then inr ErrInstanceIDMissing
  else if containsByte (fun n => (n =? 47) || (n =? 92) || (n =? 0))%nat v then inr ErrInstanceIDInvalid
  else if containsByte (fun n => (n <? 32) || (n =? 127))%nat v then inr ErrInstanceIDInvalid
  else inl v.

Record ignoredHook := mkIgnored {
  ig_instanceID : string;
  ig_event : string;
  ig_sessionID : string;
  ig_parent : parentIdentity;
  ig_reason : string;
  ig_silentWithoutRow : bool;
}.

(** An empty name is none. *)
Definition commandOf (e : HookEnv) (pid : Z) : option string :=
  match hv_CommandName e pid with Some name => nullif_empty name | None => None end.

(** ignoredFields, with the row's two fields. *)
Definition ignoredFields (e : HookEnv) (h : ignoredHook) (row_session : option string) (row_pane : option Z) : Event :=
  EvHookIgnored (nullif_empty (ig_instanceID h)) (ig_event h) (ig_reason h) (pa_pid (ig_parent h))
    (commandOf e (pa_pid (ig_parent h))) (nullif_empty (ig_sessionID h)) row_session row_pane.

Definition paneIsGrandparent (e : HookEnv) (h : ignoredHook) (sp : SpawnRow) : bool :=
  let pane := li_PanePID (lifeIdentity sp) in
  if negb (bool_decide (ig_event h = "SessionStart")) || negb (bool_decide (ig_reason h = HookReasonPIDMismatch))
     || negb (bool_decide (sp_state sp = StatePending)) then false
  else if (pa_pid (ig_parent h) <=? 0) || (pane <=? 0) then false
  else match hv_PPID e (pa_pid (ig_parent h)) with Some ppid => ppid =? pane | None => false end.

Definition paneIsGrandparentAdvice : string := (
    "The parent of this agent's hooks is a child of its pane process, not the pane process itself, so " ++
    "agent-director ignores every hook of this agent (pid_mismatch). Either the claude on PATH is a launcher " ++
    "that runs Claude Code as a child instead of exec-ing it (replace it with the native claude binary or a " ++
    "wrapper that execs it, or name that binary in [launch] claude_path), or Claude Code ran the hook through " ++
    "a shell instead of in exec form; parent_command names that parent.")%string.
Definition paneIsGrandparentAdviceCodex : string := (
    "The parent of this agent's hooks is a child of its pane process, not the pane process itself, so " ++
    "agent-director ignores every hook of this agent (pid_mismatch). Either the codex on PATH is a launcher " ++
    "that runs Codex as a child instead of exec-ing it, such as the npm launcher (name the native codex " ++
    "program in [launch] codex_path, or use a wrapper that execs it), or Codex ran the hook through a shell " ++
    "instead of in exec form; parent_command names that parent.")%string.
Definition paneIsGrandparentAdviceFor (agent : string) : string :=
  if bool_decide (agent = AgentCodex) then paneIsGrandparentAdviceCodex else paneIsGrandparentAdvice.

Definition emitPaneIsGrandparent (e : HookEnv) (h : ignoredHook) (panePID : Z) (agent : string) : Op unit :=
  emit (EvPaneIsGrandparent (ig_instanceID h) panePID (commandOf e panePID) (pa_pid (ig_parent h))
          (commandOf e (pa_pid (ig_parent h))) (paneIsGrandparentAdviceFor agent)).

(** GetSpawn: the row, or ErrSpawnNotFound. *)
Definition GetSpawn (id : string) : Op SpawnRow :=
  r <- read (fun s => db_spawns s !! id);;
  match r with Some sp => ret sp | None => fail ESpawnNotFound end.

Definition emitIgnored (e : HookEnv) (h : ignoredHook) : Op unit :=
  catch (GetSpawn (ig_instanceID h)) (fun r => match r with
    | Err ESpawnNotFound => if ig_silentWithoutRow h then ret tt else emit (ignoredFields e h None None)
    | Err _ => emit (ignoredFields e h None None)
    | Ok sp =>
        let pane := li_PanePID (lifeIdentity sp) in
        emit (ignoredFields e h (nullif_empty (coalesce (sp_session_id sp) "")) (if 0 <? pane then Some pane else None));;;
        if paneIsGrandparent e h sp then emitPaneIsGrandparent e h pane (coalesce (sp_agent sp) "") else ret tt
    end).

