(* ===== verification/Payload.v ===== *)
(** * Hook payloads (internal/hook: io.go, classify.go, subagent.go, permission.go)

    A payload as encoding/json's parser leaves it ([json]), and how the hook
    decodes it: into a struct of strings ([payload], with the parser's
    case-insensitive keys and its type errors), or field by field, leniently
    ([rawObject], [rawString], [rawBool]). The text of a JSON value, which the
    parser reads, is not modelled; a value the hook keeps verbatim keeps its
    text through the argument [rawText]. *)

From Stdlib Require Ascii.
From S2P Require Export Text.
From S2P Require Import Prelude Sql Rows Requests.

#[warnings="-register-all"]
Inductive json :=
  | JNull
  | JBool (b : bool)
  | JNumber (text : string)
  | JString (s : string)
  | JArray (l : list json)
  | JObject (l : list (string * json)).

(** What reading stdin gave: no byte, bytes that are not one JSON value, or a
    value. *)
Inductive rawPayload := RawEmpty | RawBad | RawJson (v : json).

(** ** Keys: encoding/json's foldName, on names of ASCII letters and _ *)

Definition lowerByte (n : nat) : nat := if (65 <=? n)%nat && (n <=? 90)%nat then (n + 32)%nat else n.

(** U+017F (bytes 197 191) folds to s and U+212A (226 132 170) to k. *)
Fixpoint foldName (s : string) : string :=
  match s with
  | EmptyString => EmptyString
  | String a t =>
      let fold := String (Ascii.ascii_of_nat (lowerByte (byte a))) (foldName t) in
      match t with
      | String b t1 =>
          if (byte a =? 197)%nat && (byte b =? 191)%nat then String (Ascii.ascii_of_nat 115) (foldName t1)
          else match t1 with
               | String c t2 =>
                   if (byte a =? 226)%nat && (byte b =? 132)%nat && (byte c =? 170)%nat
                   then String (Ascii.ascii_of_nat 107) (foldName t2) else fold
               | EmptyString => fold
               end
      | EmptyString => fold
      end
  end.

Definition keyIs (field key : string) : bool := bool_decide (foldName key = foldName field).

(** *** Into a struct *)

(** A string field after the object's keys in order: null leaves it, a value
    of another type is an error that leaves it. *)
Definition stringField (field : string) (kvs : list (string * json)) : string :=
  fold_left (fun acc kv => if keyIs field (fst kv) then match snd kv with JString s => s | _ => acc end else acc) kvs "".

Definition stringTypeError (field : string) (kvs : list (string * json)) : bool :=
  existsb (fun kv => keyIs field (fst kv) &&
    match snd kv with JString _ | JNull => false | _ => true end) kvs.

(** The fields of [payload], by their JSON names. *)
Record payload := mkPayload {
  p_Source : string;
  p_Origin : string;
  p_HookEventName : string;
  p_EventName : string;
  p_ToolName : string;
  p_Reason : string;
  p_Matcher : string;
  p_EndReason : string;
  p_TranscriptPath : string;
  p_AgentID : string;
  p_NotificationType : string;
  p_ToolUseID : string;
  p_SessionID : string;
  p_TurnID : string;
}.

Definition payloadNames : list string :=
  ["source"; "origin"; "hook_event_name"; "event_name"; "tool_name"; "reason"; "matcher"; "endReason";
   "transcript_path"; "agent_id"; "notification_type"; "tool_use_id"; "session_id"; "turn_id"].

Definition payloadOf (kvs : list (string * json)) : payload :=
  mkPayload (stringField "source" kvs) (stringField "origin" kvs) (stringField "hook_event_name" kvs)
    (stringField "event_name" kvs) (stringField "tool_name" kvs) (stringField "reason" kvs)
    (stringField "matcher" kvs) (stringField "endReason" kvs) (stringField "transcript_path" kvs)
    (stringField "agent_id" kvs) (stringField "notification_type" kvs) (stringField "tool_use_id" kvs)
    (stringField "session_id" kvs) (stringField "turn_id" kvs).

(** json.Unmarshal into a payload; [None] is any error. *)
Definition unmarshalPayload (raw : rawPayload) : option payload :=
  match raw with
  | RawJson (JObject kvs) =>
      if existsb (fun f => stringTypeError f kvs) payloadNames then None else Some (payloadOf kvs)
  | RawJson JNull => Some (payloadOf [])
  | _ => None
  end.

(** sessionEndCause, eventName *)
Definition sessionEndCause (p : payload) : string :=
  if negb (bool_decide (p_Reason p = "")) then p_Reason p
  else if negb (bool_decide (p_Matcher p = "")) then p_Matcher p else p_EndReason p.

Definition eventName (p : payload) : string :=
  if negb (bool_decide (p_HookEventName p = "")) then p_HookEventName p else p_EventName p.

Definition PeekEventName (raw : rawPayload) : string :=
  match raw with
  | RawEmpty => ""
  | _ => match unmarshalPayload raw with Some p => eventName p | None => "" end
  end.

(** *** Field by field *)

Definition rawObject (v : option json) : option (list (string * json)) :=
  match v with Some (JObject kvs) => Some kvs | _ => None end.
Definition rawString (v : option json) : string :=
  match v with Some (JString s) => s | _ => "" end.
Definition rawBool (v : option json) : bool :=
  match v with Some (JBool b) => b | _ => false end.

(** A key of a decoded map: exact, the last one wins. *)
Definition mapField (field : string) (kvs : option (list (string * json))) : option json :=
  match kvs with
  | Some kvs => fold_left (fun acc kv => if bool_decide (fst kv = field) then Some (snd kv) else acc) kvs None
  | None => None
  end.

Definition rawValue (raw : rawPayload) : option json :=
  match raw with RawJson v => Some v | _ => None end.

(** permissionPayload: as far as it decodes; a raw field keeps the text of
    its value. *)
Record permissionPayload := mkPermissionPayload {
  pp_ToolName : string;
  pp_ToolInput : string;
  pp_ToolUseID : string;
}.

Section Text.
Context (rawText : json -> string).

Definition rawField (field : string) (kvs : list (string * json)) : string :=
  fold_left (fun acc kv => if keyIs field (fst kv) then rawText (snd kv) else acc) kvs "".

Definition decodePermission (raw : rawPayload) : permissionPayload :=
  match raw with
  | RawJson (JObject kvs) =>
      mkPermissionPayload (stringField "tool_name" kvs) (rawField "tool_input" kvs) (stringField "tool_use_id" kvs)
  | _ => mkPermissionPayload "" "" ""
  end.
End Text.
