(* ===== verification/Classify.v ===== *)
(** * The classification of a hook (internal/hook/classify.go)

    The three tables that turn an agent's hook event into the write its row
    gets: [classifyClaude], [classifyCodex], [classifyCursor] under
    [ClassifyEvent], and what a result says beyond its state ([ToolRan],
    [TurnEnded], [SubagentLifecycle], the Codex turn of its gate). *)

From S2P Require Import Prelude Sql Rows Requests Settle Family Gate HookWrites Payload.

Definition ToolAskUserQuestion : string := "AskUserQuestion".
Definition NotificationTypeIdlePrompt : string := "idle_prompt".
Definition terminalSessionEndReasons : list string := ["logout"; "prompt_input_exit"; "exit"].
Definition EventNamePreToolUse : string := "PreToolUse".
Definition EventNamePostToolUse : string := "PostToolUse".
Definition EventNamePostToolUseFailure : string := "PostToolUseFailure".
Definition EventNameStop : string := "Stop".
Definition EventNameInterrupt : string := "Interrupt".
Definition EventNameSubagentStart : string := "SubagentStart".
Definition EventNameSubagentStop : string := "SubagentStop".
Definition EventNamePermissionRequest : string := "PermissionRequest".
Definition MaxCodexTurnBytes : Z := 256.

(** [None] is ErrInvalidAgent. *)
Definition ResolveAgent (raw : string) : option string :=
  if bool_decide (raw = "") || bool_decide (raw = AgentClaude) then Some AgentClaude
  else if bool_decide (raw = AgentCodex) then Some AgentCodex
  else if bool_decide (raw = AgentCursor) then Some AgentCursor else None.

Record ClassifyResult := mkClassify {
  c_Agent : string;
  c_SubagentCapture : bool;
  c_EndReport : bool;
  c_HealsTranscript : bool;
  c_CodexStartup : bool;
  c_EventName : string;
  c_NewState : string;
  c_SoftRefresh : bool;
  c_WaitingIfWorking : bool;
  c_SessionID : string;
  c_TranscriptPath : string;
  c_UnknownEvent : bool;
  c_ToolName : string;
  c_AgentID : string;
  c_ToolUseID : string;
  c_MainThread : bool;
  c_TurnID : string;
}.

#[export] Instance eta_Classify : Eta ClassifyResult := fun r => mkClassify
  (c_Agent r) (c_SubagentCapture r) (c_EndReport r) (c_HealsTranscript r) (c_CodexStartup r) (c_EventName r)
  (c_NewState r) (c_SoftRefresh r) (c_WaitingIfWorking r) (c_SessionID r) (c_TranscriptPath r) (c_UnknownEvent r)
  (c_ToolName r) (c_AgentID r) (c_ToolUseID r) (c_MainThread r) (c_TurnID r).
#[export] Instance set_c_EndReport : Setter c_EndReport. Proof. solve_setter. Defined.
#[export] Instance set_c_NewState : Setter c_NewState. Proof. solve_setter. Defined.
#[export] Instance set_c_SoftRefresh : Setter c_SoftRefresh. Proof. solve_setter. Defined.
#[export] Instance set_c_WaitingIfWorking : Setter c_WaitingIfWorking. Proof. solve_setter. Defined.
#[export] Instance set_c_UnknownEvent : Setter c_UnknownEvent. Proof. solve_setter. Defined.

Definition ToolRan (r : ClassifyResult) : bool :=
  bool_decide (c_Agent r = AgentClaude) && negb (bool_decide (c_ToolUseID r = ""))
  && (bool_decide (c_EventName r = EventNamePostToolUse) || bool_decide (c_EventName r = EventNamePostToolUseFailure)).

Definition TurnEnded (r : ClassifyResult) : bool :=
  if bool_decide (c_Agent r = AgentCursor) && c_UnknownEvent r then false
  else if negb (bool_decide (c_AgentID r = "")) then false
  else bool_decide (c_EventName r = EventNameStop) || c_WaitingIfWorking r
       || ((bool_decide (c_Agent r = AgentCodex) || bool_decide (c_Agent r = AgentCursor))
           && bool_decide (c_EventName r = EventNameInterrupt)).

Definition SubagentLifecycle (r : ClassifyResult) : bool :=
  negb (bool_decide (c_AgentID r = ""))
  && (bool_decide (c_EventName r = "SessionStart") || bool_decide (c_EventName r = "SessionEnd")).

(** extractSessionID *)
Definition extractSessionID (transcriptPath : string) : string :=
  if bool_decide (transcriptPath = "") then ""
  else
    let base := Base transcriptPath in
    if bool_decide (base ∈ ["/"; "."; ""]) then ""
    else
      let base := match lastIndexByte dot base with
                  | Some (S i) => String.substring 0 (S i) base
                  | _ => base
                  end in
      if bool_decide (base ∈ ["."; ".."]) then "" else base.

(** A table's row: the state the event moves to, or a soft refresh. *)
Definition toState (v : string) (r : ClassifyResult) : ClassifyResult := r <| c_NewState := v |>.
Definition toSoft (r : ClassifyResult) : ClassifyResult := r <| c_SoftRefresh := true |>.
Definition toUnknown (r : ClassifyResult) : ClassifyResult := toSoft r <| c_UnknownEvent := true |>.

Definition classifyClaude (p : payload) : ClassifyResult :=
  let res := mkClassify AgentClaude true false false false (eventName p) "" false false
    (extractSessionID (p_TranscriptPath p)) (p_TranscriptPath p) false (p_ToolName p) (p_AgentID p) (p_ToolUseID p)
    false "" in
  let e := c_EventName res in
  if bool_decide (e = "SessionStart") then toState StateWaiting res
  else if bool_decide (e = "UserPromptSubmit") then toState StateWorking res
  else if bool_decide (e = EventNamePreToolUse) then
    toState (if bool_decide (p_ToolName p = ToolAskUserQuestion) then StateAskUser else StateWorking) res
  else if bool_decide (e ∈ [EventNamePostToolUse; EventNamePostToolUseFailure]) then toState StateWorking res
  else if bool_decide (e = EventNameStop) then toState StateWaiting res
  else if bool_decide (e = "Notification") then
    toSoft res <| c_WaitingIfWorking :=
      bool_decide (p_NotificationType p = NotificationTypeIdlePrompt) && bool_decide (p_AgentID p = "") |>
  else if bool_decide (e = EventNamePermissionRequest) then toState StateCheckPermission res
  else if bool_decide (e ∈ [EventNameSubagentStart; EventNameSubagentStop]) then toSoft res
  else if bool_decide (e = "SessionEnd") then
    if bool_decide (sessionEndCause p ∈ terminalSessionEndReasons) then toState StateEnded res else toSoft res
  else toUnknown res.

Definition classifyCodex (p : payload) : ClassifyResult :=
  let main := bool_decide (p_AgentID p = "") in
  let session := if main then p_SessionID p else "" in
  let thread := negb (bool_decide (session = "")) && strContains (Base (p_TranscriptPath p)) session in
  let turn := if thread && (len (p_TurnID p) <=? MaxCodexTurnBytes) then p_TurnID p else "" in
  let res := mkClassify AgentCodex false false main
    (main && bool_decide (eventName p = "SessionStart") && bool_decide (p_Source p = "startup"))
    (eventName p) "" false false session (p_TranscriptPath p) false (p_ToolName p) (p_AgentID p) (p_ToolUseID p)
    thread turn in
  let e := c_EventName res in
  if bool_decide (e ∈ ["SessionStart"; EventNameStop]) then toState StateWaiting res
  else if bool_decide (e ∈ ["UserPromptSubmit"; EventNamePreToolUse; EventNamePostToolUse]) then toState StateWorking res
  else if bool_decide (e = EventNameInterrupt) then (if main then toState StateWaiting res else toSoft res)
  else if bool_decide (e = EventNamePermissionRequest) then toState StateCheckPermission res
  else if bool_decide (e = "SessionEnd") then toSoft res <| c_EndReport := main |>
  else if bool_decide (e ∈ ["Notification"; EventNamePostToolUseFailure; EventNameSubagentStart; EventNameSubagentStop])
  then toSoft res
  else toUnknown res.

Definition classifyCursor (p : payload) : ClassifyResult :=
  let foreign := negb (bool_decide (p_AgentID p = "")) || negb (bool_decide (p_Origin p = "main")) in
  let res := mkClassify AgentCursor false false false false (eventName p) "" false false
    (if foreign then "" else p_SessionID p) (if foreign then "" else p_TranscriptPath p) false "" (p_AgentID p) ""
    false "" in
  let e := c_EventName res in
  if foreign then toUnknown res
  else if bool_decide (e ∈ ["SessionStart"; "Stop"; "Interrupt"]) then toState StateWaiting res
  else if bool_decide (e = "UserPromptSubmit") then toState StateWorking res
  else if bool_decide (e = "SessionEnd") then
    if bool_decide (p_Reason p = "prompt_input_exit") then toState StateEnded res else toSoft res
  else toUnknown res.

(** [None] is an error: an invalid agent or a payload that does not decode. *)
Definition ClassifyEvent (agent : string) (raw : rawPayload) : option ClassifyResult :=
  match ResolveAgent agent with
  | None => None
  | Some agent =>
      match raw with
      | RawEmpty => Some (mkClassify agent (bool_decide (agent = AgentClaude)) false false false "" "" true false ""
                            "" false "" "" "" false "")
      | _ =>
          match unmarshalPayload raw with
          | None => None
          | Some p =>
              if bool_decide (agent = AgentCursor) then Some (classifyCursor p)
              else if bool_decide (agent = AgentCodex) then Some (classifyCodex p)
              else Some (classifyClaude p)
          end
      end
  end.

(** codexTurnGate, on a gate of zero turn fields. *)
Definition codexTurnGate (gate : HookGate) (res : ClassifyResult) : HookGate :=
  if negb (bool_decide (c_Agent res = AgentCodex)) || negb (c_MainThread res) then gate
  else
    let e := c_EventName res in
    mkGate (g_CodexStartup gate) (g_Cursor gate) (g_Event gate) (g_ParentPID gate) (g_ParentStart gate)
      (g_SessionID gate) (g_SessionStart gate) (g_Examined gate) (c_TurnID res)
      (bool_decide (e = "UserPromptSubmit"))
      (bool_decide (e ∈ [EventNameStop; EventNameInterrupt]))
      (bool_decide (e ∈ [EventNamePreToolUse; EventNamePostToolUse])).
