(* ===== verification/SubagentHook.v ===== *)
(** * What a hook's payload says of subagents (internal/hook/subagent.go)

    The payload fields only subagent capture reads, read leniently, and the
    store events they make: a start or stop ([lifecycleEvent]) and the entry
    transaction that follows a hook's own write ([subagentAfterWrite]). *)

From S2P Require Import Prelude Sql Rows Requests Settle Family Gate SubagentWrites Payload Classify.

Definition ToolAgent : string := "Agent".
Definition launchStatusAsync : string := "async_launched".
Definition launchStatusCompleted : string := "completed".

Record subagentFields := mkSubagentFields {
  sf_SessionID : string;
  sf_AgentType : string;
  sf_StopHookActive : bool;
  sf_InputType : string;
  sf_InputDescription : string;
  sf_InputNamed : bool;
  sf_ResponseAgentID : string;
  sf_ResponseStatus : string;
  sf_ResponseModel : string;
  sf_ResponseAgentType : string;
}.

Definition readSubagentFields (raw : rawPayload) : subagentFields :=
  let top := rawObject (rawValue raw) in
  let input := rawObject (mapField "tool_input" top) in
  let response := rawObject (mapField "tool_response" top) in
  let status := rawString (mapField "status" response) in
  mkSubagentFields (rawString (mapField "session_id" top)) (rawString (mapField "agent_type" top))
    (rawBool (mapField "stop_hook_active" top))
    (rawString (mapField "subagent_type" input)) (rawString (mapField "description" input))
    (negb (bool_decide (rawString (mapField "name" input) = "")))
    (rawString (mapField "agentId" response)) status (rawString (mapField "resolvedModel" response))
    (if bool_decide (status = launchStatusCompleted) then rawString (mapField "agentType" response) else "").

(** *** Background tasks *)

Definition backgroundTaskSubagent : string := "subagent".
Definition backgroundTaskRunning : string := "running".

(** A raw field of a struct: any name that folds to it, the last one. *)
Definition rawStructField (field : string) (kvs : list (string * json)) : option json :=
  fold_left (fun acc kv => if keyIs field (fst kv) then Some (snd kv) else acc) kvs None.

Definition listedTask (el : json) : option SubagentListed :=
  match el with
  | JObject kvs =>
      if negb (bool_decide (rawString (rawStructField "type" kvs) = backgroundTaskSubagent)) then None
      else if negb (bool_decide (rawString (rawStructField "status" kvs) = backgroundTaskRunning)) then None
      else
        let id := rawString (rawStructField "id" kvs) in
        if bool_decide (id = "") then None else Some (mkListed id (rawString (rawStructField "agent_type" kvs)))
  | _ => None
  end.

(** readBackgroundTasks: [None] is no snapshot. *)
Definition readBackgroundTasks (raw : rawPayload) : option (list SubagentListed) :=
  match mapField "background_tasks" (rawObject (rawValue raw)) with
  | Some (JArray entries) => Some (omap listedTask entries)
  | _ => None
  end.

(** *** Events *)

Definition isSubagentLifecycle (res : ClassifyResult) : bool :=
  c_SubagentCapture res
  && (bool_decide (c_EventName res = EventNameSubagentStart) || bool_decide (c_EventName res = EventNameSubagentStop)).

(** The event of applySubagentLifecycle. *)
Definition lifecycleEvent (res : ClassifyResult) (raw : rawPayload) (receivedMs : Z) : SubagentLifecycleEvent :=
  if bool_decide (c_AgentID res = "") then mkLifecycleEvent "" "" "" "" false [] receivedMs
  else
    let f := readSubagentFields raw in
    if bool_decide (c_EventName res = EventNameSubagentStart)
    then mkLifecycleEvent SubagentLifecycleStart (c_AgentID res) (sf_SessionID f) (sf_AgentType f) false [] receivedMs
    else mkLifecycleEvent SubagentLifecycleStop (c_AgentID res) "" "" (sf_StopHookActive f)
           (default [] (readBackgroundTasks raw)) receivedMs.

Definition isAgentToolHook (res : ClassifyResult) : bool :=
  c_SubagentCapture res && bool_decide (c_ToolName res = ToolAgent)
  && bool_decide (c_EventName res ∈ [EventNamePreToolUse; EventNamePostToolUse; EventNamePostToolUseFailure]).

Definition isMainAgentStop (res : ClassifyResult) : bool :=
  c_SubagentCapture res && bool_decide (c_EventName res = EventNameStop) && bool_decide (c_AgentID res = "").

(** subagentAfterWrite: [None] when the hook has none. *)
Definition subagentAfterWrite (res : ClassifyResult) (raw : rawPayload) (receivedMs : Z) : option SubagentAfterWrite :=
  if isMainAgentStop res then
    Some (mkAfterWrite None None None (Some (mkTurnEnd receivedMs
      ((fun listed => mkSnapshot (sf_SessionID (readSubagentFields raw)) listed) <$> readBackgroundTasks raw))))
  else if negb (isAgentToolHook res) then None
  else
    let f := readSubagentFields raw in
    if bool_decide (c_EventName res = EventNamePreToolUse) then
      if bool_decide (c_ToolUseID res = "") || bool_decide (sf_InputType f = "") || sf_InputNamed f then None
      else Some (mkAfterWrite (Some (mkLaunchRequest (c_ToolUseID res) (sf_InputType f) receivedMs)) None None None)
    else if bool_decide (c_EventName res = EventNamePostToolUseFailure) then
      if bool_decide (c_ToolUseID res = "") then None
      else Some (mkAfterWrite None None (Some (mkLaunchFailure (c_ToolUseID res))) None)
    else if bool_decide (c_ToolUseID res = "") && bool_decide (sf_ResponseAgentID f = "") then None
    else
      Some (mkAfterWrite None (Some (mkDetails (c_ToolUseID res) (sf_ResponseAgentID f) (c_AgentID res) (sf_SessionID f)
        (if bool_decide (sf_InputType f = "") then sf_ResponseAgentType f else sf_InputType f)
        (sf_InputDescription f) (sf_ResponseModel f)
        (if bool_decide (sf_ResponseStatus f = launchStatusAsync) then SubagentLaunchBackgroundStarted
         else if bool_decide (sf_ResponseStatus f = launchStatusCompleted) then SubagentLaunchForegroundFinished
         else SubagentLaunchOther) receivedMs)) None None).
