(* ===== verification/RelayHook.v ===== *)
(** * The relay hook (internal/hook: permission.go, polling.go, envelope.go)

    A PermissionRequest of a relayed Spawn: the hook records the request,
    polls for a verdict until its deadline, acks the verdict and only then
    writes it to its standard output ([runRelay]). Clock readings, the random
    token and jitter, and what the operating system says of the parent are
    arguments; instants are nanoseconds. *)

From S2P Require Import Prelude Sql Rows Requests Settle Family Gate HookWrites RelayWrites HookEnv Payload Classify.

(** ** The decision envelope *)

(** The fields of the JSON object EncodeDecision marshals; a nil message is
    left out. *)
Record Envelope := mkEnvelope {
  en_hookEventName : string;
  en_behavior : string;
  en_message : option string;
}.

Definition EncodeDecision (eventName behavior reason : string) : Envelope :=
  mkEnvelope eventName behavior
    (if bool_decide (behavior = "deny") && bool_decide (reason = "") then Some "Denied by orchestrator"
     else if negb (bool_decide (reason = "")) then Some reason else None).

(** ** Timing *)

Definition second : Z := 1000000000.
Definition millisecond : Z := 1000000.
Definition relayReserve : Z := 2 * second.
Definition relayDenyLead : Z := 1 * second.
Definition pollFloor : Z := 50 * millisecond.
Definition pollMaxReadRetries : Z := 5.

(** time.Time.Sub saturates. *)
Definition timeSub (a b : Z) : Z := Z.max (- 2 ^ 63) (Z.min (2 ^ 63 - 1) (a - b)).

(** The instant of a reading as the store keeps it. *)
Definition instant (ns : Z) : goTime := millisTime (Some (ns / millisecond)).

(** newRelayClock's kill instant. *)
Definition killAt (start relayTimeout effectiveTimeoutSeconds : Z) : Z :=
  start + (if relayTimeout <=? 0 then wrap64 (effectiveTimeoutSeconds * second) else relayTimeout).
Definition ackBy (kill : Z) : Z := kill - relayReserve.
Definition waitLeft (kill now : Z) : Z := timeSub (ackBy kill) now.
Definition pollEnd (kill : Z) : Z := ackBy kill - relayDenyLead.
Definition settledAt (kill : Z) : Z := kill + relayReserve.

(** ** The poll *)

Definition GetPermissionRequest (id token : string) : Op PermissionRow :=
  r <- read (fun s => find (fun pr => where3 (ofToken id token pr)) (db_requests s));;
  match r with Some pr => ret (scanPermissionRow pr) | None => fail ENoRows end.

(** What one turn of the loop reads of the clock, the context and the random
    source; [pt_jitter] is below the configured jitter. *)
Record PollTurn := mkPollTurn {
  pt_cancelled : bool;
  pt_now : Z;
  pt_jitter : Z;
  pt_sleepNow : Z;
}.

Record PollResult := mkPollResult {
  pl_Decision : string;
  pl_Reason : string;
  pl_TimedOut : bool;
  pl_CreatedAt : goTime;
}.

Record RelayConfig := mkRelayConfig {
  rc_PollBaseMs : Z;
  rc_PollJitterMs : Z;
  rc_PermissionRequestCap : Z;
}.

(** How long a turn sleeps: after a read of an undecided row, and after a
    failed one. *)
Definition pollSleep (cfg : RelayConfig) (deadline : Z) (t : PollTurn) : Z :=
  let sleep := wrap64 (wrap64 (rc_PollBaseMs cfg * millisecond)
                       + (if 0 <? rc_PollJitterMs cfg then wrap64 (pt_jitter t * millisecond) else 0)) in
  let sleep := if sleep <? pollFloor then pollFloor else sleep in
  Z.min (timeSub deadline (pt_sleepNow t)) sleep.

(** The loop, turn [i] on; [None] is out of fuel. *)
Fixpoint Poll (fuel : nat) (turn : nat -> PollTurn) (deadline : Z) (id token : string)
    (i : nat) (readFails : Z) (createdAt : goTime) : Op (option PollResult) :=
  match fuel with
  | O => ret None
  | S fuel =>
      let t := turn i in
      if pt_cancelled t then ret (Some (mkPollResult "" "" false createdAt))
      else if negb (pt_now t <? deadline) then ret (Some (mkPollResult "" "" true createdAt))
      else
        catch (GetPermissionRequest id token) (fun r => match r with
          | Err ENoRows => ret (Some (mkPollResult "" "" false createdAt))
          | Err _ =>
              if pollMaxReadRetries <? readFails + 1 then ret (Some (mkPollResult "" "" false createdAt))
              else Poll fuel turn deadline id token (S i) (readFails + 1) createdAt
          | Ok row =>
              if negb (bool_decide (pw_Decision row = ""))
              then ret (Some (mkPollResult (pw_Decision row) (pw_DecisionReason row) false (pw_CreatedAt row)))
              else Poll fuel turn deadline id token (S i) 0 (pw_CreatedAt row)
          end)
  end.

(** ** The hook *)

(** parentIsStarter: [pid] is the parent now, [start] what StartTime answers
    for the captured pid, known and alive. *)
Definition parentIsStarter (parent : parentIdentity) (pid : Z) (start : option string) : bool :=
  if (pa_pid parent <=? 0) || bool_decide (pa_start parent = "") then false
  else if negb (pid =? pa_pid parent) then false
  else bool_decide (start = Some (pa_start parent)).

Definition errParentChanged : error := ECheck "errParentChanged".
Definition parentCheck (parent : parentIdentity) (now : Z * option string) : option error :=
  if parentIsStarter parent (fst now) (snd now) then None else Some errParentChanged.

(** What the relay hook reads outside the store. A write's readings are the
    clock before its wait, the clock it stores, and the parent under the
    write lock. *)
Record WriteReadings := mkReadings { wr_waitNow : Z; wr_at : Z; wr_parent : Z * option string }.

Record RelayEnv := mkRelayEnv {
  re_token : option string;                (* mintRequestToken *)
  re_kill : Z;
  re_turn : nat -> PollTurn;
  re_self : ProcessIdentity;
  re_ack : WriteReadings;
  re_deny : WriteReadings;
  re_ackAfterDeny : WriteReadings;
}.

Record relayInput := mkRelayInput {
  ri_instanceID : string;
  ri_gate : HookGate;
  ri_parent : parentIdentity;
  ri_agentID : string;
  ri_transcriptPath : string;
  ri_transcriptPresent : bool;
  ri_raw : rawPayload;
}.

(** What a relayed hook leaves: its standard output, and the trail fields
    request_token and upsert_outcome. *)
Record RelayOutput := mkRelayOutput {
  ro_stdout : option Envelope;
  ro_token : option string;
  ro_outcome : option UpsertOutcome;
}.

Section Relay.
Context (settleMs : Z) (rawText : json -> string) (env : HookEnv) (cfg : RelayConfig) (re : RelayEnv).

Definition denyEnvelope : Envelope := EncodeDecision EventNamePermissionRequest "deny" "".

(** deliver *)
Definition deliver (id token : string) (parent : parentIdentity) (now : WriteReadings) : Op (option Envelope) :=
  if waitLeft (re_kill re) (wr_waitNow now) <=? 0 then ret None
  else
    catch (AckRelayDecision id token (instant (wr_at now)) (parentCheck parent (wr_parent now)))
      (fun r => match r with
       | Err _ => ret None
       | Ok (decision, reason, acked) =>
           if negb acked then ret None
           else
             emit (EvResumeObserved id token decision);;;
             ret (Some (EncodeDecision EventNamePermissionRequest decision reason))
       end).

(** timeoutDeny *)
Definition timeoutDeny (id token : string) (parent : parentIdentity) : Op (option Envelope) :=
  if waitLeft (re_kill re) (wr_waitNow (re_deny re)) <=? 0 then ret None
  else
    catch (DenyRelayTimeout id token (instant (wr_at (re_deny re))) (parentCheck parent (wr_parent (re_deny re))))
      (fun r => match r with
       | Err _ => ret None
       | Ok false => deliver id token parent (re_ackAfterDeny re)
       | Ok true =>
           emit (EvResumeObserved id token "timeout");;;
           ret (Some denyEnvelope)
       end).

(** The request runRelay records. *)
Definition relayRequest (token : string) (inp : relayInput) : RelayRequest :=
  let pp := decodePermission rawText (ri_raw inp) in
  mkRelayRequest token (pp_ToolName pp)
    (if bool_decide (pp_ToolInput pp = "") then "null" else pp_ToolInput pp)
    (pp_ToolUseID pp) (ri_agentID inp) (Some (bool_decide (ri_agentID inp = "")))
    (re_self re) (instant (settledAt (re_kill re)))
    (ri_transcriptPath inp) (ri_transcriptPresent inp).

(** What follows the poll. *)
Definition afterPoll (id token : string) (parent : parentIdentity) (res : PollResult) : Op (option Envelope) :=
  if negb (bool_decide (pl_Decision res = "")) then deliver id token parent (re_ack re)
  else if pl_TimedOut res then timeoutDeny id token parent
  else ret None.

Definition onIgnored (inp : relayInput) (event sessionID reason : string) : Op unit :=
  emitIgnored env (mkIgnored (ri_instanceID inp) event sessionID (ri_parent inp) reason false).

(** runRelay; [None] is out of fuel. *)
Definition runRelay (fuel : nat) (inp : relayInput) (event sessionID : string) : Op (option RelayOutput) :=
  let id := ri_instanceID inp in
  match re_token re with
  | None => ret (Some (mkRelayOutput (Some denyEnvelope) None None))
  | Some token =>
      let cap := if rc_PermissionRequestCap cfg <? 0 then 1000 else rc_PermissionRequestCap cfg in
      catch (InsertRelayRequest settleMs id (ri_gate inp) (relayRequest token inp) cap)
        (fun r => match r with
         | Err _ => ret (Some (mkRelayOutput (Some denyEnvelope) (Some token) (Some UpsertError)))
         | Ok (outcome, applied) =>
             if negb (ha_Applied applied) then
               (if negb (bool_decide (ha_Reason applied = "")) then onIgnored inp event sessionID (ha_Reason applied)
                else ret tt);;;
               ret (Some (mkRelayOutput None (Some token) (Some outcome)))
             else
               emit (EvRelayAttempt id token);;;
               polled <- Poll fuel (re_turn re) (pollEnd (re_kill re)) id token 0 0 None;;
               match polled with
               | None => ret None
               | Some res =>
                   out <- afterPoll id token (ri_parent inp) res;;
                   ret (Some (mkRelayOutput out (Some token) (Some outcome)))
               end
         end)
  end.
End Relay.
