(* ===== verification/ClassifyProps.v ===== *)
(** * Properties of the classification

    The shape every classified hook has, which the handler and the store
    rely on, and the session id a transcript path names. *)

From S2P Require Import Prelude Sql Rows Requests Settle Family Gate HookWrites Payload Classify.

(** The states a hook may move a row to. *)
Definition hookStates : list string := [StateWaiting; StateWorking; StateAskUser; StateCheckPermission; StateEnded].

Record classified (r : ClassifyResult) : Prop := {
  cl_agent : c_Agent r ∈ [AgentClaude; AgentCodex; AgentCursor];
  cl_state : (c_SoftRefresh r = false /\ c_NewState r ∈ hookStates) \/ (c_SoftRefresh r = true /\ c_NewState r = "");
  cl_ended : c_NewState r = StateEnded -> c_EventName r = "SessionEnd" /\ c_Agent r <> AgentCodex;
  cl_ask : c_NewState r = StateAskUser -> c_Agent r = AgentClaude /\ c_ToolName r = ToolAskUserQuestion;
  cl_report : c_EndReport r = true ->
    c_Agent r = AgentCodex /\ c_EventName r = "SessionEnd" /\ c_AgentID r = "" /\ c_SoftRefresh r = true;
  cl_waiting : c_WaitingIfWorking r = true ->
    c_Agent r = AgentClaude /\ c_EventName r = "Notification" /\ c_AgentID r = "" /\ c_SoftRefresh r = true;
  cl_unknown : c_UnknownEvent r = true -> c_SoftRefresh r = true;
  cl_thread : c_MainThread r = true -> c_Agent r = AgentCodex /\ c_AgentID r = "" /\ c_SessionID r <> "";
  cl_turn : c_TurnID r <> "" -> c_MainThread r = true /\ len (c_TurnID r) <= MaxCodexTurnBytes;
  cl_heals : c_HealsTranscript r = true -> c_Agent r = AgentCodex /\ c_AgentID r = "";
  cl_capture : c_SubagentCapture r = true <-> c_Agent r = AgentClaude;
  cl_foreign : c_Agent r = AgentCursor -> c_AgentID r <> "" -> c_SessionID r = "" /\ c_TranscriptPath r = "";
}.

(** One row of a table at a time. *)
Ltac by_rows :=
  repeat match goal with
  | |- context [if bool_decide ?P then _ else _] => destruct (bool_decide_reflect P)
  | |- context [if ?b then _ else _] => destruct b eqn:?
  end.

Ltac row_facts :=
  unfold toUnknown, toSoft, toState; split; rsimp; simpl; try done; try (by intros [=]);
  try (by apply (bool_decide_eq_true_1 _)); try (by intros H; bsimp; split_and!).

Lemma claude_classified p : classified (classifyClaude p).
Proof. unfold classifyClaude. cbv zeta. cbn [c_EventName]. by_rows; row_facts. Qed.
Lemma cursor_classified p : classified (classifyCursor p).
Proof.
  unfold classifyCursor. cbv zeta. cbn [c_EventName]. by_rows; row_facts;
    match goal with H : _ || _ = false |- _ => apply orb_false_iff in H as [H _] end;
    intros _ Hne; by bsimp.
Qed.

Lemma codex_classified p : classified (classifyCodex p).
Proof.
  unfold classifyCodex. cbv zeta. cbn [c_EventName]. by_rows; row_facts;
    match goal with H : _ && (_ <=? _) = true |- _ =>
      apply andb_true_iff in H as [Hthread Hle]; intros _; split; [exact Hthread|]; by apply Z.leb_le
    end.
Qed.

(** C36: Every classified hook has the shape the handler relies on, whatever
    the agent and the payload: it either moves the row to one of the five
    states hooks write or only refreshes it; only a SessionEnd ends a row and
    never a Codex one; only Claude's AskUserQuestion asks the user; an end
    report is a main Codex SessionEnd, an idle prompt a main Claude
    Notification, and both only refresh; a turn id is short and comes from a
    main Codex thread; a Cursor hook from a child carries no session and no
    transcript. *)
Theorem classification_well_formed (agent : string) (raw : rawPayload) (r : ClassifyResult) :
  ClassifyEvent agent raw = Some r -> classified r.
Proof.
  unfold ClassifyEvent. destruct (ResolveAgent agent) as [a|] eqn:Ea; [|done].
  assert (a ∈ [AgentClaude; AgentCodex; AgentCursor]) as Hin.
  { revert Ea. unfold ResolveAgent. by_rows; intros [= <-]; by apply (bool_decide_eq_true_1 _). }
  destruct raw as [| |v].
  - intros [= <-]. split; simpl; try done; try (by intros [=]); [by right|]. by rewrite bool_decide_eq_true.
  - done.
  - destruct (unmarshalPayload _) as [p|]; [|done]. by_rows; intros [= <-];
      auto using cursor_classified, codex_classified, claude_classified.
Qed.

(** ** The session id in a transcript path *)

Fixpoint noByte (c : Ascii.ascii) (s : string) : bool :=
  match s with EmptyString => true | String a t => negb (Ascii.eqb a c) && noByte c t end.

Lemma lastIndex_none c s : noByte c s = true -> lastIndexByte c s = None.
Proof.
  induction s as [|a t IH]; [done|]. simpl. intros [Ha Ht]%andb_true_iff. rewrite IH by done.
  by destruct (Ascii.eqb a c).
Qed.

Lemma lastIndex_app c s t : noByte c t = true ->
  lastIndexByte c (s ++ String c t)%string = Some (String.length s).
Proof.
  intros Ht. induction s as [|a s IH]; simpl.
  - rewrite lastIndex_none by done. by rewrite Ascii.eqb_refl.
  - by rewrite IH.
Qed.

Lemma length_append s t : String.length (s ++ t)%string = (String.length s + String.length t)%nat.
Proof. induction s as [|a s IH]; simpl; [done|]. by rewrite IH. Qed.

Lemma substring_whole s : String.substring 0 (String.length s) s = s.
Proof. induction s as [|a s IH]; simpl; [done|]. by rewrite IH. Qed.
Lemma substring_prefix s t : String.substring 0 (String.length s) (s ++ t)%string = s.
Proof. induction s as [|a s IH]; simpl; [by destruct t|]. by rewrite IH. Qed.
Lemma substring_suffix s a t :
  String.substring (S (String.length s)) (String.length (s ++ String a t) - S (String.length s)) (s ++ String a t)%string = t.
Proof.
  rewrite length_append. replace (_ - _)%nat with (String.length t) by (simpl; lia).
  induction s as [|b s IH]; simpl; [apply substring_whole|exact IH].
Qed.

Lemma stripSlashes_last s a : a <> slash -> stripSlashes (s ++ String a "")%string = (s ++ String a "")%string.
Proof.
  intros Ha. induction s as [|b s IH]; simpl.
  - by destruct (Ascii.eqb_spec a slash).
  - rewrite IH. by destruct s.
Qed.

Lemma noByte_app c s t : noByte c (s ++ t)%string = noByte c s && noByte c t.
Proof. induction s as [|a s IH]; simpl; [done|]. by rewrite IH, andb_assoc. Qed.

(** The last element of a path whose last byte is no slash. *)
Lemma Base_of dir base a : noByte slash (base ++ String a "")%string = true ->
  Base (dir ++ String slash (base ++ String a ""))%string = (base ++ String a "")%string.
Proof.
  intros Hb. assert (a <> slash) as Ha.
  { intros ->. rewrite noByte_app in Hb. apply andb_true_iff in Hb as [_ Hb]. done. }
  unfold Base. rewrite bool_decide_false by (by destruct dir).
  assert (stripSlashes (dir ++ String slash (base ++ String a "")) = (dir ++ String slash (base ++ String a "")))%string as ->.
  { replace (dir ++ String slash (base ++ String a ""))%string with ((dir ++ String slash base) ++ String a "")%string
      by (by rewrite append_assoc). by apply stripSlashes_last. }
  rewrite lastIndex_app by done. cbv zeta iota. rewrite substring_suffix.
  rewrite bool_decide_false; [done|]. by destruct base.
Qed.

(** The session id Claude's hooks record is the transcript's file name
    without its .jsonl extension, in whatever directory the file is; only the
    last extension is cut, so dots inside the name stay. *)
Theorem transcript_names_its_session (dir name : string) :
  name <> "" -> noByte slash name = true -> name ∉ ["."; ".."] ->
  extractSessionID (dir ++ "/" ++ name ++ ".jsonl") = name.
Proof.
  intros Hne Hs Hd. unfold extractSessionID. rewrite bool_decide_false by (by destruct dir).
  change ("/" ++ name ++ ".jsonl")%string with (String slash (name ++ ".jsonl")).
  assert ((name ++ ".jsonl") = ((name ++ ".json") ++ "l"))%string as -> by (by rewrite append_assoc).
  rewrite Base_of; [|by rewrite !noByte_app, Hs]. rewrite append_assoc.
  change (".json" ++ "l")%string with (String dot "jsonl"). cbv zeta. rewrite bool_decide_false.
  - rewrite lastIndex_app by done.
    destruct name as [|a n]; [done|]. cbn [String.length]. change (S (String.length n)) with (String.length (String a n)).
    rewrite substring_prefix. by rewrite bool_decide_false.
  - intros Hin. destruct name as [|a [|b n]]; [done| |]; rewrite !elem_of_cons in Hin;
      destruct Hin as [E|[E|[E|E]]]; try done; by apply elem_of_nil in E.
Qed.

Lemma transcript_names_its_session_witness :
  extractSessionID "/home/u/.claude/projects/p/0a1b.c2.jsonl" = "0a1b.c2" /\
  extractSessionID "/home/u/.jsonl" = ".jsonl".
Proof.
  split; [|vm_compute; reflexivity].
  apply (transcript_names_its_session "/home/u/.claude/projects/p" "0a1b.c2"); [done|reflexivity|].
  by apply (bool_decide_eq_true_1 _).
Defined.

Definition stopPayload : rawPayload := RawJson (JObject [("hook_event_name", JString "Stop"); ("Agent_ID", JString "a1")]).

Lemma classification_well_formed_witness :
  exists r, ClassifyEvent "" stopPayload = Some r /\ c_NewState r = StateWaiting /\ c_AgentID r = "a1" /\ classified r.
Proof.
  destruct (ClassifyEvent "" stopPayload) as [r|] eqn:E; [|by vm_compute in E]. exists r. split; [done|].
  pose proof (classification_well_formed "" stopPayload r E) as H. vm_compute in E. injection E as <-. done.
Defined.
