(* ===== verification/RequestInv.v ===== *)
(** * How a permission request may evolve

    The invariant of every stored request ([req_good]), the changes any write
    may make to it ([req_evolves]), and the proof that every SET and every
    primitive change of the requests makes only those. A request that
    stopped awaiting an answer never awaits one again; an acked verdict, a
    completed pane answer and a proof are final, except that the tool that ran
    may name an answer nobody named; the relay's ack and a pane
    answer exclude each other. *)

From S2P Require Import Prelude Sql Rows Display Settle Family Requests History Steps Gate HookWrites HookProps RelayWrites Protocol.

Record req_good (r : PermReq) : Prop := {
  good_wf : pr_wf r;
  good_exclusive : pr_delivered_at r = None \/ pr_pane_answer r = PaneAnswerNone;
  good_acked : is_Some (pr_delivered_at r) -> is_Some (pr_decision r);
  good_closed : is_Some (pr_closed_at r) -> is_Some (pr_decision r) /\ ~ completedPane r;
  good_intent : pr_pane_answer r = PaneAnswerIntent -> exists v, pr_pane_as r = Some v /\ v <> "";
  good_sent : pr_pane_answer r = PaneAnswerSent ->
    is_Some (pr_pane_as r) /\ pr_decision r = pr_pane_as r /\ pr_decision_reason r = Some DecisionReasonPane;
  good_dated : is_Some (pr_decision r) -> is_Some (pr_decided_at r);
  good_proof : is_Some (pr_proven_gone_at r) -> is_Some (pr_proven_gone_how r);
}.

(** The columns no write changes after the insert. *)
Definition reqIdentity (r : PermReq) :=
  (pr_request_id r, pr_instance_id r, pr_request_token r, pr_tool_name r, pr_tool_input r, pr_created_at r,
   pr_tool_use_id r, pr_agent_id r, pr_settled_at r, pr_main_turn_end_eligible r, pr_owner_launch_token r,
   pr_owner_permission_epoch r, pr_admitted_at r).

Definition verdict (r : PermReq) := (pr_decision r, pr_decision_reason r, pr_decided_at r).

(** A text no writer gave may still be filled in. *)
Definition fills {A} (v : A) (x y : option A) : Prop := y = x \/ x = None /\ y = Some v.

Lemma fills_refl {A} (v : A) x : fills v x x.
Proof. by left. Qed.
Lemma fills_trans {A} (v : A) x y z : fills v x y -> fills v y z -> fills v x z.
Proof. unfold fills. naive_solver. Qed.
#[export] Hint Resolve fills_refl : core.

Record req_evolves (r r' : PermReq) : Prop := {
  ev_good : req_good r';
  ev_identity : reqIdentity r' = reqIdentity r;
  ev_acked : is_Some (pr_delivered_at r) -> pr_delivered_at r' = pr_delivered_at r /\
    pr_decision r' = pr_decision r /\ pr_decided_at r' = pr_decided_at r /\
    fills DecisionReasonToolRan (pr_decision_reason r) (pr_decision_reason r');
  ev_pane : completedPane r -> pr_pane_answer r' = pr_pane_answer r /\
    fills "allow" (pr_decision r) (pr_decision r') /\
    fills DecisionReasonToolRan (pr_decision_reason r) (pr_decision_reason r');
  ev_proven : is_Some (pr_proven_gone_at r) ->
    pr_proven_gone_at r' = pr_proven_gone_at r /\ pr_proven_gone_how r' = pr_proven_gone_how r;
  ev_closed : is_Some (pr_closed_at r) -> pr_closed_at r' = pr_closed_at r;
  ev_gone : is_Some (pr_hook_gone_at r) -> pr_hook_gone_at r' = pr_hook_gone_at r;
  ev_awaiting : where3 (awaitingAnswerSQL r') = true -> where3 (awaitingAnswerSQL r) = true;
  ev_phase : rtc proto_step (phase_of r) (phase_of r');
}.

(** awaitingAnswerSQL as a proposition. *)
Lemma awaiting_iff r : where3 (awaitingAnswerSQL r) = true <->
  pr_closed_at r = None /\ pr_pane_answer r ∈ [PaneAnswerNone; PaneAnswerIntent] /\
  (pr_settled_at r = None -> pr_decision r = None) /\
  (is_Some (pr_settled_at r) -> pr_delivered_at r = None).
Proof.
  unfold awaitingAnswerSQL. rewrite !where3_and, where3_is_null, where3_Some, !andb_true_iff, !bool_decide_eq_true.
  unfold case3. rewrite where3_is_null. destruct (pr_settled_at r) as [t|].
  - rewrite bool_decide_false by done. rewrite where3_is_null, bool_decide_eq_true.
    split; [intros (?&?&?); split_and!; done|]. intros (?&?&_&H). split_and!; [done..|]. apply H. by eexists.
  - rewrite bool_decide_true by done. rewrite where3_is_null, bool_decide_eq_true.
    split; [intros (?&?&?); split_and!; try done; by intros []|]. intros (?&?&H&_). auto.
Qed.

Lemma open_not_completed r : pr_pane_answer r ∈ [PaneAnswerNone; PaneAnswerIntent] -> ~ completedPane r.
Proof.
  unfold completedPane. intros Hp. assert (pr_pane_answer r = PaneAnswerNone \/ pr_pane_answer r = PaneAnswerIntent) as H
    by set_solver. intros Hq. by destruct H as [E|E]; rewrite E in Hq; apply (bool_decide_eq_true_2 _) in Hq.
Qed.

Lemma undecided_undelivered r : req_good r -> pr_decision r = None -> pr_delivered_at r = None.
Proof.
  intros Hg Hd. destruct (pr_delivered_at r) as [t|] eqn:E; [|done].
  destruct (good_acked r Hg) as [d Hx]; [by rewrite E; eexists|congruence].
Qed.

Lemma awaiting_undelivered r : req_good r -> where3 (awaitingAnswerSQL r) = true ->
  pr_delivered_at r = None /\ pr_closed_at r = None /\ ~ completedPane r.
Proof.
  intros Hg (Hc & Hp & H1 & H2)%awaiting_iff. split_and!; [|done|by apply open_not_completed].
  destruct (pr_settled_at r); [apply H2; by eexists|]. by apply undecided_undelivered; auto.
Qed.

(** What awaits an answer is what the protocol can still answer. *)
Lemma awaiting_answerable r : req_good r ->
  where3 (awaitingAnswerSQL r) = true <-> answerable (phase_of r) = true.
Proof.
  intros Hg. split.
  - intros Ha. destruct (awaiting_undelivered r Hg Ha) as (Hd & Hc & Hp). rewrite phase_waiting by done.
    apply awaiting_iff in Ha as (_ & _ & H1 & _). simpl. apply orb_true_iff. rewrite !bool_decide_eq_true.
    destruct (pr_settled_at r); [left; by eexists|right; auto].
  - destruct (pr_delivered_at r) as [t|] eqn:Hd; [by rewrite phase_relayed by (rewrite Hd; by eexists)|].
    destruct (decide (completedPane r)) as [Hp|Hp]; [by rewrite phase_at_pane|].
    destruct (pr_closed_at r) as [t|] eqn:Hc; [by rewrite phase_shut by (done || rewrite Hc; by eexists)|].
    rewrite phase_waiting by done. simpl. rewrite orb_true_iff, !bool_decide_eq_true. intros Ha.
    apply awaiting_iff. split_and!; [done| | |done].
    + pose proof (wf_pane r (good_wf r Hg)) as Hw. unfold paneAnswers, completedPane in *. set_solver.
    + intros Hs. destruct Ha as [[? Ha]|]; [congruence|done].
Qed.

Lemma evolves_refl r : req_good r -> req_evolves r r.
Proof. split; auto. by apply rtc_refl. Qed.

Lemma evolves_trans r r1 r2 : req_evolves r r1 -> req_evolves r1 r2 -> req_evolves r r2.
Proof.
  intros [g1 i1 a1 p1 v1 c1 h1 w1 s1] [g2 i2 a2 p2 v2 c2 h2 w2 s2]. split; [done|congruence|..].
  - intros H. destruct (a1 H) as (E1 & E2 & E3 & E4). destruct a2 as (F1 & F2 & F3 & F4); [by rewrite E1|].
    split_and!; [congruence..|by eapply fills_trans].
  - intros H. destruct (p1 H) as (E1 & E2 & E3). destruct p2 as (F1 & F2 & F3); [unfold completedPane in *; by rewrite E1|].
    split_and!; [congruence|by eapply fills_trans..].
  - intros H. destruct (v1 H) as [E1 E2]. destruct v2 as [F1 F2]; [by rewrite E1|]. split; congruence.
  - intros H. pose proof (c1 H) as E1. rewrite c2; [done|by rewrite E1].
  - intros H. pose proof (h1 H) as E1. rewrite h2; [done|by rewrite E1].
  - auto.
  - by etrans.
Qed.

(** ** The store's requests *)

Definition reqs_good (s : Store) : Prop :=
  0 < db_now s /\
  Forall req_good (db_requests s) /\
  Forall (fun r => pr_request_id r < db_next_request s) (db_requests s) /\
  NoDup (pr_request_id <$> db_requests s).

(** One write: every request after it evolved from one before it, or is new;
    every request before it is still there, evolved, or was deleted when it
    no longer awaited an answer. *)
Record reqs_step (s s' : Store) : Prop := {
  rs_good : reqs_good s';
  rs_next : db_next_request s <= db_next_request s';
  rs_from : forall r', r' ∈ db_requests s' ->
    (exists r, r ∈ db_requests s /\ req_evolves r r') \/ db_next_request s <= pr_request_id r';
  rs_kept : forall r, r ∈ db_requests s ->
    exists r', req_evolves r r' /\ (r' ∈ db_requests s' \/ where3 (awaitingAnswerSQL r') = false);
}.

Definition reqs_ok (s s' : Store) : Prop := reqs_good s -> reqs_step s s'.

Lemma reqs_ok_same s s' :
  db_requests s' = db_requests s -> db_next_request s' = db_next_request s -> db_now s' = db_now s -> reqs_ok s s'.
Proof.
  intros E1 E2 E3 (H0 & H1 & H2 & H3). split; [unfold reqs_good; by rewrite E1, E2, E3|lia| |]; rewrite ?E1.
  - intros r' Hr. left. exists r'. split; [done|]. apply evolves_refl. by eapply Forall_forall in H1.
  - intros r Hr. exists r. split; [|by left]. apply evolves_refl. by eapply Forall_forall in H1.
Qed.

Lemma reqs_ok_tables s s' : tables_eq s s' -> reqs_ok s s'.
Proof. intros (E1 & E2 & _ & _ & _ & _ & E3 & _). by apply reqs_ok_same. Qed.

Lemma reqs_ok_refl s : reqs_ok s s.
Proof. by apply reqs_ok_same. Qed.

Lemma reqs_ok_trans s s1 s2 : reqs_ok s s1 -> reqs_ok s1 s2 -> reqs_ok s s2.
Proof.
  intros H1 H2 Hg. specialize (H1 Hg). specialize (H2 (rs_good _ _ H1)).
  destruct H1 as [g1 n1 f1 k1], H2 as [g2 n2 f2 k2]. split; [done|lia| |].
  - intros r2 Hr2. destruct (f2 r2 Hr2) as [(r1 & Hr1 & He)|Hn]; [|right; lia].
    destruct (f1 r1 Hr1) as [(r & Hr & He1)|Hn].
    + left. exists r. split; [done|]. by eapply evolves_trans.
    + right. pose proof (ev_identity _ _ He) as E. unfold reqIdentity in E.
      injection E as E _ _ _ _ _ _ _ _ _ _ _ _. lia.
  - intros r Hr. destruct (k1 r Hr) as (r1 & He1 & [Hin|Hna]); [|by eauto].
    destruct (k2 r1 Hin) as (r2 & He2 & Hx). exists r2. split; [|done]. by eapply evolves_trans.
Qed.

(** An UPDATE of requests that evolves each row it selects. *)
Lemma reqs_ok_update c f s :
  (0 < db_now s -> forall r, req_good r -> c r = true -> req_evolves r (f r)) -> reqs_ok s (updateReqs c f s).
Proof.
  intros Hf (H0 & H1 & H2 & H3). unfold updateReqs. rewrite Forall_forall in H1.
  set (h := fun r => if c r then f r else r).
  assert (forall r, r ∈ db_requests s -> req_evolves r (h r)) as He.
  { intros r Hr. unfold h. destruct (c r) eqn:E; [by auto|by apply evolves_refl; auto]. }
  assert (forall r, r ∈ db_requests s -> pr_request_id (h r) = pr_request_id r) as Hid.
  { intros r Hr. pose proof (ev_identity _ _ (He r Hr)) as E. unfold reqIdentity in E. congruence. }
  assert (pr_request_id <$> (h <$> db_requests s) = pr_request_id <$> db_requests s) as Eids.
  { rewrite <- list_fmap_compose. apply list_fmap_ext. intros i r Hr. apply Hid. by eapply list_elem_of_lookup_2. }
  split; rsimp; [unfold reqs_good; rsimp; split_and!| | |].
  - done.
  - apply Forall_fmap, Forall_forall. intros r Hr. by apply (ev_good r), He.
  - rewrite Forall_forall in H2. apply Forall_fmap, Forall_forall. intros r Hr. simpl. rewrite Hid by done. auto.
  - by rewrite Eids.
  - done.
  - intros r' (r & -> & Hr)%list_elem_of_fmap. left. eauto.
  - intros r Hr. exists (h r). split; [auto|]. left. by apply list_elem_of_fmap_2.
Qed.

(** ** Which SET fragments evolve a request *)

Definition awaitColumns (r : PermReq) :=
  (pr_closed_at r, pr_pane_answer r, pr_delivered_at r, pr_settled_at r).

(** A write that leaves the answer alone: notes of a gone hook, of a refused
    decision, of a fallback, of a pane sender, and the proofs. *)
Lemma evolves_notes r r' :
  req_good r ->
  reqIdentity r' = reqIdentity r -> verdict r' = verdict r -> awaitColumns r' = awaitColumns r ->
  pr_pane_as r' = pr_pane_as r ->
  realInstant (pr_proven_gone_at r') ->
  (is_Some (pr_proven_gone_at r') -> is_Some (pr_proven_gone_how r')) ->
  (is_Some (pr_proven_gone_at r) ->
    pr_proven_gone_at r' = pr_proven_gone_at r /\ pr_proven_gone_how r' = pr_proven_gone_how r) ->
  (is_Some (pr_hook_gone_at r) -> pr_hook_gone_at r' = pr_hook_gone_at r) ->
  req_evolves r r'.
Proof.
  intros [[W1 W2 W3 W4 W5 W6] Gx Ga Gc Gi Gs Gd Gp] Ei Ev Ea Ep Hr Hw Hp Hg. pose proof Ev as Ev'. unfold awaitColumns, verdict in Ea, Ev'.
  injection Ea as E1 E2 E3 E4. injection Ev' as E5 E6 E7.
  split; rewrite ?E5, ?E6, ?E7; try done.
  - split; [split|..]; unfold completedPane in *; rewrite ?E1, ?E2, ?E3, ?E4, ?E5, ?E6, ?E7, ?Ep; done.
  - unfold awaitingAnswerSQL. by rewrite E1, E2, E3, E4, E5.
  - apply phase_same. congruence.
Qed.

(** A write that answers or closes a request nothing has answered. *)
Lemma evolves_open r r' :
  req_good r -> pr_delivered_at r = None -> ~ completedPane r ->
  req_good r' -> reqIdentity r' = reqIdentity r ->
  (is_Some (pr_closed_at r) -> pr_closed_at r' = pr_closed_at r) ->
  (is_Some (pr_proven_gone_at r) ->
    pr_proven_gone_at r' = pr_proven_gone_at r /\ pr_proven_gone_how r' = pr_proven_gone_how r) ->
  (is_Some (pr_hook_gone_at r) -> pr_hook_gone_at r' = pr_hook_gone_at r) ->
  rtc proto_step (phase_of r) (phase_of r') ->
  req_evolves r r'.
Proof.
  intros Hg Hd Hp Hg' Hi Hc Hpr Hh Ha. split; try done.
  - rewrite Hd. by intros [? ?].
  - rewrite !awaiting_answerable by done. by apply proto_answerable.
Qed.

Lemma coalesce2_kept {A} (x y : option A) : is_Some x -> coalesce2 x y = x.
Proof. by intros [? ->]. Qed.

(** [conds H] reads a WHERE that selected the row. *)
Ltac conds H :=
  unfold ofToken in H;
  repeat first [ rewrite where3_and in H | rewrite where3_is_null in H | rewrite where3_not_null in H
               | rewrite where3_ofSpawn in H | rewrite where3_sql_eq in H | rewrite where3_Some in H ];
  bsimp.

(** The request good, one column at a time. *)
Lemma sent_completed r : pr_pane_answer r = PaneAnswerSent ->
  pr_pane_answer r ∈ [PaneAnswerSent; PaneAnswerOutside; PaneAnswerToolRan].
Proof. intros ->. by left. Qed.

Ltac good_fields Hg :=
  let W := fresh "W" in
  pose proof Hg as [W ? ? ? ? ? ? ?]; destruct W as [? ? ? ? ? ?];
  split; [split|..]; unfold completedPane in *; rsimp;
  try done; try (intros ?%sent_completed; done); try (intros _; by eexists).

(** The conditions a phase's reading has, of the columns just set. *)
Ltac phase_side :=
  unfold completedPane in *; rsimp;
  first [ done | by eexists | congruence | by intros [? ?]; congruence
        | by apply (bool_decide_eq_true_1 _) | by intros ?%(bool_decide_eq_true_2 _) ].
Ltac phase_by L := rewrite L by phase_side; unfold claim_of; rsimp.

(** A claim read of a row with no pane answer. *)
Ltac no_claim := match goal with H : pr_pane_answer _ = PaneAnswerNone |- _ => rewrite H end; simpl.

Lemma not_completed r : pr_pane_answer r = PaneAnswerNone -> ~ completedPane r.
Proof. intros H. apply open_not_completed. rewrite H. by left. Qed.

Lemma waiting_undecided r : req_good r -> ~ completedPane r -> pr_decision r = None ->
  phase_of r = Waiting (bool_decide (is_Some (pr_settled_at r))) None (claim_of r) /\ pr_closed_at r = None.
Proof.
  intros Hg Hp Hd. destruct (pr_closed_at r) eqn:Hc.
  - destruct (good_closed r Hg) as [[? ?] _]; [rewrite Hc; by eexists|congruence].
  - split; [|done]. rewrite phase_waiting by (done || by apply undecided_undelivered). by rewrite Hd.
Qed.

Lemma claim_none r : pr_pane_answer r = PaneAnswerNone -> claim_of r = None.
Proof. intros H. unfold claim_of. by rewrite H. Qed.

Lemma denyOrphaned_evolves id reason at_ sec r : at_ <> zeroTimeMillis ->
  req_good r -> where3 (denyOrphanedCond id r) = true -> req_evolves r (denyOrphanedSet reason at_ sec r).
Proof.
  intros Hat Hg H. unfold denyOrphanedCond in H. conds H.
  destruct (awaiting_undelivered r) as (Hd & Hc & Hp); [done..|].
  apply evolves_open; unfold reqIdentity, denyOrphanedSet; rsimp; try done; [|by rewrite Hc; intros [? ?]|].
  - good_fields Hg; try done; try congruence.
  - destruct (waiting_undecided r) as [-> _]; [done..|]. phase_by phase_shut. apply rtc_once. constructor.
Qed.

Lemma closeDecided_evolves id at_ r : at_ <> zeroTimeMillis ->
  req_good r -> where3 (closeDecidedCond id r) = true -> req_evolves r (closeDecidedSet at_ r).
Proof.
  intros Hat Hg H. unfold closeDecidedCond in H. conds H.
  assert (~ completedPane r) as Hp by by apply open_not_completed.
  apply evolves_open; unfold reqIdentity, closeDecidedSet; rsimp; try done.
  - good_fields Hg; try done. unfold realInstant. congruence.
  - intros [? ?]. congruence.
  - phase_by phase_waiting. phase_by phase_shut. destruct (pr_decision r) as [v|]; [|done].
    apply rtc_once. constructor.
Qed.

Lemma proveAgentGone_evolves s id at_ r : at_ <> zeroTimeMillis ->
  req_good r -> where3 (proveAgentGoneCond s id r) = true -> req_evolves r (proveAgentGoneSet at_ r).
Proof.
  intros Hat Hg H. unfold proveAgentGoneCond in H. conds H.
  apply evolves_notes; unfold reqIdentity, verdict, awaitColumns, proveAgentGoneSet; rsimp; try done.
  - unfold realInstant. congruence.
  - intros [? ?]. congruence.
Qed.

Lemma ack_evolves id token at_ r : realInstant (millisArg at_) ->
  req_good r -> where3 (ackRelayDecisionCond id token r) = true ->
  req_evolves r (r <| pr_delivered_at := millisArg at_ |>).
Proof.
  intros Hat Hg H. unfold ackRelayDecisionCond in H. conds H. simplify_eq.
  assert (~ completedPane r) as Hp by by apply not_completed.
  apply evolves_open; unfold reqIdentity; rsimp; try done.
  - good_fields Hg; try done. auto.
  - destruct at_ as [t|]; [|apply phase_same; rsimp; by rewrite H1].
    destruct (pr_decision r) as [v|] eqn:Hv; [|done]. apply rtc_once. destruct (pr_closed_at r) eqn:Hc.
    + rewrite phase_shut, claim_none, Hv by phase_side. phase_by phase_relayed. rewrite Hv. constructor.
    + rewrite phase_waiting, claim_none, Hv by done. phase_by phase_relayed. rewrite Hv. constructor.
Qed.

Lemma denyTimeout_evolves id token at_ sec r : realInstant (millisArg at_) ->
  req_good r -> where3 (denyRelayTimeoutCond id token r) = true ->
  req_evolves r (denyRelayTimeoutSet at_ sec r).
Proof.
  intros Hat Hg H. unfold denyRelayTimeoutCond in H. conds H. simplify_eq.
  assert (~ completedPane r) as Hp by by apply not_completed.
  destruct (waiting_undecided r) as [Hw Hc]; [done..|]. pose proof (undecided_undelivered r Hg) as Hd.
  apply evolves_open; unfold reqIdentity, denyRelayTimeoutSet; rsimp; try by auto.
  - good_fields Hg; try done; try congruence; by auto.
  - rewrite Hw, claim_none by done. apply rtc_once. destruct at_ as [t|].
    + phase_by phase_relayed. constructor.
    + phase_by phase_waiting. no_claim. by constructor.
Qed.

Lemma decide_evolves decision reason sec r : decision <> "" ->
  req_good r -> pr_decision r = None -> pr_pane_answer r = PaneAnswerNone ->
  req_evolves r (decideSet decision reason sec r).
Proof.
  intros Hd Hg H1 H2. pose proof (undecided_undelivered r Hg H1) as Hdel.
  assert (~ completedPane r) as Hp by by apply not_completed.
  destruct (waiting_undecided r) as [Hw Hc]; [done..|].
  apply evolves_open; unfold reqIdentity, decideSet; rsimp; try by auto.
  - good_fields Hg; try done; try congruence.
  - rewrite Hw, claim_none by done. apply rtc_once. phase_by phase_waiting. no_claim. by constructor.
Qed.

Lemma refused_evolves decision at_ gone r : req_good r -> req_evolves r (refusedSet decision at_ gone r).
Proof.
  intros Hg. apply evolves_notes; unfold reqIdentity, verdict, awaitColumns, refusedSet; rsimp; try done; try apply Hg.
  apply coalesce2_kept.
Qed.

Lemma hookGone_evolves at_ r : req_good r ->
  req_evolves r (r <| pr_hook_gone_at := coalesce2 (pr_hook_gone_at r) (millisArg at_) |>).
Proof.
  intros Hg. apply evolves_notes; unfold reqIdentity, verdict, awaitColumns; rsimp; try done; try apply Hg.
  apply coalesce2_kept.
Qed.

Lemma fallback_evolves at_ start basis r : req_good r -> req_evolves r (fallbackSet at_ start basis r).
Proof.
  intros Hg. apply evolves_notes; unfold reqIdentity, verdict, awaitColumns, fallbackSet; rsimp; try done; try apply Hg.
  apply coalesce2_kept.
Qed.

Lemma paneIntent_evolves id token intent r : pn_As intent <> "" ->
  req_good r -> where3 (ofToken id token r AND awaitingAnswerSQL r) = true ->
  req_evolves r (paneIntentSet intent r).
Proof.
  intros Has Hg H. conds H. destruct (awaiting_undelivered r) as (Hd & Hc & Hp); [done..|].
  apply evolves_open; unfold reqIdentity, paneIntentSet; rsimp; try by auto.
  - good_fields Hg; try done.
    + apply (bool_decide_eq_true_1 _). reflexivity.
    + by left.
    + rewrite Hc. by intros [? ?].
  - apply coalesce2_kept.
  - assert (answerable (phase_of r) = true) as Ha by by apply awaiting_answerable.
    rewrite (phase_waiting r) in Ha |- * by done. apply rtc_once. phase_by phase_waiting. by constructor.
Qed.

Lemma intent_owner intent r : where3 (paneIntentOwnerSQL intent r) = true ->
  pr_pane_answer r = PaneAnswerIntent /\ pr_pane_intent_at r = millisArg (pn_At intent) /\ is_Some (pn_At intent).
Proof.
  unfold paneIntentOwnerSQL. rewrite !where3_and, where3_sql_eq.
  intros [H1 [H2 _]%andb_true_iff]%andb_true_iff. bsimp. unfold millisArg in *.
  destruct (pn_At intent) as [t|]; [|by destruct (pr_pane_intent_at r)]. rewrite where3_sql_eq in H2. bsimp.
  split_and!; [congruence|done|by eexists].
Qed.

Lemma intent_undelivered r : req_good r -> pr_pane_answer r = PaneAnswerIntent -> pr_delivered_at r = None.
Proof. intros [_ [H|H] _ _] E; [done|]. by rewrite E in H. Qed.

Lemma paneSent_evolves id token intent sec r :
  req_good r -> where3 (paneSentCond id token intent r) = true -> req_evolves r (paneSentSet sec r).
Proof.
  intros Hg H. unfold paneSentCond in H. conds H.
  destruct (intent_owner intent r) as (Hi & _); [done|].
  pose proof (intent_undelivered r Hg Hi) as Hd. destruct (good_intent r Hg Hi) as (v & Hv & Hne).
  assert (~ completedPane r) as Hp by (apply open_not_completed; rewrite Hi; right; by left).
  apply evolves_open; unfold reqIdentity, paneSentSet; rsimp; try by auto.
  - good_fields Hg; try done.
    + congruence.
    + apply (bool_decide_eq_true_1 _). reflexivity.
    + by left.
    + rewrite H0. by intros [? ?].
  - phase_by phase_waiting. phase_by phase_at_pane. rewrite Hi, Hv. apply rtc_once. constructor.
Qed.

Lemma paneRelease_evolves r : req_good r -> req_evolves r (paneReleaseSet r).
Proof.
  intros Hg. apply evolves_notes; unfold reqIdentity, verdict, awaitColumns, paneReleaseSet; rsimp; try done; try apply Hg.
Qed.

Lemma paneOutside_evolves id token claim sec r :
  req_good r -> where3 (ofToken id token r AND awaitingAnswerSQL r) = true ->
  req_evolves r (paneOutsideSet claim sec r).
Proof.
  intros Hg H. conds H. destruct (awaiting_undelivered r) as (Hd & Hc & Hp); [done..|].
  assert (answerable (phase_of r) = true) as Ha by by apply awaiting_answerable.
  apply evolves_open; unfold reqIdentity, paneOutsideSet; rsimp; try by auto.
  - good_fields Hg; try done.
    + unfold claimedDecision. repeat case_bool_decide; naive_solver.
    + apply (bool_decide_eq_true_1 _). reflexivity.
    + by left.
    + rewrite Hd. by intros [? ?].
    + rewrite Hc. by intros [? ?].
  - rewrite (phase_waiting r) in Ha |- * by done. apply rtc_once. phase_by phase_at_pane. by constructor.
Qed.

Lemma toolRan_evolves at_ sec r : realInstant (millisArg at_) ->
  req_good r -> where3 (awaitingAnswerSQL r) = true -> req_evolves r (toolRanSet at_ sec r).
Proof.
  intros Hat Hg H. destruct (awaiting_undelivered r) as (Hd & Hc & Hp); [done..|].
  assert (answerable (phase_of r) = true) as Ha by by apply awaiting_answerable.
  apply evolves_open; unfold reqIdentity, toolRanSet; rsimp; try by auto.
  - good_fields Hg; try done.
    + apply (bool_decide_eq_true_1 _). reflexivity.
    + by destruct (pr_proven_gone_at r).
    + by left.
    + rewrite Hc. by intros [? ?].
    + intros _. destruct (pr_proven_gone_at r); simpl; [by auto|by eexists].
  - intros Hs. rewrite coalesce2_kept by done. split; [done|]. by destruct Hs as [? ->].
  - apply coalesce2_kept.
  - rewrite (phase_waiting r) in Ha |- * by done. apply rtc_once. phase_by phase_at_pane. by constructor.
Qed.

Lemma prove_evolves id frag how at_ r : realInstant (millisArg at_) ->
  req_good r -> where3 (provable id frag r) = true -> req_evolves r (proveSet how at_ r).
Proof.
  intros Hat Hg H. unfold provable in H. conds H.
  apply evolves_notes; unfold reqIdentity, verdict, awaitColumns, proveSet; rsimp; try done; try by eexists.
  intros [? ?]. congruence.
Qed.

(** ** Inserts and the eviction *)

Lemma newRequest_good rid id token tool input sec hook use agent settled eligible owner epoch admitted :
  realInstant settled ->
  req_good (newRequest rid id token tool input sec hook use agent settled eligible owner epoch admitted).
Proof.
  intros Hs. split; [split|..]; simpl; try done.
  - apply (bool_decide_eq_true_1 _). reflexivity.
  - by left.
Qed.

Lemma newRequest_phase rid id token tool input sec hook use agent settled eligible owner epoch admitted :
  exists b, phase_of (newRequest rid id token tool input sec hook use agent settled eligible owner epoch admitted)
    = Waiting b None None.
Proof. eexists. reflexivity. Qed.

Lemma reqs_ok_insert mk id token s x s' :
  (forall rid r, req_good (mk rid r) /\ pr_request_id (mk rid r) = rid) ->
  insertRequest mk id token s = Ok (x, s') -> reqs_ok s s'.
Proof.
  intros Hmk. unfold insertRequest.
  destruct (db_spawns s !! id) as [r|]; [|intros [= <- <-]; apply reqs_ok_refl].
  destruct (existsb _ _); [done|]. intros [= <- <-] (H0 & H1 & H2 & H3).
  destruct (Hmk (db_next_request s) r) as [Hg Hid].
  split; rsimp; [unfold reqs_good; rsimp; split_and!|lia| |].
  - done.
  - by apply Forall_app; split; [|constructor].
  - apply Forall_app. split; [|constructor; [lia|done]]. eapply Forall_impl; [done|]. simpl. lia.
  - rewrite fmap_app. apply NoDup_app. split_and!; [done| |apply NoDup_singleton].
    intros i (r' & -> & Hr')%list_elem_of_fmap Hx. apply list_elem_of_singleton in Hx.
    rewrite Forall_forall in H2. specialize (H2 r' Hr'). lia.
  - intros r' [Hr|Hr]%elem_of_app; [left; exists r'; split; [done|]|right].
    + apply evolves_refl. by eapply Forall_forall in H1.
    + apply list_elem_of_singleton in Hr as ->. lia.
  - intros r' Hr. exists r'. split; [|left; by apply elem_of_app; left].
    apply evolves_refl. by eapply Forall_forall in H1.
Qed.

Lemma reqs_ok_evict cap : tx_spec (fun s _ s' => reqs_ok s s') (evictClosedRequests cap).
Proof.
  intros s gs u s' gs' ->%evictClosedRequests_spec.
  destruct (_ && _); [|apply reqs_ok_refl].
  set (ids := evictedIds s _). intros (H0 & H1 & H2 & H3).
  assert (filter (fun r => pr_request_id r ∉ ids) (db_requests s) `sublist_of` db_requests s) as Hsub
    by apply filter_sublist.
  split; rsimp; [unfold reqs_good; rsimp; split_and!|lia| |].
  - done.
  - rewrite Forall_forall in *. intros r [_ Hr]%list_elem_of_filter. auto.
  - rewrite Forall_forall in *. intros r [_ Hr]%list_elem_of_filter. auto.
  - by apply NoDup_fmap_filter.
  - intros r [_ Hr]%list_elem_of_filter. left. exists r. split; [done|]. apply evolves_refl.
    by eapply Forall_forall in H1.
  - intros r Hr. exists r. split; [apply evolves_refl; by eapply Forall_forall in H1|].
    destruct (decide (pr_request_id r ∈ ids)) as [Hin|]; [right|left; by apply list_elem_of_filter].
    unfold ids in Hin. apply evicted_evictable in Hin as (r' & Hr' & Hid & Hev).
    assert (r' = r) as -> by by eapply NoDup_fmap_eq. by apply evictable_spec in Hev as [? _].
Qed.

(** ** The shared statements *)

#[export] Instance reqs_ok_preorder : PreOrder reqs_ok.
Proof. split; [intros s; apply reqs_ok_refl|intros s s1 s2; apply reqs_ok_trans]. Qed.

(** The close of a Spawn's requests, as one UPDATE. *)
Lemma closeOne_evolves s id reason at_ r : 0 < at_ -> req_good r -> req_evolves r (closeOne s id reason at_ r).
Proof.
  intros Ha Hg. assert (at_ <> zeroTimeMillis) as Hat by (unfold zeroTimeMillis; lia). unfold closeOne. cbv zeta.
  set (r1 := if where3 (denyOrphanedCond id r) then _ else _).
  assert (req_evolves r r1 /\ where3 (proveAgentGoneCond s id r1) = where3 (proveAgentGoneCond s id r)) as [He Ep].
  { subst r1. destruct (where3 (denyOrphanedCond id r)) eqn:Hd.
    - split; [by apply denyOrphaned_evolves with (id := id)|].
      unfold proveAgentGoneCond, denyOrphanedSet, ofSpawn. by rsimp.
    - destruct (where3 (closeDecidedCond id r)) eqn:Hc; [|by split; [apply evolves_refl|]].
      split; [by apply closeDecided_evolves with (id := id)|].
      unfold proveAgentGoneCond, closeDecidedSet, ofSpawn. by rsimp. }
  destruct (where3 (proveAgentGoneCond s id r)) eqn:Hp; [|done]. eapply evolves_trans; [done|].
  apply proveAgentGone_evolves with (s := s) (id := id); [done|by apply (ev_good _ _ He)|done].
Qed.

Lemma closeOrphaned_update id reason at_ s gs cl s' gs' :
  closeOrphanedRequests id reason at_ s gs = (Ok (cl, s'), gs') ->
  s' = updateReqs (fun _ => true) (closeOne s id reason at_) s.
Proof. by intros [-> _]%closeOrphanedRequests_spec. Qed.

Lemma closeOne_instance s id reason at_ pr : pr_instance_id (closeOne s id reason at_ pr) = pr_instance_id pr.
Proof.
  unfold closeOne. repeat (match goal with |- context [where3 ?c] => destruct (where3 c) end);
    unfold proveAgentGoneSet, denyOrphanedSet, closeDecidedSet; by rsimp.
Qed.

(** A store with no request yet. *)
Definition no_requests (s : Store) : Prop := db_requests s = [] /\ 0 < db_now s.

Lemma no_requests_good s : no_requests s -> reqs_good s.
Proof. intros [E H]. unfold reqs_good. rewrite E. split_and!; [done|constructor..]. Qed.

Lemma sampleRequests_good : reqs_good reqStore.
Proof.
  split_and!; [by apply (bool_decide_eq_true_1 _)| | |by apply (bool_decide_eq_true_1 _)].
  - repeat (apply Forall_cons; split); [..|apply Forall_nil]; repeat split; simpl; try done;
      try (by intros [=]); try (by left); try (by right); try (by eexists);
      try (by apply (bool_decide_eq_true_1 _)); try (by intros [? ?]); try (intros _; by eexists);
      try (intros _; by eexists); try discriminate;
      match goal with H : is_Some _ |- _ => by destruct H end.
  - by repeat constructor.
Qed.
