(* ===== verification/RelayProps.v ===== *)
(** * Properties of the relay's, decide's and the pane's writes

    What each write of RelayWrites.v commits when it reports success, and
    that it commits nothing when it does not, under any interference: the
    request insert, the verdict, the ack, the pane answer, the proofs of the
    agent's hooks, the fallback clock. *)

From S2P Require Import Prelude Sql Rows Display Settle Family Requests History Steps Gate HookWrites HookProps RelayWrites RequestInv.

(** ** Results and writes of one transaction or statement *)

Section OneWrite.
Context {S Ev : Type}.

(** One committed write in [R], or a failure with none; an unconfirmed
    COMMIT may be either. *)
Definition one_write {A} (R : S -> A -> S -> Prop) (r : result A) (own : list (S * S)) : Prop :=
  match r with
  | Ok a => exists s s', own = [(s, s')] /\ R s a s'
  | Err e => own = [] \/ (e = ECommitUnconfirmed /\ exists s a s', own = [(s, s')] /\ R s a s')
  end.

Lemma ensures_txBounded {A} (R : S -> A -> S -> Prop) (body : Tx S A) :
  tx_spec R body -> ensures (one_write R) (txBounded body : M S Ev A).
Proof.
  intros H w. unfold txBounded. destruct (next_gap (w_gaps w)) as [[e|e [|b]] gs]; simpl.
  2-3: exists []; rewrite app_nil_r; split; [done|by left].
  destruct (body (e (w_store w)) gs) as [[[a s']|err] gs1] eqn:Eb; simpl.
  2: exists []; rewrite app_nil_r; split; [done|by left].
  specialize (H _ _ _ _ _ Eb).
  destruct (next_gap gs1) as [[e2|e2 [|[]]] gs2]; simpl.
  - eexists; split; [done|]. by eexists _, _.
  - exists []. rewrite app_nil_r. split; [done|by left].
  - eexists; split; [done|]. right. split; [done|]. by eexists _, _, _.
  - exists []. rewrite app_nil_r. split; [done|by left].
Qed.

Lemma ensures_stmt {A} (R : S -> A -> S -> Prop) (f : S -> result (A * S)) :
  (forall s a s', f s = Ok (a, s') -> R s a s') -> ensures (one_write R) (stmt f : M S Ev A).
Proof.
  intros H w. unfold stmt. destruct (next_gap (w_gaps w)) as [[e|e why] gs]; simpl.
  - destruct (f (e (w_store w))) as [[a s']|err] eqn:Ef; simpl.
    + eexists; split; [done|]. by eexists _, _; eauto.
    + exists []. rewrite app_nil_r. split; [done|by left].
  - exists []. rewrite app_nil_r. split; [done|by left].
Qed.

(** A pure or trail-writing continuation adds no write. *)
Lemma ensures_emit_ret {A} (Q : result A -> list (S * S) -> Prop) (e : Ev) a :
  Q (Ok a) [] -> ensures Q (emit e;;; ret a).
Proof. intros H w. exists []. rewrite app_nil_r. done. Qed.
End OneWrite.

(** ** The request insert *)

Definition relayInserted (T : Z) (id : string) (g : HookGate) (req : RelayRequest) (s : Store)
    (x : string * Z) (s' : Store) : Prop :=
  exists r r' pr,
    db_spawns s !! id = Some r /\ gateHolds s g id r = true /\ fst x = sp_state r /\
    db_spawns s' !! id = Some r' /\ sp_state r' = StateCheckPermission /\
    sp_row_version r' = sp_row_version r + 1 /\
    sp_permission_epoch r' = sp_permission_epoch r + (if bool_decide (sp_state r = StateCheckPermission) then 0 else 1) /\
    pr ∈ db_requests s' /\ pr_request_id pr = snd x /\ snd x = db_next_request s /\
    pr_instance_id pr = id /\ pr_request_token pr = rq_RequestToken req /\
    where3 (awaitingAnswerSQL pr) = true /\ pr_proven_gone_at pr = None /\
    pr_owner_launch_token pr = sp_launch_token r' /\ pr_owner_permission_epoch pr = Some (sp_permission_epoch r') /\
    (forall q, q ∈ db_requests s -> where3 (ofToken id (rq_RequestToken req) q) = false).

Lemma transition_epoch T v s r : v <> StateEnded -> v <> StateMissing ->
  sp_permission_epoch (transitionSet T v s r)
  = sp_permission_epoch r + (if bool_decide (sp_state r = v) then 0 else 1).
Proof.
  intros H1 H2. unfold transitionSet, hookWriteStateSet. cbv zeta.
  assert (isTerminalState v = false) as -> by (unfold isTerminalState; by rewrite !bool_decide_false).
  assert (sp_permission_epoch (hookStateSet v T (db_now s) r)
          = sp_permission_epoch r + (if bool_decide (sp_state r = v) then 0 else 1)) as E.
  { unfold hookStateSet. rsimp. unfold case3. rewrite where3_sql_eq.
    f_equal. destruct (decide (sp_state r = v)); [by rewrite !bool_decide_true by congruence|].
    by rewrite !bool_decide_false by congruence. }
  revert E. generalize (hookStateSet v T (db_now s) r). intros q <-. fields. case_bool_decide; by rsimp.
Qed.

(** What the eviction and the epilogue keep. *)
Lemma evict_keeps_awaiting cap s gs u s' gs' : 
  NoDup (pr_request_id <$> db_requests s) ->
  evictClosedRequests cap s gs = (Ok (u, s'), gs') ->
  db_spawns s' = db_spawns s /\
  (forall r, r ∈ db_requests s -> where3 (awaitingAnswerSQL r) = true -> r ∈ db_requests s').
Proof.
  intros Hnd ->%evictClosedRequests_spec. destruct (_ && _); [|done]. rsimp. split; [done|].
  intros r Hr Ha. apply list_elem_of_filter. split; [|done].
  intros (r' & Hr' & Hid & Hev)%evicted_evictable.
  assert (r' = r) as -> by by eapply NoDup_fmap_eq. apply evictable_spec in Hev as [Hn _]. congruence.
Qed.

(** The body up to the insert: the gated row and the new request. *)
Lemma relayInsert_spec id req agent s x s' r :
  db_spawns s !! id = Some r -> relayInsert id req agent s = Ok (x, s') ->
  exists pr, x = Some (db_next_request s) /\ db_spawns s' = db_spawns s /\
    db_requests s' = db_requests s ++ [pr] /\
    pr_request_id pr = db_next_request s /\ pr_instance_id pr = id /\
    pr_request_token pr = rq_RequestToken req /\ where3 (awaitingAnswerSQL pr) = true /\
    pr_proven_gone_at pr = None /\ pr_owner_launch_token pr = sp_launch_token r /\
    pr_owner_permission_epoch pr = Some (sp_permission_epoch r) /\
    (forall q, q ∈ db_requests s -> where3 (ofToken id (rq_RequestToken req) q) = false).
Proof.
  intros Hr. unfold relayInsert, insertRequest. rewrite Hr. destruct (existsb _ _) eqn:E; [done|].
  intros [= <- <-]. eexists. rsimp. do 3 (split; [reflexivity|]). split_and!; try done.
  - apply awaiting_iff. unfold newRequest. simpl. split_and!; [done|set_solver|done|done].
  - intros q Hq. destruct (where3 _) eqn:Eq; [|done].
    assert (existsb (fun pr => where3 (ofToken id (rq_RequestToken req) pr)) (db_requests s) = true); [|congruence].
    apply existsb_exists. exists q. by rewrite <- list_elem_of_In.
Qed.

Lemma relayBody_spec T id g req cap : tx_spec (fun s x s' => realInstant (rq_SettledAt req) -> reqs_good s -> relayInserted T id g req s x s') (relayBody T id g req cap).
Proof.
  intros s gs x s' gs' H Hset Hgood. unfold relayBody in H.
  apply tbind_Ok in H as (p & s1 & gs1 & [= <- <-]%tstmt_Ok & H).
  destruct (db_spawns s !! id) as [r|] eqn:Er; simpl in H; [|done].
  apply tbind_Ok in H as (n & s2 & gs2 & [= Hn]%tstmt_Ok & H). destruct n; [|done]. simpl in H.
  rewrite gatedHookUpdate_row, Er in Hn. unfold noCond in Hn. rewrite where3_Some, andb_true_r in Hn.
  destruct (gateHolds s g id r) eqn:Eg; [|done]. injection Hn as <-.
  set (r1 := gatedRow s g (transitionSet T StateCheckPermission) _ _ r) in *.
  destruct (gatedRow_fields s g (transitionSet T StateCheckPermission) (rq_TranscriptPath req)
              (rq_TranscriptPresent req) r (transition_ok T _)) as (F1 & F2 & F3). fold r1 in F1, F2, F3.
  assert (sp_permission_epoch r1 = sp_permission_epoch (transitionSet T StateCheckPermission s r)) as F4
    by (unfold r1; gated_keeps; done).
  rewrite transition_epoch in F4 by done. rewrite transition_state in F3.
  apply tbind_Ok in H as (rid & s3 & gs3 & H3%tstmt_Ok & H).
  pose proof H3 as H3'. apply (relayInsert_spec _ _ _ _ _ _ r1) in H3; [|rsimp; apply lookup_insert_eq].
  destruct H3 as (pr & -> & Es3 & Er3 & P1 & P2 & P3 & P4 & P5 & P6 & P7 & P8). rsimp_in Er3. rsimp_in Es3. rsimp_in P1. rsimp_in P8.
  apply tbind_Ok in H as (u & s4 & gs4 & H4 & H).
  assert (reqs_good s3) as (_ & _ & _ & Hnd).
  { assert (reqs_ok (s <| db_spawns := <[id:=r1]> (db_spawns s) |>) s3) as Hok.
    { unfold relayInsert in H3'. eapply reqs_ok_insert; [|exact H3'].
      intros i q. split; [by apply newRequest_good|done]. }
    apply (rs_good _ _ (Hok ltac:(destruct Hgood as (?&?&?&?); unfold reqs_good; rsimp; done))). }
  destruct (evict_keeps_awaiting _ _ _ _ _ _ Hnd H4) as [Es4 Hk].
  apply tbind_Ok in H as ([] & s5 & gs5 & [= <-]%tstmt_Ok & [= <- <- <-]).
  pose proof (refreshAfter_core T (sp_state r) StateCheckPermission [] s4 id) as Hc.
  rewrite Es4, Es3, lookup_insert_eq in Hc.
  destruct (db_spawns (refreshFamiliesAfterStateChange _ _ _ _ s4) !! id) as [r'|] eqn:Er'; [|done].
  core_eq Hc sp_state. core_eq Hc sp_row_version. core_eq Hc sp_permission_epoch. core_eq Hc sp_launch_token.
  exists r, r', pr. split_and!; try done; try congruence; try (simpl; rsimp; done).
  destruct (refreshAfter_tables T (sp_state r) StateCheckPermission [] s4) as [-> _].
  apply Hk; [|done]. rewrite Er3. apply elem_of_app. right. by apply list_elem_of_singleton.
Qed.

(** The insert, as a result and its writes. *)
Definition insertWrote (T : Z) (id : string) (g : HookGate) (req : RelayRequest)
    (r : result (UpsertOutcome * HookApplied)) (own : list (Store * Store)) : Prop :=
  match r with
  | Ok (UpsertInserted, a) => ha_Applied a = true /\
      exists s x s', own = [(s, s')] /\ (reqs_good s -> relayInserted T id g req s x s')
  | Ok (_, a) => ha_Applied a = false /\ own = []
  | Err e => own = [] \/ (e = ECommitUnconfirmed /\
      exists s x s', own = [(s, s')] /\ (reqs_good s -> relayInserted T id g req s x s'))
  end.

Lemma ensures_insertRelay T id g req cap : realInstant (rq_SettledAt req) ->
  ensures (insertWrote T id g req) (InsertRelayRequest T id g req cap).
Proof.
  intros Hset. unfold InsertRelayRequest. eapply ensures_catch.
  { apply (ensures_txBounded (fun s x s' => reqs_good s -> relayInserted T id g req s x s')).
    intros s gs x s' gs' H Hg. by eapply relayBody_spec. }
  intros [[prior rid]|e] o1 H1.
  - destruct H1 as (s & s' & -> & H1). intros w. eexists [].
    unfold transition, bind, emit, ret. simpl. rewrite app_nil_r. split; [done|]. split; [done|]. eauto 10.
  - assert (e <> ECommitUnconfirmed -> o1 = []) as H2 by (destruct H1 as [->|[-> _]]; done).
    destruct e; try (apply ensures_fail; rewrite app_nil_r; left; by apply H2).
    + apply ensures_fail. rewrite app_nil_r. destruct H1 as [->|[_ H1]]; [by left|right]. split; [done|].
      destruct H1 as (s & x & s' & H1 & H3). eauto.
    + rewrite (H2 ltac:(done)). intros w. unfold hookNotApplied, readHookGateRow, bind, read.
      exists []. rewrite app_nil_r. destruct (next_gap (w_gaps w)) as [[e|e why] gs]; simpl.
      * split; [done|]. split; [|done].
        unfold notAppliedReason. destruct (negb _); [done|]. by destruct (hg_paneNull _).
      * split; [done|]. by left.
Qed.

(** A request insert is one write or none: reported inserted, the one
    transaction moved the gated pane's row to check_permission, advanced its
    version and, on a new entry to check_permission, its permission epoch,
    and added one request under the next id, which awaits an answer and
    belongs to that launch and that epoch, with a token no request of the
    Spawn had; the cap eviction never takes it. Not applied, nothing was
    written. *)
Theorem relay_insert_is_atomic (T : Z) (id : string) (g : HookGate) (req : RelayRequest) (cap : Z) :
  realInstant (rq_SettledAt req) ->
  ensures (fun r own => match r with
    | Ok (UpsertInserted, a) => ha_Applied a = true /\
        exists s x s', own = [(s, s')] /\ (reqs_good s -> relayInserted T id g req s x s')
    | Ok (_, a) => ha_Applied a = false /\ own = []
    | Err e => own = [] \/ e = ECommitUnconfirmed
    end) (InsertRelayRequest T id g req cap).
Proof.
  intros Hset. eapply ensures_mono; [by apply ensures_insertRelay|].
  intros [[[] a]|e] own; try done. by intros [H|[H _]]; [left|right].
Qed.

(** ** Verdicts *)

(** The one row an UPDATE ... RETURNING reports: it matched, and every
    matching row carries the SET. *)
Definition updated {X} (c : PermReq -> bool) (f : PermReq -> PermReq) (g : PermReq -> X)
    (s : Store) (x : option X) (s' : Store) : Prop :=
  s' = updateReqs c f s /\
  match x with
  | Some v => exists pr, pr ∈ db_requests s /\ c pr = true /\ v = g pr
  | None => s' = s /\ forall pr, pr ∈ db_requests s -> c pr = false
  end.

Lemma updateReqs_none c f s : (forall pr, pr ∈ db_requests s -> c pr = false) -> updateReqs c f s = s.
Proof.
  intros H. unfold updateReqs. assert ((fun r => if c r then f r else r) <$> db_requests s = db_requests s) as ->.
  { rewrite <- (list_fmap_id (db_requests s)) at 2. apply list_fmap_ext. intros i r Hr.
    rewrite H; [done|by eapply list_elem_of_lookup_2]. }
  by destruct s.
Qed.

Lemma updReturning_spec {X} c f (g : PermReq -> X) s xs s' :
  updReturning c f g s = Ok (xs, s') -> updated c f g s (head xs) s'.
Proof.
  intros [= <- <-]. split; [done|].
  destruct (filter (fun r => c r = true) (db_requests s)) as [|pr l] eqn:E; simpl.
  - assert (forall pr, pr ∈ db_requests s -> c pr = false) as Hn.
    { intros pr Hin. destruct (c pr) eqn:Ec; [|done].
      assert (pr ∈ filter (fun r => c r = true) (db_requests s)) as Hx by by apply list_elem_of_filter.
      rewrite E in Hx. by apply elem_of_nil in Hx. }
    split; [by apply updateReqs_none|done].
  - assert (pr ∈ filter (fun r => c r = true) (db_requests s)) as [Hc Hin]%list_elem_of_filter
      by (rewrite E; left). eauto.
Qed.

Lemma updFirst_spec {X} c f (g : PermReq -> X) : tx_spec (updated c f g) (updFirst c f g).
Proof.
  intros s gs x s' gs' (xs & s1 & gs1 & H%tstmt_Ok & [= <- <- <-])%tbind_Ok. by apply updReturning_spec.
Qed.

Lemma checkTx_spec e : tx_spec (fun s _ s' => e = None /\ s' = s) (checkTx e).
Proof. destruct e; [apply tx_spec_tfail|]. by apply tx_spec_tret. Qed.

Lemma updFirstNow_spec {X} c f (g : PermReq -> X) :
  tx_spec (fun s x s' => updated c (f (nowSec s)) g s x s') (updFirstNow c f g).
Proof.
  intros s gs x s' gs' (sec & s1 & gs1 & [= <- <-]%tstmt_Ok & H)%tbind_Ok. by eapply updFirst_spec.
Qed.

(** A request an UPDATE selected is there after it, with the SET. *)
Lemma updated_in {X} c f (g : PermReq -> X) s x s' pr :
  updated c f g s x s' -> pr ∈ db_requests s -> c pr = true -> f pr ∈ db_requests s'.
Proof.
  intros [-> _] Hin Hc. unfold updateReqs. rsimp. apply list_elem_of_fmap. exists pr. by rewrite Hc.
Qed.

(** The verdict, as a result and its writes. *)
Definition decideWrote (id token decision reason : string) (cutoff : Z) (r : result bool) (own : list (Store * Store)) : Prop :=
  match r with
  | Ok true => exists s pr, own = [(s, updateReqs
        (fun pr => where3 (decideRelayCond id token (storeTimestamp cutoff) s pr))
        (decideSet decision reason (nowSec s)) s)] /\
      pr ∈ db_requests s /\ pr_instance_id pr = id /\ pr_request_token pr = token /\
      pr_decision pr = None /\ pr_delivered_at pr = None /\ pr_pane_answer pr = PaneAnswerNone /\
      pr_closed_at pr = None /\ spawnFinished s id = false /\
      (is_Some (pr_settled_at pr) \/ storeTimestamp cutoff < pr_created_at pr) /\
      decideSet decision reason (nowSec s) pr ∈ db_requests (updateReqs
        (fun pr => where3 (decideRelayCond id token (storeTimestamp cutoff) s pr))
        (decideSet decision reason (nowSec s)) s)
  | Ok false => own = []
  | Err e => e = ECommitUnconfirmed \/ own = []
  end.

Lemma ensures_decide id token decision reason writer cutoff :
  ensures (decideWrote id token decision reason cutoff) (DecideRelayRequest id token decision reason writer cutoff).
Proof.
  unfold DecideRelayRequest. eapply ensures_catch.
  { apply (ensures_txBounded (fun s x s' =>
      updated (fun pr => where3 (decideRelayCond id token (storeTimestamp cutoff) s pr))
        (decideSet decision reason (nowSec s)) idTool s (Some x) s')).
    intros s gs x s' gs' (xs & s1 & gs1 & H%tstmt_Ok & H2)%tbind_Ok. apply updReturning_spec in H.
    destruct (head xs) as [y|]; [by injection H2 as -> -> _|done]. }
  intros [[rid tool]|e] o1 H1.
  - destruct H1 as (s & s' & -> & H1). apply ensures_emit_ret. rewrite app_nil_r.
    pose proof H1 as [-> (pr & Hin & Hc & _)]. exists s, pr. split; [done|].
    pose proof Hc as Hc'. unfold decideRelayCond in Hc. conds Hc. simplify_eq.
    split_and!; try done.
    + rewrite not3_Some, where3_Some in *. by apply negb_true_iff.
    + rewrite where3_or, where3_not_null, where3_Some in *.
      match goal with H : _ || _ = true |- _ => apply orb_true_iff in H as [H|H] end; bsimp; [by left|right; lia].
    + eapply updated_in; [exact H1|done|]. exact Hc'.
  - assert (e <> ECommitUnconfirmed -> o1 = []) as H2 by (destruct H1 as [->|[-> _]]; done).
    destruct e; try (apply ensures_fail; rewrite app_nil_r; first [by left|by right; apply H2]).
    apply ensures_ret. rewrite app_nil_r. by apply H2.
Qed.

(** A decide that reports true committed one write, of requests of that
    Spawn and token that nobody had decided, acked, answered at the pane or
    closed, of a Spawn not finished, post-v7 or newer than the legacy cutoff;
    it stores the verdict, the reason and the time. One that reports false,
    or fails before its COMMIT, wrote nothing: a verdict once stored is never
    replaced by a later decide. *)
Theorem decide_first_answer (id token decision reason writer : string) (cutoff : Z) :
  ensures (fun r own => match r with
    | Ok true => exists s pr, own = [(s, updateReqs
          (fun pr => where3 (decideRelayCond id token (storeTimestamp cutoff) s pr))
          (decideSet decision reason (nowSec s)) s)] /\
        pr ∈ db_requests s /\ pr_instance_id pr = id /\ pr_request_token pr = token /\
        pr_decision pr = None /\ pr_delivered_at pr = None /\ pr_pane_answer pr = PaneAnswerNone /\
        pr_closed_at pr = None /\ spawnFinished s id = false /\
        (is_Some (pr_settled_at pr) \/ storeTimestamp cutoff < pr_created_at pr) /\
        decideSet decision reason (nowSec s) pr ∈ db_requests (updateReqs
          (fun pr => where3 (decideRelayCond id token (storeTimestamp cutoff) s pr))
          (decideSet decision reason (nowSec s)) s)
    | Ok false => own = []
    | Err e => e = ECommitUnconfirmed \/ own = []
    end) (DecideRelayRequest id token decision reason writer cutoff).
Proof. apply ensures_decide. Qed.

(** The ack, as a result and its writes. *)
Definition ackWrote (id token : string) (at_ : goTime) (check : option error)
    (r : result (string * string * bool)) (own : list (Store * Store)) : Prop :=
  match r with
  | Ok (d, why, true) => exists s s' pr, own = [(s, s')] /\ pr ∈ db_requests s /\
      pr_instance_id pr = id /\ pr_request_token pr = token /\
      pr_decision pr = Some d /\ why = coalesce (pr_decision_reason pr) "" /\
      pr_delivered_at pr = None /\ pr_pane_answer pr = PaneAnswerNone /\ check = None /\
      (pr <| pr_delivered_at := millisArg at_ |>) ∈ db_requests s'
  | Ok (d, why, false) => d = "" /\ exists s, own = [(s, s)]
  | Err e => own = [] \/ e = ECommitUnconfirmed
  end.

Lemma ensures_ack id token at_ check : ensures (ackWrote id token at_ check) (AckRelayDecision id token at_ check).
Proof.
  unfold AckRelayDecision. eapply ensures_bind.
  { apply (ensures_txBounded (fun s x s' => check = None /\
      updated (fun pr => where3 (ackRelayDecisionCond id token pr))
       (fun pr => pr <| pr_delivered_at := millisArg at_ |>)
       (fun pr => (coalesce (pr_decision pr) "", coalesce (pr_decision_reason pr) "")) s x s')).
    intros s gs x s' gs' ([] & s1 & gs1 & H1 & H2)%tbind_Ok.
    apply checkTx_spec in H1 as [-> ->]. split; [done|]. by eapply updFirst_spec. }
  - intros [[d why]|] o1 (s & s' & -> & Hc & H).
    + apply ensures_ret. rewrite app_nil_r. pose proof H as [_ (pr & Hin & Hq & E)]. exists s, s', pr.
      pose proof Hq as Hq'. unfold ackRelayDecisionCond in Hq. conds Hq. simplify_eq.
      split_and!; try done.
      * match goal with H : is_Some (pr_decision pr) |- _ => by destruct H as [? ->] end.
      * eapply (updated_in _ (fun pr => pr <| pr_delivered_at := millisArg at_ |>)); [exact H|done|exact Hq'].
    + apply ensures_ret. rewrite app_nil_r. destruct H as [_ [-> _]]. simpl. eauto.
  - intros e o1 [->|[-> _]]; simpl; auto.
Qed.

(** The timeout deny, likewise. *)
Definition timeoutWrote (id token : string) (at_ : goTime) (check : option error)
    (r : result bool) (own : list (Store * Store)) : Prop :=
  match r with
  | Ok true => exists s s' pr, own = [(s, s')] /\ pr ∈ db_requests s /\
      pr_instance_id pr = id /\ pr_request_token pr = token /\ pr_decision pr = None /\
      pr_pane_answer pr = PaneAnswerNone /\ check = None /\ denyRelayTimeoutSet at_ (nowSec s) pr ∈ db_requests s'
  | Ok false => exists s, own = [(s, s)]
  | Err e => own = [] \/ e = ECommitUnconfirmed
  end.

Lemma ensures_timeout id token at_ check :
  ensures (timeoutWrote id token at_ check) (DenyRelayTimeout id token at_ check).
Proof.
  unfold DenyRelayTimeout. eapply ensures_bind.
  { apply (ensures_txBounded (fun s x s' => check = None /\
      updated (fun pr => where3 (denyRelayTimeoutCond id token pr)) (denyRelayTimeoutSet at_ (nowSec s)) idTool s x s')).
    intros s gs x s' gs' ([] & s1 & gs1 & H1 & H2)%tbind_Ok.
    apply checkTx_spec in H1 as [-> ->]. split; [done|]. by eapply updFirstNow_spec. }
  - intros [[rid tool]|] o1 (s & s' & -> & Hc & H).
    + apply ensures_emit_ret. rewrite app_nil_r. pose proof H as [_ (pr & Hin & Hq & E)]. exists s, s', pr.
      pose proof Hq as Hq'. unfold denyRelayTimeoutCond in Hq. conds Hq. simplify_eq. split_and!; try done.
      eapply (updated_in _ (denyRelayTimeoutSet at_ (nowSec s))); [exact H|done|exact Hq'].
    + apply ensures_ret. rewrite app_nil_r. destruct H as [_ [-> _]]. simpl. eauto.
  - intros e o1 [->|[-> _]]; [by left|by right].
Qed.

(** The relay hook's ack hands over exactly the verdict it marks
    delivered: reporting one, the committed write stamped delivered_at on a
    request of that Spawn and token whose stored decision and reason are the
    ones returned, that was undelivered and not answered at the pane;
    reporting none, the store's requests are as they were. *)
Theorem ack_delivers_the_stored_verdict (id token : string) (at_ : goTime) (check : option error) :
  ensures (fun r own => match r with
    | Ok (d, why, true) => exists s s' pr, own = [(s, s')] /\ pr ∈ db_requests s /\
        pr_instance_id pr = id /\ pr_request_token pr = token /\
        pr_decision pr = Some d /\ why = coalesce (pr_decision_reason pr) "" /\
        pr_delivered_at pr = None /\ pr_pane_answer pr = PaneAnswerNone /\ check = None /\
        (pr <| pr_delivered_at := millisArg at_ |>) ∈ db_requests s'
    | Ok (d, why, false) => d = "" /\ exists s, own = [(s, s)]
    | Err e => own = [] \/ e = ECommitUnconfirmed
    end) (AckRelayDecision id token at_ check).
Proof. apply ensures_ack. Qed.

(** ** Pane answers *)

Lemma intent_owned intent pr t : pn_At intent = Some t ->
  where3 (paneIntentOwnerSQL intent (paneIntentSet intent pr)) = true.
Proof.
  intros E. unfold paneIntentOwnerSQL, paneIntentSet. rsimp.
  rewrite !where3_and, !where3_sql_is, where3_sql_eq, !bool_decide_true by done.
  unfold millisArg. rewrite E, where3_sql_eq, bool_decide_true by done. done.
Qed.

(** A pane answer reports sent only for the intent it was made under: the
    committed write answered a request of that Spawn and token that was not
    closed and whose recorded intent has that instant and that sender, with
    the verdict the intent recorded; reporting false, the requests are as
    they were. *)
Theorem pane_sent_only_under_its_intent (id token : string) (intent : PaneIntent) :
  ensures (fun r own => match r with
    | Ok true => exists s s' pr, own = [(s, s')] /\ pr ∈ db_requests s /\
        pr_instance_id pr = id /\ pr_request_token pr = token /\
        pr_closed_at pr = None /\ pr_pane_answer pr = PaneAnswerIntent /\
        is_Some (pn_At intent) /\ pr_pane_intent_at pr = pn_At intent /\
        pr_pane_sender_pid pr = positiveIntArg (pi_PID (pn_Sender intent)) /\
        pr_pane_sender_starttime pr = nullableStringArg (pi_Starttime (pn_Sender intent)) /\
        pr_pane_sender_pidns pr = nullableStringArg (pi_PIDNamespace (pn_Sender intent)) /\
        paneSentSet (nowSec s) pr ∈ db_requests s'
    | Ok false => exists s, own = [(s, s)]
    | Err e => own = [] \/ e = ECommitUnconfirmed
    end) (RecordPaneSent id token intent).
Proof.
  unfold RecordPaneSent. eapply ensures_bind.
  { apply ensures_txBounded, updFirstNow_spec. }
  - intros [[[rid tool] d]|] o1 (s & s' & -> & H).
    + apply ensures_emit_ret. rewrite app_nil_r. pose proof H as [_ (pr & Hin & Hq & E)]. exists s, s', pr.
      pose proof Hq as Hq'. unfold paneSentCond in Hq. conds Hq. simplify_eq.
      match goal with H : where3 (paneIntentOwnerSQL _ _) = true |- _ =>
        pose proof (intent_owner _ _ H) as (F1 & F2 & F3); unfold paneIntentOwnerSQL in H;
        rewrite !where3_and, !where3_sql_is in H; bsimp end.
      split_and!; try done.
      eapply (updated_in _ (paneSentSet (nowSec s))); [exact H|done|exact Hq'].
    + apply ensures_ret. rewrite app_nil_r. destruct H as [_ [-> _]]. simpl. eauto.
  - intros e o1 [->|[-> _]]; simpl; auto.
Qed.

(** Alone, a transaction whose body succeeds commits. *)
Lemma txBounded_alone {A} (body : Tx Store A) s a s' tr own :
  body s [] = (Ok (a, s'), []) ->
  (txBounded body : Op A) (alone s tr own) = (Ok a, alone s' tr (own ++ [(s, s')])).
Proof. intros H. unfold txBounded, alone. simpl. by rewrite H. Qed.

Lemma run_bind_tx {A B} (body : Tx Store A) (k : A -> Op B) s a s' :
  body s [] = (Ok (a, s'), []) ->
  run (bind (txBounded body) k) s = let '(r, w) := k a (alone s' [] [(s, s')]) in (r, w_store w, w_trail w).
Proof.
  intros H. unfold run, bind. change (mkWorld s [] [] []) with (alone s ([] : list Event) []).
  by rewrite (txBounded_alone body s a s').
Qed.

Lemma updFirst_alone {X} c f (g : PermReq -> X) s xs s' :
  updReturning c f g s = Ok (xs, s') -> updFirst c f g s [] = (Ok (head xs, s'), []).
Proof. intros H. unfold updFirst, tbind, tstmt, tret, next_gap. by rewrite H. Qed.

Lemma updFirstNow_alone {X} c f (g : PermReq -> X) s xs s' :
  updReturning c (f (nowSec s)) g s = Ok (xs, s') -> updFirstNow c f g s [] = (Ok (head xs, s'), []).
Proof. intros H. unfold updFirstNow, tread, tbind at 1, tstmt, next_gap. by apply updFirst_alone. Qed.

Lemma updReturning_nonempty {X} c f (g : PermReq -> X) s pr :
  pr ∈ db_requests s -> c pr = true ->
  exists pr0, c pr0 = true /\ updReturning c f g s = Ok (g pr0 :: tail (g <$> filter (fun r => c r = true) (db_requests s)), updateReqs c f s).
Proof.
  intros Hin Hc. unfold updReturning.
  destruct (filter (fun r => c r = true) (db_requests s)) as [|q l] eqn:E.
  - assert (pr ∈ filter (fun r => c r = true) (db_requests s)) as Hx by by apply list_elem_of_filter.
    rewrite E in Hx. by apply elem_of_nil in Hx.
  - assert (q ∈ filter (fun r => c r = true) (db_requests s)) as [Hq _]%list_elem_of_filter by (rewrite E; left).
    by exists q.
Qed.

Lemma updReturning_none {X} c f (g : PermReq -> X) s :
  (forall pr, pr ∈ db_requests s -> c pr = false) -> updReturning c f g s = Ok ([], s).
Proof.
  intros H. unfold updReturning. rewrite updateReqs_none by done.
  destruct (filter (fun r => c r = true) (db_requests s)) as [|q l] eqn:E; [done|].
  assert (q ∈ filter (fun r => c r = true) (db_requests s)) as [Hq Hin]%list_elem_of_filter by (rewrite E; left).
  by rewrite H in Hq.
Qed.

(** A released intent owns nothing. *)
Lemma released_not_owned id token intent s pr :
  pr ∈ db_requests (updateReqs (fun pr => where3 (ofToken id token pr AND paneIntentOwnerSQL intent pr))
                      paneReleaseSet s) ->
  where3 (paneSentCond id token intent pr) = false.
Proof.
  unfold updateReqs. rsimp. intros (q & -> & _)%list_elem_of_fmap. unfold paneSentCond.
  destruct (where3 (ofToken id token q AND paneIntentOwnerSQL intent q)) eqn:E; rewrite !where3_and in *.
  - apply andb_true_iff in E as [_ E]. destruct (intent_owner _ _ E) as (_ & _ & [t Et]).
    assert (where3 (paneIntentOwnerSQL intent (paneReleaseSet q)) = false) as ->; [|by rewrite !andb_false_r].
    unfold paneIntentOwnerSQL, paneReleaseSet. rsimp. rewrite !where3_and. unfold millisArg. rewrite Et, !where3_sql_eq.
    by rewrite (bool_decide_false (None = Some t)), andb_false_r by done.
  - destruct (where3 (ofToken id token q)); [|done]. simpl in E. by rewrite E, andb_false_r.
Qed.

(** Intent, then sent: alone, a pane intent on a request that awaits an
    answer is granted and holds the request, and its sender's report then
    answers it with the recorded verdict, whatever else of the store changed
    in between; a release in between takes the answer away from it. *)
Theorem pane_intent_round_trip (id token as_ : string) (sender : ProcessIdentity) (s : Store) (pr : PermReq) :
  db_now s <> zeroTimeMillis -> pr ∈ db_requests s -> pr_instance_id pr = id -> pr_request_token pr = token ->
  where3 (awaitingAnswerSQL pr) = true ->
  let intent := mkPaneIntent as_ sender (Some (db_now s)) in
  exists s1, run (RecordPaneIntent id token as_ sender None) s = (Ok (Some intent), s1, []) /\
    paneIntentSet intent pr ∈ db_requests s1 /\
    (forall s2, db_requests s2 = db_requests s1 ->
       exists s3 tr, run (RecordPaneSent id token intent) s2 = (Ok true, s3, tr) /\ length tr = 1%nat /\
         paneSentSet (nowSec s2) (paneIntentSet intent pr) ∈ db_requests s3 /\
         pr_decision (paneSentSet (nowSec s2) (paneIntentSet intent pr)) = Some as_) /\
    (forall s2, db_requests s2 = db_requests s1 ->
       exists s3, run (ReleasePaneIntent id token intent) s2 = (Ok true, s3, []) /\
         run (RecordPaneSent id token intent) s3 = (Ok false, s3, [])).
Proof.
  intros Hnow Hin Hid Htok Ha intent.
  set (c := fun pr => where3 (ofToken id token pr AND awaitingAnswerSQL pr)).
  assert (c pr = true) as Hc.
  { unfold c, ofToken. rewrite !where3_and, where3_ofSpawn, where3_sql_eq, Ha, !bool_decide_true by congruence. done. }
  set (s1 := updateReqs c (paneIntentSet intent) s).
  assert (paneIntentSet intent pr ∈ db_requests s1) as Hin1.
  { unfold s1, updateReqs. rsimp. apply list_elem_of_fmap. exists pr. by rewrite Hc. }
  destruct (awaiting_iff pr) as [(Hcl & _)%(fun f => f Ha) _].
  set (pr1 := paneIntentSet intent pr) in *.
  assert (where3 (ofToken id token pr1) = true) as Ht1.
  { unfold ofToken, ofSpawn, pr1, paneIntentSet. rsimp.
    rewrite !where3_and, !where3_sql_eq, !bool_decide_true by congruence. done. }
  assert (where3 (paneIntentOwnerSQL intent pr1) = true) as Ho by by eapply intent_owned.
  exists s1. split_and!; [|done| |].
  - unfold RecordPaneIntent, run. cbv zeta. change (mkWorld s [] [] []) with (alone s ([] : list Event) []).
    erewrite txBounded_alone; [reflexivity|].
    unfold tbind, tstmt, tread, runPaneCheck, tret. simpl.
    replace (db_now s =? zeroTimeMillis) with false by lia. fold intent c s1.
    destruct (0 <? _)%nat eqn:E; [done|]. exfalso. apply Nat.ltb_ge in E.
    assert (pr ∈ filter (fun pr => c pr = true) (db_requests s)) as Hx by by apply list_elem_of_filter.
    by destruct (filter _ _); [apply elem_of_nil in Hx|simpl in E; lia].
  - intros s2 E2. set (c2 := fun pr => where3 (paneSentCond id token intent pr)).
    assert (c2 pr1 = true) as Hc2.
    { unfold c2, paneSentCond. rewrite !where3_and, Ht1, Ho, where3_is_null.
      unfold pr1, paneIntentSet. rsimp. by rewrite Hcl. }
    destruct (updReturning_nonempty c2 (paneSentSet (nowSec s2))
                (fun pr => (pr_request_id pr, pr_tool_name pr, coalesce (pr_pane_as pr) "")) s2 pr1)
      as (q & Hq & Eq); [by rewrite E2|done|].
    exists (updateReqs c2 (paneSentSet (nowSec s2)) s2). eexists. split_and!.
    + unfold RecordPaneSent. erewrite run_bind_tx by (apply updFirstNow_alone, Eq). reflexivity.
    + done.
    + unfold updateReqs. rsimp. apply list_elem_of_fmap. exists pr1. rewrite Hc2. split; [done|by rewrite E2].
    + unfold paneSentSet, pr1, paneIntentSet. by rsimp.
  - intros s2 E2. set (c2 := fun pr => where3 (ofToken id token pr AND paneIntentOwnerSQL intent pr)).
    assert (c2 pr1 = true) as Hc2 by (unfold c2; by rewrite where3_and, Ht1, Ho).
    destruct (updReturning_nonempty c2 paneReleaseSet pr_request_id s2 pr1) as (q & Hq & Eq); [by rewrite E2|done|].
    exists (updateReqs c2 paneReleaseSet s2). split.
    + unfold ReleasePaneIntent. erewrite run_bind_tx by (apply updFirst_alone, Eq). reflexivity.
    + unfold RecordPaneSent. erewrite run_bind_tx; cycle 1.
      { apply updFirstNow_alone, updReturning_none. intros. by eapply released_not_owned. }
      reflexivity.
Qed.

(** ** What the agent's hooks prove *)

(** Every request keeps its place; those that change are in [P]. *)
Definition reqs_change (P : Store -> PermReq -> PermReq -> Prop) (s s' : Store) : Prop :=
  Forall2 (fun r r' => r' = r \/ P s r r') (db_requests s) (db_requests s') /\
  s' = s <| db_requests := db_requests s' |>.

Lemma reqs_change_update (P : Store -> PermReq -> PermReq -> Prop) c f s :
  (forall r, c r = true -> P s r (f r)) -> reqs_change P s (updateReqs c f s).
Proof.
  intros H. unfold reqs_change, updateReqs. rsimp. split; [|by destruct s].
  apply Forall2_fmap_r, Forall_Forall2_diag, Forall_forall. intros r _. simpl.
  destruct (c r) eqn:E; [right; auto|by left].
Qed.

Lemma spawnGate_true b s g id : spawnGate b s g id = true ->
  exists r, db_spawns s !! id = Some r /\ gateHolds s g id r = true /\ (b = true -> sp_agent r <> Some AgentCursor).
Proof.
  unfold spawnGate. destruct (db_spawns s !! id) as [r|]; [|done]. intros [H1 H2]%andb_true_iff.
  exists r. split_and!; [done..|]. intros ->. unfold sql_is_not, sql_is in H1.
  rewrite not3_Some, where3_Some in H1. by bsimp.
Qed.

(** What a proof must know of the request it proves gone. *)
Definition proof_covers (id : string) (g : HookGate) (p : RequestProof) (s : Store) (r r' : PermReq) : Prop :=
  pr_instance_id r = id /\ pr_proven_gone_at r = None /\ pr_proven_gone_how r' = Some (pf_How p) /\
  verdict r' = verdict r /\ awaitColumns r' = awaitColumns r /\
  (exists sp, db_spawns s !! id = Some sp /\ gateHolds s g id sp = true /\
     (pf_How p = ProvenGoneToolRan -> sp_agent sp <> Some AgentCursor)) /\
  (pf_How p = ProvenGoneToolRan /\ pf_ToolUseID p <> "" /\ pr_tool_use_id r = Some (pf_ToolUseID p) \/
   pf_How p = ProvenGoneTurnEnd /\ pr_main_turn_end_eligible r = true /\ pr_agent_id r = None /\
     exists before, pf_RecordedBefore p = Some before /\ pr_created_at r < storeTimestamp before).

Lemma proofMatch_covers p frag r : proofMatch p = Ok (Some frag) -> where3 (frag r) = true ->
  pf_How p = ProvenGoneToolRan /\ pf_ToolUseID p <> "" /\ pr_tool_use_id r = Some (pf_ToolUseID p) \/
   pf_How p = ProvenGoneTurnEnd /\ pr_main_turn_end_eligible r = true /\ pr_agent_id r = None /\
     exists before, pf_RecordedBefore p = Some before /\ pr_created_at r < storeTimestamp before.
Proof.
  unfold proofMatch. case_bool_decide as E1; [|case_bool_decide as E2; [|done]].
  - case_bool_decide; [done|]. intros [= <-] Hf. left. rewrite where3_sql_eq in Hf. by bsimp.
  - destruct (pf_RecordedBefore p) as [before|] eqn:Eb; [|done]. intros [= <-] Hf. right.
    rewrite !where3_and, !where3_Some, where3_is_null in Hf. bsimp. split_and!; [done..|].
    eexists. split; [done|lia].
Qed.

(** A proof from the agent's own hook touches only the requests it is
    about, and only their proof: of the gated Spawn, not proven yet, of that
    tool use (never on a Cursor Spawn) or, at a turn's end, a main-agent
    request eligible for it and created before the second the hook started.
    It changes no verdict and closes nothing. *)
Theorem proof_touches_only_its_requests (id : string) (g : HookGate) (p : RequestProof) (now : goTime) :
  guarantees (reqs_change (proof_covers id g p)) (ProveRequestsGone id g p now).
Proof.
  unfold ProveRequestsGone. cbv zeta. destruct (proofMatch p) as [[frag|]|e] eqn:Ep; [|guar..].
  guar. apply guarantees_stmt. intros s xs s' [= <- <-]. apply reqs_change_update. intros r Hc.
  unfold provable, proveSet in *. conds Hc.
  match goal with H : spawnGate _ _ _ _ = true |- _ => apply spawnGate_true in H as (sp & Hsp & Hg & Hcur) end.
  unfold proof_covers, verdict, awaitColumns. rsimp. split_and!; try done.
  - exists sp. split_and!; [done..|]. intros E. apply Hcur. by apply bool_decide_eq_true.
  - by eapply proofMatch_covers.
Qed.

(** A hook of a tool that ran closes only requests of that tool use that
    awaited an answer, of a gated Spawn whose agent is not Cursor: as allowed
    and answered by the run itself, proven gone unless they were already. *)
Theorem tool_ran_closes_only_its_request (id use : string) (g : HookGate) (at_ : goTime)
    (gone : option (PermissionRow -> bool)) :
  guarantees (reqs_change (fun s r r' =>
      pr_instance_id r = id /\ pr_tool_use_id r = Some use /\ use <> "" /\
      where3 (awaitingAnswerSQL r) = true /\
      (exists sp, db_spawns s !! id = Some sp /\ gateHolds s g id sp = true /\ sp_agent sp <> Some AgentCursor) /\
      pr_pane_answer r' = PaneAnswerToolRan /\ pr_decision r' = Some "allow" /\
      pr_decision_reason r' = Some DecisionReasonToolRan /\ pr_decided_at r' = Some (nowSec s) /\
      where3 (awaitingAnswerSQL r') = false /\
      pr_proven_gone_at r' = coalesce2 (pr_proven_gone_at r) (millisArg at_)))
    (CloseToolRanRequests id g use at_ gone).
Proof.
  unfold CloseToolRanRequests. destruct gone as [gone|]; [|guar]. case_bool_decide as Hu; [guar|].
  apply guarantees_bind; [guar|]. intros prs.
  induction prs as [|pr prs IH]; simpl; [guar|]. guar. unfold closeToolRan. guar. apply guarantees_stmt.
  intros s xs s' [= <- <-]. apply reqs_change_update. intros r Hc. unfold ofToolUse in Hc. conds Hc.
  match goal with H : spawnGate _ _ _ _ = true |- _ => apply spawnGate_true in H as (sp & Hsp & Hg & Hcur) end.
  unfold toolRanSet. rsimp. split_and!; try done.
  - exists sp. split_and!; auto.
  - apply not_true_is_false. intros (_ & Hp & _)%awaiting_iff. revert Hp. rsimp. intros Hp.
    by apply (bool_decide_eq_true_2 _) in Hp.
Qed.

(** ** The fallback clock *)

(** FallbackClock never starts at an instant that cannot be compared: not
    before 1970, not after 9999. A stored clock in that range is kept as it
    is with its basis; a Cursor request never starts one from its hook
    process, which does not hold its dialog; one starts from the process only
    when the process is known gone, at the stored instant it was first seen
    gone. *)
Theorem fallback_clock_bounds (agent mode : string) (pr : PermissionRow) (o : FallbackObservation) (now : goTime) :
  let '(start, basis) := FallbackClock agent mode pr o now in
  (forall ms, start = Some ms -> 0 < ms <= maxYearMillis) /\
  (forall ms, pw_FallbackAt pr = Some ms -> 0 < ms <= maxYearMillis ->
     PreV7 pr && IsZero (pw_CreatedAt pr) = false -> start = Some ms /\ basis = pw_FallbackBasis pr) /\
  (pw_FallbackAt pr = None -> agent = AgentCursor -> basis <> FallbackProcess) /\
  (pw_FallbackAt pr = None -> basis = FallbackProcess ->
     fo_ProcessGone o = true /\ fo_CantTell o = false /\ PreV7 pr = false /\
     start = match pw_HookGoneAt pr with Some t => Some t | None => now end).
Proof.
  unfold FallbackClock. destruct (fallbackStart agent mode pr o now) as [start basis] eqn:E.
  assert (forall ms, pw_FallbackAt pr = Some ms -> start = Some ms /\ basis = pw_FallbackBasis pr) as H1.
  { intros ms Hms. unfold fallbackStart, IsZero in E. rewrite Hms in E. simpl in E. by simplify_eq. }
  assert (pw_FallbackAt pr = None -> basis = FallbackProcess -> agent <> AgentCursor /\
     fo_ProcessGone o = true /\ fo_CantTell o = false /\ PreV7 pr = false /\
     start = match pw_HookGoneAt pr with Some t => Some t | None => now end) as H2.
  { intros Hn Hb. unfold fallbackStart in E. rewrite Hn in E. simpl in E.
    destruct (_ && bool_decide (mode = "off")); [by simplify_eq|].
    destruct (bool_decide (agent = AgentCursor)) eqn:Ea, (fo_CantTell o) eqn:Ec, (PreV7 pr) eqn:Ep; simpl in E;
      try by simplify_eq.
    destruct (fo_ProcessGone o); [|by simplify_eq]. injection E as <- _. bsimp. split_and!; try done.
    unfold IsZero. by destruct (pw_HookGoneAt pr). }
  destruct (_ || _) eqn:Eb.
  - split_and!; try done. intros ms Hms Hr Hz. destruct (H1 ms Hms) as [-> _]. rewrite Hz in Eb. simpl in Eb. lia.
  - apply orb_false_iff in Eb as [_ Eb]. split_and!.
    + intros ms ->. lia.
    + intros ms Hms _ _. by apply H1.
    + intros Hn Ha Hb. by destruct (H2 Hn Hb).
    + intros Hn Hb. by destruct (H2 Hn Hb).
Qed.

(** DecidePermissionRequest with an empty token never decides a request
    a relay hook recorded: no statement of it changes a request, so it
    reports false or an error. (The comment above it promises a
    single-request path that decides without a token.) *)
Theorem empty_token_decides_nothing (id decision reason writer : string) (s : Store) :
  Forall (fun pr => pr_request_token pr <> "") (db_requests s) ->
  let '(r, s', tr) := run (DecidePermissionRequest id "" decision reason writer) s in
  s' = s /\ tr = [] /\ (r = Ok false \/ r = Err EAmbiguousRequest).
Proof.
  intros Ht. unfold DecidePermissionRequest, run. rewrite (bool_decide_true ("" = "")) by done.
  unfold bind, read, stmt, ret, fail, next_gap. with_strategy opaque [updReturning OpenPermissionRequestsForSpawn] simpl.
  destruct (1 <? length (OpenPermissionRequestsForSpawn id s))%nat; [split_and!; auto|].
  with_strategy opaque [updReturning] simpl.
  rewrite updReturning_none; [split_and!; auto|]. intros pr Hin. rewrite Forall_forall in Ht. specialize (Ht pr Hin).
  unfold ofToken. rewrite !where3_and, where3_sql_eq, (bool_decide_false (Some (pr_request_token pr) = Some "")) by congruence.
  by rewrite andb_false_r.
Qed.

(** ** Witnesses *)

Definition sampleRelayRequest : RelayRequest :=
  mkRelayRequest "tok7" "Bash" "{}" "use7" "" None (mkProcessIdentity 91 "h91" "") (Some 4900) "" false.

Lemma relay_insert_is_atomic_witness :
  realInstant (rq_SettledAt sampleRelayRequest) /\
  exists own, w_own (snd (InsertRelayRequest 0 "leaf" plainGate sampleRelayRequest 0 (alone paneStore [] []))) = [] ++ own /\
    exists s x s', own = [(s, s')] /\ (reqs_good s -> relayInserted 0 "leaf" plainGate sampleRelayRequest s x s').
Proof.
  assert (realInstant (rq_SettledAt sampleRelayRequest)) as Hs by done. split; [exact Hs|].
  pose proof (relay_insert_is_atomic 0 "leaf" plainGate sampleRelayRequest 0 Hs (alone paneStore [] [])) as H.
  destruct H as (own & E & H). exists own. split; [exact E|].
  destruct (fst (InsertRelayRequest 0 "leaf" plainGate sampleRelayRequest 0 (alone paneStore [] [])))
    as [[[] a]|e] eqn:Er; try (by vm_compute in Er). exact (proj2 H).
Defined.

Lemma pane_intent_round_trip_witness :
  exists s1, run (RecordPaneIntent "leaf" "tok1" "allow" (mkProcessIdentity 5 "p5" "") None) reqStore
    = (Ok (Some (mkPaneIntent "allow" (mkProcessIdentity 5 "p5" "") (Some 200000))), s1, []) /\
  exists s3, run (ReleasePaneIntent "leaf" "tok1"
                    (mkPaneIntent "allow" (mkProcessIdentity 5 "p5" "") (Some 200000))) s1 = (Ok true, s3, []).
Proof.
  destruct (pane_intent_round_trip "leaf" "tok1" "allow" (mkProcessIdentity 5 "p5" "") reqStore openReq)
    as (s1 & H1 & _ & _ & H4); [by apply (bool_decide_eq_true_1 _)|right; left|reflexivity..|].
  exists s1. split; [exact H1|]. destruct (H4 s1 eq_refl) as (s3 & H & _). exists s3. exact H.
Defined.

Lemma empty_token_decides_nothing_witness :
  Forall (fun pr => pr_request_token pr <> "") (db_requests reqStore) /\
  fst (fst (run (DecidePermissionRequest "leaf" "" "allow" "" WriterProcessDecide) reqStore)) = Err EAmbiguousRequest /\
  snd (fst (run (DecidePermissionRequest "leaf" "" "allow" "" WriterProcessDecide) reqStore)) = reqStore.
Proof.
  assert (Forall (fun pr => pr_request_token pr <> "") (db_requests reqStore)) as Ht by (repeat constructor; done).
  split; [exact Ht|]. split; [reflexivity|].
  pose proof (empty_token_decides_nothing "leaf" "allow" "" WriterProcessDecide reqStore Ht) as H.
  destruct (run _ reqStore) as [[r s'] tr]. exact (proj1 H).
Defined.
