(* ===== verification/RelayLive.v ===== *)
(** * A relay hook's wait ends

    Run alone, what a relay hook waits for comes: decide stores a verdict and
    the hook's ack takes exactly that one; without a decide the hook's own
    timeout takes a deny. Either way the request is over. *)

From S2P Require Import Prelude Sql Rows Display Settle Family Requests History Steps Gate HookWrites HookProps RelayWrites Protocol RequestInv RelayProps.

(** A request a relay hook asked about and nothing has answered. *)
Record asked (s : Store) (id token : string) (pr : PermReq) : Prop := {
  as_in : pr ∈ db_requests s;
  as_key : pr_instance_id pr = id /\ pr_request_token pr = token;
  as_unique : forall q, q ∈ db_requests s -> pr_instance_id q = id -> pr_request_token q = token -> q = pr;
  as_settled : is_Some (pr_settled_at pr);
  as_undecided : pr_decision pr = None /\ pr_delivered_at pr = None;
  as_open : pr_closed_at pr = None /\ pr_pane_answer pr = PaneAnswerNone;
}.

Lemma ofToken_iff id token q : where3 (ofToken id token q) = true <-> pr_instance_id q = id /\ pr_request_token q = token.
Proof.
  unfold ofToken. rewrite where3_and, where3_ofSpawn, where3_sql_eq, andb_true_iff, !bool_decide_eq_true.
  naive_solver.
Qed.

(** An UPDATE of the one request the key names returns it. *)
Lemma updReturning_one {X} (c : PermReq -> bool) f (g : PermReq -> X) s pr :
  pr ∈ db_requests s -> c pr = true -> (forall q, q ∈ db_requests s -> c q = true -> q = pr) ->
  exists xs, updReturning c f g s = Ok (g pr :: xs, updateReqs c f s) /\ f pr ∈ db_requests (updateReqs c f s).
Proof.
  intros Hin Hc Hu. unfold updReturning.
  destruct (filter (fun r => c r = true) (db_requests s)) as [|q l] eqn:E.
  { assert (pr ∈ filter (fun r => c r = true) (db_requests s)) as Hx by by apply list_elem_of_filter.
    rewrite E in Hx. by apply elem_of_nil in Hx. }
  assert (q ∈ filter (fun r => c r = true) (db_requests s)) as [Hq Hqin]%list_elem_of_filter by (rewrite E; left).
  rewrite (Hu q Hqin Hq). exists (g <$> l). split; [done|]. unfold updateReqs. rsimp. apply list_elem_of_fmap.
  exists pr. by rewrite Hc.
Qed.

Section Live.
Context (id token : string) (s : Store) (pr : PermReq) (Hask : asked s id token pr).

Lemma asked_guard (c : PermReq -> tvl) :
  (forall q, where3 (c q) = true -> where3 (ofToken id token q) = true) ->
  forall q, q ∈ db_requests s -> where3 (c q) = true -> q = pr.
Proof. intros Hc q Hq H. apply Hc, ofToken_iff in H as [H1 H2]. by apply (as_unique _ _ _ _ Hask). Qed.

Lemma asked_key : where3 (ofToken id token pr) = true.
Proof. apply ofToken_iff, (as_key _ _ _ _ Hask). Qed.
End Live.

(** What the hook's ack finds after a verdict was stored for [pr]. *)
Lemma decided_in id token d reason sec s pr c :
  asked s id token pr -> d <> "" -> c pr = true -> (forall q, q ∈ db_requests s -> c q = true -> q = pr) ->
  let s1 := updateReqs c (decideSet d reason sec) s in let pr1 := decideSet d reason sec pr in
  pr1 ∈ db_requests s1 /\ where3 (ackRelayDecisionCond id token pr1) = true /\
  (forall q, q ∈ db_requests s1 -> where3 (ackRelayDecisionCond id token q) = true -> q = pr1).
Proof.
  intros Hask Hd Hc Hu. cbv zeta. pose proof Hask as [Hin [Hi Ht] Huni _ [H1 H2] [H3 H4]]. split_and!.
  - unfold updateReqs. rsimp. apply list_elem_of_fmap. exists pr. by rewrite Hc.
  - unfold ackRelayDecisionCond, ofToken, ofSpawn, decideSet. rsimp.
    rewrite !where3_and, !where3_sql_eq, where3_not_null, where3_is_null. by rewrite H2, H4, !bool_decide_true by congruence.
  - unfold updateReqs. rsimp. intros q (q0 & -> & Hq0)%list_elem_of_fmap Hq.
    assert (q0 = pr) as ->; [|by rewrite Hc]. unfold ackRelayDecisionCond in Hq.
    rewrite !where3_and, !andb_true_iff in Hq. destruct Hq as [[Hi' Ht']%ofToken_iff _].
    destruct (c q0) eqn:E; [by apply Hu|by apply Huni].

Qed.

(** Alone, a decide whose guard selects a request reports true. *)
Lemma decide_alone c id token d reason writer cutoff s x xs s1 :
  c = (fun q => where3 (decideRelayCond id token (storeTimestamp cutoff) s q)) ->
  updReturning c (decideSet d reason (nowSec s)) idTool s = Ok (x :: xs, s1) ->
  exists tr, run (DecideRelayRequest id token d reason writer cutoff) s = (Ok true, s1, tr).
Proof.
  intros -> E. unfold DecideRelayRequest, run, catch. change (mkWorld s [] [] []) with (alone s ([] : list Event) []).
  erewrite txBounded_alone by (unfold tbind, tstmt, tret, next_gap; rewrite E; reflexivity).
  destruct x as [rid tool]. simpl. eexists. reflexivity.
Qed.

(** C13: A relay hook's wait ends. For a request a relay hook asked about and
    nothing has answered, of a Spawn that has not finished: decide reports
    true and stores its verdict, and the hook's next ack takes exactly that
    verdict and its reason, whatever else of the store changed in between;
    and the hook that is not answered takes the deny of its own timeout. In
    both cases the request is relayed, which is final. *)
Theorem relay_wait_ends (id token d reason writer : string) (cutoff t : Z) (s : Store) (pr : PermReq) :
  asked s id token pr -> d <> "" -> spawnFinished s id = false ->
  (exists s1 tr, run (DecideRelayRequest id token d reason writer cutoff) s = (Ok true, s1, tr) /\
     forall s2, db_requests s2 = db_requests s1 ->
     exists s3 pr3, run (AckRelayDecision id token (Some t) None) s2
         = (Ok (d, coalesce (nullableStringArg reason) "", true), s3, []) /\
       pr3 ∈ db_requests s3 /\ pr_request_id pr3 = pr_request_id pr /\ phase_of pr3 = Relayed d) /\
  (exists s1 tr pr1, run (DenyRelayTimeout id token (Some t) None) s = (Ok true, s1, tr) /\
     pr1 ∈ db_requests s1 /\ pr_request_id pr1 = pr_request_id pr /\ phase_of pr1 = Relayed "deny").
Proof.
  intros Hask Hd Hf. pose proof Hask as [Hin [Hi Ht] Huni Hset [H1 H2] [H3 H4]]. split.
  - set (c := fun q => where3 (decideRelayCond id token (storeTimestamp cutoff) s q)).
    assert (c pr = true) as Hc.
    { unfold c, decideRelayCond. rewrite !where3_and, where3_or, !where3_is_null, where3_not_null, where3_sql_eq.
      rewrite (asked_key _ _ _ _ Hask), H1, H2, H3, H4, Hf. by rewrite (bool_decide_true _ Hset). }
    assert (forall q, q ∈ db_requests s -> c q = true -> q = pr) as Hu.
    { apply (asked_guard _ _ _ _ Hask). intros q. unfold decideRelayCond. rewrite !where3_and, !andb_true_iff. tauto. }
    destruct (updReturning_one c (decideSet d reason (nowSec s)) idTool s pr) as (xs & Eq & _); [done..|].
    destruct (decided_in id token d reason (nowSec s) s pr c) as (Hin1 & Hc1 & Hu1); [done..|].
    destruct (decide_alone c id token d reason writer cutoff s _ _ _ eq_refl Eq) as [tr Etr].
    eexists _, tr. split; [exact Etr|]. intros s2 E2. rewrite <- E2 in Hin1, Hu1.
    destruct (updReturning_one (fun q => where3 (ackRelayDecisionCond id token q))
      (fun q => q <| pr_delivered_at := Some t |>)
      (fun q => (coalesce (pr_decision q) "", coalesce (pr_decision_reason q) "")) s2 _ Hin1 Hc1 Hu1) as (ys & Ey & Hin3).
    eexists _, _. split; [|split; [exact Hin3|]].
    + unfold AckRelayDecision. erewrite run_bind_tx by exact (updFirst_alone _ _ _ _ _ _ Ey). reflexivity.
    + unfold decideSet. rsimp. split; [done|]. rewrite phase_relayed; by rsimp.
  - destruct (updReturning_one (fun q => where3 (denyRelayTimeoutCond id token q))
      (denyRelayTimeoutSet (Some t) (nowSec s)) idTool s pr) as (xs & Eq & Hin1); [done| | |].
    + unfold denyRelayTimeoutCond. rewrite !where3_and, where3_is_null, where3_sql_eq, (asked_key _ _ _ _ Hask), H1, H4.
      done.
    + apply (asked_guard _ _ _ _ Hask). intros q. unfold denyRelayTimeoutCond. rewrite !where3_and, !andb_true_iff. tauto.
    + eexists _, _, _. split; [|split; [exact Hin1|]].
      * unfold DenyRelayTimeout. erewrite run_bind_tx by exact (updFirstNow_alone _ _ _ _ _ _ Eq). reflexivity.
      * unfold denyRelayTimeoutSet. rsimp. split; [done|]. rewrite phase_relayed; by rsimp.
Qed.

Lemma openReq_asked : asked reqStore "leaf" (pr_request_token openReq) openReq.
Proof.
  split; [|by split| |by eexists|by split|by split].
  - by apply (bool_decide_eq_true_1 _).
  - intros q Hq. unfold reqStore in Hq. simpl in Hq. rewrite !elem_of_cons in Hq.
    destruct Hq as [->|[->|[->|Hq]]]; try done. by apply elem_of_nil in Hq.
Qed.

Lemma relay_wait_ends_witness :
  (exists s1 tr, run (DecideRelayRequest "leaf" (pr_request_token openReq) "allow" "" "op" 0) reqStore = (Ok true, s1, tr)) /\
  asked reqStore "leaf" (pr_request_token openReq) openReq.
Proof.
  pose proof (relay_wait_ends "leaf" (pr_request_token openReq) "allow" "" "op" 0 200000 reqStore openReq openReq_asked) as H.
  split; [|exact openReq_asked]. destruct H as [(s1 & tr & H & _) _]; [by intros [=]|vm_compute; reflexivity|].
  exists s1, tr. exact H.
Defined.
