(* ===== verification/RelayHookProps.v ===== *)
(** * Properties of the relay hook

    Whatever other processes do and whatever fails, a relayed permission
    request's hook writes on its standard output only a verdict its own
    committed write acked, or the deny of a request it could not record; and
    it ends. *)

From S2P Require Import Prelude Sql Rows Display Settle Family Requests History Steps Gate HookWrites HookProps RelayWrites HookEnv Payload Classify RelayHook Protocol RequestInv RelayProps.

(** ** The poll reads only *)

Lemma ensures_GetPermissionRequest id token : ensures (fun _ own => own = []) (GetPermissionRequest id token).
Proof.
  unfold GetPermissionRequest. eapply ensures_bind.
  - apply (ensures_read (fun _ own => own = [])). done.
  - intros [pr|] o1 ->; [by apply ensures_ret|by apply ensures_fail].
  - intros e o1 ->. done.
Qed.

Definition quiet {A} (r : result A) (own : list (Store * Store)) : Prop := own = [] /\ exists a, r = Ok a.

Lemma ensures_poll fuel cfg deadline id token i fails created :
  ensures quiet (Poll fuel cfg deadline id token i fails created).
Proof.
  revert i fails created. induction fuel as [|fuel IH]; intros i fails created; simpl; [apply ensures_ret; split; eauto|].
  destruct (pt_cancelled _); [apply ensures_ret; split; eauto|].
  destruct (negb _); [apply ensures_ret; split; eauto|].
  eapply ensures_catch; [apply ensures_GetPermissionRequest|]. intros [row|e] o1 ->.
  - destruct (negb _); [apply ensures_ret; split; eauto|]. apply IH.
  - destruct e; try (destruct (_ <? _); [apply ensures_ret; split; eauto|apply IH]).
    apply ensures_ret. split; eauto.
Qed.

Lemma ensures_emitIgnored e h : ensures quiet (emitIgnored e h).
Proof.
  unfold emitIgnored, GetSpawn. apply (ensures_catch (fun _ own => own = [])).
  { apply (ensures_bind (fun _ own => own = [])); [by apply ensures_read|by intros [r|] ? ->; [apply ensures_ret|apply ensures_fail]|done]. }
  assert (forall ev, ensures (quiet (A := unit)) (emit ev : Op unit)) as He by (intros ev; apply ensures_emit; split; eauto).
  assert (ensures (quiet (A := unit)) (ret tt : Op unit)) as Hr by (apply ensures_ret; split; eauto).
  intros [sp|err] o1 ->.
  - apply (ensures_bind quiet); [done| |by intros ? ? [-> [? ?]]].
    intros [] o2 [-> _]. by destruct (paneIsGrandparent _ _ _); simpl; [apply He|].
  - destruct err; try done. by destruct (ig_silentWithoutRow h).
Qed.

(** ** Answers *)

(** The write [p] acked the request [token] of the Spawn [id] with verdict
    [d], at [w]'s readings: in time, and while the parent that started the
    hook was alive. *)
Record acked_by (re : RelayEnv) (parent : parentIdentity) (id token d : string) (p : Store * Store) : Prop := {
  ab_request : exists pr pr' w, pr ∈ db_requests (fst p) /\ pr' ∈ db_requests (snd p) /\
    pr_instance_id pr = id /\ pr_request_token pr = token /\ pr_request_id pr' = pr_request_id pr /\
    pr_pane_answer pr = PaneAnswerNone /\ pr_decision pr' = Some d /\ pr_delivered_at pr' = instant (wr_at w) /\
    w ∈ [re_ack re; re_deny re; re_ackAfterDeny re] /\
    0 < waitLeft (re_kill re) (wr_waitNow w) /\
    parentIsStarter parent (fst (wr_parent w)) (snd (wr_parent w)) = true;
}.

Section RelayHook.
Context (T : Z) (rawText : json -> string) (env : HookEnv) (cfg : RelayConfig) (re : RelayEnv).

(** An answer of a recorded request: its last write acked it. *)
Definition answered_with (parent : parentIdentity) (id token : string) (e : Envelope) (own : list (Store * Store)) : Prop :=
  en_hookEventName e = EventNamePermissionRequest /\
  exists p, last own = Some p /\ acked_by re parent id token (en_behavior e) p.

Definition answerWrote (parent : parentIdentity) (id token : string) (r : result (option Envelope))
    (own : list (Store * Store)) : Prop :=
  match r with
  | Ok (Some e) => answered_with parent id token e own
  | Ok None => True
  | Err _ => False
  end.

Lemma answerWrote_app parent id token r o1 own :
  answerWrote parent id token r own -> answerWrote parent id token r (o1 ++ own).
Proof.
  destruct r as [[e|]|]; try done. intros [H1 (p & Hp & H2)]. split; [done|]. exists p. split; [|done].
  rewrite last_app, Hp. done.
Qed.

Lemma parentCheck_none parent now :
  parentCheck parent now = None -> parentIsStarter parent (fst now) (snd now) = true.
Proof. unfold parentCheck. by destruct (parentIsStarter _ _ _). Qed.

Lemma ensures_deliver id token parent w : w ∈ [re_ack re; re_deny re; re_ackAfterDeny re] ->
  ensures (answerWrote parent id token) (deliver re id token parent w).
Proof.
  intros Hw. unfold deliver. destruct (waitLeft _ _ <=? 0) eqn:Hl; [by apply ensures_ret|].
  eapply ensures_catch; [apply ensures_ack|]. intros [[[d why] []]|e] o1 H1; simpl negb; cbv iota; try by apply ensures_ret.
  destruct H1 as (s & s' & pr & -> & Hin & Hi & Ht & Hd & -> & _ & Hp & Hc & Hin').
  apply ensures_emit_ret. rewrite app_nil_r. split; [done|]. exists (s, s'). split; [done|]. split.
  exists pr, (pr <| pr_delivered_at := millisArg (instant (wr_at w)) |>), w. simpl fst. simpl snd. rsimp.
  split_and!; try done; [lia|by apply parentCheck_none].
Qed.

Lemma ensures_timeoutDeny id token parent : ensures (answerWrote parent id token) (timeoutDeny re id token parent).
Proof.
  unfold timeoutDeny. destruct (waitLeft _ _ <=? 0) eqn:Hl; [by apply ensures_ret|].
  eapply ensures_catch; [apply ensures_timeout|]. intros [[]|e] o1 H1; [| |by apply ensures_ret].
  - destruct H1 as (s & s' & pr & -> & Hin & Hi & Ht & Hd & Hp & Hc & Hin').
    apply ensures_emit_ret. rewrite app_nil_r. split; [done|]. exists (s, s'). split; [done|]. split.
    eexists pr, _, (re_deny re). split; [exact Hin|]. split; [exact Hin'|].
    unfold denyRelayTimeoutSet. rsimp. split_and!; try done; [set_solver|lia|by apply parentCheck_none].
  - eapply ensures_mono; [apply ensures_deliver; set_solver|]. intros r own. apply answerWrote_app.
Qed.

(** What runRelay left: an answer it acked, or the deny of a request whose
    insert it could not confirm: nothing was written, or the insert landed with
    its COMMIT unconfirmed. *)
Definition relayLeft (inp : relayInput) (r : result (option RelayOutput)) (own : list (Store * Store)) : Prop :=
  match r with
  | Ok (Some out) =>
      match ro_stdout out with
      | None => True
      | Some e =>
          (exists token, ro_token out = Some token /\ answered_with (ri_parent inp) (ri_instanceID inp) token e own) \/
          (e = denyEnvelope /\
             (ro_token out = None /\ own = [] \/
              exists token, ro_token out = Some token /\ ro_outcome out = Some UpsertError /\
                (own = [] \/ exists s x s', own = [(s, s')] /\
                   (reqs_good s -> relayInserted T (ri_instanceID inp) (ri_gate inp) (relayRequest rawText re token inp)
                      s x s'))))
      end
  | Ok None => True
  | Err _ => False
  end.
End RelayHook.

Lemma instant_real ns : realInstant (instant ns).
Proof.
  unfold instant, realInstant, millisTime. destruct (_ =? zeroTimeMillis) eqn:E; [done|].
  apply Z.eqb_neq in E. congruence.
Qed.

Lemma ensures_afterPoll re id token parent res :
  ensures (answerWrote re parent id token) (afterPoll re id token parent res).
Proof.
  unfold afterPoll. destruct (negb _); [apply ensures_deliver; set_solver|].
  destruct (pl_TimedOut res); [apply ensures_timeoutDeny|by apply ensures_ret].
Qed.

(** A relayed permission request's hook prints a verdict only after its
    own committed write acked it. Whatever other processes do, whatever fails
    and whatever the clock, the operating system and the random source
    answer, what [runRelay] leaves on the hook's standard output is nothing;
    or the verdict that its last committed write stamped delivered, on a
    request of this Spawn and the token it minted, not answered at the pane,
    while its deadline had not passed and the process that started it was
    alive; or the deny of a request it could not record, and then it wrote
    nothing, or the one insert whose commit was not confirmed. *)
Theorem relay_hook_writes_only_acked_answers (T : Z) (rawText : json -> string) (env : HookEnv) (cfg : RelayConfig)
    (re : RelayEnv) (fuel : nat) (inp : relayInput) (event sessionID : string) :
  ensures (relayLeft T rawText re inp) (runRelay T rawText env cfg re fuel inp event sessionID).
Proof.
  unfold runRelay. destruct (re_token re) as [token|]; [|apply ensures_ret; by right; split; [|left]].
  eapply ensures_catch; [apply ensures_insertRelay, instant_real|].
  intros [[outcome applied]|e] o1 H1.
  - destruct (negb (ha_Applied applied)).
    + eapply (ensures_bind quiet); [|intros [] o2 [-> _]; by apply ensures_ret|by intros ? ? [_ [? ?]]].
      destruct (negb _); [apply ensures_emitIgnored|apply ensures_ret; split; eauto].
    + apply (ensures_bind quiet); [apply ensures_emit; split; eauto| |by intros ? ? [_ [? ?]]].
      intros [] o2 [-> _]. apply (ensures_bind quiet); [apply ensures_poll| |by intros ? ? [_ [? ?]]].
      intros [res|] o3 [-> _]; [|by apply ensures_ret].
      eapply ensures_bind; [apply ensures_afterPoll| |by intros ? ?].
      intros [env'|] o4 H4; apply ensures_ret; simpl; [|done]. rewrite app_nil_r. left. exists token. split; [done|].
      apply (answerWrote_app _ _ _ _ (Ok (Some env'))); exact H4.
  - apply ensures_ret. right. rewrite app_nil_r. split; [done|]. right. exists token. split_and!; [done..|].
    destruct H1 as [->|(_ & s & x & s' & -> & H1)]; eauto 10.
Qed.

(** ** The wait ends *)

(** The clock runs: it does not go back, and a turn that slept starts the
    next one no earlier than it slept for, unless the context was cancelled
    meanwhile. *)
Record clock_runs (cfg : RelayConfig) (deadline : Z) (turn : nat -> PollTurn) : Prop := {
  cr_turn : forall i, pt_now (turn i) <= pt_sleepNow (turn i);
  cr_next : forall i, pt_sleepNow (turn i) <= pt_now (turn (S i));
  cr_sleep : forall i, pt_cancelled (turn (S i)) = true \/
    Z.min (pt_now (turn i) + pollFloor) (pt_sleepNow (turn i) + pollSleep cfg deadline (turn i)) <= pt_now (turn (S i));
}.

(** A turn sleeps to the deadline, or at least for the floor. *)
Lemma pollSleep_floor cfg deadline t :
  deadline <= pt_sleepNow t + Z.max 0 (pollSleep cfg deadline t) \/ pollFloor <= pollSleep cfg deadline t.
Proof.
  unfold pollSleep. generalize (wrap64 (wrap64 (rc_PollBaseMs cfg * millisecond) +
    (if 0 <? rc_PollJitterMs cfg then wrap64 (pt_jitter t * millisecond) else 0))). intros d. cbv zeta.
  assert (pollFloor <= if d <? pollFloor then pollFloor else d) as Hf by (destruct (d <? pollFloor) eqn:?; lia).
  assert (pollFloor < 2 ^ 63 - 1) by done. unfold timeSub. lia.
Qed.

Lemma next_turn cfg deadline turn i : clock_runs cfg deadline turn ->
  pt_cancelled (turn (S i)) = true \/ deadline <= pt_now (turn (S i)) \/
  pt_now (turn i) + pollFloor <= pt_now (turn (S i)).
Proof.
  intros [H1 H2 H3]. destruct (H3 i) as [|H]; [by left|right]. specialize (H1 i). specialize (H2 i).
  destruct (pollSleep_floor cfg deadline (turn i)); lia.
Qed.

Lemma poll_ends fuel cfg deadline turn id token i fails created :
  clock_runs cfg deadline turn -> (0 < fuel)%nat ->
  (pt_cancelled (turn i) = true \/ deadline - pt_now (turn i) <= (Z.of_nat fuel - 1) * pollFloor) ->
  ensures (fun r _ => exists res, r = Ok (Some res)) (Poll fuel turn deadline id token i fails created).
Proof.
  intros Hc. revert i fails created. induction fuel as [|fuel IH]; intros i fails created Hf Hi; [lia|]. simpl.
  destruct (pt_cancelled (turn i)) eqn:Ec; [apply ensures_ret; eauto|].
  destruct (pt_now (turn i) <? deadline) eqn:Ed; simpl; [|apply ensures_ret; eauto]. destruct Hi as [|Hi]; [done|].
  assert (forall f c, ensures (fun r _ => exists res, r = Ok (Some res)) (Poll fuel turn deadline id token (S i) f c)) as IH'.
  { intros f c. assert (0 < pollFloor) by done.
    destruct (decide (fuel = 0%nat)); [subst; lia|]. apply IH; [lia|].
    destruct (next_turn _ _ _ i Hc) as [|[|]]; [by left|right; nia..]. }
  eapply ensures_catch; [apply ensures_GetPermissionRequest|]. intros [row|e] o1 _.
  - destruct (bool_decide _); [apply IH'|apply ensures_ret; eauto].
  - destruct e; try (destruct (pollMaxReadRetries <? _); [by apply ensures_ret; eauto|apply IH']).
    by apply ensures_ret; eauto.
Qed.

(** The turns a relay hook's wait takes at most. *)
Definition pollFuel (re : RelayEnv) : nat := Z.to_nat ((pollEnd (re_kill re) - pt_now (re_turn re 0)) / pollFloor) + 2.

(** A relayed permission request's hook ends. While the clock runs, with
    as many turns of the loop as there are floor sleeps before its deadline
    it never runs out: whatever the store answers, and however often its
    reads and writes fail, [runRelay] returns what it leaves. *)
Theorem relay_hook_ends (T : Z) (rawText : json -> string) (env : HookEnv) (cfg : RelayConfig) (re : RelayEnv)
    (fuel : nat) (inp : relayInput) (event sessionID : string) :
  clock_runs cfg (pollEnd (re_kill re)) (re_turn re) -> (pollFuel re <= fuel)%nat ->
  ensures (fun r _ => exists out, r = Ok (Some out)) (runRelay T rawText env cfg re fuel inp event sessionID).
Proof.
  intros Hc Hf. unfold runRelay. destruct (re_token re) as [token|]; [|apply ensures_ret; eauto].
  eapply ensures_catch; [apply ensures_insertRelay, instant_real|].
  intros [[outcome applied]|e] o1 _; [|apply ensures_ret; eauto]. destruct (negb (ha_Applied applied)).
  - eapply (ensures_bind quiet); [|intros; apply ensures_ret; eauto|by intros ? ? [_ [? ?]]].
    destruct (negb _); [apply ensures_emitIgnored|apply ensures_ret; split; eauto].
  - apply (ensures_bind quiet); [apply ensures_emit; split; eauto| |by intros ? ? [_ [? ?]]]. intros _ o2 _.
    eapply ensures_bind; [apply (poll_ends fuel cfg); [done|unfold pollFuel in Hf; lia|right]| |].
    + unfold pollFuel in Hf. assert (pollFloor = 50000000) as E by done. rewrite E in *.
      pose proof (Z.div_mod (pollEnd (re_kill re) - pt_now (re_turn re 0)) 50000000).
      pose proof (Z.mod_pos_bound (pollEnd (re_kill re) - pt_now (re_turn re 0)) 50000000). lia.
    + intros res o3 [r [= ->]]. eapply ensures_bind; [apply ensures_afterPoll| |by intros ? ?].
      intros out o4 _. apply ensures_ret. eauto.
    + intros err o3 [? ?]. done.
Qed.

(** ** Samples and witnesses *)

Definition sampleTurns (i : nat) : PollTurn :=
  mkPollTurn false (Z.of_nat i * (2 * second)) 0 (Z.of_nat i * (2 * second)).
Definition sampleReadings : WriteReadings := mkReadings (5 * second) (5 * second) (77, Some "s77").
Definition sampleRelayEnv : RelayEnv :=
  mkRelayEnv (Some "tok7") (8 * second) sampleTurns (mkProcessIdentity 91 "h91" "")
    sampleReadings sampleReadings sampleReadings.
Definition sampleRelayConfig : RelayConfig := mkRelayConfig 2000 0 1000.
Definition sampleHookEnv : HookEnv := mkHookEnv 77 (fun _ => Some "s77") (fun _ => None) (fun _ => None).
Definition sampleRelayInput : relayInput :=
  mkRelayInput "leaf" plainGate (mkParent 77 "s77") "" "" false (RawJson (JObject [("tool_name", JString "Bash")])).
Definition sampleRun (re : RelayEnv) (s : Store) :=
  run (runRelay 0 (fun _ => "") sampleHookEnv sampleRelayConfig re (pollFuel re) sampleRelayInput "PermissionRequest" "sess") s.

Lemma sample_clock_runs : clock_runs sampleRelayConfig (pollEnd (re_kill sampleRelayEnv)) sampleTurns.
Proof.
  assert (forall i, pt_now (sampleTurns (S i)) = pt_now (sampleTurns i) + 2 * second) as E.
  { intros i. unfold sampleTurns. cbn -[Z.of_nat Z.mul second]. lia. }
  assert (0 < pollFloor < 2 * second) by done. split; intros i; [|rewrite E|right; rewrite E].
  - done.
  - change (pt_sleepNow (sampleTurns i)) with (pt_now (sampleTurns i)). lia.
  - etransitivity; [apply Z.le_min_l|lia].
Qed.

(** Nobody decides: the hook records its request, takes its own deny at its
    deadline and prints it. *)
Example relay_timeout_sample :
  let '(r, s', _) := sampleRun sampleRelayEnv paneStore in
  r = Ok (Some (mkRelayOutput (Some denyEnvelope) (Some "tok7") (Some UpsertInserted))) /\
  (fun pr => (pr_decision pr, pr_delivered_at pr)) <$> db_requests s' = [(Some "deny", Some 5000)].
Proof. vm_compute. split; reflexivity. Qed.

Lemma relay_hook_ends_witness :
  clock_runs sampleRelayConfig (pollEnd (re_kill sampleRelayEnv)) (re_turn sampleRelayEnv) /\
  exists out, fst (fst (sampleRun sampleRelayEnv paneStore)) = Ok (Some out).
Proof.
  split; [exact sample_clock_runs|].
  destruct (relay_hook_ends 0 (fun _ => "") sampleHookEnv sampleRelayConfig sampleRelayEnv (pollFuel sampleRelayEnv)
    sampleRelayInput "PermissionRequest" "sess" sample_clock_runs (le_n _) (mkWorld paneStore [] [] [])) as (own & _ & out & H).
  exists out. exact H.
Defined.
