(* ===== verification/Lifecycle.v ===== *)
(** * Lifecycle writes (internal/store/find_missing_writes.go,
      resume_writes.go, expire.go, spawns.go, recovery.go)

    The writes that begin, judge, restore and delete a Spawn's life: the
    insert of a pending row, the identity of its launch, find-missing's
    terminal marks, notes, adoption and check_permission repair, resume's
    move to pending and the restore of a failed one, expire's candidates and
    guarded delete. Each conditional write compares the row with the snapshot
    its caller examined ([snapshotMatchSQL]) under the write lock and answers
    a [CondResult]. *)

From S2P Require Import Prelude Sql Rows Display Settle Family Requests History Steps Gate HookWrites RelayWrites.

Abbreviation Op := (M Store Event).

(** ** SET fragments and conditional writes *)

Definition boolInt (b : bool) : Z := if b then 1 else 0.

(** subagentTrackedParamSQL; subagentTrackedColumnSQL is its use on the row's
    own agent. *)
Definition subagentTrackedSQL (agent : option string) : Z :=
  case3 (sql_eq agent (Some AgentClaude)) 1 0.

(** launchOwnerClear and launchOwnerArgs *)
Definition launchOwnerSet (o : ProcessIdentity) (r : SpawnRow) : SpawnRow :=
  r <| sp_launch_owner_pid := positiveIntArg (pi_PID o) |>
    <| sp_launch_owner_starttime := nullableStringArg (pi_Starttime o) |>
    <| sp_launch_owner_pidns := nullableStringArg (pi_PIDNamespace o) |>.
Definition launchOwnerClear (r : SpawnRow) : SpawnRow :=
  r <| sp_launch_owner_pid := None |> <| sp_launch_owner_starttime := None |> <| sp_launch_owner_pidns := None |>.

(** The six server and pane columns, a zero value as NULL. *)
Definition identitySet (i : LaunchIdentity) (r : SpawnRow) : SpawnRow :=
  r <| sp_tmux_server_pid := positiveIntArg (li_ServerPID i) |>
    <| sp_tmux_server_started := positiveInt64Arg (li_ServerStart i) |>
    <| sp_tmux_server_starttime := nullableStringArg (li_ServerStarttime i) |>
    <| sp_pane_id := nullableStringArg (li_PaneID i) |>
    <| sp_pane_pid := positiveIntArg (li_PanePID i) |>
    <| sp_pane_starttime := nullableStringArg (li_PaneStarttime i) |>.
Definition zeroIdentity : LaunchIdentity := mkLaunchIdentity "" "" 0 0 "" "" 0 "".

(** adoptIdentitySet *)
Definition adoptIdentitySet (i : LaunchIdentity) : fragment := fun _ r => rowVersionAdvance (identitySet i r).

(** One conditional UPDATE of a row. *)
Definition condUpdate (id : string) (cond : Store -> SpawnRow -> tvl) (set : fragment) (s : Store) : bool * Store :=
  update1 id (fun s r => if where3 (cond s r) then Some (set s r) else None) s.

(** DELETE FROM spawns with the schema's foreign-key actions: dependent rows
    cascade, children's parent_id is set NULL. *)
Definition deleteRow (id : string) (s : Store) : Store :=
  s <| db_spawns := (fun r => if bool_decide (sp_parent_id r = Some id) then r <| sp_parent_id := None |> else r)
                      <$> delete id (db_spawns s) |>
    <| db_requests := filter (fun pr => pr_instance_id pr <> id) (db_requests s) |>
    <| db_history := filter (fun h => hi_instance_id h <> id) (db_history s) |>
    <| db_subagents := filter (fun e => sa_instance_id e <> id) (db_subagents s) |>
    <| db_launches := filter (fun l => la_instance_id l <> id) (db_launches s) |>.

Definition condDelete (id : string) (cond : SpawnRow -> tvl) (s : Store) : bool * Store :=
  match db_spawns s !! id with
  | Some r => if where3 (cond r) then (true, deleteRow id s) else (false, s)
  | None => (false, s)
  end.

(** A statement's foreign-key check: a parent_id that names no row fails. *)
Definition parentExists (s : Store) (parent : option string) : bool :=
  match parent with Some p => bool_decide (is_Some (db_spawns s !! p)) | None => true end.

(** ORDER BY instance_id *)
Definition id_le (a b : string * SpawnRow) : Prop := String.leb (fst a) (fst b) = true.
#[export] Instance id_le_dec a b : Decision (id_le a b).
Proof. unfold id_le. apply _. Defined.

Section Lifecycle.
Context (settleMs : Z).

(** execFamily of a statement that may fail. *)
Definition execFamily (id : string) (f : Store -> result (bool * Store)) : Op bool :=
  catch
    (inImmediateTx settleMs id (n <-- tstmt f;; if n then tret true else tfail ENotApplied))
    (fun r => match r with
              | Ok b => ret b
              | Err ENotApplied => ret false
              | Err e => fail e
              end).

(** execGuarded, then condNotApplied when no row matched. *)
Definition condWrite (id : string) (q : Store -> bool * Store) : Op CondResult :=
  applied <- execGuarded settleMs id q;;
  if applied : bool then ret CondApplied else condNotApplied id.

(** ** The pending row (spawns.go) *)

Record PendingSpawn := mkPendingSpawn {
  ps_InstanceID : string;
  ps_ParentID : string;
  ps_CWD : string;
  ps_TmuxSessionName : string;
  ps_AgentArgs : string;
  ps_RelayMode : string;
  ps_Labels : string;
  ps_ExtraEnv : string;
  ps_LaunchStartedAtMillis : Z;
  ps_Token : string;
  ps_Socket : string;
  ps_NoPreTrust : bool;
  ps_LaunchOwner : ProcessIdentity;
  ps_Agent : string;
  ps_IdleScreenTimeoutSeconds : Z;
}.

(** CURRENT_TIMESTAMP's text for started_at, whose form the model does not
    read, only compares. *)
Context (timestampText : Z -> string).

Definition pendingRow (sp : PendingSpawn) (s : Store) : SpawnRow :=
  let parent := nullableStringArg (ps_ParentID sp) in
  launchOwnerSet (ps_LaunchOwner sp)
   (mkSpawnRow parent StatePending (ps_CWD sp) (ps_TmuxSessionName sp) (ps_AgentArgs sp) (ps_RelayMode sp)
    None None (ps_Labels sp) (timestampText (nowSec s)) (nowSec s) None None None None None (ps_ExtraEnv sp) 0
    (positiveInt64Arg (ps_LaunchStartedAtMillis sp)) 0 (boolInt (ps_NoPreTrust sp))
    (nullableStringArg (ps_Token sp)) (nullableStringArg (ps_Socket sp))
    None None None None None None None None None None StatePending (db_now s) (Some (ps_Agent sp)) None
    (subagentTrackedSQL (Some (ps_Agent sp))) "" "" 0 None None 0 0 None None
    (positiveIntArg (ps_IdleScreenTimeoutSeconds sp)) None None None None None).

Definition insertPendingStmt (sp : PendingSpawn) (s : Store) : result (bool * Store) :=
  if bool_decide (is_Some (db_spawns s !! ps_InstanceID sp)) then Err EPrimaryKeyCollision
  else
    let r := pendingRow sp s in
    let s' := s <| db_spawns := <[ps_InstanceID sp := r]> (db_spawns s) |> in
    if parentExists s' (sp_parent_id r) then Ok (true, s') else Err EForeignKey.

Definition InsertPending (sp : PendingSpawn) : Op unit :=
  if negb (validateRowAgent (ps_Agent sp)) then fail ERowAgentInvalid
  else execFamily (ps_InstanceID sp) (insertPendingStmt sp);;; ret tt.

(** ** The launch (spawns.go) *)

Definition recordLaunchIdentityCond (launchVersion : Z) (token : string) (s : Store) (r : SpawnRow) : tvl :=
  (sql_eq (Some (sp_state r)) (Some StatePending) AND sql_eq (Some (sp_row_version r)) (Some launchVersion)
   AND sql_eq (sp_launch_token r) (Some token)).

(** Two writes run outside execFamily, as one statement. *)
Definition condStmt (id : string) (q : Store -> bool * Store) : Op CondResult :=
  applied <- stmt (fun s => Ok (q s));;
  if applied : bool then ret CondApplied else condNotApplied id.

Definition RecordLaunchIdentity (id : string) (launchVersion : Z) (token : string) (i : LaunchIdentity) : Op CondResult :=
  condStmt id (condUpdate id (recordLaunchIdentityCond launchVersion token)
    (fun _ r => rowVersionAdvance (launchOwnerClear (identitySet i r)))).

Definition releaseLaunchOwnerCond (token : string) (s : Store) (r : SpawnRow) : tvl :=
  (sql_eq (Some (sp_state r)) (Some StatePending) AND sql_eq (sp_launch_token r) (Some token)
   AND not_null (sp_launch_owner_pid r)).
Definition ReleaseLaunchOwner (id token : string) : Op CondResult :=
  condWrite id (condUpdate id (releaseLaunchOwnerCond token) (fun _ r => rowVersionAdvance (launchOwnerClear r))).

Definition endHeldLaunchCond (launch : Z) (s : Store) (r : SpawnRow) : tvl :=
  (sql_eq (Some (sp_state r)) (Some StatePending) AND sql_eq (Some (sp_row_version r)) (Some 0)
   AND sql_eq (sp_launch_started_at r) (Some launch)).
Definition endHeldLaunchSet (endedAt : Z) : fragment := fun s r =>
  rowVersionAdvance (launchStartClear (immediateStateSet StateEnded (db_now s) r
    <| sp_ended_at := Some (storeTimestamp endedAt) |>)).
Definition EndHeldLaunch (id : string) (launch endedAt : Z) : Op CondResult :=
  condWrite id (condUpdate id (endHeldLaunchCond launch) (endHeldLaunchSet endedAt)).

Definition AdoptIdentityIfUnchanged (id : string) (examined : RowSnapshot) (i : LaunchIdentity) : Op CondResult :=
  condStmt id (condUpdate id (fun _ r => snapshotMatchSQL r examined) (adoptIdentitySet i)).

Definition setParentStmt (id parent : string) (s : Store) : result (bool * Store) :=
  let p := nullableStringArg parent in
  let '(n, s') := condUpdate id noCond (fun _ r => rowVersionAdvance (r <| sp_parent_id := p |>)) s in
  if n && negb (parentExists s p) then Err EForeignKey else Ok (n, s').
Definition SetParentID (id parent : string) : Op unit :=
  n <- execFamily id (setParentStmt id parent);;
  if n : bool then ret tt else fail ESpawnNotFound.

(** ** find-missing (find_missing_writes.go) *)

Definition sameLife (examined : RowSnapshot) (r : SpawnRow) : tvl :=
  (liveStateGuardSQL r AND snapshotMatchSQL r examined).

Definition terminalSet (v : string) : fragment := fun s r =>
  rowVersionAdvance (launchStartClear (livenessClear (immediateStateSet v (db_now s) r
    <| sp_ended_at := Some (nowSec s) |> <| sp_last_seen_at := nowSec s |>))).

Definition markMissingCond (examined : RowSnapshot) (s : Store) (r : SpawnRow) : tvl := sameLife examined r.
(** end_reported_at is an integer above zero. *)
Definition markEndedCond (examined : RowSnapshot) (s : Store) (r : SpawnRow) : tvl :=
  (sameLife examined r AND sql_eq (sp_agent r) (Some AgentCodex)
   AND match sp_end_reported_at r with Some n => Some (0 <? n) | None => None end).

(** terminalMarkOnConn: CondAbsent and CondChanged roll back. *)
Definition terminalMarkBody (id : string) (q : Store -> bool * Store) (reason : string)
    : Tx Store (string * list closedRequest) :=
  prior <-- tread (fun s => sp_state <$> db_spawns s !! id);;
  match prior with
  | None => tfail ESpawnNotFound
  | Some prior =>
      n <-- tstmt (fun s => Ok (q s));;
      if negb n then tfail ENotApplied
      else
        at_ <-- tread storeNowMillis;;
        closed <-- closeOrphanedRequests id reason at_;;
        closeSubagentsAgentGone id at_;;>
        tret (prior, closed)
  end.

Definition emitTerminalCloseout (id reason : string) (c : closedRequest) : list Event :=
  emitDeny id reason WriterProcessFindMissing c ++ [EvOrphanCloseout id (c_token c)].

Definition terminalMarkIfSameLife (id : string) (q : Store -> bool * Store) (reason : string)
    : Op (string * CondResult) :=
  catch (inImmediateTx settleMs id (terminalMarkBody id q reason))
    (fun r => match r with
     | Err ESpawnNotFound => ret ("", CondAbsent)
     | Err ENotApplied => ret ("", CondChanged)
     | Err e => fail e
     | Ok (prior, closed) =>
         emits (closed ≫= emitTerminalCloseout id reason);;;
         ret (prior, CondApplied)
     end).

Definition MarkMissingIfSameLife (id : string) (examined : RowSnapshot) : Op (string * CondResult) :=
  terminalMarkIfSameLife id (condUpdate id (markMissingCond examined) (terminalSet StateMissing)) DecisionReasonFindMissing.
Definition MarkEndedIfSameLife (id : string) (examined : RowSnapshot) : Op (string * CondResult) :=
  terminalMarkIfSameLife id (condUpdate id (markEndedCond examined) (terminalSet StateEnded)) DecisionReasonEnded.

Definition livenessNoteSet (note : string) : fragment := fun s r =>
  rowVersionAdvance (r <| sp_liveness_note := Some note |>
    <| sp_liveness_unverified_since := coalesce2 (sp_liveness_unverified_since r) (Some (nowSec s)) |>).

Definition noteUnreportedCond (examined : RowSnapshot) (s : Store) (r : SpawnRow) : tvl :=
  (sql_eq (Some (sp_state r)) (Some StatePending)
   AND sql_ne (Some (coalesce (sp_liveness_note r) "")) (Some LivenessNoteProvenanceConflict)
   AND snapshotMatchSQL r examined).
Definition NoteUnreportedIfSameLife (id : string) (examined : RowSnapshot) : Op CondResult :=
  condWrite id (condUpdate id (noteUnreportedCond examined) (livenessNoteSet LivenessNoteUnreported)).
Definition SetLivenessNoteIfSameLife (id : string) (examined : RowSnapshot) (note : string) : Op CondResult :=
  condWrite id (condUpdate id (fun _ => sameLife examined) (livenessNoteSet note)).
Definition ClearLivenessIfSameLife (id : string) (examined : RowSnapshot) : Op CondResult :=
  condWrite id (condUpdate id (fun _ => sameLife examined) (fun _ r => rowVersionAdvance (livenessClear r))).

Definition nextSnapshot (examined : RowSnapshot) : RowSnapshot :=
  mkRowSnapshot (rs_RowVersion examined + 1) (rs_StartedAt examined) (rs_SessionID examined) (rs_PID examined)
    (rs_ProcStarttime examined) (rs_TmuxSessionName examined).
Definition zeroSnapshot : RowSnapshot := mkRowSnapshot 0 "" "" 0 "" "".
Definition AdoptIdentityIfSameLife (id : string) (examined : RowSnapshot) (i : LaunchIdentity)
    : Op (CondResult * RowSnapshot) :=
  applied <- execGuarded settleMs id (condUpdate id (fun _ => sameLife examined) (adoptIdentitySet i));;
  if applied : bool then ret (CondApplied, nextSnapshot examined)
  else
    res <- condNotApplied id;;
    ret (res, zeroSnapshot).

(** repairNewStateSQL: [agent <> 'codex'] is not true of a NULL agent. *)
Definition repairNewState (r : SpawnRow) : string :=
  case3 (not_null (sp_idle_since r) AND sql_ne (sp_agent r) (Some AgentCodex)) StateWaiting StateWorking.
Definition repairCond (id : string) (examined : RowSnapshot) (s : Store) (r : SpawnRow) : tvl :=
  (sql_eq (Some (sp_state r)) (Some StateCheckPermission) AND sql_eq (Some (sp_relay_mode r)) (Some "on")
   AND snapshotMatchSQL r examined AND noRequestHoldsRowSQL s id).
Definition repairSet : fragment := fun s r =>
  let v := repairNewState r in
  rowVersionAdvance (launchStartClear (r
    <| sp_permission_epoch := sp_permission_epoch r + 1 |>
    <| sp_display_exit :=
         match committedDisplayStateSQL r with
         | Some d => Some (mkDisplayExit d v (db_now s))
         | None => sp_display_exit r
         end |>
    <| sp_display_observation := None |>
    <| sp_observation_version := sp_observation_version r + 1 |>
    <| sp_settled_state := v |>
    <| sp_state_changed_ms := db_now s |>
    <| sp_state := v |>)).

(** UPDATE ... RETURNING state: no row is sql.ErrNoRows. *)
Definition repairStmt (id : string) (examined : RowSnapshot) (s : Store) : result (string * Store) :=
  let '(n, s') := condUpdate id (repairCond id examined) repairSet s in
  match db_spawns s' !! id with
  | Some r => if n then Ok (sp_state r, s') else Err ENoRows
  | None => Err ENoRows
  end.

Definition RepairCheckPermissionIfSameLife (id : string) (examined : RowSnapshot) : Op (string * CondResult) :=
  catch (inImmediateTx settleMs id (tstmt (repairStmt id examined)))
    (fun r => match r with
     | Err ENoRows => res <- condNotApplied id;; ret ("", res)
     | Err e => fail e
     | Ok v => ret (v, CondApplied)
     end).

(** ** resume (resume_writes.go) *)

Record ResumePrior := mkResumePrior {
  rp_State : string;
  rp_EndedAt : option Z;
  rp_PID : Z;
  rp_ProcStarttime : string;
  rp_LivenessUnverifiedSince : option Z;
  rp_LivenessNote : string;
  rp_EndReportedAtMillis : Z;
  rp_SubagentTracking : bool;
  rp_Identity : LaunchIdentity;
}.

(** resumePrior (pkg/api/resume.go), on the row as scanned. *)
Definition resumePrior (r : SpawnRow) : ResumePrior :=
  mkResumePrior (sp_state r) (sp_ended_at r) (coalesce (sp_pid r) 0) (coalesce (sp_proc_starttime r) "")
    (sp_liveness_unverified_since r) (coalesce (sp_liveness_note r) "")
    (decodeEndReportedAt (dval_int (sp_end_reported_at r)))
    (decodeSubagentTracking (DInt (sp_subagent_tracking r))) (lifeIdentity r).

Definition moveToPendingSet (launch : Z) (token socket parent : string) (owner : ProcessIdentity) : fragment :=
  fun s r =>
    rowVersionAdvance (launchOwnerSet owner (identitySet zeroIdentity (livenessClear
      (immediateStateSet StatePending (db_now s) r
        <| sp_pid := None |> <| sp_proc_starttime := None |> <| sp_ended_at := None |>
        <| sp_end_reported_at := None |> <| sp_codex_startup := None |> <| sp_claude_capacity := None |>
        <| sp_subagent_tracking := subagentTrackedSQL (sp_agent r) |>
        <| sp_launch_started_at := positiveInt64Arg launch |>
        <| sp_launch_token := nullableStringArg token |> <| sp_tmux_socket := nullableStringArg socket |>
        <| sp_parent_id := nullableStringArg parent |>)))).

Definition moveToPendingStmt (id : string) (examined : RowSnapshot) (launch : Z) (token socket parent : string)
    (owner : ProcessIdentity) (s : Store) : result (bool * Store) :=
  let '(n, s') := condUpdate id (fun _ r => (finishedStateGuardSQL r AND snapshotMatchSQL r examined))
                    (moveToPendingSet launch token socket parent owner) s in
  if n && negb (parentExists s (nullableStringArg parent)) then Err EForeignKey else Ok (n, s').

Definition moveToPendingBody (id : string) (examined : RowSnapshot) (launch : Z) (token socket parent : string)
    (owner : ProcessIdentity) : Tx Store (list closedRequest) :=
  n <-- tstmt (moveToPendingStmt id examined launch token socket parent owner);;
  if negb n then tfail ENotApplied
  else
    at_ <-- tread storeNowMillis;;
    closed <-- closeOrphanedRequests id DecisionReasonEnded at_;;
    closeSubagentsAgentGone id launch;;>
    tret closed.

Definition MoveToPending (id : string) (examined : RowSnapshot) (launch : Z) (token socket parent : string)
    (owner : ProcessIdentity) : Op (CondResult * Z) :=
  catch (inImmediateTx settleMs id (moveToPendingBody id examined launch token socket parent owner))
    (fun r => match r with
     | Err ENotApplied => res <- condNotApplied id;; ret (res, 0)
     | Err e => fail e
     | Ok closed =>
         emits (closed ≫= emitDeny id DecisionReasonEnded WriterProcessResume);;;
         ret (CondApplied, rs_RowVersion examined + 1)
     end).

Definition restoreCond (movedVersion : Z) (s : Store) (r : SpawnRow) : tvl :=
  (sql_eq (Some (sp_state r)) (Some StatePending) AND sql_eq (Some (sp_row_version r)) (Some movedVersion)).
Definition restoreSet (p : ResumePrior) : fragment := fun s r =>
  rowVersionAdvance (launchStartClear (identitySet (rp_Identity p)
    (immediateStateSet (rp_State p) (db_now s) r
      <| sp_ended_at := rp_EndedAt p |>
      <| sp_pid := positiveIntArg (rp_PID p) |>
      <| sp_proc_starttime := nullableStringArg (rp_ProcStarttime p) |>
      <| sp_liveness_unverified_since := rp_LivenessUnverifiedSince p |>
      <| sp_liveness_note := nullableStringArg (rp_LivenessNote p) |>
      <| sp_launch_token := nullableStringArg (li_Token (rp_Identity p)) |>
      <| sp_tmux_socket := nullableStringArg (li_Socket (rp_Identity p)) |>
      <| sp_end_reported_at := positiveInt64Arg (rp_EndReportedAtMillis p) |>
      <| sp_subagent_tracking := boolInt (rp_SubagentTracking p) |>))).

Definition RestoreAfterFailedResume (id : string) (movedVersion : Z) (p : ResumePrior) : Op CondResult :=
  if negb (isTerminalState (rp_State p)) then fail EPriorStateInvalid
  else condWrite id (condUpdate id (restoreCond movedVersion) (restoreSet p)).

(** ** expire and delete (expire.go, recovery.go) *)

Record ExpireCandidate := mkExpireCandidate {
  ec_InstanceID : string;
  ec_Identity : LaunchIdentity;
  ec_Snapshot : RowSnapshot;
}.

(** In instance-id order; ended_at compared as stored, in whole seconds. *)
Definition ListExpireCandidates (cutoff : Z) (s : Store) : list ExpireCandidate :=
  (fun p => mkExpireCandidate (fst p) (lifeIdentity (snd p)) (lifeSnapshot (snd p))) <$>
    merge_sort id_le
      (filter (fun p => where3 (finishedStateGuardSQL (snd p) AND not_null (sp_ended_at (snd p))
                                AND match sp_ended_at (snd p) with
                                    | Some t => Some (t <? storeTimestamp cutoff) | None => None end) = true)
         (map_to_list (db_spawns s))).

Definition deleteFinishedCond (examined : RowSnapshot) (r : SpawnRow) : tvl :=
  (finishedStateGuardSQL r AND snapshotMatchSQL r examined).
Definition DeleteFinishedIfSameLife (id : string) (examined : RowSnapshot) : Op CondResult :=
  condWrite id (condDelete id (deleteFinishedCond examined)).

Definition DeleteSpawn (id : string) : Op unit :=
  n <- execGuarded settleMs id (condDelete id (fun _ => Some true));;
  if n : bool then ret tt else fail ESpawnNotFound.
End Lifecycle.
