(* ===== verification/Capacity.v ===== *)
(** * Claude's capacity (internal/store/claude_capacity.go,
      internal/hook/claude_capacity.go, internal/store/subagent_read.go)

    The windows of a Claude agent's context, as its own callbacks report them:
    one JSON value in the row's claude_capacity column, bound to the launch,
    session, transcript and process that reported it, and replaced only from
    the value it was computed from ([RecordClaudeCapacity]'s compare). The
    callback's decoded payload ([Callback]), what reading a transcript gives
    and the JSON text of a capacity are arguments; instants are nanoseconds
    since the epoch. *)

From S2P Require Import Prelude Sql Text Rows ContextSource Display Settle Family Requests History Steps Gate HookWrites Lifecycle HookEnv.

(** ** Windows (store) *)

Record ClaudeWindow := mkWindow {
  cw_Model : string;
  cw_Window : Z;
  cw_ResponseUUID : string;
  cw_ObservedAt : Z;
  cw_Invalidated : bool;
}.
#[export] Instance ClaudeWindow_eq_dec : EqDecision ClaudeWindow.
Proof. solve_decision. Defined.

Record ClaudeCapacity := mkCapacity {
  cc_LaunchToken : string;
  cc_SessionID : string;
  cc_JSONLPath : string;
  cc_PID : Z;
  cc_Starttime : string;
  cc_Version : string;
  cc_Provider : string;
  cc_Main : option ClaudeWindow;
  cc_Children : gmap string ClaudeWindow;
}.
#[export] Instance ClaudeCapacity_eq_dec : EqDecision ClaudeCapacity.
Proof. solve_decision. Defined.
#[export] Instance eta_ClaudeWindow : Eta ClaudeWindow := fun w =>
  mkWindow (cw_Model w) (cw_Window w) (cw_ResponseUUID w) (cw_ObservedAt w) (cw_Invalidated w).
#[export] Instance set_cw_Invalidated : Setter cw_Invalidated. Proof. solve_setter. Defined.
#[export] Instance eta_ClaudeCapacity : Eta ClaudeCapacity := fun p =>
  mkCapacity (cc_LaunchToken p) (cc_SessionID p) (cc_JSONLPath p) (cc_PID p) (cc_Starttime p) (cc_Version p)
    (cc_Provider p) (cc_Main p) (cc_Children p).
#[export] Instance set_cc_Version : Setter cc_Version. Proof. solve_setter. Defined.
#[export] Instance set_cc_Provider : Setter cc_Provider. Proof. solve_setter. Defined.
#[export] Instance set_cc_Main : Setter cc_Main. Proof. solve_setter. Defined.
#[export] Instance set_cc_Children : Setter cc_Children. Proof. solve_setter. Defined.

Definition maxClaudeCapacityBytes : Z := 128 * 1024.

(** The years 0 to 9999, in UTC. *)
Definition yearInRange (at_ : Z) : bool :=
  (-62167219200000000000 <=? at_) && (at_ <? 253402300800000000000).

Definition window_valid (w : ClaudeWindow) : bool :=
  negb (bool_decide (cw_Model w = "")) && (len (cw_Model w) <=? 256) && (0 <? cw_Window w)
  && negb (bool_decide (cw_ResponseUUID w = "")) && (len (cw_ResponseUUID w) <=? 128)
  && negb (cw_ObservedAt w =? zeroTimeNs) && yearInRange (cw_ObservedAt w).

Definition childByte (n : nat) : bool :=
  ((97 <=? n) && (n <=? 122) || (65 <=? n) && (n <=? 90) || (48 <=? n) && (n <=? 57) || (n =? 45) || (n =? 95))%nat.
Definition validClaudeChildID (id : string) : bool :=
  negb (bool_decide (id = "")) && (len id <=? 128) && negb (containsByte (fun n => negb (childByte n)) id).

Definition capacity_valid (p : ClaudeCapacity) : bool :=
  startup_valid (mkStartup (cc_LaunchToken p) (cc_SessionID p) (cc_JSONLPath p) (cc_PID p) (cc_Starttime p))
  && negb (bool_decide (cc_Version p = "")) && (len (cc_Version p) <=? 64)
  && (bool_decide (cc_Provider p = "anthropic") || bool_decide (cc_Provider p = "unknown"))
  && (Z.of_nat (size (cc_Children p)) <=? 128)
  && match cc_Main p with Some w => window_valid w | None => true end
  && forallb (fun x => validClaudeChildID (fst x) && window_valid (snd x)) (map_to_list (cc_Children p)).

Definition ClaudeChildPath (parentPath session child : string) : string :=
  if negb (IsAbs parentPath) || negb (bool_decide (Base parentPath = (session ++ ".jsonl")%string))
     || negb (validClaudeChildID child) then ""
  else joinAbs (dirAbs parentPath) [session; "subagents"; ("agent-" ++ child ++ ".jsonl")%string].

Section Capacity.
Context (capacityText : ClaudeCapacity -> string) (capacityParse : string -> option ClaudeCapacity).

Definition decodeClaudeCapacity (v : option string) : option ClaudeCapacity :=
  match v with
  | None => None
  | Some s =>
      if maxClaudeCapacityBytes <? len s then None
      else match capacityParse s with
           | Some p => if capacity_valid p then Some p else None
           | None => None
           end
  end.

(** SpawnContext, as ContextEvidence selects it. *)
Record SpawnContext := mkContext {
  sx_Agent : string;
  sx_State : string;
  sx_SessionID : string;
  sx_JSONLPath : string;
  sx_LaunchToken : string;
  sx_PID : Z;
  sx_ProcStarttime : string;
  sx_PanePID : Z;
  sx_PaneStarttime : string;
  sx_EndReportedAtMillis : Z;
  sx_ClaudeCapacity : option ClaudeCapacity;
}.
Definition ContextEvidence (r : SpawnRow) : SpawnContext :=
  let i := lifeIdentity r in
  mkContext (coalesce (sp_agent r) "") (sp_state r) (coalesce (sp_session_id r) "") (coalesce (sp_jsonl_path r) "")
    (li_Token i) (coalesce (sp_pid r) 0) (coalesce (sp_proc_starttime r) "") (li_PanePID i) (li_PaneStarttime i)
    (decodeEndReportedAt (dval_int (sp_end_reported_at r))) (decodeClaudeCapacity (sp_claude_capacity r)).

Definition BoundClaudeCapacity (e : SpawnContext) : option ClaudeCapacity :=
  match sx_ClaudeCapacity e with
  | None => None
  | Some p =>
      if negb (bool_decide (sx_Agent e = AgentClaude)) || negb (IsLiveState (sx_State e))
         || bool_decide (sx_State e = StatePending) || negb (sx_EndReportedAtMillis e =? 0) || negb (capacity_valid p)
         || negb (bool_decide (sx_LaunchToken e = cc_LaunchToken p)) || negb (bool_decide (sx_SessionID e = cc_SessionID p))
         || negb (bool_decide (sx_JSONLPath e = cc_JSONLPath p)) || negb (sx_PID e =? cc_PID p)
         || negb (bool_decide (sx_ProcStarttime e = cc_Starttime p)) || negb (sx_PanePID e =? cc_PID p)
         || negb (bool_decide (sx_PaneStarttime e = cc_Starttime p))
      then None else Some p
  end.
Definition CurrentClaudeCapacity (e : SpawnContext) : option ClaudeCapacity :=
  match BoundClaudeCapacity e with
  | Some p =>
      if negb (bool_decide (cc_Version p = "2.1.280")) || negb (bool_decide (cc_Provider p = "anthropic"))
      then None else Some p
  | None => None
  end.

(** RecordClaudeCapacity; [snapshot] is the gate's ClaudeCapacitySnapshot. *)
Definition capacityCond (id : string) (g : HookGate) (snapshot : option string) (p : ClaudeCapacity)
    (s : Store) (r : SpawnRow) : tvl :=
  (sql_eq (sp_agent r) (Some AgentClaude) AND sql_eq (sp_launch_token r) (Some (cc_LaunchToken p))
   AND sql_eq (sp_session_id r) (Some (cc_SessionID p)) AND sql_eq (sp_jsonl_path r) (Some (cc_JSONLPath p))
   AND sql_eq (sp_pid r) (Some (cc_PID p)) AND sql_eq (sp_proc_starttime r) (Some (cc_Starttime p))
   AND Some (bool_decide (sp_state r ∈ [StateWorking; StateWaiting; StateAskUser; StateCheckPermission]))
   AND hookGateSQL s g id r
   AND match snapshot with
       | None => Some true
       | Some text => sql_is (sp_claude_capacity r) (if bool_decide (text = "null") then None else Some text)
       end).

Definition RecordClaudeCapacity (id : string) (g : HookGate) (snapshot : option string) (p : ClaudeCapacity) : Op bool :=
  if negb (capacity_valid p) then ret false
  else if maxClaudeCapacityBytes <? len (capacityText p) then ret false
  else stmt (fun s => Ok (condUpdate id (capacityCond id g snapshot p)
                            (fun _ r => r <| sp_claude_capacity := Some (capacityText p) |>) s)).

(** ListSubagentRecords: the tracking flag and the confirmed entries of the
    current life, each with the evidence of its own launch. *)
Definition noContext : SpawnContext := mkContext "" "" "" "" "" 0 "" 0 "" 0 None.
Record SubagentRecord := mkRecord { re_Row : SubagentRow; re_Context : SpawnContext }.

Definition recordBefore (a b : SubagentRow) : Prop :=
  match sa_first_started_at a, sa_first_started_at b with
  | Some x, Some y => x < y \/ (x = y /\ String.leb (sa_subagent_id a) (sa_subagent_id b) = true)
  | Some _, None => True
  | None, Some _ => False
  | None, None => String.leb (sa_subagent_id a) (sa_subagent_id b) = true
  end.
#[export] Instance recordBefore_dec a b : Decision (recordBefore a b).
Proof. unfold recordBefore. destruct (sa_first_started_at a), (sa_first_started_at b); apply _. Defined.

(** The context a scan of the joined row decodes: a positive pid, or none. *)
Definition joinedContext (r : SpawnRow) : SpawnContext :=
  let e := ContextEvidence r in
  mkContext (sx_Agent e) (sx_State e) (sx_SessionID e) (sx_JSONLPath e) (sx_LaunchToken e)
    (if 0 <? sx_PID e then sx_PID e else 0) (sx_ProcStarttime e) (if 0 <? sx_PanePID e then sx_PanePID e else 0)
    (sx_PaneStarttime e) (sx_EndReportedAtMillis e) (sx_ClaudeCapacity e).

Definition subagentRecords (id : string) (s : Store) : option (bool * list SubagentRecord) :=
  match db_spawns s !! id with
  | None => None
  | Some r =>
      let cursor := bool_decide (sp_agent r = Some AgentCursor) in
      let rows := if cursor then []
                  else merge_sort recordBefore (filter (fun e => sa_instance_id e = id /\ sa_life_number e = sp_life_number r
                                                                 /\ sa_confirmed e = true) (db_subagents s)) in
      let e := joinedContext r in
      Some (negb cursor && decodeSubagentTracking (DInt (sp_subagent_tracking r)),
            (fun row => mkRecord row
               (if negb (bool_decide (sx_LaunchToken e = ""))
                   && bool_decide (sx_LaunchToken e = decodeLaunchToken (DText (sa_launch_token row)))
                   && bool_decide (sa_session_id row = Some (sx_SessionID e))
                then e else noContext)) <$> rows)
  end.
Definition ListSubagentRecords (id : string) : Op (bool * list SubagentRecord) :=
  r <- read (subagentRecords id);;
  match r with Some x => ret x | None => fail ESpawnNotFound end.

(** ** The callbacks (hook) *)

(** The payload as encoding/json decodes it into recordClaudeCapacity's
    struct. *)
Record ClaudeTask := mkTask { tk_ID : string; tk_Type : string; tk_Model : string; tk_Window : Z }.
Record Callback := mkCallback {
  cb_Session : string;
  cb_Version : string;
  cb_ModelID : string;
  cb_Size : Z;
  cb_Usage : Counts;
  cb_Tasks : list ClaudeTask;
}.

Definition firstPartyKeys : list string :=
  ["ANTHROPIC_BASE_URL"; "CLAUDE_CODE_USE_BEDROCK"; "CLAUDE_CODE_USE_VERTEX"; "CLAUDE_CODE_USE_FOUNDRY";
   "CLAUDE_CODE_USE_ANTHROPIC_AWS"; "CLAUDE_CODE_USE_ANTHROPIC_GOOGLE_CLOUD"; "CLAUDE_CODE_USE_MANTLE";
   "CLAUDE_CODE_USE_GATEWAY"; "CLAUDE_CODE_PROVIDER_MANAGED_BY_HOST"; "CLAUDE_CODE_PROFILE";
   "ANTHROPIC_CUSTOM_MODEL_OPTION"; "CLAUDE_CODE_MAX_CONTEXT_TOKENS"; "DISABLE_COMPACT";
   "ANTHROPIC_DEFAULT_HAIKU_MODEL_SUPPORTED_CAPABILITIES"; "ANTHROPIC_DEFAULT_SONNET_MODEL_SUPPORTED_CAPABILITIES";
   "ANTHROPIC_DEFAULT_OPUS_MODEL_SUPPORTED_CAPABILITIES"; "ANTHROPIC_DEFAULT_FABLE_MODEL_SUPPORTED_CAPABILITIES";
   "ANTHROPIC_CUSTOM_MODEL_OPTION_SUPPORTED_CAPABILITIES"].
Definition claudeFirstParty (getenv : string -> string) : bool :=
  forallb (fun key => bool_decide (getenv key = "")) firstPartyKeys.

Definition sameResponseInvalidated (prior : option ClaudeWindow) (next : ClaudeWindow) : bool :=
  match prior with
  | Some p => bool_decide (cw_ResponseUUID p = cw_ResponseUUID next)
              && (cw_Invalidated p || negb (bool_decide (cw_Model p = cw_Model next)) || negb (cw_Window p =? cw_Window next))
  | None => false
  end.

Definition invalidated (w : ClaudeWindow) : ClaudeWindow := w <| cw_Invalidated := true |>.

(** The capacity of [e]'s own identity with nothing observed. *)
Definition emptyCapacity (e : SpawnContext) (version provider : string) : ClaudeCapacity :=
  mkCapacity (sx_LaunchToken e) (sx_SessionID e) (sx_JSONLPath e) (sx_PID e) (sx_ProcStarttime e) version provider None ∅.

(** clearClaudeCapacity's value. *)
Definition clearedCapacity (e : SpawnContext) : ClaudeCapacity :=
  match BoundClaudeCapacity e with
  | Some prior =>
      prior <| cc_Version := "unqualified" |> <| cc_Provider := "unknown" |>
            <| cc_Main := invalidated <$> cc_Main prior |> <| cc_Children := invalidated <$> cc_Children prior |>
  | None => emptyCapacity e "unqualified" "unknown"
  end.

Section Callback.
Context (transcript : string -> option (list (option claudeRecord))) (at_ : Z) (qualified : bool) (e : SpawnContext) (cb : Callback).

Definition startCapacity : ClaudeCapacity :=
  default (emptyCapacity e ClaudeVersion "anthropic") (BoundClaudeCapacity e).

(** case statusLine *)
Definition statusLineCapacity : ClaudeCapacity :=
  let cap := startCapacity in
  let prior := cc_Main cap in
  let rejected := cap <| cc_Main := invalidated <$> prior |> <| cc_Version := ClaudeVersion |> <| cc_Provider := "anthropic" |> in
  if negb qualified || negb (bool_decide (cb_Version cb = ClaudeVersion)) then clearedCapacity e
  else
    match Claude (sx_SessionID e) "" (transcript (sx_JSONLPath e)) with
    | Some usage =>
        if (0 <? cb_Size cb) && bool_decide (us_Model usage = cb_ModelID cb) && negb (at_ <? us_At usage)
           && Equal (cb_Usage cb) (us_Counts usage)
        then
          let w := mkWindow (us_Model usage) (cb_Size cb) (us_UUID usage) at_ false in
          rejected <| cc_Main := Some (w <| cw_Invalidated := sameResponseInvalidated prior w |>) |>
        else rejected
    | None => rejected
    end.

(** case subagentStatusLine: one task; [None] is a repeated one. *)
Definition taskWindow (priorChildren : gmap string ClaudeWindow) (task : ClaudeTask) : option ClaudeWindow :=
  match Claude (sx_SessionID e) (tk_ID task) (transcript (ClaudeChildPath (sx_JSONLPath e) (sx_SessionID e) (tk_ID task))) with
  | Some usage =>
      if bool_decide (us_Model usage = tk_Model task) && negb (at_ <? us_At usage) then
        let w := mkWindow (tk_Model task) (tk_Window task) (us_UUID usage) at_ false in
        Some (w <| cw_Invalidated := sameResponseInvalidated (priorChildren !! tk_ID task) w |>)
      else None
  | None => None
  end.

Fixpoint observeTasks (visible : string -> bool) (priorChildren : gmap string ClaudeWindow) (seen : gset string)
    (children : gmap string ClaudeWindow) (tasks : list ClaudeTask) : option (gmap string ClaudeWindow) :=
  match tasks with
  | [] => Some children
  | task :: tasks =>
      if bool_decide (tk_ID task ∈ seen) then None
      else
        observeTasks visible priorChildren ({[ tk_ID task ]} ∪ seen)
          (if negb (visible (tk_ID task)) || negb (bool_decide (tk_Type task = "local_agent"))
              || bool_decide (tk_Model task = "") || (tk_Window task <=? 0) then children
           else if bool_decide (children !! tk_ID task = None) && (128 <=? Z.of_nat (size children)) then children
           else match taskWindow priorChildren task with
                | Some w => <[tk_ID task := w]> children
                | None => children
                end)
          tasks
  end.

Definition visibleRecord (records : list SubagentRecord) (id : string) : bool :=
  match find (fun r => bool_decide (sa_subagent_id (re_Row r) = id)) (reverse records) with
  | Some r => bool_decide (sx_LaunchToken (re_Context r) = sx_LaunchToken e)
              && bool_decide (sa_session_id (re_Row r) = Some (sx_SessionID e))
  | None => false
  end.

Definition subagentCapacity (records : list SubagentRecord) : ClaudeCapacity :=
  let cap := startCapacity in
  let visible := visibleRecord records in
  let kept := invalidated <$> filter (fun x => visible (fst x) = true) (cc_Children cap) in
  match observeTasks visible (cc_Children cap) ∅ kept (cb_Tasks cb) with
  | Some children => cap <| cc_Children := children |>
  | None => clearedCapacity e
  end.
End Callback.

(** recordClaudeCapacity's outcomes; [launch] is the launch the earlier
    attempts were of. *)
Inductive capacityOutcome := CapDone | CapContention | CapError (e : error).

Definition writeClaudeCapacity (id : string) (g : HookGate) (snapshot : string) (p : ClaudeCapacity) : Op capacityOutcome :=
  catch (RecordClaudeCapacity id g (Some snapshot) p) (fun r => ret (match r with
    | Ok true => CapDone
    | Ok false => CapContention
    | Err e => CapError e
    end)).

Definition capacityCaller (e : SpawnContext) (parent : parentIdentity) : bool :=
  bool_decide (sx_Agent e = AgentClaude) && IsLiveState (sx_State e) && negb (bool_decide (sx_State e = StatePending))
  && negb (bool_decide (sx_SessionID e = "")) && negb (bool_decide (sx_JSONLPath e = ""))
  && (sx_PID e =? pa_pid parent) && (sx_PanePID e =? pa_pid parent)
  && bool_decide (sx_ProcStarttime e = pa_start parent) && bool_decide (sx_PaneStarttime e = pa_start parent)
  && negb (bool_decide (pa_start parent = "")).

Definition capacityGate (e : SpawnContext) (parent : parentIdentity) : HookGate :=
  mkGate false None "" (pa_pid parent) (pa_start parent) (sx_SessionID e) false zeroSnapshot "" false false false.

Section Hook.
Context (transcript : string -> option (list (option claudeRecord))) (getenv : string -> string).

Definition recordClaudeCapacity (agent source : string) (cb : option Callback) (parent : parentIdentity) (at_ : Z)
    (launch : string) : Op (string * capacityOutcome) :=
  let nothing := ret (launch, CapDone) in
  if negb (bool_decide (agent = "")) && negb (bool_decide (agent = AgentClaude)) then nothing
  else match ResolveInstanceID getenv with
  | inr _ => nothing
  | inl id =>
      catch (GetSpawn id) (fun r => match r with
      | Err _ => nothing
      | Ok row =>
          let e := ContextEvidence row in
          if negb (capacityCaller e parent) then nothing
          else if negb (bool_decide (launch = "")) && negb (bool_decide (launch = sx_LaunchToken e)) then nothing
          else
            let launch := sx_LaunchToken e in
            let expected := match sx_ClaudeCapacity e with Some p => capacityText p | None => "null" end in
            let write p := (o <- writeClaudeCapacity id (capacityGate e parent) expected p;; ret (launch, o)) in
            match cb with
            | None => ret (launch, CapDone)
            | Some cb =>
                if negb (bool_decide (cb_Session cb = sx_SessionID e)) then ret (launch, CapDone)
                else if bool_decide (source = "statusLine") then
                  write (statusLineCapacity transcript at_ (claudeFirstParty getenv) e cb)
                else if bool_decide (source = "subagentStatusLine") then
                  if negb (claudeFirstParty getenv) then write (clearedCapacity e)
                  else if bool_decide (CurrentClaudeCapacity e = None) then ret (launch, CapDone)
                  else
                    catch (ListSubagentRecords id) (fun r => match r with
                      | Err err => ret (launch, CapError err)
                      | Ok (_, records) => write (subagentCapacity transcript at_ e cb records)
                      end)
                else ret (launch, CapDone)
            end
      end)
  end.

(** handleClaudeCapacity: at most eight attempts; [false] is an error. *)
Fixpoint capacityAttempts (n : nat) (agent source : string) (cb : option Callback) (parent : parentIdentity) (at_ : Z)
    (launch : string) : Op bool :=
  match n with
  | O => ret false
  | S n =>
      r <- recordClaudeCapacity agent source cb parent at_ launch;;
      match snd r with
      | CapDone => ret true
      | CapError _ => ret false
      | CapContention => capacityAttempts n agent source cb parent at_ (fst r)
      end
  end.
Definition handleClaudeCapacity (agent source : string) (cb : option Callback) (parent : parentIdentity) (at_ : Z) : Op bool :=
  capacityAttempts 8 agent source cb parent at_ "".
End Hook.
End Capacity.
