(* ===== verification/CursorWrites.v ===== *)
(** * The Cursor host's writes (internal/store/cursor_runtime.go,
      cursor_permission.go, cursor_prompt.go, cursor_rotation.go,
      cursor_missing_read.go, find_missing_writes.go: terminalMarkWithoutWait)

    A Cursor session has no relay hook of its own: a gateway process owns its
    pipes, and its authority is a registered runtime binding
    ([CursorRuntime]) that each of its writes rechecks under the write lock
    ([cursorAuthority]). What the gateway finds in the kernel and the pane is
    a callback's answer ([CursorCheck]); [now k] is what the operation's
    [k]-th reading of the clock answers, in nanoseconds, and an instant
    [until] is [None] for Go's zero time. *)

From S2P Require Import Prelude Sql Text Rows Display Settle Family Requests History Steps Gate HookWrites RelayWrites Lifecycle.

Abbreviation Op := (M Store Event).

(** ** Instants *)

Definition nsPerMs : Z := 1000000.

(** time.Time.Before, of a reading. *)
Definition Before (now : Z) (until : option Z) : bool :=
  match until with Some u => now <? u | None => false end.
(** An instant the store keeps, as a time in nanoseconds, and a reading as it
    keeps it. *)
Definition timeOf (t : goTime) : option Z := (fun ms => ms * nsPerMs) <$> t.
Definition stamped (now : Z) : goTime := millisTime (Some (now / nsPerMs)).

(** ** The binding *)

(** cursorBindingMatchSQL with cursorBindingArgs. *)
Definition cursorBindingMatchSQL (b cr : CursorRuntime) : tvl :=
  (sql_eq (Some (cr_InstanceID cr)) (Some (cr_InstanceID b))
   AND sql_eq (Some (cr_Token cr)) (Some (cr_Token b))
   AND sql_eq (Some (cr_Life cr)) (Some (cr_Life b))
   AND sql_eq (Some (cr_GatewayPID cr)) (Some (cr_GatewayPID b))
   AND sql_eq (Some (cr_GatewayStart cr)) (Some (cr_GatewayStart b))
   AND sql_eq (Some (cr_RuntimePID cr)) (Some (cr_RuntimePID b))
   AND sql_eq (Some (cr_RuntimeStart cr)) (Some (cr_RuntimeStart b))
   AND sql_eq (Some (cr_Connection cr)) (Some (cr_Connection b))
   AND sql_eq (Some (cr_InputPipe cr)) (Some (cr_InputPipe b))
   AND sql_eq (Some (cr_OutputPipe cr)) (Some (cr_OutputPipe b))
   AND sql_eq (Some (cr_InputFD cr)) (Some (cr_InputFD b))
   AND sql_eq (Some (cr_OutputFD cr)) (Some (cr_OutputFD b))).

(** SELECT COUNT of the bindings, EXISTS one, and the UPDATE of those the
    WHERE selects. *)
Definition countRuntimes (c : CursorRuntime -> tvl) (s : Store) : nat :=
  length (filter (fun p => where3 (c (snd p)) = true) (map_to_list (db_runtimes s))).
Definition updRuntimes (c : CursorRuntime -> tvl) (f : CursorRuntime -> CursorRuntime) (s : Store) : nat * Store :=
  (countRuntimes c s, s <| db_runtimes := (fun cr => if where3 (c cr) then f cr else cr) <$> db_runtimes s |>).

(** The binding's own launch is still the Spawn's: the EXISTS over spawns that
    the binding's updates carry; [extra] is what more one asks of the row. *)
Definition launchOfBinding (extra : SpawnRow -> tvl) (s : Store) (cr : CursorRuntime) : bool :=
  match db_spawns s !! cr_InstanceID cr with
  | Some r =>
      where3 (sql_eq (sp_agent r) (Some AgentCursor)
              AND sql_eq (sp_launch_token r) (Some (cr_Token cr))
              AND sql_eq (Some (sp_life_number r)) (Some (cr_Life cr))
              AND sql_eq (sp_pane_pid r) (Some (cr_GatewayPID cr))
              AND sql_eq (sp_pane_starttime r) (Some (cr_GatewayStart cr))
              AND extra r)
  | None => false
  end.
Definition isPending (r : SpawnRow) : tvl := sql_eq (Some (sp_state r)) (Some StatePending).

Definition bindSession (sid : string) (cr : CursorRuntime) : CursorRuntime := cr <| cr_SessionID := sid |>.

(** RegisterCursorRuntime. [id] and [row] are the examined Spawn's. *)
Definition registerCond (row : RowSnapshot) (b : CursorRuntime) (r : SpawnRow) : tvl :=
  (sql_eq (sp_agent r) (Some AgentCursor) AND isPending r
   AND sql_eq (sp_launch_token r) (Some (cr_Token b))
   AND sql_eq (Some (sp_life_number r)) (Some (cr_Life b))
   AND sql_eq (sp_pane_pid r) (Some (cr_GatewayPID b))
   AND sql_eq (sp_pane_starttime r) (Some (cr_GatewayStart b))
   AND snapshotMatchSQL r row).

Definition registered (id : string) (b : CursorRuntime) (r : SpawnRow) : CursorRuntime :=
  mkCursorRuntime id (coalesce (sp_launch_token r) "") (sp_life_number r) (cr_GatewayPID b) (cr_GatewayStart b)
    (cr_RuntimePID b) (cr_RuntimeStart b) (cr_Connection b) (cr_InputPipe b) (cr_OutputPipe b) (cr_InputFD b)
    (cr_OutputFD b) "" false.

Definition registerStmt (row : RowSnapshot) (b : CursorRuntime) (s : Store) : bool * Store :=
  let id := cr_InstanceID b in
  match db_spawns s !! id with
  | Some r =>
      if where3 (registerCond row b r) then
        let fresh := registered id b r in
        let set := s <| db_runtimes := <[id := fresh]> (db_runtimes s) |> in
        match db_runtimes s !! id with
        | None => (true, set)
        | Some old =>
            if where3 (sql_ne (Some (cr_Token old)) (Some (cr_Token fresh))
                       OR sql_ne (Some (cr_Life old)) (Some (cr_Life fresh))) then (true, set) else (false, s)
        end
      else (false, s)
  | None => (false, s)
  end.

Definition RegisterCursorRuntime (id : string) (row : SpawnRow) (b : CursorRuntime) : Op bool :=
  let i := lifeIdentity row in
  if negb (bool_decide (cr_InstanceID b = id)) || bool_decide (cr_Token b = "")
     || negb (bool_decide (cr_Token b = li_Token i)) || negb (cr_GatewayPID b =? li_PanePID i)
     || bool_decide (cr_GatewayStart b = "") || (cr_RuntimePID b <=? 0) || bool_decide (cr_RuntimeStart b = "")
     || bool_decide (cr_Connection b = "") || bool_decide (cr_InputPipe b = "") || bool_decide (cr_OutputPipe b = "")
  then ret false
  else stmt (fun s => Ok (registerStmt (lifeSnapshot row) b s)).

Definition ReadCursorRuntime (id : string) : Op CursorRuntime :=
  r <- read (fun s => db_runtimes s !! id);;
  match r with Some b => ret (b <| cr_InstanceID := id |>) | None => fail ENoRows end.

(** SetCursorRuntimeSession and MarkCursorRuntimeGone *)
Definition sessionOpen (cr : CursorRuntime) : tvl :=
  (sql_eq (Some (cr_SessionID cr)) (Some "") AND sql_eq (Some (cr_Terminated cr)) (Some false)).

Definition SetCursorRuntimeSession (b : CursorRuntime) (sid : string) : Op bool :=
  stmt (fun s =>
    let '(n, s') := updRuntimes (fun cr => (sessionOpen cr AND cursorBindingMatchSQL b cr
                                            AND Some (launchOfBinding isPending s cr))) (bindSession sid) s in
    Ok ((0 <? n)%nat, s')).

Definition MarkCursorRuntimeGone (b : CursorRuntime) : Op bool :=
  stmt (fun s =>
    let '(n, s') := updRuntimes (fun cr => (cursorBindingMatchSQL b cr
                                            AND Some (launchOfBinding (fun _ => Some true) s cr)))
                      (fun cr => cr <| cr_Terminated := true |>) s in
    Ok ((0 <? n)%nat, s')).

(** BindLoadedCursorSession: [current1] and [current2] are the callback's two
    answers, [late] whether the context or the clock reached the bound. *)
Definition loadedRow (b : CursorRuntime) (path : string) (row : SpawnRow) (r : SpawnRow) : tvl :=
  let i := lifeIdentity row in
  (isPending r AND sql_eq (sp_session_id r) (Some (cr_SessionID b)) AND sql_eq (sp_jsonl_path r) (Some path)
   AND snapshotMatchSQL r (lifeSnapshot row)
   AND sql_eq (Some (coalesce (sp_tmux_socket r) "")) (Some (li_Socket i))
   AND sql_eq (Some (coalesce (sp_tmux_server_pid r) 0)) (Some (li_ServerPID i))
   AND sql_eq (Some (coalesce (sp_tmux_server_started r) 0)) (Some (li_ServerStart i))
   AND sql_eq (Some (coalesce (sp_tmux_server_starttime r) "")) (Some (li_ServerStarttime i))
   AND sql_eq (Some (coalesce (sp_pane_id r) "")) (Some (li_PaneID i))).

Definition BindLoadedCursorSession (id : string) (row : SpawnRow) (b : CursorRuntime) (path : string)
    (current1 late current2 : bool) : Op bool :=
  let i := lifeIdentity row in
  if cr_Terminated b || negb (bool_decide (cr_InstanceID b = id)) || negb (cr_GatewayPID b =? li_PanePID i)
     || negb (bool_decide (cr_GatewayStart b = li_PaneStarttime i)) || bool_decide (cr_SessionID b = "")
     || negb (bool_decide (coalesce (sp_session_id row) "" = cr_SessionID b))
     || negb (bool_decide (coalesce (sp_jsonl_path row) "" = path)) || bool_decide (path = "")
     || negb (bool_decide (li_Token i = cr_Token b)) || negb (sp_life_number row =? cr_Life b)
  then ret false
  else
    txBounded
      (if negb current1 || late then tfail ECursorLoad
       else
         n <-- tstmt (fun s => Ok (updRuntimes
                (fun cr => (sessionOpen cr AND cursorBindingMatchSQL b cr
                            AND Some (launchOfBinding (loadedRow b path row) s cr)))
                (bindSession (cr_SessionID b)) s));;
         if negb current2 then tfail ECursorLoad else tret (n =? 1)%nat).

(** ** Authority *)

Definition CursorCheck : Type := option (SpawnRow -> option error).

Definition launchAuthority (b : CursorRuntime) (pendingPath : string) (r : SpawnRow) : bool :=
  let i := lifeIdentity r in
  negb (bool_decide (cr_SessionID b = "") || cr_Terminated b
        || negb (bool_decide (coalesce (sp_agent r) "" = AgentCursor))
        || negb (bool_decide (li_Token i = cr_Token b)) || negb (sp_life_number r =? cr_Life b)
        || negb (li_PanePID i =? cr_GatewayPID b) || negb (bool_decide (li_PaneStarttime i = cr_GatewayStart b))
        || negb (bool_decide (coalesce (sp_session_id r) "" = cr_SessionID b))
        || bool_decide (sp_state r = StateEnded) || bool_decide (sp_state r = StateMissing)
        || (bool_decide (sp_state r = StatePending)
            && (bool_decide (pendingPath = "") || negb (bool_decide (coalesce (sp_jsonl_path r) "" = pendingPath))))).

Definition connectionCond (b cr : CursorRuntime) : tvl :=
  (cursorBindingMatchSQL b cr AND sql_eq (Some (cr_SessionID cr)) (Some (cr_SessionID b))
   AND sql_eq (Some (cr_Terminated cr)) (Some false)).

Definition cursorAuthorityForPrompt (b : CursorRuntime) (until : option Z) (check : CursorCheck)
    (pendingPath : string) (now : Z) : Tx Store SpawnRow :=
  row <-- tread (fun s => db_spawns s !! cr_InstanceID b);;
  match row with
  | None => tfail ENoRows
  | Some r =>
      if negb (launchAuthority b pendingPath r) then tfail ECursorAuthority
      else
        n <-- tread (countRuntimes (connectionCond b));;
        if negb (n =? 1)%nat then tfail ECursorAuthority
        else match check with
             | None => tfail ECursorEvidence
             | Some evidence =>
                 match evidence r with
                 | Some e => tfail e
                 | None => if bool_decide (is_Some until) && negb (Before now until) then tfail ECursorDeadline else tret r
                 end
             end
  end.
Definition cursorAuthority (b : CursorRuntime) (until : option Z) (check : CursorCheck) (now : Z) : Tx Store SpawnRow :=
  cursorAuthorityForPrompt b until check "" now.

Section CursorWrites.
Context (settleMs : Z).

(** The SET of the gateway's moves of its row. *)
Definition cursorMoveSet (v : string) : fragment := fun s r =>
  rowVersionAdvance (livenessClear (transitionSet settleMs v s r)).

(** ** Requests (cursor_permission.go) *)

Definition cursorRequestInsert (b : CursorRuntime) (req : RelayRequest) (s : Store) : result (option Z * Store) :=
  match insertRequest (fun rid r =>
          newRequest rid (cr_InstanceID b) (rq_RequestToken req) (rq_ToolName req) (rq_ToolInput req) (nowSec s)
            (mkProcessIdentity 0 "" "") (Some (rq_ToolUseID req)) None (millisArg (rq_SettledAt req)) false
            (sp_launch_token r) (sp_permission_epoch r) (db_now s))
          (cr_InstanceID b) (rq_RequestToken req) s with
  | Err _ => Err EDriver
  | Ok x => Ok x
  end.

Definition insertCursorBody (b : CursorRuntime) (req : RelayRequest) (cap : Z) (until : option Z) (check : CursorCheck)
    (now : nat -> Z) : Tx Store (string * Z) :=
  row <-- cursorAuthority b until check (now 0%nat);;
  tstmt (fun s => Ok (condUpdate (cr_InstanceID b) noCond (cursorMoveSet StateCheckPermission) s));;>
  rid <-- tstmt (cursorRequestInsert b req);;
  evictClosedRequests cap;;>
  tstmt (fun s => Ok (tt, refreshFamiliesAfterStateChange settleMs (sp_state row) StateCheckPermission [] s));;>
  tret (sp_state row, default 0 rid).

Definition InsertCursorRequest (b : CursorRuntime) (req : RelayRequest) (cap : Z) (until : option Z)
    (check : CursorCheck) (now : nat -> Z) : Op unit :=
  if bool_decide (rq_RequestToken req = "") || bool_decide (rq_ToolUseID req = "") || IsZero (rq_SettledAt req)
     || negb (bool_decide (rq_Hook req = mkProcessIdentity 0 "" ""))
  then fail ECursorRequest
  else
    r <- txBounded (insertCursorBody b req cap until check now);;
    emit (EvStateTransition (cr_InstanceID b) (fst r) StateCheckPermission "PermissionRequest" false);;;
    emit (EvRowMutation (cr_InstanceID b) (rq_RequestToken req) (snd r) (rq_ToolName req) None None
            WriterProcessCursorHost "insert").

(** AckCursorDecision: the verdict it may hand over, that it acked, and the
    request its own timeout denied. *)
Definition ackable (pr : PermissionRow) (until : option Z) (now : Z) : bool :=
  negb (Closed pr || ProvenGone pr || negb (bool_decide (pw_PaneAnswer pr = PaneAnswerNone)) || IsZero (pw_SettledAt pr)
        || negb (bool_decide (timeOf (pw_SettledAt pr) = until)) || negb (Before now (timeOf (pw_SettledAt pr)))).

Definition ackCursorBody (b : CursorRuntime) (token : string) (timeout : bool) (until allowUntil : option Z)
    (check : CursorCheck) (now : nat -> Z) : Tx Store (string * bool * option (Z * string)) :=
  let id := cr_InstanceID b in
  cursorAuthority b until check (now 0%nat);;>
  found <-- tread (fun s => find (fun pr => where3 (ofToken id token pr)) (db_requests s));;
  match found with
  | None => tret ("", false, None)
  | Some raw =>
      let pr := scanPermissionRow raw in
      if negb (ackable pr until (now 1%nat)) then tret ("", false, None)
      else
        let timeout := timeout || negb (Before (now 2%nat) allowUntil) in
        if bool_decide (pw_Decision pr = "allow") && negb (Before (now 3%nat) allowUntil) then tret ("", false, None)
        else
          denied <-- (if timeout
                      then updFirstNow (fun pr => where3 (denyRelayTimeoutCond id token pr))
                             (denyRelayTimeoutSet (stamped (now 4%nat))) idTool
                      else tret None);;
          match denied with
          | Some x => tret ("deny", true, Some x)
          | None =>
              acked <-- updFirst (fun pr => where3 (ackRelayDecisionCond id token pr))
                          (fun pr => pr <| pr_delivered_at := millisArg (stamped (now 5%nat)) |>)
                          (fun pr => coalesce (pr_decision pr) "");;
              tret (match acked with Some d => (d, true, None) | None => ("", false, None) end)
          end
  end.

Definition AckCursorDecision (b : CursorRuntime) (token : string) (timeout : bool) (until allowUntil : option Z)
    (check : CursorCheck) (now : nat -> Z) : Op (string * bool) :=
  r <- txBounded (ackCursorBody b token timeout until allowUntil check now);;
  let '(decision, acked, denied) := r in
  match denied with
  | Some (rid, tool) =>
      emit (decisionCommitted (cr_InstanceID b) token rid tool "deny" DecisionReasonTimeout WriterProcessCursorHost)
  | None => ret tt
  end;;;
  ret (decision, acked).

(** ClaimCursorPaneAnswer *)
Definition claimPaneCond (id token decision : string) (now : Z) (pr : PermReq) : tvl :=
  (ofToken id token pr AND is_null (pr_delivered_at pr) AND is_null (pr_closed_at pr) AND is_null (pr_proven_gone_at pr)
   AND ((sql_eq (Some (pr_pane_answer pr)) (Some PaneAnswerNone)
         AND (is_null (pr_decision pr) OR lift2 Z.leb (pr_settled_at pr) (millisArg (stamped now))))
        OR (sql_eq (Some (pr_pane_answer pr)) (Some PaneAnswerSent) AND sql_eq (pr_pane_as pr) (Some decision)))).
Definition claimPaneSet (decision : string) (now sec : Z) (pr : PermReq) : PermReq :=
  pr <| pr_pane_answer := PaneAnswerSent |> <| pr_pane_as := Some decision |> <| pr_decision := Some decision |>
     <| pr_decision_reason := Some DecisionReasonPane |> <| pr_decided_at := Some sec |>
     <| pr_hook_gone_at := coalesce2 (pr_hook_gone_at pr) (millisArg (stamped now)) |>.

Definition ClaimCursorPaneAnswer (b : CursorRuntime) (token decision : string) (until : option Z) (check : CursorCheck)
    (now : nat -> Z) : Op bool :=
  let id := cr_InstanceID b in
  r <- txBounded
    (cursorAuthority b until check (now 0%nat);;>
     updFirstNow (fun pr => where3 (claimPaneCond id token decision (now 2%nat) pr))
       (claimPaneSet decision (now 1%nat)) idTool);;
  match r with
  | Some (rid, tool) =>
      emit (decisionCommitted id token rid tool decision DecisionReasonPane WriterProcessCursorHost);;; ret true
  | None => ret false
  end.

(** CheckCursorAnswer *)
Definition answerHeld (id token : string) (relay : bool) (pr : PermReq) : tvl :=
  (ofToken id token pr AND is_null (pr_closed_at pr) AND is_null (pr_proven_gone_at pr)
   AND (if relay then (not_null (pr_delivered_at pr) AND sql_eq (Some (pr_pane_answer pr)) (Some PaneAnswerNone))
        else (sql_eq (Some (pr_pane_answer pr)) (Some PaneAnswerSent)
              AND sql_eq (pr_decision_reason pr) (Some DecisionReasonPane)))).
Definition CheckCursorAnswer (b : CursorRuntime) (token : string) (relay : bool) (until : option Z) (check : CursorCheck)
    (now : nat -> Z) : Op unit :=
  txBounded
    (cursorAuthority b until check (now 0%nat);;>
     n <-- tread (fun s => length (filter (fun pr => where3 (answerHeld (cr_InstanceID b) token relay pr) = true)
                                     (db_requests s)));;
     if negb (n =? 1)%nat || negb (Before (now 1%nat) until) then tfail ECursorAnswer else tret tt).

(** proveCursorTool: [ran] is a tool that ran, not one that failed. *)
Definition unanswered (pr : PermReq) : tvl :=
  (is_null (pr_delivered_at pr) AND Some (bool_decide (pr_pane_answer pr ∈ [PaneAnswerNone; PaneAnswerIntent]))).

Definition proveToolCond (id token tool : string) (ran : bool) (pr : PermReq) : tvl :=
  (ofToken id token pr AND sql_eq (pr_tool_use_id pr) (Some tool) AND is_null (pr_closed_at pr)
   AND (is_null (pr_proven_gone_at pr) OR is_null (pr_proven_gone_how pr)
        OR (if ran then (unanswered pr OR is_null (pr_decision pr) OR is_null (pr_decision_reason pr)
                         OR is_null (pr_decided_at pr))
            else Some false))).

Definition proveToolSet (ran : bool) (now sec : Z) (pr : PermReq) : PermReq :=
  let p := pr <| pr_proven_gone_at := coalesce2 (pr_proven_gone_at pr) (millisArg (stamped now)) |>
              <| pr_proven_gone_how := coalesce2 (pr_proven_gone_how pr) (Some ProvenGoneToolRan) |> in
  if ran then
    p <| pr_pane_answer := case3 (unanswered pr) PaneAnswerToolRan (pr_pane_answer pr) |>
      <| pr_decision := coalesce2 (pr_decision pr) (Some "allow") |>
      <| pr_decision_reason := coalesce2 (pr_decision_reason pr) (Some DecisionReasonToolRan) |>
      <| pr_decided_at := coalesce2 (pr_decided_at pr) (Some sec) |>
  else p.

Definition moveToWorkingCond (id : string) : Store -> SpawnRow -> tvl := fun s r =>
  (sql_eq (Some (sp_state r)) (Some StateCheckPermission) AND noRequestHoldsRowSQL s id).

Definition proveToolBody (b : CursorRuntime) (token tool : string) (ran turnOpen : bool) (check : CursorCheck)
    (now : nat -> Z) : Tx Store (option (Z * string * string * string) * bool) :=
  let id := cr_InstanceID b in
  cursorAuthority b None check (now 0%nat);;>
  written <-- updFirstNow (fun pr => where3 (proveToolCond id token tool ran pr)) (proveToolSet ran (now 1%nat))
    (fun pr => (pr_request_id pr, pr_tool_name pr, coalesce (pr_decision pr) "", coalesce (pr_decision_reason pr) ""));;
  match written with
  | None => tret (None, false)
  | Some (rid, name, decision, reason) =>
      if negb turnOpen || bool_decide (decision = "deny") then tret (written, false)
      else
        moved <-- tstmt (fun s => Ok (condUpdate id (moveToWorkingCond id) (cursorMoveSet StateWorking) s));;
        if negb moved then tret (written, false)
        else
          tstmt (fun s => Ok (tt, refreshFamiliesAfterStateChange settleMs StateCheckPermission StateWorking [] s));;>
          tret (written, true)
  end.

Definition proveCursorTool (b : CursorRuntime) (token tool : string) (ran turnOpen : bool) (check : CursorCheck)
    (now : nat -> Z) : Op unit :=
  let id := cr_InstanceID b in
  r <- txBounded (proveToolBody b token tool ran turnOpen check now);;
  match fst r with
  | Some (rid, name, decision, reason) =>
      emit (decisionCommitted id token rid name decision reason WriterProcessCursorHost)
  | None => ret tt
  end;;;
  if (snd r : bool) then
    emit (EvStateTransition id StateCheckPermission StateWorking (if ran then "PostToolUse" else "PostToolUseFailure") false)
  else ret tt.
Definition ProveCursorToolRan (b : CursorRuntime) (token tool : string) (turnOpen : bool) (check : CursorCheck)
    (now : nat -> Z) : Op unit := proveCursorTool b token tool true turnOpen check now.
Definition ProveCursorToolFailed (b : CursorRuntime) (token tool : string) (turnOpen : bool) (check : CursorCheck)
    (now : nat -> Z) : Op unit := proveCursorTool b token tool false turnOpen check now.

(** ProveCursorTurnEnded *)
Definition turnEndedCond (id : string) (tokens : list string) (pr : PermReq) : tvl :=
  (ofSpawn id pr AND Some (bool_decide (pr_request_token pr ∈ tokens)) AND holdsRowSQL pr).
Definition ProveCursorTurnEnded (b : CursorRuntime) (tokens : list string) (until : option Z) (check : CursorCheck)
    (now : nat -> Z) : Op unit :=
  if bool_decide (tokens = []) then ret tt
  else
    txBounded
      (cursorAuthority b until check (now 0%nat);;>
       tstmt (fun s => Ok (tt, updateReqs (fun pr => where3 (turnEndedCond (cr_InstanceID b) tokens pr))
                                 (proveSet ProvenGoneTurnEnd (stamped (now 1%nat))) s))).

(** checkCursorPrompt (cursor_prompt.go) *)
Definition checkCursorPrompt (b : CursorRuntime) (until : option Z) (check : CursorCheck) (pendingPath : string)
    (now : nat -> Z) : Op bool :=
  txBounded
    (row <-- cursorAuthorityForPrompt b until check pendingPath (now 0%nat);;
     held <-- tread (fun s => length (filter (fun pr =>
                where3 (ofSpawn (cr_InstanceID b) pr AND cursorHoldsDialogSQL (li_Token (lifeIdentity row)) pr) = true)
                (db_requests s)));;
     if negb (Before (now 1%nat) until) then tfail ECursorDeadline else tret (held =? 0)%nat).
Definition CheckCursorPrompt (b : CursorRuntime) (until : option Z) (check : CursorCheck) (now : nat -> Z) : Op bool :=
  checkCursorPrompt b until check "" now.
Definition CheckLoadedCursorPrompt (b : CursorRuntime) (path : string) (until : option Z) (check : CursorCheck)
    (now : nat -> Z) : Op bool :=
  if bool_decide (path = "") then fail ECursorLoad else checkCursorPrompt b until check path now.

(** ** Rotation (cursor_rotation.go) *)

(** The session id a rotation may publish: no surrounding white space, at most
    512 bytes, no NUL or line break. *)
Definition validNextSession (next : string) : bool :=
  negb (bool_decide (next = "")) && bool_decide (TrimSpace next = next) && (len next <=? 512)
  && negb (containsByte (fun n => (n =? 0) || (n =? 13) || (n =? 10))%nat next).

Definition rotationSet (v next path : string) : fragment := fun s r =>
  rowVersionAdvance (launchStartClear (idleClear (livenessClear
    (hookWriteStateSet v settleMs (db_now s) r
      <| sp_session_id := Some next |> <| sp_jsonl_path := Some path |> <| sp_last_seen_at := nowSec s |>
      <| sp_ended_at := None |> <| sp_end_reported_at := None |>)))).

Definition rotationUnchanged (examined row : SpawnRow) (gate : HookGate) (b : CursorRuntime) (path : string) : bool :=
  bool_decide (lifeSnapshot row = lifeSnapshot examined) && bool_decide (lifeIdentity row = lifeIdentity examined)
  && (sp_life_number row =? sp_life_number examined)
  && bool_decide (coalesce (sp_jsonl_path row) "" = coalesce (sp_jsonl_path examined) "")
  && bool_decide (coalesce (sp_jsonl_path row) "" = path)
  && (g_ParentPID gate =? cr_GatewayPID b) && bool_decide (g_ParentStart gate = cr_GatewayStart b).

Definition rotateBody (examined : SpawnRow) (gate : HookGate) (b : CursorRuntime) (next path : string)
    (until : option Z) (check : CursorCheck) (now : nat -> Z) : Tx Store (string * string) :=
  let id := cr_InstanceID b in
  row <-- cursorAuthority b until check (now 1%nat);;
  if negb (rotationUnchanged examined row gate b path) then tfail ECursorRotation
  else
    reused <-- tread (fun s => bool_decide ((id, next) ∈ historyKey <$> db_history s));;
    if reused : bool then tfail ECursorRotation
    else
      held <-- tread (fun s => requestHoldsRow s id);;
      let state := if held : bool then StateCheckPermission else StateWaiting in
      n <-- tstmt (fun s => Ok (condUpdate id
             (fun s r => (hookGateSQL s gate id r AND snapshotMatchSQL r (lifeSnapshot examined)))
             (rotationSet state next path) s));;
      if negb n then tfail ECursorRotation
      else
        tstmt (upsertSessionHistoryEntry id (cr_SessionID b) (coalesce (sp_jsonl_path row) "") (cr_Life b));;>
        m <-- tstmt (fun s => Ok (updRuntimes (connectionCond b) (bindSession next) s));;
        if negb (m =? 1)%nat then tfail ECursorRotation
        else if negb (Before (now 2%nat) until) then tfail ECursorDeadline
        else
          tstmt (fun s => Ok (tt, refreshFamiliesAfterStateChange settleMs (sp_state row) state [] s));;>
          tret (sp_state row, state).

Definition RotateCursorSession (examined : SpawnRow) (gate : HookGate) (next path : string) (until : option Z)
    (check : CursorCheck) (now : nat -> Z) : Op bool :=
  match g_Cursor gate with
  | None => fail ECursorRotation
  | Some b =>
      if cr_Terminated b || negb (bool_decide (g_SessionID gate = cr_SessionID b)) || negb (validNextSession next)
         || bool_decide (next = g_SessionID gate) || bool_decide (path = "") || negb (Before (now 0%nat) until)
      then fail ECursorRotation
      else
        r <- txBounded (rotateBody examined gate b next path until check now);;
        emit (EvArchived (cr_InstanceID b) (cr_SessionID b) next);;;
        emit (EvStateTransition (cr_InstanceID b) (fst r) (snd r) "SessionStart" false);;;
        ret true
  end.

(** ReconcileCursorRotation: committed, or the outgoing snapshot unchanged. *)
Definition rotationBinding (previous : CursorRuntime) (examined : SpawnRow) (path : string) (s : Store)
    (cr : CursorRuntime) : option SpawnRow :=
  let i := lifeIdentity examined in
  match db_spawns s !! cr_InstanceID cr with
  | Some r =>
      if where3 (cursorBindingMatchSQL previous cr AND sql_eq (Some (cr_Terminated cr)) (Some false)
                 AND sql_eq (sp_agent r) (Some AgentCursor) AND sql_eq (sp_jsonl_path r) (Some path)
                 AND sql_eq (sp_launch_token r) (Some (li_Token i))
                 AND sql_eq (Some (sp_life_number r)) (Some (sp_life_number examined))
                 AND sql_is (sp_tmux_socket r) (Some (li_Socket i))
                 AND sql_is (sp_tmux_server_pid r) (Some (li_ServerPID i))
                 AND sql_is (sp_tmux_server_started r) (Some (li_ServerStart i))
                 AND sql_is (sp_tmux_server_starttime r) (Some (li_ServerStarttime i))
                 AND sql_is (sp_pane_id r) (Some (li_PaneID i)) AND sql_is (sp_pane_pid r) (Some (li_PanePID i))
                 AND sql_is (sp_pane_starttime r) (Some (li_PaneStarttime i)))
      then Some r else None
  | None => None
  end.

Definition archivedIn (id session : string) (life : Z) (path : option string) (s : Store) : bool :=
  existsb (fun h => bool_decide (hi_instance_id h = id) && bool_decide (hi_session_id h = session)
                    && (hi_life_number h =? life)
                    && match path with Some p => bool_decide (hi_jsonl_path h = Some p) | None => true end)
    (db_history s).

Definition reconcileRotation (previous : CursorRuntime) (examined : SpawnRow) (next path : string) (s : Store)
    : bool * bool :=
  let bindings := omap (fun p => (fun r => (snd p, r)) <$> rotationBinding previous examined path s (snd p))
                    (map_to_list (db_runtimes s)) in
  let archived p x := archivedIn (cr_InstanceID (fst x)) (cr_SessionID previous) (cr_Life previous) p s in
  (existsb (fun x => bool_decide (cr_SessionID (fst x) = next) && bool_decide (sp_session_id (snd x) = Some next)
                     && archived (Some path) x) bindings,
   existsb (fun x => bool_decide (cr_SessionID (fst x) = cr_SessionID previous)
                     && bool_decide (sp_session_id (snd x) = Some (cr_SessionID previous))
                     && where3 (snapshotMatchSQL (snd x) (lifeSnapshot examined))
                     && negb (archived None x)) bindings).

Definition ReconcileCursorRotation (previous : CursorRuntime) (examined : SpawnRow) (next path : string)
    : Op (bool * bool) := read (reconcileRotation previous examined next path).
Definition ObserveCursorRotation (previous : CursorRuntime) (examined : SpawnRow) (next path : string) : Op bool :=
  r <- ReconcileCursorRotation previous examined next path;;
  ret (fst r).

(** ** A lost gateway (cursor_missing_read.go, cursor_runtime.go) *)

Definition cursorRuntimeAbsent (b : CursorRuntime) : bool :=
  (cr_RuntimePID b =? 0) && bool_decide (cr_RuntimeStart b = "") && bool_decide (cr_Connection b = "")
  && bool_decide (cr_InputPipe b = "") && bool_decide (cr_OutputPipe b = "") && (cr_InputFD b =? 0)
  && (cr_OutputFD b =? 0) && negb (cr_Terminated b).

(** The guard of a terminal write, [None] when the examined row and binding
    prove nothing. *)
Definition missingRow (row : SpawnRow) (r : SpawnRow) : tvl :=
  let i := lifeIdentity row in
  (liveStateGuardSQL r AND snapshotMatchSQL r (lifeSnapshot row) AND sql_eq (sp_agent r) (Some AgentCursor)
   AND sql_eq (sp_launch_token r) (Some (li_Token i)) AND sql_eq (Some (sp_life_number r)) (Some (sp_life_number row))
   AND sql_eq (sp_pane_pid r) (Some (li_PanePID i)) AND sql_eq (sp_pane_starttime r) (Some (li_PaneStarttime i))
   AND sql_eq (Some (coalesce (sp_tmux_socket r) "")) (Some (li_Socket i))
   AND sql_eq (Some (coalesce (sp_tmux_server_pid r) 0)) (Some (li_ServerPID i))
   AND sql_eq (Some (coalesce (sp_tmux_server_started r) 0)) (Some (li_ServerStart i))
   AND sql_eq (Some (coalesce (sp_tmux_server_starttime r) "")) (Some (li_ServerStarttime i))
   AND sql_eq (Some (coalesce (sp_pane_id r) "")) (Some (li_PaneID i))
   AND sql_eq (Some (coalesce (sp_jsonl_path r) "")) (Some (coalesce (sp_jsonl_path row) ""))).

Definition cursorMissingGuard (id : string) (row : SpawnRow) (b : CursorRuntime)
    : option (Store -> SpawnRow -> tvl) :=
  let i := lifeIdentity row in
  if negb (bool_decide (coalesce (sp_agent row) "" = AgentCursor)) || negb (bool_decide (id = cr_InstanceID b))
     || bool_decide (li_Token i = "") || (li_PanePID i <=? 0) || bool_decide (li_PaneStarttime i = "")
  then None
  else if cursorRuntimeAbsent b
          && (negb (bool_decide (li_Token i = cr_Token b)) || negb (sp_life_number row =? cr_Life b)
              || negb (li_PanePID i =? cr_GatewayPID b) || negb (bool_decide (li_PaneStarttime i = cr_GatewayStart b))
              || negb (bool_decide (coalesce (sp_session_id row) "" = cr_SessionID b)))
  then None
  else Some (fun s r =>
    (missingRow row r
     AND Some (if cursorRuntimeAbsent b
               then (countRuntimes (fun cr => sql_eq (Some (cr_InstanceID cr)) (Some id)) s =? 0)%nat
               else (0 <? countRuntimes (fun cr => (cursorBindingMatchSQL b cr
                         AND sql_eq (Some (cr_SessionID cr)) (Some (cr_SessionID b))
                         AND sql_eq (Some (cr_Terminated cr)) (Some (cr_Terminated b)))) s)%nat))).

(** terminalMarkOnConn in terminalMarkWithoutWait: absent and refused rows
    commit nothing. *)
Definition markWithoutWaitBody (id : string) (q : Store -> bool * Store) (reason : string)
    : Tx Store (string * CondResult * list closedRequest * list Event) :=
  prior <-- tread (fun s => sp_state <$> db_spawns s !! id);;
  match prior with
  | None => tret ("", CondAbsent, [], [])
  | Some prior =>
      n <-- tstmt (fun s => Ok (q s));;
      if negb n then tret ("", CondChanged, [], [])
      else
        at_ <-- tread storeNowMillis;;
        closed <-- closeOrphanedRequests id reason at_;;
        closeSubagentsAgentGone id at_;;>
        exits <-- takeDisplayExits id;;
        tstmt (fun s => Ok (tt, refreshFamiliesAfterStateChange settleMs prior StateMissing exits s));;>
        tret (prior, CondApplied, closed, exits)
  end.

Definition terminalMarkWithoutWait (id : string) (q : Store -> bool * Store) (reason : string)
    : Op (string * CondResult) :=
  r <- txBounded (markWithoutWaitBody id q reason);;
  let '(prior, res, closed, exits) := r in
  (if bool_decide (res = CondApplied) then emits (exits ++ (closed ≫= emitTerminalCloseout id reason)) else ret tt);;;
  ret (prior, res).

Definition MarkCursorMissingIfSameLaunch (id : string) (row : SpawnRow) (b : CursorRuntime) : Op (string * CondResult) :=
  match cursorMissingGuard id row b with
  | None => ret ("", CondChanged)
  | Some guard => terminalMarkWithoutWait id (condUpdate id guard (terminalSet StateMissing)) DecisionReasonFindMissing
  end.

(** A failed runtime: a retired binding is as good a proof of its death. *)
Definition MarkFailedCursorRuntimeMissing (id : string) (row : SpawnRow) (b : CursorRuntime) : Op (string * CondResult) :=
  let i := lifeIdentity row in
  if cursorRuntimeAbsent b || negb (bool_decide (li_Token i = cr_Token b)) || negb (sp_life_number row =? cr_Life b)
     || negb (li_PanePID i =? cr_GatewayPID b) || negb (bool_decide (li_PaneStarttime i = cr_GatewayStart b))
  then ret ("", CondChanged)
  else
    match cursorMissingGuard id row b with
    | None => ret ("", CondChanged)
    | Some guard =>
        let guard :=
          if cr_Terminated b then guard
          else fun s r => (guard s r OR match cursorMissingGuard id row (b <| cr_Terminated := true |>) with
                                        | Some retired => retired s r
                                        | None => None
                                        end) in
        terminalMarkWithoutWait id (condUpdate id guard (terminalSet StateMissing)) DecisionReasonFindMissing
    end.

(** ReadLiveCursorSpawn *)
Definition ReadLiveCursorSpawn (id : string) : Op (option SpawnRow) :=
  read (fun s => match db_spawns s !! id with
                 | Some r => if where3 (sql_eq (sp_agent r) (Some AgentCursor) AND liveStateGuardSQL r) then Some r else None
                 | None => None
                 end).

(** What a read projects: missing while a proof's guard holds, and the refusal
    of a row the projection left live. *)
Definition cursorMissingState (proofs : list (string * SpawnRow * CursorRuntime)) (s : Store) (id : string) (r : SpawnRow)
    (expr : string) : string :=
  if existsb (fun p => let '(pid, row, b) := p in
       match cursorMissingGuard pid row b with
       | Some guard => bool_decide (pid = id) && where3 (guard s r)
       | None => false
       end) proofs
  then StateMissing else expr.

Definition validateCursorMissingRead (proofs : list (string * SpawnRow * CursorRuntime)) (id state : string) (row : SpawnRow)
    : bool :=
  negb (existsb (fun p => let '(pid, r, _) := p in
    let i := lifeIdentity r in let j := lifeIdentity row in
    bool_decide (coalesce (sp_agent row) "" = AgentCursor) && IsLiveState state && bool_decide (id = pid)
    && bool_decide (li_Token j = li_Token i) && (sp_life_number row =? sp_life_number r)
    && (li_PanePID j =? li_PanePID i) && bool_decide (li_PaneStarttime j = li_PaneStarttime i)) proofs).
End CursorWrites.
