(* ===== verification/Handler.v ===== *)
(** * The hook (internal/hook: handler.go, noexec.go)

    [Handle]: one hook process from its standard input to its standard
    output. It captures its parent, classifies the payload and makes the
    event's gated write through the store's operations; a relayed
    PermissionRequest runs the relay hook. A failure of the store ends in no
    output, but for a relayed PermissionRequest, which is denied. Exactly one
    ad.hook.fired records the run. What the operating system answers, the
    clock's readings and the callbacks its caller wires are the configuration
    ([HandleConfig]); instants are nanoseconds. *)

From S2P Require Import Prelude Sql Text Rows ContextSource Requests Settle Family History Steps Gate HookWrites SubagentWrites RelayWrites HookEnv Payload Classify SubagentHook RelayHook Lifecycle Capacity CursorWrites.

Definition outcomeText (o : UpsertOutcome) : string :=
  match o with
  | UpsertInserted => "inserted"
  | UpsertUpdated => "updated"
  | UpsertNoChange => "no_change"
  | UpsertError => "error"
  end.

(** ** The configuration *)

(** The readings of SessionStart's wait: the clock when it begins, and of each
    turn the clock before its sleep, whether the context ended in it, and the
    clock after its read. *)
Record WaitTurn := mkWaitTurn { wt_now : Z; wt_cancelled : bool; wt_after : Z }.

Record HandleConfig := mkHandleConfig {
  hc_Agent : string;
  hc_ContextSource : string;
  hc_Getenv : string -> string;
  hc_Cfg : RelayConfig;
  hc_EffectiveTimeoutSeconds : Z;
  hc_Parent : HookEnv;
  hc_VerifyCursor : option (CursorRuntime -> string -> bool -> bool);          (* true: no error *)
  hc_VerifyCursorRotation : option (CursorRuntime -> string -> SpawnRow -> option error);
  hc_Start : Z;
  hc_RelayTimeout : Z;
  hc_RelayHookGone : option (PermissionRow -> bool);
  hc_PendingGrace : Z;
  hc_HasNow : bool;
  hc_Present : string -> bool;                    (* os.Stat finds the path *)
  hc_ProveAt : Z;
  hc_CloseAt : Z;
  hc_WaitStart : Z;
  hc_WaitTurn : nat -> WaitTurn;
  hc_Relay : RelayEnv;                            (* but its kill instant *)
  hc_RotationNow : nat -> Z;
  hc_ParseDeadline : string -> option Z;          (* time.Parse of RFC3339Nano *)
}.

Definition transcriptPresent (hc : HandleConfig) (path : string) : bool :=
  if bool_decide (path = "") then false else hc_Present hc path.

Section Handler.
Context (settleMs : Z) (startupText : CodexStartup -> string) (rawText : json -> string)
  (capacityText : ClaudeCapacity -> string) (capacityParse : string -> option ClaudeCapacity)
  (parse : string -> rawPayload) (parseCallback : string -> option Callback)
  (transcript : string -> option (list (option claudeRecord))).

(** ** SessionStart *)

(** A write's result: [sw_Failed] is an error, [sw_Examined] the row it last
    examined. *)
Record StartWrite := mkStartWrite {
  sw_Applied : HookApplied;
  sw_Outcome : UpsertOutcome;
  sw_Examined : option SpawnRow;
  sw_Failed : bool;
}.

Fixpoint writeSessionStart (attempts : nat) (id : string) (gate : HookGate) (path : string) (present : bool) : Op StartWrite :=
  match attempts with
  | O => ret (mkStartWrite notApplied UpsertNoChange None false)
  | S attempts =>
      catch (GetSpawn id) (fun r => match r with
        | Err ESpawnNotFound => ret (mkStartWrite notApplied UpsertNoChange None false)
        | Err _ => ret (mkStartWrite notApplied UpsertError None true)
        | Ok sp =>
            catch (RecordSessionStartIdentity settleMs startupText id (gate <| g_Examined := lifeSnapshot sp |>) path present)
              (fun r => match r with
               | Err _ => ret (mkStartWrite notApplied UpsertError (Some sp) true)
               | Ok (applied, changed) =>
                   if ha_Applied applied then ret (mkStartWrite applied UpsertUpdated (Some sp) false)
                   else if negb changed then ret (mkStartWrite applied UpsertNoChange (Some sp) false)
                   else writeSessionStart attempts id gate path present
               end)
        end)
  end.

Definition sessionStartWaitInterval : Z := 250 * millisecond.
Definition sessionStartWaitCap : Z := 540 * second.

Definition launchStartedAtMillis (r : SpawnRow) : Z := decodeLaunchStartedAt (dval_int (sp_launch_started_at r)).

Definition waitingForIdentity (sp : SpawnRow) (grace now : Z) : bool :=
  (li_PanePID (lifeIdentity sp) =? 0)
  && InsidePendingGrace (sp_state sp) (launchStartedAtMillis sp) (Z.quot grace millisecond) (now / millisecond).

(** The wait's re-reads, turn [i] on, at most [reads] more. *)
Fixpoint waitReads (reads : nat) (hc : HandleConfig) (id : string) (examined : SpawnRow) (bound capEnd : Z) (i : nat) : Op unit :=
  match reads with
  | O => ret tt
  | S reads =>
      let t := hc_WaitTurn hc i in
      if Z.min (Z.min (timeSub bound (wt_now t)) (timeSub capEnd (wt_now t))) sessionStartWaitInterval <=? 0 then ret tt
      else if wt_cancelled t then ret tt
      else
        catch (GetSpawn id) (fun r => match r with
          | Err _ => ret tt
          | Ok sp =>
              if negb (bool_decide (sp_state sp = sp_state examined))
                 || negb (rs_RowVersion (lifeSnapshot sp) =? rs_RowVersion (lifeSnapshot examined))
                 || negb (waitingForIdentity sp (hc_PendingGrace hc) (wt_after t))
              then ret tt
              else waitReads reads hc id examined bound capEnd (S i)
          end)
  end.

Definition waitBound (hc : HandleConfig) (examined : SpawnRow) : Z :=
  launchStartedAtMillis examined * millisecond + hc_PendingGrace hc.
Definition maxReads (hc : HandleConfig) (examined : SpawnRow) : Z :=
  Z.quot (Z.min (timeSub (waitBound hc examined) (hc_WaitStart hc)) sessionStartWaitCap) sessionStartWaitInterval + 1.

Definition waitForLaunchIdentity (hc : HandleConfig) (id : string) (examined : SpawnRow) : Op bool :=
  if negb (hc_HasNow hc) || (hc_PendingGrace hc <=? 0) then ret false
  else if negb (waitingForIdentity examined (hc_PendingGrace hc) (hc_WaitStart hc)) then ret false
  else
    waitReads (Z.to_nat (maxReads hc examined)) hc id examined (waitBound hc examined)
      (hc_WaitStart hc + sessionStartWaitCap) 0;;;
    ret true.

Definition recordSessionStart (hc : HandleConfig) (id : string) (gate : HookGate) (path : string) (present : bool) : Op StartWrite :=
  let gate := gate <| g_SessionStart := true |> in
  w <- writeSessionStart 2 id gate path present;;
  if sw_Failed w || ha_Applied (sw_Applied w) || negb (bool_decide (ha_Reason (sw_Applied w) = HookReasonNoPaneRecorded))
  then ret w
  else
    waited <- (match sw_Examined w with Some sp => waitForLaunchIdentity hc id sp | None => ret false end);;
    if negb waited then ret w else writeSessionStart 2 id gate path present.

(** ** Every other event *)

(** The gated write: its outcome, and whether it applied; [None] applied is an
    error. *)
Definition outcomeOf (m : Op (UpsertOutcome * HookApplied)) : Op (UpsertOutcome * option HookApplied) :=
  catch m (fun r => ret (match r with
    | Ok (o, a) => (o, Some a)
    | Err _ => (UpsertError, None)
    end)).

Definition applyOrdinaryHook (id : string) (gate : HookGate) (res : ClassifyResult) (path : string) (present : bool)
    : Op (UpsertOutcome * HookApplied) :=
  if c_WaitingIfWorking res then ApplyHookWaitingIfWorking settleMs id gate (c_EventName res) path present
  else ApplyHookTransitionResult settleMs id gate (c_NewState res) (c_SoftRefresh res) (c_EventName res) path present.

Definition applySubagentLifecycle (hc : HandleConfig) (id : string) (gate : HookGate) (res : ClassifyResult) (raw : rawPayload)
    (path : string) (present : bool) : Op (UpsertOutcome * HookApplied) :=
  ApplySubagentLifecycle settleMs id gate (lifecycleEvent res raw (hc_Start hc / millisecond)) (c_EventName res) path present.

Definition applyHook (hc : HandleConfig) (id : string) (gate : HookGate) (res : ClassifyResult) (raw : rawPayload)
    (path : string) (present : bool) : Op (UpsertOutcome * HookApplied) :=
  if isSubagentLifecycle res then applySubagentLifecycle hc id gate res raw path present
  else if c_EndReport res then ApplyHookEndReport settleMs id gate (c_EventName res) path present
  else applyOrdinaryHook id gate res path present.

(** A write the hook makes and whose failure it only logs. *)
Definition logged {A} (m : Op A) : Op unit := catch m (fun _ => ret tt).

Definition closeToolRanOf (hc : HandleConfig) (id : string) (gate : HookGate) (toolUseID : string) : Op unit :=
  logged (CloseToolRanRequests id gate toolUseID (instant (hc_CloseAt hc)) (hc_RelayHookGone hc)).

Definition proofOf (hc : HandleConfig) (res : ClassifyResult) : option RequestProof :=
  if ToolRan res then Some (mkProof ProvenGoneToolRan (c_ToolUseID res) None (instant (hc_ProveAt hc)))
  else if TurnEnded res then Some (mkProof ProvenGoneTurnEnd "" (instant (hc_Start hc)) (instant (hc_ProveAt hc)))
  else None.
Definition proveRequestsGone (hc : HandleConfig) (id : string) (gate : HookGate) (res : ClassifyResult) : Op unit :=
  match proofOf hc res with
  | Some proof => logged (ProveRequestsGone id gate proof (instant (hc_ProveAt hc)))
  | None => ret tt
  end.

Definition healCodexTranscript (hc : HandleConfig) (id : string) (res : ClassifyResult) (path : string) : Op unit :=
  if negb (c_HealsTranscript res) || bool_decide (c_SessionID res = "") || bool_decide (path = "") then ret tt
  else if negb (strContains (Base path) (c_SessionID res)) || negb (transcriptPresent hc path) then ret tt
  else logged (HealJsonlPath id (c_SessionID res) path).

Definition runSubagentAfterWrite (hc : HandleConfig) (id : string) (gate : HookGate) (res : ClassifyResult) (raw : rawPayload)
    : Op unit :=
  match subagentAfterWrite res raw (hc_Start hc / millisecond) with
  | None => ret tt
  | Some w =>
      let apply := logged (ApplySubagentAfterWrite settleMs id gate w) in
      match aw_TurnEnd w with
      | None => apply
      | Some te =>
          catch (SubagentTurnEndHasWork id te) (fun r => match r with
            | Ok true => apply
            | _ => ret tt
            end)
      end
  end.

(** ** Handle *)

(** ad.hook.fired's fields, and what the hook wrote on its standard output. *)
Record HookRun := mkRun {
  hr_stdout : option Envelope;
  hr_id : option string;
  hr_event : option string;
  hr_tool : option string;
  hr_session : string;
  hr_outcome : option UpsertOutcome;
  hr_token : option string;
}.
#[export] Instance eta_HookRun : Eta HookRun := fun r =>
  mkRun (hr_stdout r) (hr_id r) (hr_event r) (hr_tool r) (hr_session r) (hr_outcome r) (hr_token r).
#[export] Instance set_hr_stdout : Setter hr_stdout. Proof. solve_setter. Defined.
#[export] Instance set_hr_outcome : Setter hr_outcome. Proof. solve_setter. Defined.
#[export] Instance set_hr_token : Setter hr_token. Proof. solve_setter. Defined.

Definition noRun : HookRun := mkRun None None None None "" None None.

(** failClosed's envelope. *)
Definition denied (relayActive : bool) (event : string) : option Envelope :=
  if relayActive && bool_decide (event = EventNamePermissionRequest) then Some (EncodeDecision event "deny" "") else None.

(** The struct a Cursor hook's claim decodes into; [None] is an error. *)
Record CursorClaimed := mkClaimed { cm_Connection : string; cm_Previous : string; cm_Deadline : string }.
Definition cursorClaim (raw : rawPayload) : option CursorClaimed :=
  match raw with
  | RawJson (JObject kvs) =>
      if existsb (fun f => stringTypeError f kvs) ["cursor_connection"; "cursor_previous_session"; "cursor_rotation_deadline"]
      then None
      else Some (mkClaimed (stringField "cursor_connection" kvs) (stringField "cursor_previous_session" kvs)
                   (stringField "cursor_rotation_deadline" kvs))
  | RawJson JNull => Some (mkClaimed "" "" "")
  | _ => None
  end.

(** What a Cursor hook's admission gives: the end of the hook with the
    envelope it writes, or the gate to go on with. *)
Definition cursorAdmits (hc : HandleConfig) (parent : parentIdentity) (res : ClassifyResult) (path : string)
    (claim : CursorClaimed) (b : CursorRuntime) : bool :=
  let ended := bool_decide (c_EventName res = "SessionEnd") in
  negb (bool_decide (cm_Connection claim = "") || negb (bool_decide (cm_Connection claim = cr_Connection b))
        || bool_decide (cr_SessionID b = "") || negb (cr_GatewayPID b =? pa_pid parent)
        || negb (bool_decide (cr_GatewayStart b = pa_start parent)))
  && negb (bool_decide (cm_Previous claim = "") && negb (bool_decide (cr_SessionID b = c_SessionID res)))
  && eqb (cr_Terminated b) ended
  && match hc_VerifyCursor hc with Some verify => verify b path ended | None => false end.

Definition rotationAdmitted (hc : HandleConfig) (res : ClassifyResult) (claim : CursorClaimed) (b : CursorRuntime) : bool :=
  negb (bool_decide (c_EventName res = "SessionEnd")) && bool_decide (c_EventName res = "SessionStart")
  && bool_decide (cm_Previous claim = cr_SessionID b) && negb (bool_decide (c_SessionID res = cr_SessionID b)).

Definition cursorRotation (hc : HandleConfig) (relayActive : bool) (event id : string) (gate : HookGate) (res : ClassifyResult)
    (path : string) (claim : CursorClaimed) (b : CursorRuntime) : Op (option Envelope) :=
  match hc_VerifyCursorRotation hc with
  | None => ret None
  | Some verify =>
      if negb (rotationAdmitted hc res claim b) then ret None
      else
        catch (GetSpawn id) (fun r => match r with
          | Err _ => ret None
          | Ok examined =>
              match hc_ParseDeadline hc (cm_Deadline claim) with
              | None => ret None
              | Some until =>
                  if negb (hc_RotationNow hc 0%nat <? until) || (hc_RotationNow hc 1%nat + 3 * second <? until) then ret None
                  else
                    catch (RotateCursorSession settleMs examined (gate <| g_SessionID := cr_SessionID b |>) (c_SessionID res) path
                             (Some until) (Some (verify b path)) (fun k => hc_RotationNow hc (2 + k)%nat))
                      (fun r => ret (match r with Ok _ => None | Err _ => denied relayActive event end))
              end
          end)
  end.

Definition admitCursor (hc : HandleConfig) (relayActive : bool) (event id : string) (parent : parentIdentity) (gate : HookGate)
    (res : ClassifyResult) (path : string) (raw : rawPayload) : Op (option Envelope + HookGate) :=
  if negb (bool_decide (c_Agent res = AgentCursor)) then ret (inr gate)
  else if negb (bool_decide (c_AgentID res = "")) || c_UnknownEvent res then ret (inl None)
  else
    catch (ReadCursorRuntime id) (fun r => match r with
      | Err _ => ret (inl None)
      | Ok b =>
          match cursorClaim raw with
          | None => ret (inl None)
          | Some claim =>
              if negb (cursorAdmits hc parent res path claim b) then ret (inl None)
              else
                let gate := gate <| g_Cursor := Some b |> in
                if bool_decide (cm_Previous claim = "") then ret (inr gate)
                else out <- cursorRotation hc relayActive event id gate res path claim b;; ret (inl out)
          end
      end).

Definition hookGateOf (parent : parentIdentity) (res : ClassifyResult) : HookGate :=
  codexTurnGate
    (mkGate (c_CodexStartup res) None (c_EventName res) (pa_pid parent) (pa_start parent)
       (if bool_decide (c_AgentID res = "") then c_SessionID res else "") false zeroSnapshot "" false false false) res.

Definition ignoredOf (id : string) (parent : parentIdentity) (res : ClassifyResult) (reason : string) (silent : bool) : ignoredHook :=
  mkIgnored id (c_EventName res) (c_SessionID res) parent reason silent.

(** The write of a SessionStart, and of every other event but a relayed
    PermissionRequest: the run, and the applied flag ([None] after a
    failure). *)
Definition sessionStartRun (hc : HandleConfig) (relayActive : bool) (event id : string) (gate : HookGate) (path : string)
    (run : HookRun) : Op (HookRun * option HookApplied) :=
  w <- recordSessionStart hc id gate path (transcriptPresent hc path);;
  let run := run <| hr_outcome := Some (sw_Outcome w) |> in
  ret (if sw_Failed w then (run <| hr_stdout := denied relayActive event |>, None) else (run, Some (sw_Applied w))).

Definition ordinaryRun (hc : HandleConfig) (relayActive : bool) (event id : string) (gate : HookGate) (res : ClassifyResult)
    (raw : rawPayload) (path : string) (run : HookRun) : Op (HookRun * option HookApplied) :=
  (if relayActive then proveRequestsGone hc id gate res else ret tt);;;
  (if relayActive && ToolRan res then closeToolRanOf hc id gate (c_ToolUseID res) else ret tt);;;
  r <- outcomeOf (applyHook hc id gate res raw path (transcriptPresent hc path));;
  let run := run <| hr_outcome := Some (fst r) |> in
  match snd r with
  | None => ret (run <| hr_stdout := denied relayActive event |>, None)
  | Some applied =>
      (if ha_Applied applied && negb (isSubagentLifecycle res) then runSubagentAfterWrite hc id gate res raw else ret tt);;;
      ret (run, Some applied)
  end.

(** After the write: the heal, or the record of an ignored hook. *)
Definition afterHook (hc : HandleConfig) (id : string) (parent : parentIdentity) (res : ClassifyResult) (path : string)
    (applied : HookApplied) : Op unit :=
  (if ha_Applied applied then healCodexTranscript hc id res path else ret tt);;;
  (if negb (ha_Applied applied) && negb (bool_decide (ha_Reason applied = ""))
   then emitIgnored (hc_Parent hc) (ignoredOf id parent res (ha_Reason applied) false) else ret tt).

Definition writeRun (hc : HandleConfig) (relayActive : bool) (event id : string) (parent : parentIdentity) (gate : HookGate)
    (res : ClassifyResult) (raw : rawPayload) (path : string) (run : HookRun) : Op HookRun :=
  r <- (if bool_decide (c_EventName res = "SessionStart")
        then sessionStartRun hc relayActive event id gate path run
        else ordinaryRun hc relayActive event id gate res raw path run);;
  match snd r with
  | None => ret (fst r)
  | Some applied => afterHook hc id parent res path applied;;; ret (fst r)
  end.

Definition relayEnvOf (hc : HandleConfig) : RelayEnv :=
  let re := hc_Relay hc in
  mkRelayEnv (re_token re) (killAt (hc_Start hc) (hc_RelayTimeout hc) (hc_EffectiveTimeoutSeconds hc)) (re_turn re) (re_self re)
    (re_ack re) (re_deny re) (re_ackAfterDeny re).

(** A classified hook of a Spawn; [None] is a relay out of [fuel]. *)
Definition handleClassified (fuel : nat) (hc : HandleConfig) (relayActive : bool) (event id : string) (parent : parentIdentity)
    (raw : rawPayload) (res : ClassifyResult) (run : HookRun) : Op (option HookRun) :=
  if SubagentLifecycle res then
    emitIgnored (hc_Parent hc) (ignoredOf id parent res HookReasonSubagentEvent true);;;
    ret (Some (run <| hr_outcome := Some UpsertNoChange |>))
  else
    let path := if bool_decide (c_AgentID res = "") then c_TranscriptPath res else "" in
    admitted <- admitCursor hc relayActive event id parent (hookGateOf parent res) res path raw;;
    match admitted with
    | inl out => ret (Some (run <| hr_stdout := out |>))
    | inr gate =>
        if negb (bool_decide (c_EventName res = "SessionStart")) && relayActive
           && bool_decide (c_EventName res = EventNamePermissionRequest)
        then
          out <- runRelay settleMs rawText (hc_Parent hc) (hc_Cfg hc) (relayEnvOf hc) fuel
                   (mkRelayInput id gate parent (c_AgentID res) path (transcriptPresent hc path) raw)
                   (c_EventName res) (c_SessionID res);;
          ret ((fun o => run <| hr_stdout := ro_stdout o |> <| hr_token := ro_token o |> <| hr_outcome := ro_outcome o |>) <$> out)
        else
          (r <- writeRun hc relayActive event id parent gate res raw path run;; ret (Some r))
    end.

(** Handle but for its ad.hook.fired. *)
Definition handleRun (fuel : nat) (hc : HandleConfig) (stdin : option string) : Op (option HookRun) :=
  let parent := captureParent (hc_Parent hc) in
  let relayActive := bool_decide (hc_Getenv hc EnvRelayMode = RelayModeOn) in
  match ReadPayload stdin with
  | inr _ => ret (Some noRun)
  | inl bytes =>
      if negb (bool_decide (hc_ContextSource hc = "")) then
        logged (handleClaudeCapacity capacityText capacityParse transcript (hc_Getenv hc) (hc_Agent hc) (hc_ContextSource hc)
                  (parseCallback bytes) parent (hc_Start hc));;;
        ret (Some noRun)
      else
        let raw := parse bytes in
        let event := PeekEventName raw in
        let refused run := ret (Some (run <| hr_stdout := denied relayActive event |>)) in
        match ResolveInstanceID (hc_Getenv hc) with
        | inr _ => refused noRun
        | inl id =>
            let run := mkRun None (Some id) None None "" None None in
            match ResolveAgent (hc_Agent hc) with
            | None => refused run
            | Some agent =>
                match ClassifyEvent agent raw with
                | None => refused run
                | Some res =>
                    handleClassified fuel hc relayActive event id parent raw res
                      (mkRun None (Some id) (nullif_empty (c_EventName res)) (nullif_empty (c_ToolName res)) (c_SessionID res)
                         None None)
                end
            end
        end
  end.

(** Handle: the standard output of the hook; [None] is a relay out of fuel. *)
Definition Handle (fuel : nat) (hc : HandleConfig) (stdin : option string) : Op (option (option Envelope)) :=
  r <- handleRun fuel hc stdin;;
  match r with
  | None => ret None
  | Some run =>
      emit (EvHookFired (hc_Getenv hc EnvRelayMode) (hr_id run) (hr_event run) (hr_tool run) (hr_session run)
              (outcomeText <$> hr_outcome run) (hr_token run));;;
      ret (Some (hr_stdout run))
  end.
End Handler.

(** ** A Claude Code that does not run exec-form hooks (noexec.go) *)

Definition HookReasonNoExecForm : string := "no_exec_form".

Definition noExecFormPayload (raw : rawPayload) : option (string * string) :=
  match rawObject (rawValue raw) with
  | None => None
  | Some kvs =>
      let event := rawString (mapField "hook_event_name" (Some kvs)) in
      if bool_decide (event = "") then None else Some (event, rawString (mapField "transcript_path" (Some kvs)))
  end.
Definition PayloadEventName (raw : rawPayload) : option string := fst <$> noExecFormPayload raw.

Definition emitNoExecForm (getenv : string -> string) (env : HookEnv) (event session : string) : Op unit :=
  let id := match ResolveInstanceID getenv with inl id => id | inr _ => "" end in
  emit (ignoredFields env (mkIgnored id event session (mkParent (hv_ParentPID env) "") HookReasonNoExecForm false) None None).

Definition HandleNoExecForm (getenv : string -> string) (env : HookEnv) (raw : rawPayload) : Op bool :=
  match noExecFormPayload raw with
  | None => ret false
  | Some (event, path) => emitNoExecForm getenv env event (extractSessionID path);;; ret true
  end.
