(* ===== verification/CursorInv.v ===== *)
(** * What the Cursor gateway may make of a request

    Its inserts, acks, claims and proofs evolve a request as the relay's and
    the pane's do ([req_evolves]): a claim answers a request nothing answered,
    or repeats its own claim; the proof of a tool that ran names an answer
    nobody named. *)

From S2P Require Import Prelude Sql Rows Display Settle Family Requests History Steps Gate HookWrites HookProps RelayWrites Protocol RequestInv Lifecycle CursorWrites.

Lemma stamped_real now : realInstant (millisArg (stamped now)).
Proof.
  unfold stamped, millisTime, millisArg, realInstant. destruct (Z.eqb_spec (now / nsPerMs) zeroTimeMillis); [done|].
  intros [= ?]. done.
Qed.
#[export] Hint Resolve stamped_real : core.

(** A claim that repeats: the row keeps its answer. *)
Lemma claimAgain_evolves decision now sec r :
  req_good r -> pr_pane_answer r = PaneAnswerSent -> pr_pane_as r = Some decision ->
  req_evolves r (claimPaneSet decision now sec r).
Proof.
  intros Hg Hs Ha. destruct (good_sent r Hg Hs) as (_ & Hd & Hr).
  assert (pr_delivered_at r = None) as Hdel.
  { destruct (good_exclusive r Hg) as [|E]; [done|]. by rewrite Hs in E. }
  assert (req_good (claimPaneSet decision now sec r)) as Hg'.
  { unfold claimPaneSet. good_fields Hg.
    - congruence.
    - apply (bool_decide_eq_true_1 _). reflexivity.
    - by left.
    - intros Hc. match goal with H : is_Some (pr_closed_at r) -> _ |- _ => destruct (H Hc) as [_ []] end.
      rewrite Hs. by left. }
  split; unfold reqIdentity, claimPaneSet; rsimp; try done.
  - rewrite Hdel. by intros [? ?].
  - intros _. rewrite Hs, Hd, Ha, Hr. auto.
  - apply coalesce2_kept.
  - unfold awaitingAnswerSQL. rsimp. by rewrite !where3_and, !where3_Some, andb_false_r.
  - apply phase_same. rsimp. congruence.
Qed.

Lemma claimPane_evolves id token decision now now' sec r : decision <> "" ->
  req_good r -> where3 (claimPaneCond id token decision now r) = true ->
  req_evolves r (claimPaneSet decision now' sec r).
Proof.
  intros Hne Hg H. unfold claimPaneCond in H. rewrite !where3_and, where3_or in H.
  apply andb_true_iff in H as [_ H]. rewrite !where3_and, !where3_is_null in H.
  apply andb_true_iff in H as [Hdel H]. apply andb_true_iff in H as [Hc H]. apply andb_true_iff in H as [Hpr H].
  bsimp. apply orb_true_iff in H as [H|H]; apply andb_true_iff in H as [Hp H]; rewrite where3_sql_eq in Hp; bsimp.
  - injection Hp as Hp. assert (~ completedPane r) as Hnp by by apply not_completed.
    assert (answerable (phase_of r) = true) as Ha.
    { rewrite phase_waiting by done. simpl. rewrite orb_true_iff, !bool_decide_eq_true. rewrite where3_or in H.
      apply orb_true_iff in H as [H|H]; [right; rewrite where3_is_null in H; by bsimp|left].
      destruct (pr_settled_at r); [by eexists|done]. }
    apply evolves_open; unfold reqIdentity, claimPaneSet; rsimp; try done.
    + good_fields Hg.
      * congruence.
      * apply (bool_decide_eq_true_1 _). reflexivity.
      * by left.
      * rewrite Hc. by intros [? ?].
    + apply coalesce2_kept.
    + rewrite phase_waiting, claim_none in Ha |- * by done. apply rtc_once. phase_by phase_at_pane.
      destruct (pr_decision r) as [v|] eqn:Hv; [|by constructor]. by constructor.
  - injection Hp as Hp. rewrite where3_sql_eq in H. bsimp. by apply claimAgain_evolves.
Qed.

(** The columns of a proof. *)
Lemma proveToolSet_proof ran now sec r :
  pr_proven_gone_at (proveToolSet ran now sec r) = coalesce2 (pr_proven_gone_at r) (millisArg (stamped now)) /\
  pr_proven_gone_how (proveToolSet ran now sec r) = coalesce2 (pr_proven_gone_how r) (Some ProvenGoneToolRan) /\
  pr_hook_gone_at (proveToolSet ran now sec r) = pr_hook_gone_at r /\
  reqIdentity (proveToolSet ran now sec r) = reqIdentity r.
Proof. unfold proveToolSet, reqIdentity. destruct ran; by rsimp. Qed.

Lemma coalesce2_real x now : realInstant x -> realInstant (coalesce2 x (millisArg (stamped now))).
Proof. intros H. destruct x; [done|]. simpl. auto. Qed.

Lemma coalesce2_how {A} (x : option A) v : is_Some (coalesce2 x (Some v)).
Proof. destruct x; by eexists. Qed.

(** A failed tool's proof leaves the answer alone. *)
Lemma proveFailed_evolves now sec r : req_good r -> req_evolves r (proveToolSet false now sec r).
Proof.
  intros Hg. apply evolves_notes; unfold reqIdentity, verdict, awaitColumns, proveToolSet; rsimp; try done.
  - apply coalesce2_real, Hg.
  - intros _. apply coalesce2_how.
  - intros Hs. by rewrite !coalesce2_kept by (done || by apply good_proof).
Qed.

Lemma fills_coalesce {A} (v : A) x : fills v x (coalesce2 x (Some v)).
Proof. destruct x; [by left|by right]. Qed.

(** One that ran answers a request nothing answered, and otherwise names what
    nobody named. *)
Lemma proveRan_evolves now sec r : req_good r -> pr_closed_at r = None -> req_evolves r (proveToolSet true now sec r).
Proof.
  intros Hg Hc. pose proof (proveToolSet_proof true now sec r) as (E1 & E2 & E3 & E4).
  assert (is_Some (pr_proven_gone_at r) ->
    pr_proven_gone_at (proveToolSet true now sec r) = pr_proven_gone_at r /\
    pr_proven_gone_how (proveToolSet true now sec r) = pr_proven_gone_how r) as Hpr.
  { intros Hs. rewrite E1, E2, !coalesce2_kept by (done || by apply good_proof). done. }
  pose proof (coalesce2_real _ now (wf_proven r (good_wf r Hg))) as Hreal.
  pose proof (coalesce2_how (pr_proven_gone_how r) ProvenGoneToolRan) as Hhow.
  unfold proveToolSet, case3 in *. destruct (where3 (unanswered r)) eqn:Hu.
  - unfold unanswered in Hu. conds Hu. assert (~ completedPane r) as Hp by by apply open_not_completed.
    apply evolves_open; rewrite ?E3; try done; try by auto.
    + by good_fields Hg; try (destruct (pr_decision r); [done|by intros [=]]); try (intros _; apply coalesce2_how);
        [apply (bool_decide_eq_true_1 _); reflexivity|left|rewrite Hc; intros [? ?]].
    + rewrite phase_waiting by done. phase_by phase_at_pane. apply rtc_once.
      replace (coalesce2 (pr_decision r) (Some "allow")) with (Some (coalesce (pr_decision r) "allow"))
        by by destruct (pr_decision r). constructor.
  - assert (is_Some (pr_delivered_at r) \/ completedPane r) as Hans.
    { unfold unanswered in Hu. rewrite where3_and, where3_is_null, where3_Some in Hu.
      destruct (pr_delivered_at r) as [t|] eqn:Hd; [left; by eexists|right]. simpl in Hu.
      apply bool_decide_eq_false in Hu. pose proof (wf_pane r (good_wf r Hg)) as Hw.
      unfold paneAnswers, completedPane in *. set_solver. }
    split; rewrite ?E3; try done.
    + good_fields Hg; try (destruct (pr_decision r); [done|by intros [=]]); try (intros _; apply coalesce2_how);
        rewrite ?Hc; try (by intros [? ?]).
      match goal with H : _ = PaneAnswerSent -> _ |- _ => intros Hs; destruct (H Hs) as ([v Hv] & -> & ->) end.
      by rewrite Hv.
    + rsimp. intros Hs. pose proof (good_acked r Hg Hs) as Hd.
      rewrite !coalesce2_kept by (done || by apply good_dated). split_and!; [done..|apply fills_coalesce].
    + rsimp. intros _. split_and!; [done|apply fills_coalesce..].
    + intros Ha. exfalso. apply awaiting_iff in Ha as (_ & Hp & Hd & Hs). rsimp_in Hp. rsimp_in Hd. rsimp_in Hs.
      destruct Hans as [Hdel|Hcp]; [|by eapply open_not_completed].
      destruct (pr_settled_at r); [specialize (Hs ltac:(by eexists)); destruct Hdel; congruence|].
      specialize (Hd eq_refl). by destruct (pr_decision r).
    + destruct Hans as [Hdel|Hcp].
      * apply phase_same. rsimp. rewrite coalesce2_kept by by apply good_acked. done.
      * destruct (good_exclusive r Hg) as [Hd|E]; [|by apply not_completed in E].
        rewrite !phase_at_pane by done. rsimp. destruct (pr_decision r); [done|]. apply rtc_once. constructor.
Qed.

Lemma proveTool_evolves id token tool ran now sec r :
  req_good r -> where3 (proveToolCond id token tool ran r) = true -> req_evolves r (proveToolSet ran now sec r).
Proof.
  intros Hg H. unfold proveToolCond in H. destruct ran; [|by apply proveFailed_evolves]. apply proveRan_evolves; [done|].
  rewrite !where3_and, !where3_is_null in H. by bsimp.
Qed.

Lemma turnEnded_evolves id tokens now r :
  req_good r -> where3 (turnEndedCond id tokens r) = true ->
  req_evolves r (proveSet ProvenGoneTurnEnd (stamped now) r).
Proof.
  intros Hg H. apply (prove_evolves id (fun _ => Some true)); [apply stamped_real|done|].
  unfold turnEndedCond, holdsRowSQL in H. unfold provable. rewrite !where3_and in *.
  repeat match goal with H : _ && _ = true |- _ => apply andb_true_iff in H as [? ?] end. apply andb_true_iff; split; [done|].
  by apply andb_true_iff.
Qed.
