(* ===== verification/Reuse.v ===== *)
(** * Reuse of a finished row (internal/store/reuse.go)

    spawn with reuse_finished starts a fresh launch on a finished Spawn's row:
    it reads the row and its life as stored ([ReadForReuse]), resets the row
    in one transaction that archives the session, deletes the requests and
    closes the subagents ([ResetForReuse]), and, when the launch fails, writes
    the life back ([RestoreAfterFailedReuse]). *)

From S2P Require Import Prelude Sql Rows Display Settle Family Requests History Steps Gate HookWrites RelayWrites Lifecycle.

Abbreviation Op := (M Store Event).

(** reuseAgentTextSQL: the exact text, or empty for NULL. *)
Definition reuseAgentText (r : SpawnRow) : string := coalesce (sp_agent r) "".

(** RawLife: the columns of a row the restore writes back, each as stored;
    [None] is the zero RawLife, which no read produced. Only the columns of
    rawLifeColumns are used of the row. *)
Definition RawLife : Type := option SpawnRow.

Record ReuseRow := mkReuseRow {
  ru_Agent : string;
  ru_State : string;
  ru_EndedAt : option Z;
  ru_Snapshot : RowSnapshot;
  ru_Identity : LaunchIdentity;
  ru_Life : RawLife;
}.

Definition ReadForReuse (id : string) : Op (option ReuseRow) :=
  read (fun s =>
    (fun r => mkReuseRow (reuseAgentText r) (sp_state r) (sp_ended_at r) (lifeSnapshot r) (lifeIdentity r) (Some r))
      <$> db_spawns s !! id).

(** ** The reset *)

Section Reuse.
Context (settleMs : Z) (timestampText : Z -> string).

(** The WHERE clause of the reset, and the CASE of its read. *)
Definition resetCond (examined : RowSnapshot) (examinedAgent : string) (r : SpawnRow) : tvl :=
  (finishedStateGuardSQL r AND snapshotMatchSQL r examined AND sql_eq (Some (reuseAgentText r)) (Some examinedAgent)).

(** resetForReuseSQL's SET; [startedAt] is fresh.StartedAt in milliseconds. *)
Definition resetSet (fresh : PendingSpawn) (startedAt : Z) : fragment := fun s r =>
  rowVersionAdvance (launchOwnerSet (ps_LaunchOwner fresh) (identitySet zeroIdentity (livenessClear
    (immediateStateSet StatePending (db_now s) r
      <| sp_session_id := None |> <| sp_jsonl_path := None |>
      <| sp_pid := None |> <| sp_proc_starttime := None |> <| sp_ended_at := None |>
      <| sp_started_at := timestampText (storeTimestamp startedAt) |>
      <| sp_last_seen_at := storeTimestamp startedAt |>
      <| sp_launch_started_at := positiveInt64Arg (ps_LaunchStartedAtMillis fresh) |>
      <| sp_cwd := ps_CWD fresh |> <| sp_tmux_session_name := ps_TmuxSessionName fresh |>
      <| sp_agent_args := ps_AgentArgs fresh |> <| sp_relay_mode := ps_RelayMode fresh |>
      <| sp_labels := ps_Labels fresh |> <| sp_extra_env := ps_ExtraEnv fresh |>
      <| sp_parent_id := nullableStringArg (ps_ParentID fresh) |>
      <| sp_no_pre_trust := boolInt (ps_NoPreTrust fresh) |>
      <| sp_codex_startup := None |> <| sp_claude_capacity := None |>
      <| sp_launch_token := nullableStringArg (ps_Token fresh) |>
      <| sp_tmux_socket := nullableStringArg (ps_Socket fresh) |>
      <| sp_agent := Some (ps_Agent fresh) |> <| sp_end_reported_at := None |>
      <| sp_subagent_tracking := subagentTrackedSQL (Some (ps_Agent fresh)) |>
      <| sp_idle_screen_timeout_seconds := positiveIntArg (ps_IdleScreenTimeoutSeconds fresh) |>
      <| sp_life_number := sp_life_number r + case3 (sql_eq (Some (reuseAgentText r)) (Some (ps_Agent fresh))) 0 1 |>)))).

Definition resetStmt (id : string) (examined : RowSnapshot) (examinedAgent : string) (fresh : PendingSpawn)
    (startedAt : Z) (s : Store) : result (bool * Store) :=
  let '(n, s') := condUpdate id (fun _ => resetCond examined examinedAgent) (resetSet fresh startedAt) s in
  if n && negb (parentExists s (nullableStringArg (ps_ParentID fresh))) then Err EForeignKey else Ok (n, s').

(** resetForReuseDeleteRequestsSQL *)
Definition deleteRequests (id : string) (s : Store) : Store :=
  s <| db_requests := filter (fun pr => pr_instance_id pr <> id) (db_requests s) |>.

(** resetForReuseReadSQL *)
Definition resetRead (id : string) (examined : RowSnapshot) (examinedAgent : string) (s : Store)
    : option (string * string * Z * bool) :=
  (fun r => (coalesce (sp_session_id r) "", coalesce (sp_jsonl_path r) "", sp_life_number r,
             where3 (resetCond examined examinedAgent r))) <$> db_spawns s !! id.

(** CondAbsent and CondChanged roll back. *)
Definition resetBody (id : string) (examined : RowSnapshot) (examinedAgent : string) (fresh : PendingSpawn)
    (startedAt : Z) : Tx Store string :=
  found <-- tread (resetRead id examined examinedAgent);;
  match found with
  | None => tfail ESpawnNotFound
  | Some (session, path, life, matches) =>
      if negb matches then tfail ENotApplied
      else
        archived <-- (if bool_decide (session = "") then tret (Ok tt)
                      else ttry (tstmt (upsertSessionHistoryEntry id session path life)));;
        match archived with
        | Err _ => tfail EReuseArchive
        | Ok _ =>
            n <-- tstmt (resetStmt id examined examinedAgent fresh startedAt);;
            if negb n then tfail EResetRows
            else
              tstmt (fun s => Ok (tt, deleteRequests id s));;>
              closeSubagentsAgentGone id (ps_LaunchStartedAtMillis fresh);;>
              tret session
        end
  end.

Definition ResetForReuse (id : string) (examined : RowSnapshot) (examinedAgent : string) (fresh : PendingSpawn)
    (startedAt : Z) : Op (CondResult * string * Z) :=
  if negb (validateRowAgent (ps_Agent fresh)) then fail ERowAgentInvalid
  else
    catch (inImmediateTx settleMs id (resetBody id examined examinedAgent fresh startedAt))
      (fun r => match r with
       | Err ESpawnNotFound => ret (CondAbsent, "", 0)
       | Err ENotApplied => ret (CondChanged, "", 0)
       | Err e => fail e
       | Ok session => ret (CondApplied, session, rs_RowVersion examined + 1)
       end).

(** ** The restore *)

(** Every column of rawLifeColumns but ended_at and parent_id verbatim. *)
Definition restoreReuseSet (life : SpawnRow) (failedAt : Z) : fragment := fun s q =>
  rowVersionAdvance (launchStartClear
    (immediateSettleSet (sp_state life) (db_now s) q
      <| sp_state := sp_state life |> <| sp_life_number := sp_life_number life |>
      <| sp_no_pre_trust := sp_no_pre_trust life |> <| sp_session_id := sp_session_id life |>
      <| sp_jsonl_path := sp_jsonl_path life |> <| sp_pid := sp_pid life |>
      <| sp_proc_starttime := sp_proc_starttime life |> <| sp_started_at := sp_started_at life |>
      <| sp_last_seen_at := sp_last_seen_at life |>
      <| sp_liveness_unverified_since := sp_liveness_unverified_since life |>
      <| sp_liveness_note := sp_liveness_note life |> <| sp_cwd := sp_cwd life |>
      <| sp_tmux_session_name := sp_tmux_session_name life |> <| sp_agent_args := sp_agent_args life |>
      <| sp_relay_mode := sp_relay_mode life |> <| sp_labels := sp_labels life |>
      <| sp_extra_env := sp_extra_env life |> <| sp_launch_token := sp_launch_token life |>
      <| sp_tmux_socket := sp_tmux_socket life |> <| sp_tmux_server_pid := sp_tmux_server_pid life |>
      <| sp_tmux_server_started := sp_tmux_server_started life |>
      <| sp_tmux_server_starttime := sp_tmux_server_starttime life |> <| sp_pane_id := sp_pane_id life |>
      <| sp_pane_pid := sp_pane_pid life |> <| sp_pane_starttime := sp_pane_starttime life |>
      <| sp_launch_owner_pid := sp_launch_owner_pid life |>
      <| sp_launch_owner_starttime := sp_launch_owner_starttime life |>
      <| sp_launch_owner_pidns := sp_launch_owner_pidns life |> <| sp_agent := sp_agent life |>
      <| sp_end_reported_at := sp_end_reported_at life |> <| sp_subagent_tracking := sp_subagent_tracking life |>
      <| sp_codex_startup := sp_codex_startup life |> <| sp_claude_capacity := sp_claude_capacity life |>
      <| sp_idle_screen_timeout_seconds := sp_idle_screen_timeout_seconds life |>
      <| sp_ended_at := Some (match sp_ended_at life with Some t => t | None => storeTimestamp failedAt end) |>
      <| sp_parent_id := match sp_parent_id life with
                         | Some p => if bool_decide (is_Some (db_spawns s !! p)) then Some p else None
                         | None => None
                         end |>)).

Definition RestoreAfterFailedReuse (id : string) (resetVersion : Z) (prior : RawLife) (failedAt : Z) : Op CondResult :=
  match prior with
  | None => fail EPriorStateInvalid
  | Some life =>
      if negb (isTerminalState (sp_state life)) then fail EPriorStateInvalid
      else condWrite settleMs id (condUpdate id (restoreCond resetVersion) (restoreReuseSet life failedAt))
  end.
End Reuse.
