(* ===== verification/LifecycleProps.v ===== *)
(** * Properties of the lifecycle writes

    Optimistic concurrency: a conditional write that reports applied found
    the very snapshot its caller examined and advanced the row's version by
    one; any other outcome wrote nothing. Then what the terminal marks and
    resume's move close, and the restore of a failed resume. *)

From S2P Require Import Prelude Sql Rows Display Settle Family Requests History Steps Gate HookWrites HookProps RelayWrites RequestInv RelayProps Lifecycle.

(** ** Transactions with the family epilogue *)

(** One committed write in [R], or none. *)
Definition wrote {A} (R : Store -> A -> Store -> Prop) (r : result A) (own : list (Store * Store)) : Prop :=
  match r with
  | Ok a => exists s s', own = [(s, s')] /\ R s a s'
  | Err _ => own = []
  end.

Lemma ensures_txImmediate_spec {A} (R : Store -> A -> Store -> Prop) (body : Tx Store A) :
  tx_spec R body -> ensures (wrote R) (txImmediate body : Op A).
Proof.
  intros H w. unfold txImmediate. destruct (next_gap (w_gaps w)) as [[e|e why] gs]; simpl.
  - destruct (body (e (w_store w)) gs) as [[[a s']|err] gs1] eqn:Eb; simpl.
    + specialize (H _ _ _ _ _ Eb). destruct (next_gap gs1) as [[e2|e2 why2] gs2]; simpl.
      * eexists. split; [done|]. by eexists _, _.
      * exists []. by rewrite app_nil_r.
    + exists []. rewrite app_nil_r. by destruct err.
  - exists []. by rewrite app_nil_r.
Qed.

Lemma ensures_immediateWrite {A} T id (body : Tx Store A) (R : Store -> A -> Store -> Prop) :
  tx_spec (fun s a s1 => forall s', core_step s1 s' -> tables_eq s1 s' -> R s a s') body ->
  ensures (wrote R) (inImmediateTx T id body).
Proof.
  intros Hb. unfold inImmediateTx. eapply ensures_bind.
  { apply (ensures_txImmediate_spec (fun s (x : A * list Event) s' => R s (fst x) s')).
    intros s gs [a ex] s' gs' H.
    apply tbind_Ok in H as (a1 & s1 & gs1 & H1 & H).
    apply tbind_Ok in H as ([] & s2 & gs2 & [= <-]%tstmt_Ok & H).
    apply tbind_Ok in H as (ex1 & s3 & gs3 & [H3 [H4 _]]%takeDisplayExits_spec & [= <- <- <- <-]).
    eapply Hb; [done| |].
    - eapply core_step_trans; [apply core_step_refresh|done].
    - eapply tables_eq_trans; [apply tables_eq_spawns|done]. }
  - intros [a ex] o1 (s & s' & -> & HR) w. exists []. rewrite app_nil_r. split; [done|]. by eexists _, _.
  - by intros e o1 ->.
Qed.

(** What a conditional write did, up to the epilogue. *)
Definition condApplied (id : string) (cond : Store -> SpawnRow -> tvl) (set : fragment) (s s' : Store) : Prop :=
  exists r, db_spawns s !! id = Some r /\ where3 (cond s r) = true /\
    core_step (s <| db_spawns := <[id := set s r]> (db_spawns s) |>) s' /\ tables_eq s s'.

Lemma condUpdate_spec id cond set s n s1 : condUpdate id cond set s = (n, s1) ->
  if n then exists r, db_spawns s !! id = Some r /\ where3 (cond s r) = true /\
              s1 = s <| db_spawns := <[id := set s r]> (db_spawns s) |>
  else s1 = s.
Proof.
  unfold condUpdate, update1. destruct (db_spawns s !! id) as [r|]; [|by intros [= <- <-]].
  destruct (where3 (cond s r)) eqn:E; intros [= <- <-]; [|done]. eauto.
Qed.

(** Not applied is reported after one read, which writes nothing. *)
Lemma ensures_condNotApplied id (Q : result CondResult -> list (Store * Store) -> Prop) :
  (forall e, Q (Err e) []) -> Q (Ok CondChanged) [] -> Q (Ok CondAbsent) [] -> ensures Q (condNotApplied id).
Proof.
  intros He H1 H2 w. exists []. rewrite app_nil_r. unfold condNotApplied, bind, read.
  destruct (next_gap (w_gaps w)) as [[e|e why] gs]; simpl; [|auto].
  split; [done|]. by destruct (bool_decide _).
Qed.

Definition condWrote (R : Store -> Store -> Prop) (r : result CondResult) (own : list (Store * Store)) : Prop :=
  match r with
  | Ok CondApplied => exists s s', own = [(s, s')] /\ R s s'
  | _ => own = []
  end.

Lemma ensures_execGuarded_spec T id q (R : Store -> Store -> Prop) :
  (forall s s1 s', q s = (true, s1) -> core_step s1 s' -> tables_eq s1 s' -> R s s') ->
  ensures (fun r own => match r with
           | Ok true => exists s s', own = [(s, s')] /\ R s s' | _ => own = [] end) (execGuarded T id q).
Proof.
  intros HR. unfold execGuarded. eapply ensures_catch.
  { apply (ensures_immediateWrite T id _ (fun s (b : bool) s' => b = true /\ R s s')).
    intros s gs b s1 gs' (n & s2 & gs1 & [= Hn]%tstmt_Ok & H)%tbind_Ok s' Hc Ht.
    destruct n; [|done]. injection H as <- <- <-. split; [done|]. by eapply HR. }
  intros [b|e] o1 H1.
  - destruct H1 as (s & s' & -> & -> & H1). apply ensures_ret. rewrite app_nil_r. eauto.
  - simpl in H1. subst o1. destruct e; by (apply ensures_fail || apply ensures_ret).
Qed.

Lemma ensures_condWrite T id q (R : Store -> Store -> Prop) :
  (forall s s1 s', q s = (true, s1) -> core_step s1 s' -> tables_eq s1 s' -> R s s') ->
  ensures (condWrote R) (condWrite T id q).
Proof.
  intros HR. unfold condWrite. eapply ensures_bind; [by eapply ensures_execGuarded_spec| |].
  - intros [] o1 H1; [apply ensures_ret; by rewrite app_nil_r|]. subst o1. by apply ensures_condNotApplied.
  - by intros e o1 ->.
Qed.

Lemma condUpdate_applied id cond set s s1 s' :
  condUpdate id cond set s = (true, s1) -> core_step s1 s' -> tables_eq s1 s' -> condApplied id cond set s s'.
Proof.
  intros (r & Hr & Hc & ->)%condUpdate_spec H1 H2. exists r. split_and!; [done..|].
  eapply tables_eq_trans; [apply tables_eq_spawns|done].
Qed.

(** The row a conditional write names, before and after it. *)
Lemma condApplied_row id cond set s s' : condApplied id cond set s s' ->
  exists r r', db_spawns s !! id = Some r /\ where3 (cond s r) = true /\
    db_spawns s' !! id = Some r' /\ same_core (set s r) r'.
Proof.
  intros (r & Hr & Hc & Hs & _). specialize (Hs id). rsimp_in Hs. rewrite lookup_insert_eq in Hs.
  destruct (db_spawns s' !! id) as [r'|] eqn:E; [|done]. eauto 10.
Qed.

(** ** The writes guarded by an examined snapshot *)

Inductive snapshotOp :=
  | OpNoteUnreported
  | OpSetNote (note : string)
  | OpClearNote
  | OpAdopt (i : LaunchIdentity)
  | OpRepair
  | OpMarkMissing
  | OpMarkEnded
  | OpMoveToPending (launch : Z) (token socket parent : string) (owner : ProcessIdentity)
  | OpDelete.

Definition runSnapshotOp (T : Z) (id : string) (x : RowSnapshot) (op : snapshotOp) : Op CondResult :=
  match op with
  | OpNoteUnreported => NoteUnreportedIfSameLife T id x
  | OpSetNote note => SetLivenessNoteIfSameLife T id x note
  | OpClearNote => ClearLivenessIfSameLife T id x
  | OpAdopt i => r <- AdoptIdentityIfSameLife T id x i;; ret (fst r)
  | OpRepair => r <- RepairCheckPermissionIfSameLife T id x;; ret (snd r)
  | OpMarkMissing => r <- MarkMissingIfSameLife T id x;; ret (snd r)
  | OpMarkEnded => r <- MarkEndedIfSameLife T id x;; ret (snd r)
  | OpMoveToPending launch token socket parent owner =>
      r <- MoveToPending T id x launch token socket parent owner;; ret (fst r)
  | OpDelete => DeleteFinishedIfSameLife T id x
  end.

(** What the row must be for the write, and what it is after it; [None] is a
    deleted row. *)
Definition snapshotGuard (op : snapshotOp) (s : Store) (id : string) (r : SpawnRow) : Prop :=
  match op with
  | OpNoteUnreported => sp_state r = StatePending /\ sp_liveness_note r <> Some LivenessNoteProvenanceConflict
  | OpSetNote _ | OpClearNote | OpAdopt _ | OpMarkMissing => IsLiveState (sp_state r) = true
  | OpMarkEnded => IsLiveState (sp_state r) = true /\ sp_agent r = Some AgentCodex /\
                   exists n, sp_end_reported_at r = Some n /\ 0 < n
  | OpRepair => sp_state r = StateCheckPermission /\ sp_relay_mode r = "on" /\ requestHoldsRow s id = false
  | OpMoveToPending _ _ _ _ _ | OpDelete => isTerminalState (sp_state r) = true
  end.

Definition snapshotState (op : snapshotOp) (r : SpawnRow) : option string :=
  match op with
  | OpNoteUnreported | OpSetNote _ | OpClearNote | OpAdopt _ => Some (sp_state r)
  | OpMarkMissing => Some StateMissing
  | OpMarkEnded => Some StateEnded
  | OpRepair => Some (if bool_decide (is_Some (sp_idle_since r)) && where3 (sql_ne (sp_agent r) (Some AgentCodex))
                      then StateWaiting else StateWorking)
  | OpMoveToPending _ _ _ _ _ => Some StatePending
  | OpDelete => None
  end.

(** What a write leaves of every row but the one it names. *)
Definition lifeColumns (r : SpawnRow) :=
  (sp_row_version r, sp_state r, sp_started_at r, sp_agent r, sp_session_id r, sp_life_number r).

Definition snapshotWritten (op : snapshotOp) (id : string) (x : RowSnapshot) (s s' : Store) : Prop :=
  exists r, db_spawns s !! id = Some r /\ lifeSnapshot r = x /\ snapshotGuard op s id r /\
    (match snapshotState op r with
    | Some v => exists r', db_spawns s' !! id = Some r' /\ sp_row_version r' = rs_RowVersion x + 1 /\
        sp_state r' = v /\ sp_started_at r' = sp_started_at r /\ sp_agent r' = sp_agent r /\
        sp_session_id r' = sp_session_id r /\ sp_life_number r' = sp_life_number r
    | None => db_spawns s' !! id = None
    end) /\
    forall j, j <> id -> lifeColumns <$> db_spawns s' !! j = lifeColumns <$> db_spawns s !! j.

(** What each write makes of the row it names, by the SET of its statement;
    [None] is a deleted row. *)
Definition snapshotSet (op : snapshotOp) (s : Store) (r : SpawnRow) : option SpawnRow :=
  match op with
  | OpNoteUnreported => Some (livenessNoteSet LivenessNoteUnreported s r)
  | OpSetNote note => Some (livenessNoteSet note s r)
  | OpClearNote => Some (rowVersionAdvance (livenessClear r))
  | OpAdopt i => Some (adoptIdentitySet i s r)
  | OpRepair => Some (repairSet s r)
  | OpMarkMissing => Some (terminalSet StateMissing s r)
  | OpMarkEnded => Some (terminalSet StateEnded s r)
  | OpMoveToPending launch token socket parent owner => Some (moveToPendingSet launch token socket parent owner s r)
  | OpDelete => None
  end.

(** Another row after the write: as it was, save that a deleted row is no
    longer anyone's parent. *)
Definition othersLeft (op : snapshotOp) (id : string) (q : SpawnRow) : SpawnRow :=
  match op with
  | OpDelete => if bool_decide (sp_parent_id q = Some id) then q <| sp_parent_id := None |> else q
  | _ => q
  end.

(** The write in every column, up to the epilogue of its transaction. *)
Definition exactlyWritten (op : snapshotOp) (id : string) (x : RowSnapshot) (s s' : Store) : Prop :=
  exists r, db_spawns s !! id = Some r /\ lifeSnapshot r = x /\ snapshotGuard op s id r /\
    (match snapshotSet op s r with
    | Some q => exists r', db_spawns s' !! id = Some r' /\ same_core q r'
    | None => db_spawns s' !! id = None
    end) /\
    forall j, j <> id -> core <$> db_spawns s' !! j = (core ∘ othersLeft op id) <$> db_spawns s !! j.

Lemma lifeColumns_core r r' : same_core r r' -> lifeColumns r' = lifeColumns r.
Proof.
  intros H. unfold lifeColumns. core_eq H sp_row_version. core_eq H sp_state. core_eq H sp_started_at.
  core_eq H sp_agent. core_eq H sp_session_id. core_eq H sp_life_number. congruence.
Qed.

Lemma lifeColumns_immediate v now r :
  lifeColumns (immediateStateSet v now r)
  = (sp_row_version r, v, sp_started_at r, sp_agent r, sp_session_id r, sp_life_number r).
Proof. unfold lifeColumns, immediateStateSet, immediateSettleSet. cbv zeta. by rsimp. Qed.

(** [next_columns v r r']: the version advanced, the state [v], the rest of
    the life as it was. *)
Definition next_columns (v : string) (r r' : SpawnRow) : Prop :=
  lifeColumns r' = (sp_row_version r + 1, v, sp_started_at r, sp_agent r, sp_session_id r, sp_life_number r).

Ltac set_fields :=
  unfold terminalSet, livenessNoteSet, adoptIdentitySet, identitySet, repairSet, moveToPendingSet, launchOwnerSet,
    rowVersionAdvance, launchStartClear, livenessClear.

Lemma note_next note s r : next_columns (sp_state r) r (livenessNoteSet note s r).
Proof. unfold next_columns, lifeColumns. set_fields. by rsimp. Qed.
Lemma clear_next r : next_columns (sp_state r) r (rowVersionAdvance (livenessClear r)).
Proof. unfold next_columns, lifeColumns. set_fields. by rsimp. Qed.
Lemma adopt_next i s r : next_columns (sp_state r) r (adoptIdentitySet i s r).
Proof. unfold next_columns, lifeColumns. set_fields. by rsimp. Qed.
Lemma repair_next s r : next_columns (repairNewState r) r (repairSet s r).
Proof. unfold next_columns, lifeColumns. set_fields. cbv zeta. by rsimp. Qed.
Lemma terminal_next v s r : next_columns v r (terminalSet v s r).
Proof.
  unfold next_columns, terminalSet. pose proof (lifeColumns_immediate v (db_now s) r) as E. revert E.
  generalize (immediateStateSet v (db_now s) r). intros q. unfold lifeColumns. set_fields. rsimp.
  intros [= -> -> -> -> -> ->]. done.
Qed.
Lemma move_next launch token socket parent owner s r :
  next_columns StatePending r (moveToPendingSet launch token socket parent owner s r).
Proof.
  unfold next_columns, moveToPendingSet. pose proof (lifeColumns_immediate StatePending (db_now s) r) as E. revert E.
  generalize (immediateStateSet StatePending (db_now s) r). intros q. unfold lifeColumns. set_fields. rsimp.
  intros [= -> -> -> -> -> ->]. done.
Qed.

Lemma sameLife_guard x r : where3 (sameLife x r) = true -> IsLiveState (sp_state r) = true /\ lifeSnapshot r = x.
Proof.
  unfold sameLife, liveStateGuardSQL. rewrite where3_and, where3_Some, snapshot_match.
  intros [H1 H2]%andb_true_iff. by bsimp.
Qed.

Lemma core_others s s' id f : core_step (s <| db_spawns := <[id := f]> (db_spawns s) |>) s' ->
  forall j, j <> id -> core <$> db_spawns s' !! j = core <$> db_spawns s !! j.
Proof.
  intros H j Hj. specialize (H j). rsimp_in H. rewrite lookup_insert_ne in H by done.
  destruct (db_spawns s !! j), (db_spawns s' !! j); try done. simpl. f_equal. by symmetry.
Qed.

Lemma othersLeft_kept op id s s' q : (forall r, snapshotSet op s r = Some (q r)) ->
  (forall j, j <> id -> core <$> db_spawns s' !! j = core <$> db_spawns s !! j) ->
  forall j, j <> id -> core <$> db_spawns s' !! j = (core ∘ othersLeft op id) <$> db_spawns s !! j.
Proof.
  intros Hq H j Hj. rewrite H by done. apply option_fmap_ext. intros r. by destruct op; [..|specialize (Hq r)].
Qed.

(** A conditional update whose guard and SET are known. *)
Lemma written_of_applied op id x cond set s s' :
  condApplied id cond set s s' ->
  (forall r, where3 (cond s r) = true -> lifeSnapshot r = x /\ snapshotGuard op s id r) ->
  (forall r, snapshotSet op s r = Some (set s r)) ->
  exactlyWritten op id x s s'.
Proof.
  intros Happ Hg Hn. assert (Hcs := Happ). apply condApplied_row in Happ as (r & r' & Hr & Hc & Hr' & Hcore).
  destruct Hcs as (r0 & _ & _ & Hcs & _). destruct (Hg r Hc) as [Hx Hgu]. exists r. split_and!; [done..| |].
  - rewrite Hn. by exists r'.
  - eapply othersLeft_kept; [done|]. by eapply core_others.
Qed.

(** ** What a finished or moved row leaves open: nothing *)

Definition nothingOpen (id : string) (s : Store) : Prop :=
  (forall pr, pr ∈ db_requests s -> pr_instance_id pr = id -> where3 (awaitingAnswerSQL pr) = false /\
     (forall r, db_spawns s !! id = Some r -> sp_agent r <> Some AgentCursor -> is_Some (pr_proven_gone_at pr))) /\
  (forall e, e ∈ db_subagents s -> sa_instance_id e = id -> sa_state e <> SubagentStateRunning) /\
  (forall l, l ∈ db_launches s -> la_instance_id l <> id).

Lemma closeBoth_spec id reason at_ at2 s gs cl s1 gs1 s2 gs2 :
  closeOrphanedRequests id reason at_ s gs = (Ok (cl, s1), gs1) ->
  closeSubagentsAgentGone id at2 s1 gs1 = (Ok (tt, s2), gs2) ->
  db_spawns s2 = db_spawns s /\ nothingOpen id s2.
Proof.
  intros [-> _]%closeOrphanedRequests_spec. unfold closeSubagentsAgentGone.
  destruct (_ <=? 0); [done|]. intros ([] & s3 & gs3 & [= <-]%tstmt_Ok & [= <-]%tstmt_Ok)%tbind_Ok.
  unfold closeClaimableLaunches. split; [unfold closeRunningSubagents; by rsimp|]. split_and!.
  - unfold closeRunningSubagents. rsimp. intros pr (pr0 & -> & _)%list_elem_of_fmap Hid.
    assert (pr_instance_id pr0 = id) as Hid0.
    { destruct (decide (pr_instance_id pr0 = id)) as [|Hne]; [done|]. by rewrite closeOne_other in Hid. }
    split; [by apply closeOne_not_awaiting|]. intros r Hr Ha. rewrite closeOne_proof by done.
    assert (spawnAgentIsNotCursor s id = true) as ->.
    { unfold spawnAgentIsNotCursor. rewrite Hr. unfold sql_is_not, sql_is.
      by rewrite not3_Some, where3_Some, bool_decide_false. }
    rewrite andb_true_r. case_bool_decide; [by eexists|]. by destruct (pr_proven_gone_at pr0).
  - rsimp. apply closeRunning_none_running.
  - rsimp. by intros l [H _]%list_elem_of_filter.
Qed.

Lemma nothingOpen_core id s s' : nothingOpen id s -> core_step s s' -> tables_eq s s' -> nothingOpen id s'.
Proof.
  intros (H1 & H2 & H3) Hc (T1 & _ & _ & T2 & T3 & _). unfold nothingOpen. rewrite T1, T2, T3.
  split_and!; [|done..]. intros pr Hin Hid. destruct (H1 pr Hin Hid) as [Ha Hp]. split; [done|].
  intros r' Hr' Hag. specialize (Hc id). rewrite Hr' in Hc.
  destruct (db_spawns s !! id) as [r|] eqn:Er; [|done]. core_eq Hc sp_agent. eapply Hp; [done|congruence].
Qed.

(** A body that updates the row, then closes: its result, up to the epilogue. *)
Definition closedWrite (op : snapshotOp) (id : string) (x : RowSnapshot) (s s' : Store) : Prop :=
  exactlyWritten op id x s s' /\ nothingOpen id s'.

Lemma written_then_closed op id x cond set reason at_ at2 s s1 gs cl s2 gs2 s3 gs3 :
  condUpdate id cond set s = (true, s1) ->
  (forall r, where3 (cond s r) = true -> lifeSnapshot r = x /\ snapshotGuard op s id r) ->
  (forall r, snapshotSet op s r = Some (set s r)) ->
  closeOrphanedRequests id reason at_ s1 gs = (Ok (cl, s2), gs2) ->
  closeSubagentsAgentGone id at2 s2 gs2 = (Ok (tt, s3), gs3) ->
  forall s', core_step s3 s' -> tables_eq s3 s' -> closedWrite op id x s s'.
Proof.
  intros (r & Hr & Hc & ->)%condUpdate_spec Hg Hn H2 H3 s' Hcs Ht.
  destruct (closeBoth_spec _ _ _ _ _ _ _ _ _ _ _ H2 H3) as [E Hopen]. split; [|by eapply nothingOpen_core].
  destruct (Hg r Hc) as [Hx Hgu].
  assert (core_step (s <| db_spawns := <[id := set s r]> (db_spawns s) |>) s') as Hcs'
    by (intros j; specialize (Hcs j); by rewrite E in Hcs).
  exists r. split_and!; [done..| |by eapply othersLeft_kept; [|eapply core_others]].
  rewrite Hn. specialize (Hcs' id). rsimp_in Hcs'. rewrite lookup_insert_eq in Hcs'.
  destruct (db_spawns s' !! id) as [r'|]; [|done]. by exists r'.
Qed.

Lemma ensures_terminalMark T op id x cond set reason :
  (forall s r, where3 (cond s r) = true -> lifeSnapshot r = x /\ snapshotGuard op s id r) ->
  (forall s r, snapshotSet op s r = Some (set s r)) ->
  ensures (condWrote (closedWrite op id x)) (r <- terminalMarkIfSameLife T id (condUpdate id cond set) reason;; ret (snd r)).
Proof.
  intros Hg Hn. unfold terminalMarkIfSameLife.
  eapply (ensures_bind (fun r own => condWrote (closedWrite op id x)
            (match r with Ok a => Ok (snd a) | Err e => Err e end) own)).
  - eapply ensures_catch.
    { apply (ensures_immediateWrite T id _ (fun s _ s' => closedWrite op id x s s')).
      intros s gs a s1 gs1 H. unfold terminalMarkBody in H.
      apply tbind_Ok in H as (p & s2 & gs2 & [= <- <-]%tstmt_Ok & H).
      destruct (sp_state <$> db_spawns s !! id) as [prior|]; [|done].
      apply tbind_Ok in H as (n & s3 & gs3 & [= Hu]%tstmt_Ok & H). destruct n; [|done]. simpl in H.
      apply tbind_Ok in H as (at_ & s4 & gs4 & [= <- <-]%tstmt_Ok & H).
      apply tbind_Ok in H as (cl & s5 & gs5 & H1 & H).
      apply tbind_Ok in H as ([] & s6 & gs6 & H2 & [= <- <- <-]).
      eapply written_then_closed; eauto. }
    intros [[prior closed]|e] o1 H1.
    + destruct H1 as (s & s' & -> & H1). intros w. exists []. rewrite app_nil_r. unfold bind, emits, ret. simpl. eauto 10.
    + simpl in H1. subst o1. destruct e; by (apply ensures_ret || apply ensures_fail).
  - intros [prior res] o1 H1. apply ensures_ret. by rewrite app_nil_r.
  - intros e o1 H1. exact H1.
Qed.

Lemma moveToPendingStmt_spec id x launch token socket parent owner s n s1 :
  moveToPendingStmt id x launch token socket parent owner s = Ok (n, s1) ->
  condUpdate id (fun _ r => (finishedStateGuardSQL r AND snapshotMatchSQL r x))
    (moveToPendingSet launch token socket parent owner) s = (n, s1).
Proof.
  unfold moveToPendingStmt. destruct (condUpdate _ _ _ s) as [n' s2]. by destruct (n' && _); intros [= <- <-].
Qed.

Lemma finished_guard x r : where3 (finishedStateGuardSQL r AND snapshotMatchSQL r x) = true ->
  lifeSnapshot r = x /\ isTerminalState (sp_state r) = true.
Proof.
  unfold finishedStateGuardSQL. rewrite where3_and, where3_Some, snapshot_match. intros [H1 H2]%andb_true_iff. by bsimp.
Qed.

(** resume's move, for any relation its body establishes. *)
Lemma ensures_moveWith T id x launch token socket parent owner (R : Store -> Store -> Prop) :
  (forall s s1 s2 at_ gs cl gs2 s3 gs3,
     condUpdate id (fun _ r => (finishedStateGuardSQL r AND snapshotMatchSQL r x))
       (moveToPendingSet launch token socket parent owner) s = (true, s1) ->
     closeOrphanedRequests id DecisionReasonEnded at_ s1 gs = (Ok (cl, s2), gs2) ->
     closeSubagentsAgentGone id launch s2 gs2 = (Ok (tt, s3), gs3) ->
     forall s', core_step s3 s' -> tables_eq s3 s' -> R s s') ->
  ensures (condWrote R) (r <- MoveToPending T id x launch token socket parent owner;; ret (fst r)).
Proof.
  intros HR. unfold MoveToPending.
  eapply (ensures_bind (fun r own => condWrote R (match r with Ok a => Ok (fst a) | Err e => Err e end) own)).
  - eapply ensures_catch.
    { apply (ensures_immediateWrite T id _ (fun s _ s' => R s s')).
      intros s gs a s1 gs1 H. unfold moveToPendingBody in H.
      apply tbind_Ok in H as (n & s3 & gs3 & Hu%tstmt_Ok%moveToPendingStmt_spec & H). destruct n; [|done]. simpl in H.
      apply tbind_Ok in H as (at_ & s4 & gs4 & [= <- <-]%tstmt_Ok & H).
      apply tbind_Ok in H as (cl & s5 & gs5 & H1 & H).
      apply tbind_Ok in H as ([] & s6 & gs6 & H2 & [= <- <- <-]).
      eapply HR; [exact Hu|exact H1|exact H2]. }
    intros [closed|e] o1 H1.
    + destruct H1 as (s & s' & -> & H1). intros w. exists []. rewrite app_nil_r. unfold bind, emits, ret. simpl. eauto 10.
    + simpl in H1. subst o1. destruct e; try by (apply ensures_ret || apply ensures_fail).
      eapply ensures_bind; [by apply (ensures_condNotApplied id (fun r own => own = [] /\ r <> Ok CondApplied))| |].
      * intros res o2 [-> Hne]. apply ensures_ret. by destruct res.
      * by intros e o2 [-> _].
  - intros [res v] o1 H1. apply ensures_ret. by rewrite app_nil_r.
  - intros e o1 H1. exact H1.
Qed.

Lemma ensures_move T id x launch token socket parent owner :
  ensures (condWrote (closedWrite (OpMoveToPending launch token socket parent owner) id x))
    (r <- MoveToPending T id x launch token socket parent owner;; ret (fst r)).
Proof.
  apply ensures_moveWith. intros s s1 s2 at_ gs cl gs2 s3 gs3 Hu H1 H2.
  eapply written_then_closed; [exact Hu| | |exact H1|exact H2].
  - intros r Hc. by apply finished_guard.
  - done.
Qed.

Definition closesAll (op : snapshotOp) : bool :=
  match op with OpMarkMissing | OpMarkEnded | OpMoveToPending _ _ _ _ _ => true | _ => false end.

Lemma runSnapshotOp_closes T id x op : closesAll op = true ->
  ensures (condWrote (closedWrite op id x)) (runSnapshotOp T id x op).
Proof.
  destruct op; try done; intros _; simpl; [| |apply ensures_move].
  - apply ensures_terminalMark.
    + intros s r Hc. apply sameLife_guard in Hc as [H1 H2]. by split.
    + done.
  - apply ensures_terminalMark.
    + intros s r Hc. unfold markEndedCond in Hc. rewrite !where3_and, where3_sql_eq in Hc.
      apply andb_true_iff in Hc as [[H1 H2]%sameLife_guard [H3 H4]%andb_true_iff]. bsimp.
      split; [done|]. split_and!; [done..|].
      destruct (sp_end_reported_at r) as [n|]; [|done]. rewrite where3_Some in H4. exists n. split; [done|lia].
    + done.
Qed.

Lemma ensures_guardedWrite T op id x cond set :
  (forall s r, where3 (cond s r) = true -> lifeSnapshot r = x /\ snapshotGuard op s id r) ->
  (forall s r, snapshotSet op s r = Some (set s r)) ->
  ensures (condWrote (exactlyWritten op id x)) (condWrite T id (condUpdate id cond set)).
Proof.
  intros Hg Hn. apply ensures_condWrite. intros s s1 s' Hu Hc Ht.
  eapply written_of_applied; [by eapply condUpdate_applied| |]; [apply Hg|apply Hn].
Qed.

Lemma ensures_adopt T id x i :
  ensures (condWrote (exactlyWritten (OpAdopt i) id x)) (runSnapshotOp T id x (OpAdopt i)).
Proof.
  simpl. unfold AdoptIdentityIfSameLife.
  eapply (ensures_bind (fun r own => condWrote (exactlyWritten (OpAdopt i) id x)
            (match r with Ok a => Ok (fst a) | Err e => Err e end) own)).
  - eapply ensures_bind; [apply (ensures_execGuarded_spec T id _ (exactlyWritten (OpAdopt i) id x))| |].
    + intros s s1 s' Hu Hc Ht. eapply written_of_applied; [by eapply condUpdate_applied| |].
      * intros r Hcr. apply sameLife_guard in Hcr as [H1 H2]. by split.
      * done.
    + intros [] o1 H1; [apply ensures_ret; by rewrite app_nil_r|]. subst o1.
      eapply ensures_bind; [by apply (ensures_condNotApplied id (fun r own => own = [] /\ r <> Ok CondApplied))| |].
      * intros res o2 [-> Hne]. apply ensures_ret. by destruct res.
      * by intros e o2 [-> _].
    + by intros e o1 ->.
  - intros [res v] o1 H1. apply ensures_ret. by rewrite app_nil_r.
  - intros e o1 H1. exact H1.
Qed.

Lemma repair_guard id x s r : where3 (repairCond id x s r) = true ->
  lifeSnapshot r = x /\ snapshotGuard OpRepair s id r.
Proof.
  unfold repairCond, noRequestHoldsRowSQL. rewrite !where3_and, !where3_sql_eq, where3_Some, snapshot_match.
  intros H. bsimp. simpl. split; [done|]. split_and!; congruence.
Qed.

Lemma repair_state_eq r : repairNewState r =
  (if bool_decide (is_Some (sp_idle_since r)) && where3 (sql_ne (sp_agent r) (Some AgentCodex))
   then StateWaiting else StateWorking).
Proof. unfold repairNewState, case3. by rewrite where3_and, where3_not_null. Qed.

Lemma repairStmt_spec id x s v s1 : repairStmt id x s = Ok (v, s1) ->
  condUpdate id (repairCond id x) repairSet s = (true, s1).
Proof.
  unfold repairStmt. destruct (condUpdate _ _ _ s) as [n s2]. destruct (db_spawns s2 !! id) as [r|]; [|done].
  by destruct n; [intros [= _ <-]|].
Qed.

Lemma ensures_repair T id x :
  ensures (condWrote (exactlyWritten OpRepair id x)) (runSnapshotOp T id x OpRepair).
Proof.
  simpl. unfold RepairCheckPermissionIfSameLife.
  eapply (ensures_bind (fun r own => condWrote (exactlyWritten OpRepair id x)
            (match r with Ok a => Ok (snd a) | Err e => Err e end) own)).
  - eapply ensures_catch.
    { apply (ensures_immediateWrite T id _ (fun s _ s' => exactlyWritten OpRepair id x s s')).
      intros s gs a s1 gs1 Hu%tstmt_Ok%repairStmt_spec s' Hc Ht. eapply written_of_applied; [by eapply condUpdate_applied|apply repair_guard|].
      done. }
    intros [v|e] o1 H1.
    + apply ensures_ret. rewrite app_nil_r. exact H1.
    + simpl in H1. subst o1. destruct e; try by apply ensures_fail.
      eapply ensures_bind; [by apply (ensures_condNotApplied id (fun r own => own = [] /\ r <> Ok CondApplied))| |].
      * intros res o2 [-> Hne]. apply ensures_ret. by destruct res.
      * by intros e o2 [-> _].
  - intros [v res] o1 H1. apply ensures_ret. by rewrite app_nil_r.
  - intros e o1 H1. exact H1.
Qed.

Lemma ensures_deleteFinished T id x :
  ensures (condWrote (exactlyWritten OpDelete id x)) (DeleteFinishedIfSameLife T id x).
Proof.
  apply ensures_condWrite. intros s s1 s' Hu Hc Ht. unfold condDelete in Hu.
  destruct (db_spawns s !! id) as [r|] eqn:Er; [|done]. destruct (where3 _) eqn:E; [|done]. injection Hu as <-.
  apply finished_guard in E as [Hx Hf]. exists r. unfold deleteRow in Hc. split_and!; [done..| |].
  - simpl. specialize (Hc id). rsimp_in Hc. rewrite lookup_fmap, lookup_delete_eq in Hc. simpl in Hc.
    by destruct (db_spawns s' !! id).
  - intros j Hj. specialize (Hc j). rsimp_in Hc. rewrite lookup_fmap, lookup_delete_ne in Hc by done.
    destruct (db_spawns s !! j) as [q|], (db_spawns s' !! j) as [q'|]; try done. simpl in *. f_equal. by symmetry.
Qed.

Lemma ensures_exactOp (T : Z) (id : string) (x : RowSnapshot) (op : snapshotOp) :
  ensures (condWrote (exactlyWritten op id x)) (runSnapshotOp T id x op).
Proof.
  destruct op; simpl.
  - apply ensures_guardedWrite.
    + intros s r Hc. unfold noteUnreportedCond in Hc. rewrite !where3_and, where3_sql_eq, snapshot_match in Hc.
      bsimp. split; [done|]. split; [congruence|]. intros E. unfold sql_ne, sql_eq, lift2 in *.
      rewrite E, not3_Some, where3_Some in *. by bsimp.
    + done.
  - apply ensures_guardedWrite.
    + intros s r Hc. apply sameLife_guard in Hc as [H1 H2]. by split.
    + done.
  - apply ensures_guardedWrite.
    + intros s r Hc. apply sameLife_guard in Hc as [H1 H2]. by split.
    + done.
  - apply ensures_adopt.
  - apply ensures_repair.
  - eapply ensures_mono; [apply (runSnapshotOp_closes T id x OpMarkMissing eq_refl)|].
    intros [[]|e] own; try done. intros (s & s' & -> & H & _). by eexists _, _.
  - eapply ensures_mono; [apply (runSnapshotOp_closes T id x OpMarkEnded eq_refl)|].
    intros [[]|e] own; try done. intros (s & s' & -> & H & _). by eexists _, _.
  - eapply ensures_mono; [apply ensures_move|].
    intros [[]|e] own; try done. intros (s & s' & -> & H & _). by eexists _, _.
  - apply ensures_deleteFinished.
Qed.

(** The life's columns after an exact write. *)
Lemma snapshotSet_columns op s r q : snapshotSet op s r = Some q ->
  exists v, snapshotState op r = Some v /\ next_columns v r q.
Proof.
  destruct op; simpl; try done; intros [= <-]; (eexists; split; [done|]);
    auto using note_next, clear_next, adopt_next, terminal_next, move_next. rewrite <-repair_state_eq. apply repair_next.
Qed.
Lemma exact_written op id x s s' : exactlyWritten op id x s s' -> snapshotWritten op id x s s'.
Proof.
  intros (r & Hr & Hx & Hg & Hs & Ho). exists r. split_and!; [done..| |].
  - destruct (snapshotSet op s r) as [q|] eqn:Eq; [|by destruct op].
    destruct (snapshotSet_columns _ _ _ _ Eq) as (v & -> & Hcol). destruct Hs as (r' & Hr' & Hc). exists r'. split; [done|].
    pose proof (lifeColumns_core _ _ Hc) as E. unfold next_columns in Hcol. rewrite Hcol in E.
    unfold lifeColumns in E. rewrite <- Hx. simpl. injection E as -> -> -> -> -> ->. done.
  - intros j Hj. specialize (Ho j Hj). destruct (db_spawns s !! j) as [a|], (db_spawns s' !! j) as [b|]; try done.
    apply Some_inj in Ho. simpl. f_equal. rewrite (lifeColumns_core (othersLeft op id a) b) by (symmetry; exact Ho).
    destruct op; try done. simpl. destruct (bool_decide _); [|done]. unfold lifeColumns. by rsimp.
Qed.
Lemma ensures_snapshotOp (T : Z) (id : string) (x : RowSnapshot) (op : snapshotOp) :
  ensures (condWrote (snapshotWritten op id x)) (runSnapshotOp T id x op).
Proof.
  eapply ensures_mono; [apply ensures_exactOp|]. intros [[]|e] own; try done. intros (s & s' & -> & H).
  eexists _, _. split; [done|]. by apply exact_written.
Qed.

(** C7: Optimistic concurrency of the lifecycle writes. A note, a note's
    clear, an adoption, the check_permission repair, find-missing's two
    marks, resume's move to pending and expire's delete, each run under any
    interference: reported applied, the operation committed exactly one
    write, of a row that still held the snapshot the caller examined and was
    in the states the write is for; its version is one higher, its life is
    the same, and its state is the write's (the row is gone, for the delete);
    no other row's state, version or life moves. Any other outcome, an error included, committed nothing. *)
Theorem snapshot_write_is_optimistic (T : Z) (id : string) (x : RowSnapshot) (op : snapshotOp) :
  ensures (condWrote (snapshotWritten op id x)) (runSnapshotOp T id x op).
Proof. apply ensures_snapshotOp. Qed.

(** find-missing's two marks and resume's move leave nothing of the
    earlier launch open: after the one committed write none of the Spawn's
    requests awaits an answer (and each is proven gone, unless the agent is
    Cursor), none of its subagent entries runs and no launch of it is
    claimable. *)
Theorem closing_moves_leave_nothing_open (T : Z) (id : string) (x : RowSnapshot) (op : snapshotOp) :
  closesAll op = true ->
  ensures (condWrote (fun s s' => nothingOpen id s')) (runSnapshotOp T id x op).
Proof.
  intros H. eapply ensures_mono; [by apply runSnapshotOp_closes|].
  intros [[]|e] own; try done. intros (s & s' & -> & _ & Ho). by eexists _, _.
Qed.

(** ** A failed resume *)

(** Every stored value in the form the store's own writes give it. *)
Record storedNormal (r : SpawnRow) : Prop := {
  sn_pid : forall n, sp_pid r = Some n -> 0 < n;
  sn_start : sp_proc_starttime r <> Some "";
  sn_note : sp_liveness_note r <> Some "";
  sn_token : decodeLaunchToken (dval_text (sp_launch_token r)) = coalesce (sp_launch_token r) "" /\ sp_launch_token r <> Some "";
  sn_socket : sp_tmux_socket r <> Some "";
  sn_server : (forall n, sp_tmux_server_pid r = Some n -> 0 < n) /\
              (forall n, sp_tmux_server_started r = Some n -> 0 < n) /\ sp_tmux_server_starttime r <> Some "";
  sn_pane : sp_pane_id r <> Some "" /\ (forall n, sp_pane_pid r = Some n -> 0 < n) /\ sp_pane_starttime r <> Some "";
  sn_report : forall n, sp_end_reported_at r = Some n -> 0 < n;
  sn_tracking : sp_subagent_tracking r = 0 \/ sp_subagent_tracking r = 1;
}.

Definition movedColumns (r : SpawnRow) :=
  (sp_state r, sp_ended_at r, sp_pid r, sp_proc_starttime r, sp_liveness_unverified_since r, sp_liveness_note r,
   sp_launch_token r, sp_tmux_socket r, sp_end_reported_at r, sp_subagent_tracking r,
   (sp_tmux_server_pid r, sp_tmux_server_started r, sp_tmux_server_starttime r, sp_pane_id r, sp_pane_pid r,
    sp_pane_starttime r)).
Definition keptColumns (r : SpawnRow) :=
  (sp_cwd r, sp_tmux_session_name r, sp_agent_args r, sp_relay_mode r, sp_jsonl_path r, sp_session_id r, sp_labels r,
   sp_started_at r, sp_last_seen_at r, sp_extra_env r, sp_life_number r, sp_no_pre_trust r, sp_agent r).

Lemma positive_back x : (forall n, x = Some n -> 0 < n) -> positiveIntArg (coalesce x 0) = x.
Proof.
  intros H. destruct x as [n|]; [|done]. unfold coalesce, positiveIntArg. simpl.
  by rewrite (proj2 (Z.ltb_lt 0 n)) by auto.
Qed.
Lemma text_back x : x <> Some "" -> nullableStringArg (coalesce x "") = x.
Proof. intros H. destruct x as [[|c t]|]; try done. Qed.
Lemma report_back x : (forall n, x = Some n -> 0 < n) -> positiveInt64Arg (decodeEndReportedAt (dval_int x)) = x.
Proof.
  intros H. destruct x as [n|]; [|done]. simpl. rewrite (proj2 (Z.ltb_lt 0 n)) by auto.
  unfold positiveInt64Arg. by rewrite (proj2 (Z.ltb_lt 0 n)) by auto.
Qed.

Lemma restore_columns r s q : storedNormal r ->
  movedColumns (restoreSet (resumePrior r) s q) = movedColumns r /\
  keptColumns (restoreSet (resumePrior r) s q) = keptColumns q /\
  sp_row_version (restoreSet (resumePrior r) s q) = sp_row_version q + 1 /\
  sp_launch_started_at (restoreSet (resumePrior r) s q) = None /\
  sp_parent_id (restoreSet (resumePrior r) s q) = sp_parent_id q.
Proof.
  intros [N1 N2 N3 [N4 N4'] N5 (N6 & N7 & N8) (N9 & N10 & N11) N12 N13].
  assert (keptColumns (immediateStateSet (sp_state r) (db_now s) q) = keptColumns q /\
    sp_row_version (immediateStateSet (sp_state r) (db_now s) q) = sp_row_version q /\
    sp_parent_id (immediateStateSet (sp_state r) (db_now s) q) = sp_parent_id q /\
    sp_state (immediateStateSet (sp_state r) (db_now s) q) = sp_state r) as (E1 & E2 & E3 & E4).
  { unfold keptColumns, immediateStateSet, immediateSettleSet. cbv zeta. rsimp. done. }
  unfold restoreSet, movedColumns, keptColumns, resumePrior, lifeIdentity. set_fields. unfold identitySet.
  simpl rp_State. simpl rp_EndedAt. simpl rp_PID. simpl rp_ProcStarttime. simpl rp_LivenessUnverifiedSince.
  simpl rp_LivenessNote. simpl rp_EndReportedAtMillis. simpl rp_SubagentTracking. simpl rp_Identity. 
  revert E1 E2 E3 E4. generalize (immediateStateSet (sp_state r) (db_now s) q). intros q1 E1 E2 E3 E4.
  rsimp. simpl li_Token. simpl li_Socket. simpl li_ServerPID. simpl li_ServerStart. simpl li_ServerStarttime.
  simpl li_PaneID. simpl li_PanePID. simpl li_PaneStarttime.
  split_and!; [|exact E1|by rewrite E2|done|exact E3].
  rewrite E4, N4, !positive_back, !text_back, report_back by done.
  assert (boolInt (sp_subagent_tracking r =? 1) = sp_subagent_tracking r) as ->
    by (by destruct N13 as [-> | ->]).
  done.
Qed.

Lemma move_columns launch token socket parent owner s r :
  let q := moveToPendingSet launch token socket parent owner s r in
  sp_state q = StatePending /\ sp_row_version q = sp_row_version r + 1 /\ keptColumns q = keptColumns r /\
  sp_parent_id q = nullableStringArg parent.
Proof.
  cbv zeta. assert (keptColumns (immediateStateSet StatePending (db_now s) r) = keptColumns r /\
    sp_row_version (immediateStateSet StatePending (db_now s) r) = sp_row_version r /\
    sp_state (immediateStateSet StatePending (db_now s) r) = StatePending) as (E1 & E2 & E3).
  { unfold keptColumns, immediateStateSet, immediateSettleSet. cbv zeta. rsimp. done. }
  unfold moveToPendingSet, keptColumns. set_fields. unfold identitySet.
  revert E1 E2 E3. generalize (immediateStateSet StatePending (db_now s) r). intros q1 E1 E2 E3. rsimp.
  split_and!; [exact E3|by rewrite E2|exact E1|done].
Qed.

Lemma kept_core r r' : same_core r r' -> movedColumns r' = movedColumns r /\ keptColumns r' = keptColumns r /\
  sp_row_version r' = sp_row_version r /\ sp_launch_started_at r' = sp_launch_started_at r /\ sp_parent_id r' = sp_parent_id r.
Proof.
  intros H.
  assert (forall E (p : SpawnRow -> E), (forall q, p (core q) = p q) -> p r' = p r) as K.
  { intros E p Hp. symmetry. by apply (core_field p _ _ H). }
  split_and!; apply K; intros q; unfold core, movedColumns, keptColumns; by rsimp.
Qed.

(** The moved row itself. *)
Lemma ensures_moveRow T id x launch token socket parent owner :
  ensures (condWrote (fun s s1 => exists r r1, db_spawns s !! id = Some r /\ lifeSnapshot r = x /\
      isTerminalState (sp_state r) = true /\ db_spawns s1 !! id = Some r1 /\
      same_core (moveToPendingSet launch token socket parent owner s r) r1))
    (r <- MoveToPending T id x launch token socket parent owner;; ret (fst r)).
Proof.
  apply ensures_moveWith. intros s s1 s2 at_ gs cl gs2 s3 gs3 Hu H1 H2 s' Hc Ht.
  apply condUpdate_spec in Hu as (r & Hr & Hcond & ->). apply finished_guard in Hcond as [Hx Hf].
  destruct (closeBoth_spec _ _ _ _ _ _ _ _ _ _ _ H1 H2) as [E _].
  specialize (Hc id). rewrite E in Hc. rsimp_in Hc. rewrite lookup_insert_eq in Hc.
  destruct (db_spawns s' !! id) as [r1|]; [|done]. eauto 10.
Qed.

(** A restore on the row its move left. *)
Lemma restore_applies T id movedVersion set s r1 :
  db_spawns s !! id = Some r1 -> sp_state r1 = StatePending -> sp_row_version r1 = movedVersion ->
  exists s3 tr, run (condWrite T id (condUpdate id (restoreCond movedVersion) set)) s = (Ok CondApplied, s3, tr) /\
    exists r3, db_spawns s3 !! id = Some r3 /\ same_core (set s r1) r3.
Proof.
  intros Hr Hst Hv. unfold run, condWrite. change (mkWorld s [] [] []) with (alone s [] []).
  pose proof (execGuarded_alone T id (condUpdate id (restoreCond movedVersion) set) s [] []) as Ha.
  assert (condUpdate id (restoreCond movedVersion) set s
    = (true, s <| db_spawns := <[id := set s r1]> (db_spawns s) |>)) as Eu.
  { unfold condUpdate, update1. rewrite Hr. unfold restoreCond. rewrite where3_and, !where3_sql_eq.
    by rewrite !bool_decide_true by congruence. }
  rewrite Eu in Ha. simpl in Ha. destruct Ha as (s3 & ex & Ha & Hc & _ & _).
  unfold bind at 1. rewrite Ha. simpl. do 2 eexists. split; [done|].
  specialize (Hc id). rsimp_in Hc. rewrite lookup_insert_eq in Hc.
  destruct (db_spawns s3 !! id) as [r3|]; [|done]. eauto.
Qed.

(** C9: A failed resume puts the row back. Once resume's move of a finished
    row has committed, and as long as nothing wrote that row since, the
    restore with what the caller read of it before the move applies, and the
    row is as it was: state, end time, agent process, liveness, launch token,
    socket, server and pane, end report and tracking flag, and everything the
    move keeps. Only its version (two higher), its parent (the move's) and
    its launch start (none) tell the failed launch happened. *)
Theorem failed_resume_restores_the_row (T : Z) (id : string) (x : RowSnapshot) (launch : Z)
    (token socket parent : string) (owner : ProcessIdentity) :
  ensures (condWrote (fun s s1 => forall r, db_spawns s !! id = Some r -> storedNormal r ->
      forall s2, db_spawns s2 !! id = db_spawns s1 !! id ->
      let '(res, s3, tr) := run (RestoreAfterFailedResume T id (rs_RowVersion x + 1) (resumePrior r)) s2 in
      res = Ok CondApplied /\
      exists r3, db_spawns s3 !! id = Some r3 /\ movedColumns r3 = movedColumns r /\ keptColumns r3 = keptColumns r /\
        sp_row_version r3 = sp_row_version r + 2 /\ sp_parent_id r3 = nullableStringArg parent /\
        sp_launch_started_at r3 = None))
    (r <- MoveToPending T id x launch token socket parent owner;; ret (fst r)).
Proof.
  eapply ensures_mono; [apply ensures_moveRow|].
  intros [[]|e] own; try done. intros (s & s1 & -> & r & r1 & Hr & Hx & Hf & Hr1 & Hcore).
  exists s, s1. split; [done|]. intros r' Hr' Hn s2 E2. rewrite Hr in Hr'. injection Hr' as <-.
  rewrite Hr1 in E2. destruct (move_columns launch token socket parent owner s r) as (M1 & M2 & M3 & M4).
  destruct (kept_core _ _ Hcore) as (_ & K2 & K3 & _ & K5). core_eq Hcore sp_state.
  unfold RestoreAfterFailedResume. simpl rp_State. rewrite Hf. simpl negb. cbv iota.
  destruct (restore_applies T id (rs_RowVersion x + 1) (restoreSet (resumePrior r)) s2 r1) as (s3 & tr & Ha & r3 & Hr3 & Hc);
    [done|congruence|rewrite <- Hx; simpl; congruence|].
  rewrite Ha. split; [done|]. exists r3. split; [done|].
  destruct (kept_core _ _ Hc) as (L1 & L2 & L3 & L4 & L5).
  destruct (restore_columns r s2 r1 Hn) as (R1 & R2 & R3 & R4 & R5).
  split_and!; [congruence..|rewrite L3, R3, K3, M2; lia|congruence|congruence].
Qed.
