(* ===== verification/CapacityProps.v ===== *)
(** * Properties of Claude's capacity

    A capacity is replaced only from the value it was computed from, by the
    agent it is of; what it says was observed of the transcript's latest
    response, and a response once rejected is never restored. *)

From S2P Require Import Prelude Sql Text Rows ContextSource Display Settle Family Requests History Steps Gate HookWrites Lifecycle HookEnv HookProps RelayProps LifecycleProps Capacity.

(** ** What one observation computes *)

(** A rejected window stays rejected for its response. *)
Definition stays (w0 w : option ClaudeWindow) : Prop :=
  forall a b, w0 = Some a -> w = Some b -> cw_Invalidated a = true -> cw_ResponseUUID a = cw_ResponseUUID b ->
    cw_Invalidated b = true.
Definition staysRejected (p0 p : ClaudeCapacity) : Prop :=
  stays (cc_Main p0) (cc_Main p) /\ forall id, stays (cc_Children p0 !! id) (cc_Children p !! id).

(** A window is the one there was, or measured from a response of the
    transcript. *)
Definition measuredWindow (usage : option ClaudeUsage) (at_ : Z) (w : ClaudeWindow) : Prop :=
  exists u, usage = Some u /\ cw_ResponseUUID w = us_UUID u /\ cw_Model w = us_Model u /\ us_At u <= at_ /\ cw_ObservedAt w = at_.
Definition mainObserved (transcript : string -> option (list (option claudeRecord))) (at_ : Z) (e : SpawnContext)
    (p : ClaudeCapacity) : Prop :=
  forall w, cc_Main p = Some w -> cw_Invalidated w = false ->
    (exists p0, BoundClaudeCapacity e = Some p0 /\ cc_Main p0 = Some w) \/
    measuredWindow (Claude (sx_SessionID e) "" (transcript (sx_JSONLPath e))) at_ w.

Definition sound (transcript : string -> option (list (option claudeRecord))) (at_ : Z) (e : SpawnContext) (p : ClaudeCapacity) : Prop :=
  (forall p0, BoundClaudeCapacity e = Some p0 -> staysRejected p0 p) /\ mainObserved transcript at_ e p.

Lemma stays_same w : stays w w.
Proof. intros a b -> [= ->]. done. Qed.
Lemma stays_invalidated w0 w : stays w0 (invalidated <$> w).
Proof. intros a b _ H _ _. destruct w as [w|]; [|done]. injection H as <-. done. Qed.
Lemma stays_next prior w : stays prior (Some (w <| cw_Invalidated := sameResponseInvalidated prior w |>)).
Proof.
  intros a b -> [= <-] Ha Hu. change (cw_ResponseUUID a = cw_ResponseUUID w) in Hu. simpl. by rewrite Hu, bool_decide_true, Ha by done.
Qed.

Lemma cleared_sound transcript at_ e : sound transcript at_ e (clearedCapacity e).
Proof.
  unfold clearedCapacity. split.
  - intros p0 ->. split; [rsimp; apply stays_invalidated|]. intros id. rsimp. rewrite lookup_fmap. apply stays_invalidated.
  - intros w. destruct (BoundClaudeCapacity e) as [p0|]; rsimp; [|done].
    destruct (cc_Main p0) as [x|]; [|done]. intros [= <-]. done.
Qed.

Lemma statusLine_sound transcript at_ q e cb : sound transcript at_ e (statusLineCapacity transcript at_ q e cb).
Proof.
  unfold statusLineCapacity. cbv zeta. destruct (_ || _); [apply cleared_sound|].
  assert (sound transcript at_ e (startCapacity e <| cc_Main := invalidated <$> cc_Main (startCapacity e) |>
    <| cc_Version := ClaudeVersion |> <| cc_Provider := "anthropic" |>)) as Hrej.
  { split.
    - intros p0 E. unfold startCapacity. rewrite E. simpl. split; rsimp; [apply stays_invalidated|intros id; apply stays_same].
    - intros w. rsimp. destruct (cc_Main _); [|done]. intros [= <-]. done. }
  destruct (Claude _ _ _) as [u|] eqn:Eu; [|exact Hrej]. destruct (_ && _) eqn:Eok; [|exact Hrej].
  bsimp. split.
  - intros p0 E. unfold startCapacity. rewrite E. simpl. split; rsimp; [apply stays_next|intros id; apply stays_same].
  - intros w. rsimp. intros [= <-] _. right. rewrite Eu. exists u. rewrite Z.ltb_ge in *. rsimp. done.
Qed.

Lemma observeTasks_stays transcript at_ e visible prior seen children tasks children' :
  (forall id, stays (prior !! id) (children !! id)) ->
  observeTasks transcript at_ e visible prior seen children tasks = Some children' ->
  forall id, stays (prior !! id) (children' !! id).
Proof.
  revert seen children. induction tasks as [|task tasks IH]; intros seen children Hc; simpl; [by intros [= <-]|].
  case_bool_decide as Hs; [done|]. intros H. eapply IH; [|exact H]. clear H IH.
  destruct (_ || _); [done|]. destruct (_ && _); [done|].
  destruct (taskWindow transcript at_ e prior task) as [w|] eqn:Ew; [|done]. intros id.
  destruct (decide (id = tk_ID task)) as [->|]; [|by rewrite lookup_insert_ne].
  rewrite lookup_insert_eq. unfold taskWindow in Ew. destruct (Claude _ _ _); [|done]. destruct (_ && _); [|done].
  injection Ew as <-. apply stays_next.
Qed.

Lemma subagent_sound transcript at_ e cb records : sound transcript at_ e (subagentCapacity transcript at_ e cb records).
Proof.
  unfold subagentCapacity. cbv zeta.
  destruct (observeTasks _ _ _ _ _ _ _ _) as [children|] eqn:Eo; [|apply cleared_sound]. split.
  - intros p0 E. unfold startCapacity in *. rewrite E in *. simpl in *. split; rsimp; [apply stays_same|].
    eapply observeTasks_stays; [|exact Eo]. intros id. rewrite lookup_fmap. intros a b Ha Hb Hi Hu.
    destruct (filter _ (cc_Children p0) !! id); [|done]. by injection Hb as <-.
  - intros w. rsimp. unfold startCapacity. destruct (BoundClaudeCapacity e) as [p0|] eqn:E; simpl; [|done].
    intros Hw _. left. by exists p0.
Qed.

(** ** What is written *)

Lemma recording_states v : v ∈ [StateWorking; StateWaiting; StateAskUser; StateCheckPermission] ->
  IsLiveState v = true /\ v <> StatePending.
Proof. rewrite !elem_of_cons, elem_of_nil. intros [->|[->|[->|[->|[]]]]]; done. Qed.

Section Writes.
Context (capacityText : ClaudeCapacity -> string) (capacityParse : string -> option ClaudeCapacity)
  (text_not_null : forall p, capacityText p <> "null").

(** The columns of a row that tell whose capacity it holds. *)
Definition identityOf (p : ClaudeCapacity) : option string * option string * option string * option Z * option string :=
  (Some (cc_LaunchToken p), Some (cc_SessionID p), Some (cc_JSONLPath p), Some (cc_PID p), Some (cc_Starttime p)).
Definition capacityIdentity (r : SpawnRow) := (sp_launch_token r, sp_session_id r, sp_jsonl_path r, sp_pid r, sp_proc_starttime r).

(** The one write of an observation: [row0] is the row it was computed from. *)
Definition capacityWritten (transcript : string -> option (list (option claudeRecord))) (at_ : Z) (id : string)
    (parent : parentIdentity) (s s' : Store) : Prop :=
  exists r row0 p, let e := ContextEvidence capacityParse row0 in
    db_spawns s !! id = Some r /\
    s' = s <| db_spawns := <[id := r <| sp_claude_capacity := Some (capacityText p) |>]> (db_spawns s) |> /\
    capacity_valid p = true /\ len (capacityText p) <= maxClaudeCapacityBytes /\
    sp_agent r = Some AgentClaude /\ IsLiveState (sp_state r) = true /\ sp_state r <> StatePending /\
    gateHolds s (capacityGate e parent) id r = true /\ capacityIdentity r = identityOf p /\
    sp_claude_capacity r = capacityText <$> sx_ClaudeCapacity e /\ sound transcript at_ e p.

Lemma capacity_update id e parent p transcript at_ :
  (exists row0, e = ContextEvidence capacityParse row0) -> sound transcript at_ e p ->
  guarantees (fun s s' => s' = s \/ capacityWritten transcript at_ id parent s s')
    (writeClaudeCapacity capacityText id (capacityGate e parent)
       (match sx_ClaudeCapacity e with Some q => capacityText q | None => "null" end) p).
Proof.
  intros [row0 ->] Hs. unfold writeClaudeCapacity. apply guarantees_catch; [|intros r; guar].
  unfold RecordClaudeCapacity. destruct (capacity_valid p) eqn:Ev; simpl; [|guar].
  destruct (_ <? len _) eqn:El; [guar|]. apply Z.ltb_ge in El.
  apply guarantees_stmt. intros s n s' [= Hu]. destruct n; [|by left; apply condUpdate_spec in Hu].
  apply condUpdate_spec in Hu as (r & Hr & Hc & ->). right. exists r, row0, p. cbv zeta.
  unfold capacityCond in Hc. rewrite !where3_and, !where3_sql_eq, where3_sql_is, where3_Some in Hc. bsimp.
  unfold capacityIdentity, identityOf. split_and!; try done; try congruence.
  - by apply recording_states.
  - by apply recording_states.
  - simpl. destruct (decodeClaudeCapacity capacityParse (sp_claude_capacity row0)) as [q|]; simpl; [|done].
    by rewrite (bool_decide_false (capacityText q = "null")) in * by done.
Qed.

End Writes.

(** ** Samples *)

Definition claudeRow : SpawnRow :=
  soloRow <| sp_agent := Some AgentClaude |> <| sp_state := StateWaiting |> <| sp_session_id := Some "sess" |>
    <| sp_jsonl_path := Some "/t/sess.jsonl" |> <| sp_launch_token := Some "0123456789abcdef" |> <| sp_pid := Some 77 |>
    <| sp_proc_starttime := Some "s77" |> <| sp_pane_pid := Some 77 |> <| sp_pane_starttime := Some "s77" |>.
Definition claudeStore : Store := storeOf {[ "leaf" := claudeRow ]} 5000.
Definition sampleText (p : ClaudeCapacity) : string := match cc_Main p with Some w => cw_ResponseUUID w | None => "none" end.
Definition sampleCallback : Callback := mkCallback "sess" ClaudeVersion "model" 200000 sampleCounts [].
Definition sampleTranscript (path : string) : option (list (option claudeRecord)) :=
  if bool_decide (path = "/t/sess.jsonl") then Some [Some userRecord; Some assistantRecord] else None.
Definition leafEnv (key : string) : string := if bool_decide (key = envInstanceID) then "leaf" else "".
Definition capacityRun : M Store Event bool :=
  handleClaudeCapacity (fun p => ("v" ++ sampleText p)%string) (fun _ => None) sampleTranscript leafEnv "" "statusLine"
    (Some sampleCallback) (mkParent 77 "s77") 9.

