(* ===== verification/LifecycleRuns.v ===== *)
(** * The lifecycle writes run alone

    With nobody else at the store, each write guarded by an examined snapshot
    applies exactly when the row still holds the snapshot and is in the states
    the write is for, and answers which of the two other outcomes it was when
    it does not. *)

From S2P Require Import Prelude Sql Rows Display Settle Family Requests History Steps Gate HookWrites HookProps RelayWrites RequestInv RelayProps Lifecycle LifecycleProps.

(** The WHERE clause of each write. *)
Definition snapshotCond (op : snapshotOp) (id : string) (x : RowSnapshot) (s : Store) (r : SpawnRow) : tvl :=
  match op with
  | OpNoteUnreported => noteUnreportedCond x s r
  | OpSetNote _ | OpClearNote | OpAdopt _ => sameLife x r
  | OpRepair => repairCond id x s r
  | OpMarkMissing => markMissingCond x s r
  | OpMarkEnded => markEndedCond x s r
  | OpMoveToPending _ _ _ _ _ => (finishedStateGuardSQL r AND snapshotMatchSQL r x)
  | OpDelete => deleteFinishedCond x r
  end.

Lemma sameLife_iff x r : where3 (sameLife x r) = true <-> lifeSnapshot r = x /\ IsLiveState (sp_state r) = true.
Proof.
  unfold sameLife, liveStateGuardSQL. rewrite where3_and, where3_Some, snapshot_match, andb_true_iff, bool_decide_eq_true.
  tauto.
Qed.

Lemma finished_iff x r : where3 (finishedStateGuardSQL r AND snapshotMatchSQL r x) = true <->
  lifeSnapshot r = x /\ isTerminalState (sp_state r) = true.
Proof.
  unfold finishedStateGuardSQL. rewrite where3_and, where3_Some, snapshot_match, andb_true_iff, bool_decide_eq_true.
  tauto.
Qed.

Lemma note_guard (n : option string) (v : string) : v <> "" ->
  where3 (sql_ne (Some (coalesce n "")) (Some v)) = true <-> n <> Some v.
Proof.
  intros Hv. unfold sql_ne, sql_eq, lift2. rewrite not3_Some, where3_Some, negb_true_iff, bool_decide_eq_false.
  destruct n as [n|]; simpl; [split; congruence|]. split; [done|]. intros _ E. by rewrite E in Hv.
Qed.

Lemma snapshotCond_iff op id x s r :
  where3 (snapshotCond op id x s r) = true <-> lifeSnapshot r = x /\ snapshotGuard op s id r.
Proof.
  destruct op; simpl; try apply sameLife_iff; try apply finished_iff.
  - unfold noteUnreportedCond. rewrite !where3_and, where3_sql_eq, snapshot_match, !andb_true_iff, !bool_decide_eq_true.
    rewrite note_guard by done. split; [intros (E & H2 & H3); injection E as E|intros (? & -> & ?)]; by auto.
  - unfold repairCond, noRequestHoldsRowSQL.
    rewrite !where3_and, !where3_sql_eq, snapshot_match, where3_Some, !andb_true_iff, !bool_decide_eq_true, negb_true_iff.
    split; [intros (E1 & E2 & H3 & H4); injection E1 as E1; injection E2 as E2|intros (? & -> & -> & ?)]; by auto.
  - unfold markEndedCond. rewrite !where3_and, where3_sql_eq, !andb_true_iff, bool_decide_eq_true, sameLife_iff.
    split; [intros ([? ?] & ? & Hn)|intros (? & ? & ? & n & -> & ?)].
    + split_and!; [done..|]. destruct (sp_end_reported_at r) as [n|]; [|done]. rewrite where3_Some in Hn. exists n.
      split; [done|lia].
    + split_and!; [done..|]. rewrite where3_Some. by apply Z.ltb_lt.
Qed.

(** ** Running a transaction alone *)

Lemma txImmediate_alone {A} (body : Tx Store A) s tr own :
  txImmediate body (alone s tr own) =
  match fst (body s []), snd (body s []) with
  | Ok (a, s'), [] => (Ok a, alone s' tr (own ++ [(s, s')]))
  | Err EStoreBusy, [] => (Err EDriver, alone s tr own)
  | Err e, [] => (Err e, alone s tr own)
  | _, _ => txImmediate body (alone s tr own)
  end.
Proof.
  unfold txImmediate, alone. simpl. by destruct (body s []) as [[[a s']|[]] []].
Qed.

(** The family epilogue adds no failure of its own. *)
Lemma inImmediateTx_alone {A} T id (body : Tx Store A) s tr own :
  match body s [] with
  | (Ok (a, s1), []) => exists s' ex, inImmediateTx T id body (alone s tr own)
      = (Ok a, alone s' (tr ++ ex) (own ++ [(s, s')])) /\ core_step s1 s' /\ tables_eq s1 s'
  | (Err e, []) => inImmediateTx T id body (alone s tr own)
      = (Err (match e with EStoreBusy => EDriver | _ => e end), alone s tr own)
  | _ => True
  end.
Proof.
  destruct (body s []) as [[[a s1]|e] []] eqn:Eb; try done.
  - destruct (takeDisplayExits_alone id (refreshFamilies T s1)) as (ex & s' & E). exists s', ex.
    unfold inImmediateTx, bind. rewrite txImmediate_alone. unfold tbind. rewrite Eb. unfold tstmt at 1 2. simpl.
    rewrite E. simpl. split; [done|]. apply takeDisplayExits_spec in E as (H1 & H2 & _). split.
    + eapply core_step_trans; [apply core_step_refresh|done].
    + eapply tables_eq_trans; [apply tables_eq_spawns|done].
  - unfold inImmediateTx, bind. rewrite txImmediate_alone. unfold tbind. rewrite Eb. simpl. by destruct e.
Qed.

Lemma condNotApplied_alone id s tr own : condNotApplied id (alone s tr own)
  = (Ok (if bool_decide (is_Some (db_spawns s !! id)) then CondChanged else CondAbsent), alone s tr own).
Proof. unfold condNotApplied, bind, read, alone. simpl. by case_bool_decide. Qed.

(** The closeouts, alone, succeed. *)
Lemma closeOrphaned_alone id reason at_ s : exists cl s1, closeOrphanedRequests id reason at_ s [] = (Ok (cl, s1), []).
Proof. unfold closeOrphanedRequests, tbind, tstmt. simpl. eauto. Qed.
Lemma closeSubagents_alone id at_ s : 0 < at_ -> exists s1, closeSubagentsAgentGone id at_ s [] = (Ok (tt, s1), []).
Proof.
  intros H. unfold closeSubagentsAgentGone, tbind, tstmt. destruct (Z.leb_spec at_ 0); [lia|]. simpl. eauto.
Qed.

(** ** What each write answers *)

(** The result and the store of a conditional write, run alone. *)
Definition answers (applied : bool) (id : string) (s : Store) (res : result CondResult) (s' : Store) : Prop :=
  if applied then res = Ok CondApplied
  else res = Ok (if bool_decide (is_Some (db_spawns s !! id)) then CondChanged else CondAbsent) /\ s' = s.

Definition holdsNow (op : snapshotOp) (id : string) (x : RowSnapshot) (s : Store) : bool :=
  match db_spawns s !! id with Some r => where3 (snapshotCond op id x s r) | None => false end.

Lemma condUpdate_fst id cond set s : fst (condUpdate id cond set s) =
  match db_spawns s !! id with Some r => where3 (cond s r) | None => false end.
Proof. unfold condUpdate, update1. destruct (db_spawns s !! id) as [r|]; [|done]. by destruct (where3 _). Qed.

Lemma condUpdate_false id cond set s s1 : condUpdate id cond set s = (false, s1) -> s1 = s.
Proof. apply (condUpdate_spec id cond set s false s1). Qed.

(** A program's result and store, from its run in the empty world. *)
Definition resultOf {A} (m : Op A) (s : Store) : result A * Store := let '(r, w) := m (alone s [] []) in (r, w_store w).

Lemma condWrite_answers T id q s :
  (let '(r, s') := resultOf (condWrite T id q) s in answers (fst (q s)) id s r s').
Proof.
  unfold resultOf, condWrite, bind. pose proof (execGuarded_alone T id q s [] []) as H.
  destruct (fst (q s)); simpl.
  - destruct H as (s' & ex & -> & _). done.
  - rewrite H, condNotApplied_alone. done.
Qed.

Lemma condWrite_answers_as T id q s (b : bool) : fst (q s) = b ->
  (let '(r, s') := resultOf (condWrite T id q) s in answers b id s r s').
Proof. intros <-. apply condWrite_answers. Qed.

Lemma condDelete_fst id cond s : fst (condDelete id cond s) =
  match db_spawns s !! id with Some r => where3 (cond r) | None => false end.
Proof. unfold condDelete. destruct (db_spawns s !! id) as [r|]; [|done]. by destruct (where3 _). Qed.

Lemma adopt_answers T id x i s :
  (let '(r, s') := resultOf (runSnapshotOp T id x (OpAdopt i)) s in
   answers (holdsNow (OpAdopt i) id x s) id s r s').
Proof.
  unfold resultOf. simpl. unfold AdoptIdentityIfSameLife, bind.
  pose proof (execGuarded_alone T id (condUpdate id (fun _ => sameLife x) (adoptIdentitySet i)) s [] []) as H.
  rewrite condUpdate_fst in H. unfold holdsNow. simpl. destruct (match db_spawns s !! id with _ => _ end); simpl.
  - destruct H as (s' & ex & -> & _). done.
  - rewrite H, condNotApplied_alone. done.
Qed.

Lemma repair_answers T id x s :
  (let '(r, s') := resultOf (runSnapshotOp T id x OpRepair) s in answers (holdsNow OpRepair id x s) id s r s').
Proof.
  unfold resultOf. simpl. unfold RepairCheckPermissionIfSameLife, bind, catch.
  pose proof (inImmediateTx_alone T id (tstmt (repairStmt id x)) s [] []) as H.
  assert (fst (condUpdate id (repairCond id x) repairSet s) = holdsNow OpRepair id x s) as Ef
    by apply condUpdate_fst.
  unfold tstmt at 1 in H. simpl in H. unfold repairStmt at 1 in H.
  destruct (condUpdate id (repairCond id x) repairSet s) as [[] s1] eqn:Eu; simpl in *; rewrite <- Ef.
  - apply condUpdate_spec in Eu as (r & _ & _ & ->). rsimp_in H. rewrite lookup_insert_eq in H.
    destruct H as (s' & ex & -> & _). done.
  - destruct (db_spawns s1 !! id); rewrite H, condNotApplied_alone; done.
Qed.

Lemma terminal_answers T id cond set reason s (b : bool) : 0 < db_now s ->
  fst (condUpdate id cond set s) = b ->
  (let '(r, s') := resultOf (r <- terminalMarkIfSameLife T id (condUpdate id cond set) reason;; ret (snd r)) s in
   answers b id s r s').
Proof.
  intros Hnow Hb. unfold resultOf, terminalMarkIfSameLife, bind, catch.
  pose proof (inImmediateTx_alone T id (terminalMarkBody id (condUpdate id cond set) reason) s [] []) as H.
  unfold terminalMarkBody at 1 in H. unfold tbind at 1, tread, tstmt at 1 in H. simpl in H.
  pose proof (condUpdate_fst id cond set s) as Hf. rewrite Hb in Hf.
  destruct (db_spawns s !! id) as [r|] eqn:Er; simpl in H.
  - unfold tbind at 1, tstmt at 1 in H. simpl in H.
    destruct (condUpdate id cond set s) as [n s1] eqn:Eu. simpl in Hb. subst n. destruct b; simpl in H.
    + unfold tbind at 1, tstmt at 1 in H. simpl in H. unfold tbind at 1 in H.
      destruct (closeOrphaned_alone id reason (storeNowMillis s1) s1) as (cl & s2 & E2). rewrite E2 in H.
      unfold tbind at 1 in H. destruct (closeSubagents_alone id (storeNowMillis s1) s2) as (s3 & E3).
      { apply condUpdate_spec in Eu as (r0 & _ & _ & ->). unfold storeNowMillis. by rsimp. }
      rewrite E3 in H. destruct H as (s' & ex & -> & _). done.
    + rewrite H. simpl. rewrite Er. done.
  - rewrite H. simpl. rewrite Hf. simpl. by rewrite Er.
Qed.

Lemma move_answers T id x launch token socket parent owner s :
  let op := OpMoveToPending launch token socket parent owner in
  0 < launch -> parentExists s (nullableStringArg parent) = true ->
  (let '(r, s') := resultOf (runSnapshotOp T id x op) s in answers (holdsNow op id x s) id s r s').
Proof.
  intros op Hl Hp. unfold resultOf. simpl. unfold MoveToPending, bind, catch.
  pose proof (inImmediateTx_alone T id (moveToPendingBody id x launch token socket parent owner) s [] []) as H.
  unfold moveToPendingBody at 1 in H. unfold tbind at 1, tstmt at 1 in H. simpl in H.
  unfold moveToPendingStmt in H. rewrite Hp in H.
  match type of H with context [condUpdate ?i ?c ?st s] =>
    assert (fst (condUpdate i c st s) = holdsNow op id x s) as Ef by apply condUpdate_fst;
    destruct (condUpdate i c st s) as [n s1] eqn:Eu end.
  simpl in Ef. subst n. destruct (holdsNow op id x s); simpl in H.
  - unfold tbind at 1 in H. unfold tread, tstmt at 1 in H. simpl in H. unfold tbind at 1 in H.
    destruct (closeOrphaned_alone id DecisionReasonEnded (storeNowMillis s1) s1) as (cl & s2 & E2). rewrite E2 in H.
    unfold tbind at 1 in H. destruct (closeSubagents_alone id launch s2 Hl) as (s3 & E3). rewrite E3 in H.
    destruct H as (s' & ex & -> & _). done.
  - rewrite H, condNotApplied_alone. done.
Qed.

(** What the caller must have given besides the snapshot: the clock reads a
    real instant where the closeout stamps one, and resume's launch instant
    and parent are real. *)
Definition snapshotInputs (op : snapshotOp) (s : Store) : Prop :=
  match op with
  | OpMarkMissing | OpMarkEnded => 0 < db_now s
  | OpMoveToPending launch _ _ parent _ => 0 < launch /\ parentExists s (nullableStringArg parent) = true
  | _ => True
  end.

(** C8: When a guarded lifecycle write applies. Run alone, a note, a clear, an
    adoption, the repair, either of find-missing's marks, resume's move or
    expire's delete reports applied exactly when the row exists, still holds
    the snapshot its caller examined, and is in the states the write is for.
    A row that is gone is reported absent, any other refusal as changed, and a
    refusal leaves the store as it was. *)
Theorem snapshot_write_applies (T : Z) (id : string) (x : RowSnapshot) (op : snapshotOp) (s : Store) :
  snapshotInputs op s ->
  let '(res, s', tr) := run (runSnapshotOp T id x op) s in
  match db_spawns s !! id with
  | None => res = Ok CondAbsent /\ s' = s
  | Some r =>
      (res = Ok CondApplied <-> lifeSnapshot r = x /\ snapshotGuard op s id r) /\
      (res <> Ok CondApplied -> res = Ok CondChanged /\ s' = s)
  end.
Proof.
  intros Hin. assert (let '(r, s') := resultOf (runSnapshotOp T id x op) s in answers (holdsNow op id x s) id s r s') as H.
  { destruct op; try (apply condWrite_answers_as; apply condUpdate_fst).
    - apply adopt_answers.
    - apply repair_answers.
    - by apply terminal_answers, condUpdate_fst.
    - by apply terminal_answers, condUpdate_fst.
    - destruct Hin. by apply move_answers.
    - apply condWrite_answers_as. apply condDelete_fst. }
  unfold resultOf in H. unfold run. change (mkWorld s [] [] []) with (alone s [] []).
  destruct (runSnapshotOp T id x op (alone s [] [])) as [res w]. unfold answers, holdsNow in H.
  destruct (db_spawns s !! id) as [r|].
  - rewrite <- (snapshotCond_iff op id x s r). destruct (where3 _); [by subst res|]. destruct H as [-> ->]. done.
  - destruct H as [-> ->]. done.
Qed.

(** A codex row that reported its end, and the store that holds it alone. *)
Definition reportedRow : SpawnRow := paneRow <| sp_agent := Some AgentCodex |> <| sp_end_reported_at := Some 99000 |>.
Definition reportedStore : Store := paneStore <| db_spawns := {[ "leaf" := reportedRow ]} |>.

Lemma snapshot_write_applies_witness :
  snapshotInputs OpMarkEnded reportedStore /\
  fst (fst (run (runSnapshotOp 0 "leaf" (lifeSnapshot reportedRow) OpMarkEnded) reportedStore)) = Ok CondApplied.
Proof.
  assert (snapshotInputs OpMarkEnded reportedStore) as Hin by done. split; [exact Hin|].
  pose proof (snapshot_write_applies 0 "leaf" (lifeSnapshot reportedRow) OpMarkEnded reportedStore Hin) as H.
  destruct (run _ reportedStore) as [[res s'] tr]. simpl.
  assert (db_spawns reportedStore !! "leaf" = Some reportedRow) as E by apply lookup_singleton_eq.
  rewrite E in H. apply H. split; [done|]. simpl. split_and!; [done..|]. exists 99000. done.
Defined.

Lemma closing_moves_leave_nothing_open_witness :
  closesAll OpMarkEnded = true /\
  ensures (condWrote (fun s s' => nothingOpen "leaf" s')) (runSnapshotOp 0 "leaf" (lifeSnapshot reportedRow) OpMarkEnded) /\
  fst (fst (run (runSnapshotOp 0 "leaf" (lifeSnapshot reportedRow) OpMarkEnded) reportedStore)) = Ok CondApplied.
Proof.
  split; [reflexivity|]. split; [apply (closing_moves_leave_nothing_open 0 "leaf" _ OpMarkEnded); reflexivity|].
  vm_compute. reflexivity.
Defined.
