(* ===== verification/ReuseProps.v ===== *)
(** * Properties of reuse

    What an applied reset leaves: a pending row in the life the agent asks
    for, with nothing of the earlier launch open, its requests gone and its
    session archived, all in one write; and that a failed reuse's restore
    puts the whole life back. *)

From S2P Require Import Prelude Sql Rows Display Settle Family Requests History Steps Gate HookWrites HookProps RelayWrites RequestInv RelayProps Lifecycle LifecycleProps Reuse.

Lemma upsertHistory_entry key path life now l : exists e, e ∈ upsertHistory key path life now l /\
  historyKey e = key /\ hi_life_number e = life /\ hi_recorded_at e = now.
Proof.
  unfold upsertHistory. case_bool_decide as H.
  - apply list_elem_of_fmap in H as (e & -> & He).
    eexists. split; [apply list_elem_of_fmap_2; exact He|]. rewrite bool_decide_true by done.
    unfold historyKey. by rsimp.
  - exists (mkHistoryRow (fst key) (snd key) path now life). split; [apply elem_of_app; right; by left|].
    by destruct key.
Qed.

(** What the body of an applied reset did. *)
Record reset_done (id : string) (examined : RowSnapshot) (agent : string) (fresh : PendingSpawn) (startedAt : Z)
    (text : Z -> string) (s : Store) (session : string) (s' : Store) : Prop := {
  rd_row : exists r s1, db_spawns s !! id = Some r /\ where3 (resetCond examined agent r) = true /\
    session = coalesce (sp_session_id r) "" /\ db_now s1 = db_now s /\
    db_spawns s' = <[id := resetSet text fresh startedAt s1 r]> (db_spawns s) /\
    (session <> "" -> exists e, e ∈ db_history s' /\ historyKey e = (id, session) /\ hi_life_number e = sp_life_number r);
  rd_next : db_next_request s' = db_next_request s /\ db_now s' = db_now s;
  rd_requests : db_requests s' = filter (fun pr => pr_instance_id pr <> id) (db_requests s);
  rd_subagents : forall e, e ∈ db_subagents s' -> sa_instance_id e = id -> sa_state e <> SubagentStateRunning;
  rd_launches : forall l, l ∈ db_launches s' -> la_instance_id l <> id;
}.

Lemma closeSubagents_spec id at_ s gs s' gs' : closeSubagentsAgentGone id at_ s gs = (Ok (tt, s'), gs') ->
  s' = closeClaimableLaunches id (closeRunningSubagents id at_ s).
Proof.
  unfold closeSubagentsAgentGone. destruct (at_ <=? 0); [done|].
  by intros ([] & s1 & gs1 & [= <-]%tstmt_Ok & [= <-]%tstmt_Ok)%tbind_Ok.
Qed.

(** The archive touches the history only. *)
Lemma archive_spec id session path life s gs s1 gs1 x :
  (if bool_decide (session = "") then tret (Ok tt) else ttry (tstmt (upsertSessionHistoryEntry id session path life)))
    s gs = (Ok (Ok x, s1), gs1) ->
  db_spawns s1 = db_spawns s /\ db_requests s1 = db_requests s /\ db_next_request s1 = db_next_request s /\
  db_now s1 = db_now s /\
  (session <> "" -> exists e, e ∈ db_history s1 /\ historyKey e = (id, session) /\ hi_life_number e = life).
Proof.
  case_bool_decide as Hs.
  - intros [= <- <- <-]. split_and!; try done.
  - intros [([] & [= ->] & H%tstmt_Ok)|(e & [=] & _)]%ttry_Ok.
    unfold upsertSessionHistoryEntry in H. case_bool_decide; [|done]. injection H as <-. split_and!; rsimp; try done.
    intros _. destruct (upsertHistory_entry (id, session) (nullif_empty path) life (nowSec s) (db_history s))
      as (e & H1 & H2 & H3 & _). eauto.
Qed.

Lemma resetStmt_spec text id examined agent fresh startedAt s n s1 :
  resetStmt text id examined agent fresh startedAt s = Ok (n, s1) ->
  condUpdate id (fun _ => resetCond examined agent) (resetSet text fresh startedAt) s = (n, s1).
Proof. unfold resetStmt. destruct (condUpdate _ _ _ s) as [n1 s2]. by destruct (n1 && _); intros [= <- <-]. Qed.

Lemma resetBody_spec text id examined agent fresh startedAt s gs session s' gs' :
  resetBody text id examined agent fresh startedAt s gs = (Ok (session, s'), gs') ->
  reset_done id examined agent fresh startedAt text s session s'.
Proof.
  unfold resetBody. intros (found & s0 & gs0 & [= <- <-]%tstmt_Ok & H)%tbind_Ok. unfold resetRead in H.
  destruct (db_spawns s !! id) as [r|] eqn:Er; [|done]. simpl in H.
  destruct (where3 (resetCond examined agent r)) eqn:Ec; [|done]. simpl in H.
  apply tbind_Ok in H as (ar & s1 & gs1 & Ha & H). destruct ar as [x|]; [|done].
  destruct (archive_spec _ _ _ _ _ _ _ _ _ Ha) as (A1 & A2 & A5 & A3 & A4).
  apply tbind_Ok in H as (n & s2 & gs2 & Hu%tstmt_Ok%resetStmt_spec & H). destruct n; [|done]. simpl in H.
  apply tbind_Ok in H as ([] & s3 & gs3 & [= <-]%tstmt_Ok & H).
  apply tbind_Ok in H as ([] & s4 & gs4 & ->%closeSubagents_spec & [= <- <- <-]).
  apply condUpdate_spec in Hu as (r1 & Hr1 & _ & ->). rewrite A1, Er in Hr1. injection Hr1 as <-.
  unfold closeClaimableLaunches, closeRunningSubagents, deleteRequests. split; rsimp.
  - exists r, s1. rewrite A1. split_and!; done.
  - done.
  - by rewrite A2.
  - apply closeRunning_none_running.
  - by intros l [H _]%list_elem_of_filter.
Qed.

(** The columns that tell the new life. *)
Definition freshColumns (r : SpawnRow) :=
  (sp_state r, sp_row_version r, sp_life_number r, sp_agent r, sp_parent_id r, sp_launch_token r, sp_launch_started_at r,
   (sp_session_id r, sp_jsonl_path r, sp_pid r, sp_pane_pid r, sp_ended_at r, sp_end_reported_at r)).

Definition freshLife (fresh : PendingSpawn) (r r' : SpawnRow) : Prop :=
  freshColumns r' =
    (StatePending, sp_row_version r + 1,
     sp_life_number r + (if bool_decide (reuseAgentText r = ps_Agent fresh) then 0 else 1), Some (ps_Agent fresh),
     nullableStringArg (ps_ParentID fresh), nullableStringArg (ps_Token fresh),
     positiveInt64Arg (ps_LaunchStartedAtMillis fresh), (None, None, None, None, None, None)).

Lemma freshColumns_core r r' : same_core r r' -> freshColumns r' = freshColumns r.
Proof. intros H. symmetry. apply (core_field freshColumns _ _ H). intros q. unfold freshColumns, core. by rsimp. Qed.

(** Two columns at a time: the outer fragments, then the literal SET. *)
Definition outer_fields (set : SpawnRow -> SpawnRow) : Prop := forall q,
  freshColumns (set q) = (sp_state q, sp_row_version q + 1, sp_life_number q, sp_agent q, sp_parent_id q,
    sp_launch_token q, sp_launch_started_at q,
    (sp_session_id q, sp_jsonl_path q, sp_pid q, None, sp_ended_at q, sp_end_reported_at q)).

Lemma resetSet_columns text fresh startedAt s r : freshLife fresh r (resetSet text fresh startedAt s r).
Proof.
  assert (outer_fields (fun q => rowVersionAdvance (launchOwnerSet (ps_LaunchOwner fresh)
    (identitySet zeroIdentity (livenessClear q))))) as Ho.
  { intros q. unfold freshColumns. set_fields. unfold identitySet. by rsimp. }
  unfold freshLife, resetSet. rewrite Ho. clear Ho.
  assert (sp_state (immediateStateSet StatePending (db_now s) r) = StatePending /\
    sp_row_version (immediateStateSet StatePending (db_now s) r) = sp_row_version r) as [E1 E2]
    by (unfold immediateStateSet, immediateSettleSet; cbv zeta; by rsimp).
  revert E1 E2. generalize (immediateStateSet StatePending (db_now s) r). intros q <- <-. rsimp.
  unfold case3. rewrite where3_sql_eq.
  rewrite (bool_decide_ext _ (reuseAgentText r = ps_Agent fresh)); [done|]. split; congruence.
Qed.

(** What an applied reset committed. *)
Definition resetWrote (examined : RowSnapshot) (R : Store -> string -> Store -> Prop)
    (res : result (CondResult * string * Z)) (own : list (Store * Store)) : Prop :=
  match res with
  | Ok (CondApplied, session, v) => v = rs_RowVersion examined + 1 /\ exists s s', own = [(s, s')] /\ R s session s'
  | _ => own = []
  end.

Lemma ensures_reset T text id examined agent fresh startedAt :
  ensures (resetWrote examined (fun s session s' => exists s1,
      reset_done id examined agent fresh startedAt text s session s1 /\ core_step s1 s' /\ tables_eq s1 s'))
    (ResetForReuse T text id examined agent fresh startedAt).
Proof.
  unfold ResetForReuse. destruct (negb (validateRowAgent (ps_Agent fresh))); [by apply ensures_fail|].
  eapply ensures_catch.
  { apply (ensures_immediateWrite T id _ (fun s session s' => exists s1,
      reset_done id examined agent fresh startedAt text s session s1 /\ core_step s1 s' /\ tables_eq s1 s')).
    intros s gs session s1 gs1 H%resetBody_spec s' Hc Ht. eauto. }
  intros [session|e] o1 H1; [|simpl in H1; subst o1; destruct e; by (apply ensures_ret || apply ensures_fail)].
  destruct H1 as (s & s' & -> & H). apply ensures_ret. rewrite app_nil_r. split; [done|]. eauto.
Qed.

(** The row an applied reset found and the row it left. *)
Lemma reset_row id examined agent fresh startedAt text s session s1 s' :
  reset_done id examined agent fresh startedAt text s session s1 -> core_step s1 s' ->
  exists r r' s0, db_spawns s !! id = Some r /\ db_spawns s' !! id = Some r' /\
    same_core (resetSet text fresh startedAt s0 r) r' /\
    isTerminalState (sp_state r) = true /\ lifeSnapshot r = examined /\ reuseAgentText r = agent.
Proof.
  intros [(r & s0 & Hr & Hc & _ & _ & Hsp & _) _ _ _ _] Hcore.
  specialize (Hcore id). rewrite Hsp, lookup_insert_eq in Hcore.
  destruct (db_spawns s' !! id) as [r'|]; [|done]. exists r, r', s0.
  unfold resetCond in Hc. rewrite !where3_and, where3_sql_eq, snapshot_match in Hc. unfold finishedStateGuardSQL in Hc.
  rewrite where3_Some in Hc. bsimp. split_and!; try done. congruence.
Qed.

(** C10: Reuse begins a fresh life in one write, or does nothing. An applied
    reset found the row finished, with the snapshot and the agent its caller
    examined; the one transaction made it pending under the fresh launch's
    token, start and parent, its version one higher and its life number one
    higher only when the agent changed, with no session, process, pane or end
    report; it archived the outgoing session in the ending life, deleted every
    request of the Spawn and no other, and left none of its subagent entries
    running and no launch of it claimable. Any other outcome wrote nothing. *)
Theorem reset_begins_a_fresh_life (T : Z) (text : Z -> string) (id : string) (examined : RowSnapshot) (agent : string)
    (fresh : PendingSpawn) (startedAt : Z) :
  ensures (fun res own => match res with
    | Ok (CondApplied, session, v) => v = rs_RowVersion examined + 1 /\
        exists s s' r r', own = [(s, s')] /\ db_spawns s !! id = Some r /\ db_spawns s' !! id = Some r' /\
          isTerminalState (sp_state r) = true /\ lifeSnapshot r = examined /\ reuseAgentText r = agent /\
          freshLife fresh r r' /\ nothingOpen id s' /\
          (forall pr, pr ∈ db_requests s' <-> pr ∈ db_requests s /\ pr_instance_id pr <> id) /\
          session = coalesce (sp_session_id r) "" /\
          (session <> "" -> exists e, e ∈ db_history s' /\ historyKey e = (id, session) /\
             hi_life_number e = sp_life_number r)
    | _ => own = []
    end) (ResetForReuse T text id examined agent fresh startedAt).
Proof.
  eapply ensures_mono; [apply ensures_reset|]. intros [[[[] session] v]|e] own; try done.
  intros (-> & s & s' & -> & s1 & Hd & Hcore & Ht).
  destruct (reset_row _ _ _ _ _ _ _ _ _ _ Hd Hcore) as (r & r' & s0 & Hr & Hr' & Hrow & Hfin & Hx & Ha).
  destruct Hd as [(r0 & s2 & Hr0 & _ & Hs & _ & _ & Hh) _ Hq Hsub Hl]. rewrite Hr in Hr0. injection Hr0 as <-.
  destruct Ht as (T1 & _ & T2 & T3 & T4 & _).
  split; [done|]. exists s, s', r, r'. rewrite T1, T2, Hq. split_and!; try done.
  - unfold freshLife. rewrite (freshColumns_core _ _ Hrow). apply resetSet_columns.
  - unfold nothingOpen. rewrite T1, T3, T4, Hq. split_and!; [|done..].
    intros pr [Hne _]%list_elem_of_filter Hid. by destruct Hne.
  - intros pr. rewrite list_elem_of_filter. tauto.
Qed.

(** ** The restore *)

(** rawLifeColumns: the row with every column the restore does not write, but
    ended_at and parent_id, blanked. *)
Definition rawLife (r : SpawnRow) : SpawnRow :=
  r <| sp_row_version := 0 |> <| sp_launch_started_at := None |> <| sp_idle_since := None |>
    <| sp_settled_state := "" |> <| sp_state_changed_ms := 0 |> <| sp_family_state := "" |>
    <| sp_family_settled_state := "" |> <| sp_family_changed_ms := 0 |> <| sp_permission_epoch := 0 |>
    <| sp_observation_version := 0 |> <| sp_display_observation := None |> <| sp_display_exit := None |>
    <| sp_pane_sha256 := None |> <| sp_pane_since_ms := None |> <| sp_pane_epoch := None |>
    <| sp_codex_turn := None |> <| sp_codex_turn_ended := None |>.

(** The life as the restore puts it back in the store [s]. *)
Definition lifeRestored (failedAt : Z) (s : Store) (life : SpawnRow) : SpawnRow :=
  life <| sp_ended_at := Some (match sp_ended_at life with Some t => t | None => storeTimestamp failedAt end) |>
       <| sp_parent_id := match sp_parent_id life with
                          | Some p => if bool_decide (is_Some (db_spawns s !! p)) then Some p else None
                          | None => None
                          end |>.

Definition restoredColumns (r : SpawnRow) := (rawLife r, sp_row_version r, sp_launch_started_at r, sp_settled_state r).

Lemma restoredColumns_core r r' : same_core r r' -> restoredColumns r' = restoredColumns r.
Proof.
  intros H. symmetry. apply (core_field restoredColumns _ _ H). intros q. unfold restoredColumns, rawLife, core. by rsimp.
Qed.

Lemma restoreReuse_columns life failedAt s q :
  restoredColumns (restoreReuseSet life failedAt s q)
  = (rawLife (lifeRestored failedAt s life), sp_row_version q + 1, None, sp_state life).
Proof.
  unfold restoreReuseSet, restoredColumns, rawLife, lifeRestored. set_fields.
  assert (sp_row_version (immediateSettleSet (sp_state life) (db_now s) q) = sp_row_version q /\
    sp_settled_state (immediateSettleSet (sp_state life) (db_now s) q) = sp_state life) as [E1 E2]
    by (unfold immediateSettleSet; cbv zeta; by rsimp).
  revert E1 E2. generalize (immediateSettleSet (sp_state life) (db_now s) q). intros q1 <- E2. rsimp.
  rewrite E2. done.
Qed.

(** C11: A failed reuse puts the row back. Once the reset of a finished row has
    committed, and as long as nothing wrote that row since, the restore with
    the life read before it applies, and every column of that life is as it
    was read, NULLs and texts included: an end time that was NULL becomes the
    failure's, the parent is kept only if its row still exists, the launch
    start is cleared, the old state is reported at once and the version is two
    higher. *)
Theorem failed_reuse_restores_the_life (T : Z) (text : Z -> string) (id : string) (examined : RowSnapshot)
    (agent : string) (fresh : PendingSpawn) (startedAt failedAt : Z) :
  ensures (resetWrote examined (fun s _ s1 => exists r, db_spawns s !! id = Some r /\
      forall s2, db_spawns s2 !! id = db_spawns s1 !! id ->
      let '(res, s3, tr) := run (RestoreAfterFailedReuse T id (rs_RowVersion examined + 1) (Some r) failedAt) s2 in
      res = Ok CondApplied /\
      exists r3, db_spawns s3 !! id = Some r3 /\ rawLife r3 = rawLife (lifeRestored failedAt s2 r) /\
        sp_row_version r3 = sp_row_version r + 2 /\ sp_launch_started_at r3 = None /\
        sp_settled_state r3 = sp_state r))
    (ResetForReuse T text id examined agent fresh startedAt).
Proof.
  eapply ensures_mono; [apply ensures_reset|]. intros [[[[] session] v]|e] own; try done.
  intros (-> & s & s1 & -> & s0 & Hd & Hcore & _). split; [done|]. exists s, s1. split; [done|].
  destruct (reset_row _ _ _ _ _ _ _ _ _ _ Hd Hcore) as (r & r1 & s4 & Hr & Hr1 & Hrow & Hfin & Hx & _).
  exists r. split; [done|]. intros s2 E2. rewrite Hr1 in E2.
  pose proof (resetSet_columns text fresh startedAt s4 r) as Hf. unfold freshLife in Hf.
  rewrite <- (freshColumns_core _ _ Hrow) in Hf. unfold freshColumns in Hf. injection Hf as Hst Hver _ _ _ _ _ _ _ _ _ _ _.
  unfold RestoreAfterFailedReuse. rewrite Hfin. simpl negb. cbv iota.
  destruct (restore_applies T id (rs_RowVersion examined + 1) (restoreReuseSet r failedAt) s2 r1) as (s3 & ex & Ha & r3 & Hr3 & Hc);
    [done|done|subst examined; done|].
  rewrite Ha. split; [done|]. exists r3. split; [done|].
  pose proof (restoreReuse_columns r failedAt s2 r1) as Hcol. rewrite <- (restoredColumns_core _ _ Hc) in Hcol.
  unfold restoredColumns in Hcol. revert Hcol. generalize (rawLife r3), (rawLife (lifeRestored failedAt s2 r)).
  intros l1 l2 [= -> -> -> ->]. split_and!; [done|lia|done..].
Qed.

(** ** A sample: an ended codex row, reused for claude, and put back *)

Definition finishedRow : SpawnRow :=
  paneRow <| sp_state := StateEnded |> <| sp_agent := Some AgentCodex |> <| sp_session_id := Some "s1" |> <| sp_ended_at := Some 7 |>.
Definition finishedStore : Store := paneStore <| db_spawns := {[ "leaf" := finishedRow ]} |>.
Definition freshSpawn : PendingSpawn :=
  mkPendingSpawn "leaf" "" "/w" "tm" "[]" "off" "{}" "{}" 99000 "tok" "" false (mkProcessIdentity 0 "" "") AgentClaude 0.
Definition resetRun : result (CondResult * string * Z) * Store * list Event :=
  run (ResetForReuse 0 (fun _ => "") "leaf" (lifeSnapshot finishedRow) AgentCodex freshSpawn 100000) finishedStore.

Lemma reset_sample :
  fst (fst resetRun) = Ok (CondApplied, "s1", sp_row_version finishedRow + 1) /\
  option_map sp_life_number (db_spawns (snd (fst resetRun)) !! "leaf") = Some (sp_life_number finishedRow + 1).
Proof. split; vm_compute; reflexivity. Qed.

Lemma restore_reuse_sample :
  fst (fst (run (RestoreAfterFailedReuse 0 "leaf" (sp_row_version finishedRow + 1) (Some finishedRow) 200000)
    (snd (fst resetRun)))) = Ok CondApplied.
Proof. vm_compute. reflexivity. Qed.
