(* ===== verification/Process.v ===== *)
(** * Recorded processes (internal/tmux/agent_process.go)

    The judgement of a process a row records, by the start-time reader: the
    same pid with another start time is another process ([JudgeProcess]); and
    which of a row's two recorded identities is its agent's
    ([SelectAgentProcess]). *)

From S2P Require Import Prelude.

(** What the start-time reader answers of a pid. *)
Record StartAnswer := mkStartAnswer { st_Start : string; st_Alive : bool; st_Known : bool }.

Inductive ProcState := ProcNone | ProcAlive | ProcGone | ProcUnknown.

Definition JudgeProcess (answer : StartAnswer) (pid : Z) (starttime : string) : ProcState :=
  if pid <=? 0 then ProcNone
  else if negb (st_Known answer) then ProcUnknown
  else if negb (st_Alive answer) then ProcGone
  else if bool_decide (starttime = "") then ProcUnknown
  else if bool_decide (st_Start answer = starttime) then ProcAlive
  else ProcGone.
#[export] Instance ProcState_eq_dec : EqDecision ProcState.
Proof. solve_decision. Defined.

(** A recorded identity; pid not positive records none. *)
Record ProcIdentity := mkProc { pc_PID : Z; pc_Starttime : string }.
Definition recorded (id : ProcIdentity) : bool := 0 <? pc_PID id.

Inductive AgentSource := AgentNone | AgentSessionStart | AgentPane.
Record AgentProcess := mkAgentProcess { ap_Source : AgentSource; ap_Identity : ProcIdentity }.

Definition disagree (a b : ProcIdentity) : bool :=
  if negb (pc_PID a =? pc_PID b) then true
  else negb (bool_decide (pc_Starttime a = "")) && negb (bool_decide (pc_Starttime b = ""))
       && negb (bool_decide (pc_Starttime a = pc_Starttime b)).

Definition SelectAgentProcess (sessionStart pane : ProcIdentity) : AgentProcess :=
  if negb (recorded sessionStart) && negb (recorded pane) then mkAgentProcess AgentNone (mkProc 0 "")
  else if negb (recorded pane) then mkAgentProcess AgentSessionStart sessionStart
  else if negb (recorded sessionStart) || disagree sessionStart pane then mkAgentProcess AgentPane pane
  else mkAgentProcess AgentSessionStart sessionStart.

(** [start] is what the reader answers of the pid. *)
Definition KnownStartTime (start : Z -> StartAnswer) (pid : Z) : string :=
  if pid <=? 0 then ""
  else if negb (st_Alive (start pid)) || negb (st_Known (start pid)) then "" else st_Start (start pid).

(** ** What a judgement says *)

(** Gone is never said of a process that still runs: of a pid the reader
    finds alive, only when its start time is not the recorded one. *)
Lemma judged_gone a pid starttime : JudgeProcess a pid starttime = ProcGone <->
  0 < pid /\ st_Known a = true /\
  (st_Alive a = false \/ (starttime <> "" /\ st_Start a <> starttime)).
Proof.
  unfold JudgeProcess. destruct (pid <=? 0) eqn:Ep; [split; [done|lia]|].
  destruct (st_Known a); simpl; [|split; [done|naive_solver]].
  destruct (st_Alive a); simpl; [|split; [intros _; split_and!; auto; lia|done]].
  case_bool_decide; [split; [done|naive_solver]|]. case_bool_decide; [split; [done|naive_solver]|].
  split; [intros _; split_and!; auto; lia|done].
Qed.
Lemma judged_alive a pid starttime : JudgeProcess a pid starttime = ProcAlive <->
  0 < pid /\ st_Known a = true /\ st_Alive a = true /\ starttime <> "" /\ st_Start a = starttime.
Proof.
  unfold JudgeProcess. destruct (pid <=? 0) eqn:Ep; [split; [done|lia]|].
  destruct (st_Known a); simpl; [|split; [done|naive_solver]].
  destruct (st_Alive a); simpl; [|split; [done|naive_solver]].
  case_bool_decide; [split; [done|naive_solver]|]. case_bool_decide; [|split; [done|naive_solver]].
  split; [intros _; split_and!; auto; lia|done].
Qed.
