(* ===== verification/Tmux.v ===== *)
(** * What tmux says of a Spawn's session (internal/tmux: parse.go, unusable.go,
      lookup.go, lookup_class.go, lookup_holder.go, lookup_server.go,
      pane_token.go)

    The parsers of the lookup answer, the pane listing and the create reply;
    the classes of a session's label relative to a row; the server check; and
    the lookup's verdict for a row: Ours, Leftover, Gone or Can't tell
    ([Classify], [resultForFailure]). A session's name decides nothing but who
    holds a name ([matchHolder]).

    What tmux prints and what the start-time reader answers are arguments. *)

From S2P Require Import Prelude Text Bytes Process.

Definition nl : char := chr 10.
Definition tab : char := chr 9.
Definition space : char := chr 32.

(** ** Names (unusable.go) *)

Inductive UnusableKind := UnusableNone | UnusableEmpty | UnusableControl | UnusableRewritten.
Record Rewritten := mkRewritten { rw_Dot : bool; rw_Colon : bool; rw_InvalidUTF8 : bool }.
Definition AnyRewritten (r : Rewritten) : bool := rw_Dot r || rw_Colon r || rw_InvalidUTF8 r.
Definition RewrittenIn (name : string) : Rewritten :=
  mkRewritten (strContains name ".") (strContains name ":") (negb (ValidString name)).
Definition Unusable (name : string) : UnusableKind :=
  if bool_decide (name = "") then UnusableEmpty
  else if hasControlChar name then UnusableControl
  else if AnyRewritten (RewrittenIn name) then UnusableRewritten
  else UnusableNone.

(** ** Labels *)

Definition labelPrefix : string := "ad1 ".
Definition labelTokenLen : nat := 16.
Definition labelStoreIDLen : nat := 16.

Inductive LabelKind := LabelNone | LabelValid.
#[export] Instance LabelKind_eq_dec : EqDecision LabelKind.
Proof. solve_decision. Defined.
Record Label := mkLabel { lb_Kind : LabelKind; lb_Token : string; lb_InstanceID : string; lb_StoreID : string }.
Definition noLabel : Label := mkLabel LabelNone "" "" "".

Definition isSessionID (s : string) : bool :=
  match s with String c t => Ascii.eqb c (chr 36) && isDigits t | EmptyString => false end.
Definition isPaneID (s : string) : bool :=
  match s with String c t => Ascii.eqb c (chr 37) && isDigits t | EmptyString => false end.

(** The bytes from [n] on. *)
Definition after (n : nat) (s : string) : string := String.substring n (String.length s - n) s.

Definition classifyLabel (raw sessionID : string) : Label :=
  match cutPrefix labelPrefix raw with
  | None => noLabel
  | Some rest =>
      let token := String.substring 0 labelTokenLen rest in
      if negb (bool_decide (String.get labelTokenLen rest = Some space)) || negb (isLowerHex token) then noLabel
      else
        match cut space (after (S labelTokenLen) rest) with
        | None => noLabel
        | Some (embedded, tail) =>
            if negb (bool_decide (embedded = sessionID)) || negb (isSessionID embedded) then noLabel
            else
              match cutLast space tail with
              | None => noLabel
              | Some (instanceID, storeID) =>
                  if bool_decide (instanceID = "") || hasControlChar instanceID
                     || negb (String.length storeID =? labelStoreIDLen)%nat || negb (isLowerHex storeID) then noLabel
                  else mkLabel LabelValid token instanceID storeID
              end
        end
  end.

(** The pane label: a launch token that embeds the line's own pane id. *)
Definition classifyPaneLabel (raw paneID : string) : string :=
  match cut space raw with
  | None => ""
  | Some (token, embedded) =>
      if negb (String.length token =? labelTokenLen)%nat || negb (isLowerHex token) || negb (bool_decide (embedded = paneID))
      then "" else token
  end.

(** What the chained label commands of a create store, for a session [sid]
    and a pane [pid] (createCommands, with tmux's formats expanded). *)
Definition labelOf (token sid instanceID storeID : string) : string :=
  (labelPrefix ++ token ++ " " ++ sid ++ " " ++ instanceID ++ " " ++ storeID)%string.
Definition paneLabelOf (token pid : string) : string := (token ++ " " ++ pid)%string.

(** ** The lookup answer (parse.go) *)

Record Session := mkSession { ss_ID : string; ss_Created : Z; ss_Name : string; ss_Label : Label }.
Record LookupAnswer := mkAnswer {
  an_Sessions : list Session;
  an_ServerPID : Z;
  an_ServerStart : Z;
  an_ScopeValue : bool;
}.
#[export] Instance eta_LookupAnswer : Eta LookupAnswer := fun a => mkAnswer
  (an_Sessions a) (an_ServerPID a) (an_ServerStart a) (an_ScopeValue a).
#[export] Instance set_an_Sessions : Setter an_Sessions. Proof. solve_setter. Defined.
#[export] Instance set_an_ScopeValue : Setter an_ScopeValue. Proof. solve_setter. Defined.

Definition identityPrefix : string := "ad-server".
Definition firstLineBadIdentity : string := "malformed lookup answer: the first line is not a server identity line".
Definition firstLineBadSessionLine : string := "malformed lookup answer: a session line has a missing or unparseable field".
Definition firstLineSessionInScope : string := "malformed lookup answer: a session line follows the scope section".
Definition firstLineServerDisagrees : string := "malformed lookup answer: a session line disagrees with the server identity line".

Definition parseIdentityLine (line : string) : option (Z * Z) :=
  match splitByte tab line with
  | [prefix; pid; start] =>
      if negb (bool_decide (prefix = identityPrefix)) then None
      else match parseDecimal64 pid, parseDecimal64 start with Some p, Some t => Some (p, t) | _, _ => None end
  | _ => None
  end.

Definition isSessionShaped (line : string) : bool :=
  match cut tab line with Some (id, _) => isSessionID id | None => false end.

(** The session, and the server's pid and start as its line gives them. *)
Definition parseSessionLine (line : string) : option (Session * Z * Z) :=
  match splitN 6 tab line with
  | [id; created; pid; start; name; label] =>
      match parseDecimal64 created, parseDecimal64 pid, parseDecimal64 start with
      | Some c, Some p, Some t => Some (mkSession id c name (classifyLabel label id), p, t)
      | _, _, _ => None
      end
  | _ => None
  end.

(** The scope section. *)
Fixpoint parseScope (ans : LookupAnswer) (lines : list string) : string + LookupAnswer :=
  match lines with
  | [] => inr ans
  | line :: lines =>
      if isSessionShaped line then inl firstLineSessionInScope
      else parseScope (if bool_decide (line = "") then ans else ans <| an_ScopeValue := true |>) lines
  end.

Fixpoint parseSessions (ans : LookupAnswer) (lines : list string) : string + LookupAnswer :=
  match lines with
  | [] => inr ans
  | line :: rest =>
      if negb (isSessionShaped line) then parseScope ans lines
      else match parseSessionLine line with
           | None => inl firstLineBadSessionLine
           | Some (s, pid, start) =>
               if negb (pid =? an_ServerPID ans) || negb (start =? an_ServerStart ans) then inl firstLineServerDisagrees
               else parseSessions (ans <| an_Sessions := an_Sessions ans ++ [s] |>) rest
           end
  end.

Definition parseLookup (out : string) : string + LookupAnswer :=
  match splitByte nl out with
  | [] => inl firstLineBadIdentity
  | first :: lines =>
      match parseIdentityLine first with
      | None => inl firstLineBadIdentity
      | Some (pid, start) => parseSessions (mkAnswer [] pid start false) lines
      end
  end.

(** *** The pane listing and the create reply *)

Record Pane := mkPane {
  pa_SessionID : string; pa_Window : Z; pa_Index : Z; pa_ID : string; pa_PID : Z; pa_AdPane : string;
}.
Definition zeroPane : Pane := mkPane "" 0 0 "" 0 "".

Definition parsePaneLine (line : string) : option Pane :=
  match splitN 6 tab line with
  | [sid; window; index; id; pid; label] =>
      if negb (isSessionID sid) || negb (isPaneID id) then None
      else match parseDecimal64 window, parseDecimal64 index, parseDecimal64 pid with
           | Some w, Some i, Some p => Some (mkPane sid w i id p (classifyPaneLabel label id))
           | _, _, _ => None
           end
  | _ => None
  end.
Fixpoint parsePaneLines (lines : list string) : option (list Pane) :=
  match lines with
  | [] => Some []
  | line :: lines =>
      if bool_decide (line = "") then parsePaneLines lines
      else match parsePaneLine line, parsePaneLines lines with Some p, Some ps => Some (p :: ps) | _, _ => None end
  end.
Definition parsePanes (out : string) : option (list Pane) := parsePaneLines (splitByte nl out).

Record CreateReply := mkReply {
  cp_SessionID : string; cp_ServerPID : Z; cp_ServerStart : Z; cp_PaneID : string; cp_PanePID : Z;
}.
Definition parseCreateReply (out : string) : option CreateReply :=
  match cutSuffix (one nl) out with
  | None => None
  | Some line =>
      if strContains line (one nl) then None
      else match splitByte space line with
           | [sid; spid; start; id; pid] =>
               if negb (isSessionID sid) || negb (isPaneID id) then None
               else match parseDecimal64 spid, parseDecimal64 start, parseDecimal64 pid with
                    | Some a, Some b, Some c => Some (mkReply sid a b id c)
                    | _, _, _ => None
                    end
           | _ => None
           end
  end.

(** ** A failed call (calls.go, recognizeReply) *)

Inductive Failure :=
  | FailTimeout | FailUnavailable | FailSocketDenied | FailNoServer | FailNoSocket | FailDuplicate | FailLabel | FailUnrecognized.

(** A call's error: a *CallError's failure, or any other error. *)
Inductive CallErr := CallFailure (f : Failure) | OtherError.

Definition replyNoServerPrefix : string := "no server running on ".
Definition replyConnectPrefix : string := "error connecting to ".
Definition replyNoSocketSuffix : string := " (No such file or directory)".
Definition replyDeniedSuffix : string := " (Permission denied)".
Definition replyDuplicatePrefix : string := "duplicate session: ".

Definition trimmedFirstLine (b : string) : string :=
  TrimSpace (match cut nl b with Some (line, _) => line | None => b end).

(** The failure and the socket it names; [create] says the call is the
    create. *)
Definition recognizeReply (create : bool) (stderr : string) : Failure * string :=
  let line := trimmedFirstLine stderr in
  let rest :=
    if create && bool_decide (is_Some (cutPrefix replyDuplicatePrefix line)) then (FailDuplicate, "") else (FailUnrecognized, "") in
  match cutPrefix replyNoServerPrefix line with
  | Some s => (FailNoServer, s)
  | None =>
      match cutPrefix replyConnectPrefix line with
      | Some s =>
          match cutSuffix replyDeniedSuffix s, cutSuffix replyNoSocketSuffix s with
          | Some s, _ => (FailSocketDenied, s)
          | None, Some s => (FailNoSocket, s)
          | None, None => rest
          end
      | None => rest
      end
  end.

(** ** The row, its labels and its server *)

Record Launch := mkLaunch {
  ln_InstanceID : string;
  ln_Token : string;
  ln_StoreID : string;
  ln_Socket : string;
  ln_ServerPID : Z;
  ln_ServerStart : Z;
  ln_ServerStarttime : string;
}.

Inductive LabelClass := ClassCurrent | ClassOld | ClassForeign | ClassOtherStore | ClassNone.
#[export] Instance LabelClass_eq_dec : EqDecision LabelClass.
Proof. solve_decision. Defined.

Definition ClassOf (l : Launch) (lb : Label) : LabelClass :=
  if negb (bool_decide (lb_Kind lb = LabelValid)) then ClassNone
  else if bool_decide (ln_StoreID l = "") || negb (bool_decide (lb_StoreID lb = ln_StoreID l)) then ClassOtherStore
  else if bool_decide (ln_InstanceID l = "") || hasControlChar (ln_InstanceID l)
          || negb (bool_decide (lb_InstanceID lb = ln_InstanceID l)) then ClassForeign
  else if negb (bool_decide (ln_Token l = "")) && bool_decide (lb_Token lb = ln_Token l) then ClassCurrent
  else ClassOld.

Definition CaseWords (c : LabelClass) : string :=
  match c with
  | ClassOld => "left over from an earlier life"
  | ClassForeign => "a different instance id"
  | ClassOtherStore => "another agent-director store"
  | ClassNone => "no valid instance id"
  | ClassCurrent => ""
  end.

(** *** The name's holder *)

Definition escapesDollar (c : char) : bool := inRange 97 122 c || inRange 65 90 c || (byte c =? 95)%nat || (byte c =? 123)%nat.
Fixpoint escapeStoredName (name : string) : string :=
  match name with
  | EmptyString => EmptyString
  | String c t =>
      let rest := escapeStoredName t in
      if (byte c =? 92)%nat then String c (String c rest)
      else if (byte c =? 36)%nat && match t with String d _ => escapesDollar d | EmptyString => false end
      then String (chr 92) (String c rest)
      else String c rest
  end.
Definition StoredForms (name : string) : list string :=
  if allBytes (fun c => negb ((byte c =? 36)%nat || (byte c =? 92)%nat)) name then [name]
  else if bool_decide (escapeStoredName name = name) then [name]
  else [name; escapeStoredName name].

(** The holder, and whether more than one session matches. *)
Definition matchHolder (sessions : list Session) (name : string) : option Session * bool :=
  if bool_decide (name = "") then (None, false)
  else match filter (fun s => ss_Name s ∈ StoredForms name) sessions with
       | [] => (None, false)
       | [s] => (Some s, false)
       | _ => (None, true)
       end.

(** *** The server *)

Definition ServerMatch : string := "match".
Definition ServerRestarted : string := "restarted".
Definition ServerDiffers : string := "differs".
Definition ServerUnknown : string := "unknown".

Definition ReasonServerRestarted : string := "server_restarted".
Definition ReasonServerMismatch : string := "server_mismatch".
Definition ReasonDuplicateLabel : string := "duplicate_label".
Definition ReasonScopeValue : string := "scope_value".

Record serverCheck := mkCheck { sc_server : string; sc_differs : bool; sc_reason : string }.

(** [ans] is a listing, or [None]: no server answered. *)
Definition checkServer (row : Launch) (start : Z -> StartAnswer) (ans : option LookupAnswer) : serverCheck :=
  if ln_ServerPID row =? 0 then mkCheck ServerUnknown false ""
  else if match ans with
          | Some a => (an_ServerPID a =? ln_ServerPID row) && (an_ServerStart a =? ln_ServerStart row)
          | None => false
          end then mkCheck ServerMatch false ""
  else if negb (bool_decide (JudgeProcess (start (ln_ServerPID row)) (ln_ServerPID row) (ln_ServerStarttime row) = ProcGone))
  then mkCheck ServerDiffers true ReasonServerMismatch
  else match ans with
       | Some _ => mkCheck ServerRestarted false ReasonServerRestarted
       | None => mkCheck ServerRestarted false ""
       end.

(** ** The verdict *)

Inductive Verdict := NoVerdict | Ours | Leftover | Gone | CantTell.
#[export] Instance Verdict_eq_dec : EqDecision Verdict.
Proof. solve_decision. Defined.
Inductive CantTellKind := NoKind | CantTellUnreadable | CantTellDifferentServer | CantTellProvenanceConflict | CantTellUnavailable.
#[export] Instance CantTellKind_eq_dec : EqDecision CantTellKind.
Proof. solve_decision. Defined.

Record Result := mkResult {
  rs_Verdict : Verdict;
  rs_CantTell : CantTellKind;
  rs_Session : option Session;
  rs_Leftovers : list Session;
  rs_Conflicting : list Session;
  rs_Holder : option Session;
  rs_HolderClass : option LabelClass;
  rs_HolderAmbiguous : bool;
  rs_Server : string;
  rs_ServerPID : Z;
  rs_ServerStart : Z;
  rs_Adopt : bool;
  rs_Disagree : list string;
  rs_Cause : option Failure;
  rs_Skipped : bool;
}.
Definition zeroResult : Result :=
  mkResult NoVerdict NoKind None [] [] None None false "" 0 0 false [] None false.
Definition skippedResult : Result :=
  mkResult NoVerdict NoKind None [] [] None None false "" 0 0 false [] None true.

Definition Token (r : Result) : string :=
  if rs_Skipped r then "not_run"
  else match rs_Verdict r, rs_CantTell r with
       | Ours, _ => "ours"
       | Leftover, _ => "leftover"
       | Gone, _ => "gone"
       | CantTell, CantTellUnreadable => "cant_tell"
       | CantTell, CantTellDifferentServer => "different_server"
       | CantTell, CantTellProvenanceConflict => "provenance_conflict"
       | CantTell, CantTellUnavailable => "tmux_unavailable"
       | _, _ => ""
       end.

Definition StopsSocket (r : Result) : bool :=
  bool_decide (rs_Verdict r = CantTell)
  && (bool_decide (rs_CantTell r = CantTellUnreadable) || bool_decide (rs_CantTell r = CantTellUnavailable)).

Definition appendReason (reasons : list string) (reason : string) : list string :=
  if bool_decide (reason = "") || bool_decide (reason ∈ reasons) then reasons else reasons ++ [reason].

Definition sessionsOf (row : Launch) (c : LabelClass) (sessions : list Session) : list Session :=
  filter (fun s => ClassOf row (ss_Label s) = c) sessions.

Section Classify.
Context (row : Launch) (start : Z -> StartAnswer).

Definition Classify (ans : LookupAnswer) (holderName : string) : Result :=
  let sc := checkServer row start (Some ans) in
  let '(holder, ambiguous) := matchHolder (an_Sessions ans) holderName in
  let reasons := appendReason [] (sc_reason sc) in
  let result verdict kind session leftovers conflicting adopt reasons :=
    mkResult verdict kind session leftovers conflicting holder ((fun h => ClassOf row (ss_Label h)) <$> holder) ambiguous
      (sc_server sc) (an_ServerPID ans) (an_ServerStart ans) adopt reasons None false in
  if sc_differs sc then result CantTell CantTellDifferentServer None [] [] false reasons
  else if an_ScopeValue ans then
    result CantTell CantTellProvenanceConflict None [] [] false (appendReason reasons ReasonScopeValue)
  else
    let leftovers := sessionsOf row ClassOld (an_Sessions ans) in
    match sessionsOf row ClassCurrent (an_Sessions ans) with
    | [s] => result Ours NoKind (Some s) leftovers [] (ln_ServerPID row =? 0) reasons
    | [] => result (match leftovers with [] => Gone | _ => Leftover end) NoKind None leftovers [] false reasons
    | conflicting =>
        result CantTell CantTellProvenanceConflict None [] conflicting false (appendReason reasons ReasonDuplicateLabel)
    end.

Definition failed (verdict : Verdict) (kind : CantTellKind) (cause : option Failure) : Result :=
  mkResult verdict kind None [] [] None None false "" 0 0 false [] cause false.

Definition resultForFailure (err : CallErr) : Result :=
  match err with
  | OtherError => failed CantTell CantTellUnreadable None
  | CallFailure f =>
      match f with
      | FailUnavailable | FailSocketDenied => failed CantTell CantTellUnavailable (Some f)
      | FailNoServer | FailNoSocket =>
          let sc := checkServer row start None in
          let r verdict kind := mkResult verdict kind None [] [] None None false (sc_server sc) 0 0 false
            (appendReason [] (sc_reason sc)) None false in
          if sc_differs sc then r CantTell CantTellDifferentServer else r Gone NoKind
      | _ => failed CantTell CantTellUnreadable (Some f)
      end
  end.

Definition resultForCall (call : CallErr + LookupAnswer) (holderName : string) : Result :=
  match call with inl err => resultForFailure err | inr ans => Classify ans holderName end.
End Classify.

(** ** A launch's pane (pane_token.go) *)

Inductive PaneMatch := PaneNone | PaneOne | PaneMany.
#[export] Instance PaneMatch_eq_dec : EqDecision PaneMatch.
Proof. solve_decision. Defined.

Fixpoint paneFrom (token : string) (found : option Pane) (panes : list Pane) : Pane * PaneMatch :=
  match panes with
  | [] => match found with Some p => (p, PaneOne) | None => (zeroPane, PaneNone) end
  | p :: panes =>
      if negb (bool_decide (pa_AdPane p = token)) then paneFrom token found panes
      else match found with
           | None => paneFrom token (Some p) panes
           | Some q => if negb (bool_decide (pa_ID p = pa_ID q)) then (zeroPane, PaneMany) else paneFrom token found panes
           end
  end.
Definition PaneByToken (panes : list Pane) (token : string) : Pane * PaneMatch :=
  if bool_decide (token = "") then (zeroPane, PaneNone) else paneFrom token None panes.
