(* ===== verification/TmuxProps.v ===== *)
(** * Properties of the tmux parsers and of the lookup's verdict

    A label is read back exactly when agent-director wrote it, for that
    session; what tmux prints of a server is read back as it is; Ours names
    the one session of the row's current launch, and Gone is said only where
    no session of the row can be. *)

From S2P Require Import Prelude Text Bytes Process Tmux.

#[local] Arguments String.append !_ _ / : simpl nomatch.

(** ** Strings *)

Fixpoint hasByte (c : char) (s : string) : bool :=
  match s with EmptyString => false | String a t => Ascii.eqb a c || hasByte c t end.

Lemma append_nil (s : string) : (s ++ "")%string = s.
Proof. induction s as [|a s IH]; simpl; [done|]. by f_equal. Qed.
Lemma append_length (a b : string) : String.length (a ++ b) = (String.length a + String.length b)%nat.
Proof. induction a as [|x a IH]; simpl; [done|]. by f_equal. Qed.

Lemma cutPrefix_spec p s r : cutPrefix p s = Some r <-> s = (p ++ r)%string.
Proof.
  revert s. induction p as [|a p IH]; intros s; simpl; [naive_solver|].
  destruct s as [|b s]; [done|]. destruct (Ascii.eqb_spec a b) as [->|Hn]; [rewrite IH; naive_solver|].
  split; [done|]. intros [=]. congruence.
Qed.

Lemma cut_spec c s x y : cut c s = Some (x, y) <-> s = (x ++ String c y)%string /\ hasByte c x = false.
Proof.
  revert x. induction s as [|a s IH]; intros x; simpl.
  - split; [done|]. intros [E _]. by destruct x.
  - destruct (Ascii.eqb_spec a c) as [->|Hn].
    + split; [by intros [= <- <-]|]. destruct x as [|b x]; simpl; [by intros [[= ->] _]|].
      intros [[= -> ->] Hx]. by rewrite Ascii.eqb_refl in Hx.
    + destruct (cut c s) as [[x' y']|] eqn:E.
      * split.
        -- intros [= <- <-]. destruct (proj1 (IH x')) as [-> Hx]; [done|]. simpl.
           by rewrite Hx, (proj2 (Ascii.eqb_neq a c)).
        -- destruct x as [|b x]; simpl; [by intros [[= -> _] _]|]. intros [[= -> ->] [_ Hx]%orb_false_iff].
           pose proof (proj2 (IH x) (conj eq_refl Hx)). congruence.
      * split; [done|]. destruct x as [|b x]; simpl; [by intros [[= -> _] _]|]. intros [[= -> ->] [_ Hx]%orb_false_iff].
        by pose proof (proj2 (IH x) (conj eq_refl Hx)).
Qed.

Lemma cut_none c s : cut c s = None <-> hasByte c s = false.
Proof.
  induction s as [|a s IH]; simpl; [done|]. destruct (Ascii.eqb a c); [done|].
  destruct (cut c s) as [[x y]|]; simpl; [split; [done|by intros ?%IH]|done].
Qed.

Lemma substring_full (s : string) : String.substring 0 (String.length s) s = s.
Proof. induction s as [|a s IH]; simpl; [done|]. by f_equal. Qed.
Lemma substring_app (a b : string) : String.substring 0 (String.length a) (a ++ b) = a.
Proof. induction a as [|x a IH]; simpl; [by destruct b|]. by f_equal. Qed.
Lemma after_app (a b : string) : after (String.length a) (a ++ b) = b.
Proof.
  unfold after. rewrite append_length. replace (String.length a + String.length b - String.length a)%nat with (String.length b) by lia.
  induction a as [|x a IH]; simpl; [apply substring_full|done].
Qed.

Lemma after_byte (a b : string) c : after (S (String.length a)) (a ++ String c b) = b.
Proof.
  pose proof (after_app (a ++ one c) b) as H. rewrite append_length in H. simpl in H.
  rewrite append_assoc in H. simpl in H. by replace (String.length a + 1)%nat with (S (String.length a)) in H by lia.
Qed.

Lemma get_split n s c : String.get n s = Some c ->
  s = (String.substring 0 n s ++ String c (after (S n) s))%string /\ String.length (String.substring 0 n s) = n.
Proof.
  revert s. induction n as [|n IH]; intros s; destruct s as [|a s]; simpl; try done.
  - intros [= ->]. split; [|by destruct s]. unfold after. simpl. rewrite Nat.sub_0_r, substring_full. by destruct s.
  - intros H. destruct (IH s H) as [E L]. split; [|by rewrite L]. f_equal. exact E.
Qed.
Lemma get_app a c b : String.get (String.length a) (a ++ String c b) = Some c.
Proof. by induction a as [|x a IH]. Qed.

Lemma lastIndexByte_none c s : lastIndexByte c s = None <-> hasByte c s = false.
Proof.
  induction s as [|a s IH]; simpl; [done|]. destruct (lastIndexByte c s) as [n|].
  - split; [done|]. intros [_ H]%orb_false_iff. by apply IH in H.
  - rewrite (proj1 IH) by done. destruct (Ascii.eqb a c); simpl; naive_solver.
Qed.
Lemma cutLast_spec c s x y : cutLast c s = Some (x, y) <-> s = (x ++ String c y)%string /\ hasByte c y = false.
Proof.
  unfold cutLast. revert x. induction s as [|a s IH]; intros x; simpl.
  - split; [done|]. intros [E _]. by destruct x.
  - destruct (lastIndexByte c s) as [i|] eqn:El.
    + split.
      * intros [= <- <-]. destruct (proj1 (IH (String.substring 0 i s))) as [E Hy]; [done|]. split; [|done]. simpl. by f_equal.
      * destruct x as [|b x]; simpl.
        -- intros [[= -> ->] Hy]. by apply lastIndexByte_none in Hy; congruence.
        -- intros [[= -> ->] Hy]. injection (proj2 (IH x) (conj eq_refl Hy)) as E1 E2. by rewrite E1, E2.
    + apply lastIndexByte_none in El. destruct (Ascii.eqb_spec a c) as [->|Hn]; simpl.
      * rewrite Nat.sub_0_r, substring_full. split.
        -- intros [= <- <-]. by destruct s.
        -- destruct x as [|b x]; simpl; [intros [[= ->] _]; by destruct y|]. intros [[= -> ->] _].
           exfalso. revert El. clear. induction x as [|d x IH]; simpl; [by rewrite Ascii.eqb_refl|].
           intros [_ H]%orb_false_iff. auto.
      * split; [done|]. destruct x as [|b x]; simpl; [by intros [[= -> _] _]|]. intros [[= -> ->] _].
        exfalso. revert El. clear. induction x as [|d x IH]; simpl; [by rewrite Ascii.eqb_refl|].
        intros [_ H]%orb_false_iff. auto.
Qed.

Lemma allBytes_hasByte (p : char -> bool) c s : p c = false -> allBytes p s = true -> hasByte c s = false.
Proof.
  intros Hc. induction s as [|a s IH]; simpl; [done|]. intros [Ha Hs]%andb_true_iff.
  destruct (Ascii.eqb_spec a c) as [->|]; [congruence|]. auto.
Qed.
Lemma isDigits_all s : isDigits s = true -> allBytes digitByte s = true.
Proof. unfold isDigits. by intros [_ ?]%andb_true_iff. Qed.
Lemma sessionID_bytes c s : digitByte c = false -> Ascii.eqb (chr 36) c = false -> isSessionID s = true -> hasByte c s = false.
Proof.
  intros H1 H2. destruct s as [|a s]; simpl; [done|]. intros [->%Ascii.eqb_eq Hd%isDigits_all]%andb_true_iff.
  rewrite H2. by apply (allBytes_hasByte digitByte).
Qed.
Lemma paneID_bytes c s : digitByte c = false -> Ascii.eqb (chr 37) c = false -> isPaneID s = true -> hasByte c s = false.
Proof.
  intros H1 H2. destruct s as [|a s]; simpl; [done|]. intros [->%Ascii.eqb_eq Hd%isDigits_all]%andb_true_iff.
  rewrite H2. by apply (allBytes_hasByte digitByte).
Qed.
Lemma lowerHex_bytes c s : lowerHexByte c = false -> isLowerHex s = true -> hasByte c s = false.
Proof. apply allBytes_hasByte. Qed.

(** ** Labels *)

(** A launch token, and a store's id. *)
Definition isToken (t : string) : Prop := String.length t = labelTokenLen /\ isLowerHex t = true.
Definition label_fields (token sid instanceID storeID : string) : Prop :=
  isToken token /\ isSessionID sid = true /\ instanceID <> "" /\ hasControlChar instanceID = false /\ isToken storeID.

Lemma labelOf_split token sid i st :
  labelOf token sid i st = (labelPrefix ++ token ++ String space (sid ++ String space (i ++ String space st)))%string.
Proof. done. Qed.

Lemma classifyLabel_valid raw sid token i st :
  classifyLabel raw sid = mkLabel LabelValid token i st -> raw = labelOf token sid i st /\ label_fields token sid i st.
Proof.
  unfold classifyLabel. destruct (cutPrefix labelPrefix raw) as [rest|] eqn:Ep; [|done]. apply cutPrefix_spec in Ep as ->.
  destruct (bool_decide (String.get labelTokenLen rest = Some space)) eqn:Eg; [|done]. apply bool_decide_eq_true in Eg.
  destruct (get_split _ _ _ Eg) as [Er El].
  destruct (isLowerHex (String.substring 0 labelTokenLen rest)) eqn:Eh; [|done]. cbv beta iota delta [negb orb].
  destruct (cut space (after (S labelTokenLen) rest)) as [[emb tail]|] eqn:Ec; [|done]. apply cut_spec in Ec as [Ec _].
  destruct (bool_decide (emb = sid)) eqn:Es; [|done]. apply bool_decide_eq_true in Es as ->.
  destruct (isSessionID sid) eqn:Ei; [|done]. cbv beta iota delta [negb orb].
  destruct (cutLast space tail) as [[x y]|] eqn:Et; [|done]. apply cutLast_spec in Et as [-> _].
  destruct (bool_decide (x = "")) eqn:Ex; [done|]. destruct (hasControlChar x) eqn:Eh'; [done|].
  destruct (String.length y =? labelStoreIDLen)%nat eqn:Ey; [|done]. destruct (isLowerHex y) eqn:Eyh; [|done].
  intros [= <- <- <-]. apply bool_decide_eq_false in Ex. apply Nat.eqb_eq in Ey. split; [|by split_and!].
  rewrite labelOf_split. rewrite Er at 1. by rewrite Ec.
Qed.

Lemma classifyLabel_labelOf token sid i st : label_fields token sid i st ->
  classifyLabel (labelOf token sid i st) sid = mkLabel LabelValid token i st.
Proof.
  intros ((Ht & Hth) & Hs & Hi & Hc & Hst & Hsth). unfold classifyLabel. rewrite labelOf_split.
  rewrite (proj2 (cutPrefix_spec _ _ _)) by done. rewrite <-Ht, get_app, substring_app, bool_decide_true, Hth by done.
  cbv beta iota delta [negb orb].
  rewrite after_byte. rewrite (proj2 (cut_spec space _ sid (i ++ String space st)));
    [|split; [done|by apply sessionID_bytes]].
  rewrite bool_decide_true, Hs by done. cbv beta iota delta [negb orb].
  rewrite (proj2 (cutLast_spec space _ i st)); [|split; [done|by apply lowerHex_bytes]].
  rewrite bool_decide_false, Hc, Hst, Hsth by done. done.
Qed.

(** A session's @ad_owner counts exactly when it is the label agent-director
    wrote for that very session: a value is read as a valid label with a
    token, an instance id and a store id if and only if it is the text the
    create stores for these and for the session it is read on; a value
    borrowed from another session, or any other text, is no label. *)
Theorem label_read_back (raw sid token instanceID storeID : string) :
  classifyLabel raw sid = mkLabel LabelValid token instanceID storeID <->
  raw = labelOf token sid instanceID storeID /\ label_fields token sid instanceID storeID.
Proof. split; [apply classifyLabel_valid|]. intros [-> H]. by apply classifyLabel_labelOf. Qed.

Lemma classifyPaneLabel_iff raw pid token : isPaneID pid = true -> token <> "" ->
  classifyPaneLabel raw pid = token <-> raw = paneLabelOf token pid /\ isToken token.
Proof.
  intros Hp Hne. unfold classifyPaneLabel, paneLabelOf, isToken. split.
  - destruct (cut space raw) as [[t e]|] eqn:Ec; [|by intros <-]. apply cut_spec in Ec as [-> _].
    destruct (String.length t =? labelTokenLen)%nat eqn:El; [|by intros <-]. destruct (isLowerHex t) eqn:Eh; [|by intros <-].
    destruct (bool_decide (e = pid)) eqn:Ee; [|by intros <-]. apply bool_decide_eq_true in Ee as ->.
    intros <-. apply Nat.eqb_eq in El. by split.
  - intros [-> [Hl Hh]]. rewrite (proj2 (cut_spec space _ token pid)) by (split; [done|by apply lowerHex_bytes]).
    by rewrite Hl, Hh, bool_decide_true.
Qed.

(** ** Decimals *)

Lemma allBytes_app p a b : allBytes p (a ++ b) = allBytes p a && allBytes p b.
Proof. induction a as [|c a IH]; simpl; [done|]. by rewrite IH, andb_assoc. Qed.
Lemma digitOf_byte n : 0 <= n -> digitByte (digitOf n) = true /\ Z.of_nat (byte (digitOf n)) - 48 = n mod 10.
Proof.
  intros Hn. unfold digitByte, inRange, digitOf, byte, chr. pose proof (Z.mod_pos_bound n 10).
  rewrite Ascii.nat_ascii_embedding by lia. split; [|lia]. apply andb_true_iff. rewrite !Nat.leb_le. lia.
Qed.
Lemma decimalFuel_spec fuel n acc : 0 <= n -> n < 10 ^ Z.of_nat fuel -> (0 < fuel)%nat ->
  decimalFrom 0 (decimalFuel fuel n acc) = decimalFrom n acc /\
  (allBytes digitByte acc = true -> allBytes digitByte (decimalFuel fuel n acc) = true) /\
  decimalFuel fuel n acc <> "".
Proof.
  revert n acc. induction fuel as [|fuel IH]; intros n acc Hn Hb Hf; [lia|]. simpl.
  destruct (digitOf_byte n Hn) as [Hd Hv]. destruct (n <? 10) eqn:E.
  - apply Z.ltb_lt in E. simpl. rewrite Hd, Hv, Z.mod_small by lia. split_and!; auto.
  - apply Z.ltb_ge in E. rewrite Nat2Z.inj_succ, Z.pow_succ_r in Hb by lia.
    assert (0 < fuel)%nat as Hf' by (destruct fuel; [simpl in Hb; lia|lia]).
    destruct (IH (n / 10) (String (digitOf n) acc)) as (H1 & H2 & H3); [apply Z.div_pos; lia| |done|].
    { apply Z.div_lt_upper_bound; lia. }
    split_and!; [|intros Ha; apply H2; simpl; by rewrite Hd|done].
    rewrite H1. simpl. rewrite Hv. f_equal. pose proof (Z.div_mod n 10). lia.
Qed.

Definition int64 (n : Z) : Prop := 0 <= n < 2 ^ 63.
(** What %d prints is read back. *)
Lemma decimal_round_trip n : int64 n -> parseDecimal64 (showDecimal n) = Some n.
Proof.
  intros [H0 H1]. unfold parseDecimal64, showDecimal.
  destruct (decimalFuel_spec 20 n "" H0) as (E & Hd & Hn); [lia|lia|]. change (decimalFrom n "") with n in E.
  unfold isDigits. rewrite bool_decide_false, E, Hd by done. cbn [negb andb]. by rewrite (proj2 (Z.ltb_lt _ _) H1).
Qed.
Lemma showDecimal_bytes c n : digitByte c = false -> int64 n -> hasByte c (showDecimal n) = false.
Proof.
  intros Hc [H0 H1]. unfold showDecimal. destruct (decimalFuel_spec 20 n "" H0) as (_ & Hd & _); [lia|lia|].
  apply (allBytes_hasByte digitByte); [done|]. by apply Hd.
Qed.

(** ** The lookup's answer *)

Lemma splitByte_cons c x y : hasByte c x = false -> splitByte c (x ++ String c y) = x :: splitByte c y.
Proof.
  induction x as [|a x IH]; simpl; [by rewrite Ascii.eqb_refl|]. intros [Ha Hx]%orb_false_iff. rewrite Ha, IH by done. done.
Qed.
Lemma splitByte_one c x : hasByte c x = false -> splitByte c x = [x].
Proof. induction x as [|a x IH]; simpl; [done|]. intros [Ha Hx]%orb_false_iff. by rewrite Ha, IH. Qed.
Lemma splitN_cons n c x y : hasByte c x = false -> splitN (S (S n)) c (x ++ String c y) = x :: splitN (S n) c y.
Proof. intros H. cbn [splitN]. by rewrite (proj2 (cut_spec c _ x y)). Qed.

(** What tmux prints of a session: its id, created, name and raw label. *)
Record SessionLine := mkLine { sl_ID : string; sl_Created : Z; sl_Name : string; sl_Raw : string }.
Definition sessionLine (pid start : Z) (l : SessionLine) : string :=
  (sl_ID l ++ String tab (showDecimal (sl_Created l) ++ String tab (showDecimal pid ++ String tab (showDecimal start
   ++ String tab (sl_Name l ++ String tab (sl_Raw l))))))%string.
Definition identityLine (pid start : Z) : string :=
  (identityPrefix ++ String tab (showDecimal pid ++ String tab (showDecimal start)))%string.
Fixpoint printLines (lines : list string) : string :=
  match lines with [] => EmptyString | l :: lines => (l ++ String nl (printLines lines))%string end.
Definition printLookup (pid start : Z) (sessions : list SessionLine) (scope : list string) : string :=
  printLines (identityLine pid start :: (sessionLine pid start <$> sessions) ++ scope).

Definition line_ok (l : SessionLine) : Prop :=
  isSessionID (sl_ID l) = true /\ int64 (sl_Created l) /\ hasByte tab (sl_Name l) = false /\
  hasByte nl (sl_Name l) = false /\ hasByte nl (sl_Raw l) = false.
Definition scope_ok (line : string) : Prop := hasByte nl line = false /\ isSessionShaped line = false.
Definition sessionOf (l : SessionLine) : Session :=
  mkSession (sl_ID l) (sl_Created l) (sl_Name l) (classifyLabel (sl_Raw l) (sl_ID l)).

Lemma hasByte_app c a b : hasByte c (a ++ b) = hasByte c a || hasByte c b.
Proof. induction a as [|x a IH]; simpl; [done|]. by rewrite IH, orb_assoc. Qed.

Lemma printLines_split lines : Forall (fun l => hasByte nl l = false) lines -> splitByte nl (printLines lines) = lines ++ [""].
Proof. induction 1 as [|l lines H _ IH]; [done|]. simpl printLines. by rewrite splitByte_cons, IH. Qed.

Section Answer.
Context (pid start : Z) (Hpid : int64 pid) (Hstart : int64 start).

Lemma identityLine_parsed : parseIdentityLine (identityLine pid start) = Some (pid, start).
Proof.
  unfold parseIdentityLine, identityLine. rewrite !splitByte_cons by (done || by apply showDecimal_bytes).
  rewrite splitByte_one by by apply showDecimal_bytes. rewrite bool_decide_true by done. simpl.
  by rewrite !decimal_round_trip.
Qed.

Lemma sessionLine_parsed l : line_ok l -> parseSessionLine (sessionLine pid start l) = Some (sessionOf l, pid, start).
Proof.
  intros (Hi & Hc & Hn & _ & _). unfold parseSessionLine, sessionLine.
  rewrite !splitN_cons by (done || by apply showDecimal_bytes || by apply sessionID_bytes).
  cbn [splitN]. by rewrite !decimal_round_trip.
Qed.

Lemma sessionLine_shaped l : line_ok l -> isSessionShaped (sessionLine pid start l) = true.
Proof.
  intros (Hi & _). unfold isSessionShaped, sessionLine.
  rewrite (proj2 (cut_spec tab _ _ _) (conj eq_refl (sessionID_bytes tab _ eq_refl eq_refl Hi))). done.
Qed.

Lemma sessionLine_nl l : line_ok l -> hasByte nl (sessionLine pid start l) = false.
Proof.
  intros (Hi & Hc & _ & Hn & Hr). unfold sessionLine. repeat (rewrite hasByte_app; simpl).
  rewrite Hn, Hr, (sessionID_bytes nl), !showDecimal_bytes by done. done.
Qed.

Lemma parseScope_ok ans scope : Forall scope_ok scope ->
  parseScope ans (scope ++ [""]) = inr (ans <| an_ScopeValue := an_ScopeValue ans || existsb (fun l => negb (bool_decide (l = ""))) scope |>).
Proof.
  intros H. revert ans. induction H as [|l scope [_ Hl] _ IH]; intros ans; simpl.
  - rewrite orb_false_r. by destruct ans.
  - rewrite Hl, IH. destruct (bool_decide (l = "")); rsimp; simpl; [done|]. by rewrite orb_true_r.
Qed.

Lemma parseSessions_ok ans lines scope : an_ServerPID ans = pid -> an_ServerStart ans = start ->
  Forall line_ok lines -> Forall scope_ok scope ->
  parseSessions ans ((sessionLine pid start <$> lines) ++ scope ++ [""])
  = inr (mkAnswer (an_Sessions ans ++ (sessionOf <$> lines)) pid start
           (an_ScopeValue ans || existsb (fun l => negb (bool_decide (l = ""))) scope)).
Proof.
  intros E1 E2 Hl Hs. revert ans E1 E2. induction Hl as [|l lines Hl _ IH]; intros ans E1 E2.
  - simpl. rewrite app_nil_r. transitivity (parseScope ans (scope ++ [""])).
    + destruct Hs as [|x scope [_ Hx] Hs]; simpl; [done|]. by rewrite Hx.
    + rewrite parseScope_ok by done. destruct ans; simpl in *. by subst.
  - cbn [fmap list_fmap app parseSessions]. rewrite sessionLine_shaped, sessionLine_parsed by done. simpl negb. cbv iota.
    rewrite E1, E2, !Z.eqb_refl. simpl orb. cbv iota. rewrite IH by (by rsimp). rsimp. by rewrite <-app_assoc.
Qed.
End Answer.

(** C34: What tmux prints of a server is read back as it is: its identity, every
    session with its id, age, name and label (names and labels may hold
    anything but a line's end, and names no tab), and whether a label exists
    outside a session. *)
Theorem lookup_answer_round_trip (pid start : Z) (sessions : list SessionLine) (scope : list string) :
  int64 pid -> int64 start -> Forall line_ok sessions -> Forall scope_ok scope ->
  parseLookup (printLookup pid start sessions scope)
  = inr (mkAnswer (sessionOf <$> sessions) pid start (existsb (fun l => negb (bool_decide (l = ""))) scope)).
Proof.
  intros Hp Hs Hl Hsc. unfold parseLookup, printLookup. rewrite printLines_split.
  - simpl. rewrite identityLine_parsed by done. by rewrite <-app_assoc, parseSessions_ok.
  - constructor; [|apply Forall_app; split].
    + unfold identityLine. repeat (rewrite hasByte_app; simpl). by rewrite !showDecimal_bytes.
    + apply Forall_fmap. eapply Forall_impl; [exact Hl|]. intros l. by apply sessionLine_nl.
    + eapply Forall_impl; [exact Hsc|]. by intros l [? _].
Qed.

(** A server with one launched session and an agent's own, unlabelled one. *)
Definition sampleLines : list SessionLine :=
  [mkLine "$1" 1700000000 "work" (labelOf "00000000000000aa" "$1" "inst-1" "00000000000000ff"); mkLine "$2" 1700000001 "mine" ""].

Lemma lookup_answer_round_trip_witness :
  parseLookup (printLookup 4242 99 sampleLines [""])
  = inr (mkAnswer (sessionOf <$> sampleLines) 4242 99 false).
Proof.
  apply (lookup_answer_round_trip 4242 99 sampleLines [""]); [done|done| |].
  - by repeat constructor.
  - by repeat constructor.
Defined.

(** ** The verdict *)

Lemma ClassOf_current row lb : ClassOf row lb = ClassCurrent <->
  lb_Kind lb = LabelValid /\ lb_StoreID lb = ln_StoreID row /\ ln_StoreID row <> "" /\
  lb_InstanceID lb = ln_InstanceID row /\ ln_InstanceID row <> "" /\ hasControlChar (ln_InstanceID row) = false /\
  lb_Token lb = ln_Token row /\ ln_Token row <> "".
Proof.
  unfold ClassOf. repeat case_bool_decide; simpl; try naive_solver.
  all: destruct (hasControlChar (ln_InstanceID row)); naive_solver.
Qed.

(** A session is the row's own exactly when its raw label is the one a
    create writes for the row's current launch on that session. *)
Theorem current_label_is_the_launch_label (row : Launch) (l : SessionLine) :
  ClassOf row (ss_Label (sessionOf l)) = ClassCurrent <->
  sl_Raw l = labelOf (ln_Token row) (sl_ID l) (ln_InstanceID row) (ln_StoreID row) /\
  label_fields (ln_Token row) (sl_ID l) (ln_InstanceID row) (ln_StoreID row).
Proof.
  rewrite ClassOf_current. simpl. split.
  - destruct (classifyLabel (sl_Raw l) (sl_ID l)) as [k t i st] eqn:E. simpl. intros (-> & -> & _ & -> & _ & _ & -> & _).
    by apply classifyLabel_valid.
  - intros [-> H]. rewrite classifyLabel_labelOf by done. simpl. destruct H as ((Ht & _) & _ & Hi & Hc & Hs & _).
    split_and!; try done; intros E; by rewrite E in *.
Qed.

(** The server a listing came from, or that did not answer, stands for the
    row: none is recorded, it is the recorded one, or the recorded one's
    process is gone. *)
Definition serverStands (row : Launch) (start : Z -> StartAnswer) (ans : option LookupAnswer) : Prop :=
  ln_ServerPID row = 0 \/
  (exists a, ans = Some a /\ an_ServerPID a = ln_ServerPID row /\ an_ServerStart a = ln_ServerStart row) \/
  JudgeProcess (start (ln_ServerPID row)) (ln_ServerPID row) (ln_ServerStarttime row) = ProcGone.

Lemma checkServer_stands row start ans : sc_differs (checkServer row start ans) = false <-> serverStands row start ans.
Proof.
  unfold checkServer, serverStands. destruct (ln_ServerPID row =? 0) eqn:E0; [split; [left; lia|done]|].
  destruct ans as [a|].
  - destruct ((an_ServerPID a =? ln_ServerPID row) && _) eqn:Ea.
    + apply andb_true_iff in Ea as [H1 H2]. split; [|done]. right. left. exists a. split_and!; [done|lia..].
    + case_bool_decide as Ej; simpl; split; auto; try done.
      intros [?|[(a' & [= <-] & H1 & H2)|?]]; [lia| |done]. by rewrite H1, H2, !Z.eqb_refl in Ea.
  - case_bool_decide as Ej; simpl; split; auto; try done. intros [?|[(a' & [=] & _)|?]]; [lia|done].
Qed.

Lemma none_of_class row c sessions : sessionsOf row c sessions = [] -> forall s, s ∈ sessions -> ClassOf row (ss_Label s) <> c.
Proof.
  intros E s Hs Hc. assert (s ∈ sessionsOf row c sessions) as H by (by apply list_elem_of_filter).
  rewrite E in H. by apply elem_of_nil in H.
Qed.

(** What a result's verdict was given on. *)
Definition answered (row : Launch) (start : Z -> StartAnswer) (call : CallErr + LookupAnswer) (ans : LookupAnswer) : Prop :=
  call = inr ans /\ serverStands row start (Some ans) /\ an_ScopeValue ans = false.
Lemma verdict_says row start call holder :
  let r := resultForCall row start call holder in
  match rs_Verdict r with
  | Ours => exists ans s, answered row start call ans /\ sessionsOf row ClassCurrent (an_Sessions ans) = [s] /\ rs_Session r = Some s
  | Leftover => exists ans, answered row start call ans /\ sessionsOf row ClassCurrent (an_Sessions ans) = [] /\
      rs_Leftovers r = sessionsOf row ClassOld (an_Sessions ans) /\ rs_Leftovers r <> []
  | Gone =>
      (exists ans, answered row start call ans /\ sessionsOf row ClassCurrent (an_Sessions ans) = [] /\
         sessionsOf row ClassOld (an_Sessions ans) = []) \/
      ((call = inl (CallFailure FailNoServer) \/ call = inl (CallFailure FailNoSocket)) /\ serverStands row start None)
  | CantTell => True
  | NoVerdict => False
  end.
Proof.
  cbv zeta. destruct call as [err|ans]; simpl.
  - pose proof (checkServer_stands row start None) as Hs. destruct err as [f|]; simpl; [|done].
    destruct f; simpl; try done; destruct (sc_differs (checkServer row start None)); simpl; intuition.
  - pose proof (checkServer_stands row start (Some ans)) as Hs. unfold Classify.
    destruct (matchHolder _ _) as [h amb]. destruct (sc_differs _); [done|]. destruct (an_ScopeValue ans) eqn:Ev; [done|].
    assert (answered row start (inr ans) ans) as Ha by (split_and!; [done|by apply Hs|done]).
    destruct (sessionsOf row ClassCurrent _) as [|s [|s' l]] eqn:Ec; simpl; [|by exists ans, s|done].
    destruct (sessionsOf row ClassOld _) eqn:Eo; simpl; [left|]; exists ans; by rewrite Eo.
Qed.

#[local] Ltac verdict :=
  split_and!; (split; [try done|]); intros; destruct_and?;
  repeat match goal with
    | H : exists _, _ |- _ => destruct H
    | H : _ /\ _ |- _ => destruct H
    | H : _ \/ _ |- _ => destruct H
    end; simplify_eq; try congruence; eauto 10.

(** C33: The lookup's verdict says what tmux showed. Ours: a listing from a server
    that stands for the row, with no label outside a session, in which
    exactly one session carries the row's current label; Leftover: none does
    and one carries an earlier one; Gone: no session of the row does, or no
    server answered and the recorded one, if any, is gone. In every other
    case (a failed or malformed answer, another server that may still run, a
    label out of place, two current labels) it says that it can't tell. *)
Theorem lookup_verdicts (row : Launch) (start : Z -> StartAnswer) (call : CallErr + LookupAnswer) (holder : string) :
  let r := resultForCall row start call holder in
  let listed ans := call = inr ans /\ serverStands row start (Some ans) /\ an_ScopeValue ans = false in
  let current ans := sessionsOf row ClassCurrent (an_Sessions ans) in
  let old ans := sessionsOf row ClassOld (an_Sessions ans) in
  (rs_Verdict r = Ours <-> exists ans s, listed ans /\ current ans = [s] /\ rs_Session r = Some s) /\
  (rs_Verdict r = Leftover <-> exists ans, listed ans /\ current ans = [] /\ old ans <> [] /\ rs_Leftovers r = old ans) /\
  (rs_Verdict r = Gone <-> (exists ans, listed ans /\ current ans = [] /\ old ans = []) \/
     ((call = inl (CallFailure FailNoServer) \/ call = inl (CallFailure FailNoSocket)) /\ serverStands row start None)) /\
  (rs_Verdict r = CantTell <-> rs_Verdict r <> Ours /\ rs_Verdict r <> Leftover /\ rs_Verdict r <> Gone).
Proof.
  cbv zeta. destruct call as [err|ans]; simpl.
  - assert (forall ans, (inl err : CallErr + LookupAnswer) = inr ans -> False) as Hn by done.
    destruct err as [f|]; simpl; [|naive_solver].
    destruct (sc_differs (checkServer row start None)) eqn:Es.
    + assert (~ serverStands row start None) by (by rewrite <-checkServer_stands, Es). destruct f; simpl; naive_solver.
    + assert (serverStands row start None) by by apply checkServer_stands. destruct f; simpl; naive_solver.
  - unfold Classify. destruct (matchHolder (an_Sessions ans) holder) as [h amb].
    destruct (sc_differs (checkServer row start (Some ans))) eqn:Es; simpl.
    { assert (~ serverStands row start (Some ans)) by (by rewrite <-checkServer_stands, Es). verdict. }
    assert (serverStands row start (Some ans)) by by apply checkServer_stands.
    destruct (an_ScopeValue ans) eqn:Ev; simpl; [verdict|].
    destruct (sessionsOf row ClassCurrent (an_Sessions ans)) as [|s [|s' l]] eqn:Ec; simpl;
      [destruct (sessionsOf row ClassOld (an_Sessions ans)) eqn:Eo; simpl| |]; verdict.
    exists ans. by rewrite Eo.
Qed.

(** PaneByToken names the launch's one pane: exactly one pane id in the
    listing carries the token. *)
Lemma paneFrom_spec token found panes : match found with Some q => pa_AdPane q = token | None => True end ->
  let '(p, m) := paneFrom token found panes in
  match m with
  | PaneOne => pa_AdPane p = token /\ (found = Some p \/ (found = None /\ p ∈ panes)) /\
      forall q, q ∈ panes -> pa_AdPane q = token -> pa_ID q = pa_ID p
  | PaneNone => found = None /\ forall q, q ∈ panes -> pa_AdPane q <> token
  | PaneMany => exists q q', (found = Some q \/ q ∈ panes) /\ q' ∈ panes /\ pa_AdPane q = token /\ pa_AdPane q' = token /\
      pa_ID q <> pa_ID q'
  end.
Proof.
  revert found. induction panes as [|x panes IH]; intros found Hf; simpl.
  - destruct found as [q|]; [split_and!; [done|by left|by intros q' ?%elem_of_nil]|split; [done|by intros q ?%elem_of_nil]].
  - destruct (bool_decide (pa_AdPane x = token)) eqn:Ex; simpl;
      [apply bool_decide_eq_true in Ex|apply bool_decide_eq_false in Ex].
    + destruct found as [q|].
      * destruct (bool_decide (pa_ID x = pa_ID q)) eqn:Ei; simpl;
          [apply bool_decide_eq_true in Ei|apply bool_decide_eq_false in Ei; exists q, x; set_solver].
        specialize (IH (Some q) Hf). destruct (paneFrom token (Some q) panes) as [p []].
        -- by destruct IH as [? _].
        -- destruct IH as (H1 & [[= <-]|[? _]] & H3); [|done]. split_and!; [done|by left|].
           intros q' [->|?]%elem_of_cons ?; auto.
        -- destruct IH as (a & b & Ha & Hb & ? & ? & ?). exists a, b. rewrite !elem_of_cons. tauto.
      * specialize (IH (Some x) Ex). destruct (paneFrom token (Some x) panes) as [p []].
        -- by destruct IH as [? _].
        -- destruct IH as (H1 & [[= <-]|[? _]] & H3); [|done]. split_and!; [done|right; split; [done|by left]|].
           intros q' [->|?]%elem_of_cons ?; auto.
        -- destruct IH as (a & b & Ha & Hb & ? & ? & ?). exists a, b. rewrite !elem_of_cons.
           destruct Ha as [[= <-]|?]; tauto.
    + specialize (IH found Hf). destruct (paneFrom token found panes) as [p []].
      * destruct IH as [? H]. split; [done|]. intros q [->|?]%elem_of_cons; auto.
      * destruct IH as (H1 & H2 & H3). split_and!; [done|rewrite elem_of_cons; tauto|].
        intros q [->|?]%elem_of_cons ?; [done|auto].
      * destruct IH as (a & b & Ha & Hb & ? & ? & ?). exists a, b. rewrite !elem_of_cons. tauto.
Qed.

(** The pane of a launch is named only when it is the only one: exactly one
    pane id of the listing carries the launch's token, and that pane is the
    one returned. *)
Theorem pane_by_token_is_the_only_one (panes : list Pane) (token : string) (p : Pane) :
  PaneByToken panes token = (p, PaneOne) ->
  token <> "" /\ p ∈ panes /\ pa_AdPane p = token /\ forall q, q ∈ panes -> pa_AdPane q = token -> pa_ID q = pa_ID p.
Proof.
  unfold PaneByToken. case_bool_decide; [done|]. pose proof (paneFrom_spec token None panes I) as H0.
  intros E. rewrite E in H0. destruct H0 as (H1 & [?|[_ H2]] & H3); [done|]. by split_and!.
Qed.

Lemma pane_by_token_is_the_only_one_witness :
  let p := mkPane "$1" 0 1 "%1" 4343 "00000000000000aa" in
  PaneByToken [mkPane "$1" 0 0 "%0" 4242 ""; p] "00000000000000aa" = (p, PaneOne) /\ pa_AdPane p = "00000000000000aa".
Proof.
  set (p := mkPane "$1" 0 1 "%1" 4343 "00000000000000aa").
  assert (PaneByToken [mkPane "$1" 0 0 "%0" 4242 ""; p] "00000000000000aa" = (p, PaneOne)) as E by (by vm_compute).
  split; [exact E|].
  apply (pane_by_token_is_the_only_one [mkPane "$1" 0 0 "%0" 4242 ""; p] "00000000000000aa" p E).
Defined.
