(* ===== verification/Sweep.v ===== *)
(** * One run's tmux calls (internal/tmux/sweep.go, pkg/api/sweep_socket.go)

    A sweep makes at most one lookup and one pane listing per socket, stops a
    socket whose answer cannot be used, and stops altogether once its calls
    have taken the run's budget ([Lookup], [ListPanes]).

    What tmux answers and how long each call takes by the caller's clock are
    the [SweepEnv]; the calls made are kept in the state ([sw_calls]). Time is
    an int64 of nanoseconds. *)

From S2P Require Import Prelude Sql Rows Bytes Process Tmux.

Inductive TmuxCall := CallLookup (socket : string) | CallListPanes (socket : string).
#[export] Instance TmuxCall_eq_dec : EqDecision TmuxCall.
Proof. solve_decision. Defined.

Definition callSocket (c : TmuxCall) : string := match c with CallLookup k | CallListPanes k => k end.

(** [sk_lookup]: the lookup's outcome, once it returned within the budget;
    [sk_panes] likewise. *)
Record sweepSocket := mkSweepSocket {
  sk_stopped : bool;
  sk_lookup : option (CallErr + LookupAnswer);
  sk_panes : option (CallErr + list Pane);
}.
Definition newSocket : sweepSocket := mkSweepSocket false None None.

Record Sweep := mkSweep {
  sw_spent : Z;
  sw_sockets : gmap string sweepSocket;
  sw_calls : list TmuxCall;          (* the calls made so far, in order *)
}.
Definition NewSweep : Sweep := mkSweep 0 ∅ [].

Record SweepEnv := mkSweepEnv {
  sv_Budget : Z;
  sv_Elapsed : nat -> Z;             (* the clock's difference around the nth call *)
  sv_Lookup : string -> CallErr + LookupAnswer;
  sv_ListPanes : string -> CallErr + list Pane;
}.

Section Sweep.
Context (env : SweepEnv).

Definition socketOf (s : Sweep) (socket : string) : sweepSocket := default newSocket (sw_sockets s !! socket).
Definition withSocket (socket : string) (k : sweepSocket) (s : Sweep) : Sweep :=
  mkSweep (sw_spent s) (<[socket := k]> (sw_sockets s)) (sw_calls s).

(** Whether the run may still use the socket. *)
Definition open (s : Sweep) (k : sweepSocket) : bool := (sw_spent s <? sv_Budget env) && negb (sk_stopped k).

(** One call: its time is charged, floored at zero; whether the budget is
    still not spent after it. *)
Definition timed (call : TmuxCall) (s : Sweep) : bool * Sweep :=
  let d := sv_Elapsed env (length (sw_calls s)) in
  let spent := if 0 <? d then wrap64 (sw_spent s + d) else sw_spent s in
  (spent <? sv_Budget env, mkSweep spent (sw_sockets s) (sw_calls s ++ [call])).

Definition stopOn (r : Result) (k : sweepSocket) : sweepSocket :=
  if StopsSocket r then mkSweepSocket true (sk_lookup k) (sk_panes k) else k.

Definition Lookup (row : Launch) (start : Z -> StartAnswer) (holderName : string) (s : Sweep) : Result * Sweep :=
  let socket := ln_Socket row in
  let k := socketOf s socket in
  let from k call s :=
    let r := resultForCall row start call holderName in
    (r, withSocket socket (stopOn r k) s) in
  if negb (open s k) then (skippedResult, s)
  else match sk_lookup k with
       | Some call => from k call s
       | None =>
           let '(within, s) := timed (CallLookup socket) s in
           if negb within then (skippedResult, s)
           else
             let call := sv_Lookup env socket in
             from (mkSweepSocket (sk_stopped k) (Some call) (sk_panes k)) call s
       end.

(** The listing, or what its failure means for the row. *)
Definition ListPanes (row : Launch) (start : Z -> StartAnswer) (s : Sweep) : (Result + list Pane) * Sweep :=
  let socket := ln_Socket row in
  let k := socketOf s socket in
  let from k (listed : CallErr + list Pane) s :=
    match listed with
    | inr panes => (inr panes, withSocket socket k s)
    | inl err =>
        let r := resultForFailure row start err in
        (inl r, withSocket socket (stopOn r k) s)
    end in
  if negb (open s k) then (inl skippedResult, s)
  else match sk_panes k with
       | Some listed => from k listed s
       | None =>
           let '(within, s) := timed (CallListPanes socket) s in
           if negb within then (inl skippedResult, s)
           else
             let listed := sv_ListPanes env socket in
             from (mkSweepSocket (sk_stopped k) (sk_lookup k) (Some listed)) listed s
       end.
End Sweep.

(** ** A run's sockets (sweep_socket.go) *)

(** [caller] is the caller's socket, [None] when its resolution is refused;
    the state is whether a row has been given that refusal. *)
Definition forRow (caller : option string) (refused : bool) (recorded : string) : (Result + string) * bool :=
  if negb (bool_decide (recorded = "")) then (inr recorded, refused)
  else match caller with
       | Some socket => (inr socket, refused)
       | None =>
           if refused then (inl skippedResult, refused)
           else (inl (failed CantTell CantTellUnavailable None), true)
       end.
