(* ===== verification/SweepProps.v ===== *)
(** * Properties of a run's tmux calls

    What a sweep holds of a socket is what tmux answered ([sweep_ok]); the
    calls it makes and the time they take are bounded whatever rows it
    serves. *)

From S2P Require Import Prelude Sql Rows Bytes Process Tmux Sweep.

(** What a run asks of its sweep. *)
Inductive request :=
  | ReqLookup (row : Launch) (start : Z -> StartAnswer) (holderName : string)
  | ReqListPanes (row : Launch) (start : Z -> StartAnswer).
Definition reqSocket (q : request) : string := match q with ReqLookup row _ _ | ReqListPanes row _ => ln_Socket row end.
(** What the row is told: the result, or none for a listing that answered. *)
Definition serve (env : SweepEnv) (q : request) (s : Sweep) : option Result * Sweep :=
  match q with
  | ReqLookup row start holder => let '(r, s) := Lookup env row start holder s in (Some r, s)
  | ReqListPanes row start =>
      let '(r, s) := ListPanes env row start s in (match r with inl r => Some r | inr _ => None end, s)
  end.
Fixpoint serveAll (env : SweepEnv) (qs : list request) (s : Sweep) : list (option Result) * Sweep :=
  match qs with
  | [] => ([], s)
  | q :: qs => let '(r, s) := serve env q s in let '(rs, s) := serveAll env qs s in (r :: rs, s)
  end.

(** The time the first [n] calls took, none counted below zero. *)
Fixpoint charged (env : SweepEnv) (n : nat) : Z :=
  match n with O => 0 | S n => charged env n + Z.max 0 (sv_Elapsed env n) end.

Section Sweep.
Context (env : SweepEnv).
(** No clock reading makes the sum leave an int64: 2^62 nanoseconds are 146
    years. *)
Definition clock_sane : Prop := sv_Budget env <= 2 ^ 62 /\ forall n, sv_Elapsed env n < 2 ^ 62.

Definition lastUnder (calls : list TmuxCall) : Prop := forall n, (n < length calls)%nat -> charged env n < sv_Budget env.

(** The invariant of a run: its calls are the sockets it holds an outcome of,
    each once of a kind, its spent time is what they took, and none was made
    with the budget spent. A call whose outcome was discarded spent it. *)
Definition sweep_ok (s : Sweep) : Prop :=
  sw_spent s = charged env (length (sw_calls s)) /\
  lastUnder (sw_calls s) /\
  (sw_spent s < sv_Budget env -> forall c, c ∈ sw_calls s ->
    match c with
    | CallLookup k => is_Some (sk_lookup (socketOf s k))
    | CallListPanes k => is_Some (sk_panes (socketOf s k))
    end) /\
  NoDup (sw_calls s).

Lemma charged_nonneg n : 0 <= charged env n.
Proof. induction n; simpl; lia. Qed.

Lemma NewSweep_ok : sweep_ok NewSweep.
Proof. split_and!; simpl; [done|intros n; simpl; lia|by intros _ c ?%elem_of_nil|constructor]. Qed.

Lemma wrap64_id z : - 2 ^ 63 <= z < 2 ^ 63 -> wrap64 z = z.
Proof. intros H. unfold wrap64. rewrite Z.mod_small; lia. Qed.

Lemma timed_ok call s within s' : clock_sane -> sweep_ok s -> sw_spent s < sv_Budget env -> call ∉ sw_calls s ->
  timed env call s = (within, s') ->
  sw_sockets s' = sw_sockets s /\ sw_calls s' = sw_calls s ++ [call] /\
  sw_spent s' = charged env (length (sw_calls s')) /\ lastUnder (sw_calls s') /\ NoDup (sw_calls s') /\
  within = (sw_spent s' <? sv_Budget env).
Proof.
  intros [Hb He] (Hs & Hl & Hk & Hn) Hu Hc. unfold timed. intros [= <- <-].
  set (d := sv_Elapsed env (length (sw_calls s))).
  assert (d < 2 ^ 62) by apply He. pose proof (charged_nonneg (length (sw_calls s))).
  assert ((if 0 <? d then wrap64 (sw_spent s + d) else sw_spent s) = sw_spent s + Z.max 0 d) as Ed.
  { destruct (0 <? d) eqn:E; [rewrite wrap64_id|]; lia. }
  rewrite Ed. simpl. split_and!; try done.
  - rewrite length_app, Nat.add_comm. simpl. fold d. lia.
  - intros n Hn'. rewrite length_app in Hn'. simpl in Hn'.
    destruct (decide (n = length (sw_calls s))) as [->|]; [lia|apply Hl; lia].
  - apply NoDup_app. split_and!; [done|intros x Hx ->%list_elem_of_singleton; done|apply NoDup_singleton].
Qed.

Lemma socketOf_eq socket k s : socketOf (withSocket socket k s) socket = k.
Proof. unfold socketOf, withSocket. simpl. by rewrite lookup_insert_eq. Qed.
Lemma socketOf_ne socket k s socket' : socket <> socket' -> socketOf (withSocket socket k s) socket' = socketOf s socket'.
Proof. intros. unfold socketOf, withSocket. simpl. by rewrite lookup_insert_ne. Qed.

Definition held (s : Sweep) (c : TmuxCall) : Prop :=
  match c with
  | CallLookup k => is_Some (sk_lookup (socketOf s k))
  | CallListPanes k => is_Some (sk_panes (socketOf s k))
  end.

Lemma held_with s socket k c : held s c ->
  (is_Some (sk_lookup (socketOf s socket)) -> is_Some (sk_lookup k)) ->
  (is_Some (sk_panes (socketOf s socket)) -> is_Some (sk_panes k)) -> held (withSocket socket k s) c.
Proof.
  destruct c as [k'|k']; simpl; intros H H1 H2;
    (destruct (decide (socket = k')) as [<-|]; [rewrite socketOf_eq|rewrite socketOf_ne by done]; auto).
Qed.

Lemma stopOn_holds r k : sk_lookup (stopOn r k) = sk_lookup k /\ sk_panes (stopOn r k) = sk_panes k.
Proof. unfold stopOn. by destruct (StopsSocket r). Qed.
Lemma stopOn_stopped r k : sk_stopped (stopOn r k) = StopsSocket r || sk_stopped k.
Proof. unfold stopOn. by destruct (StopsSocket r). Qed.

(** What one request leaves. *)
Definition served (socket : string) (s : Sweep) (r : option Result) (s' : Sweep) : Prop :=
  sweep_ok s' /\
  (exists new, sw_calls s' = sw_calls s ++ new /\ Forall (fun c => callSocket c = socket) new) /\
  (open env s (socketOf s socket) = false -> r = Some skippedResult /\ s' = s) /\
  (forall k, sk_stopped (socketOf s k) = true -> sk_stopped (socketOf s' k) = true) /\
  (forall res, r = Some res -> StopsSocket res = true -> sk_stopped (socketOf s' socket) = true).

(** An answer the sweep holds. *)
Lemma served_held socket s r k' : sweep_ok s -> open env s (socketOf s socket) = true ->
  (is_Some (sk_lookup (socketOf s socket)) -> is_Some (sk_lookup k')) ->
  (is_Some (sk_panes (socketOf s socket)) -> is_Some (sk_panes k')) ->
  (sk_stopped (socketOf s socket) = true -> sk_stopped k' = true) ->
  (forall res, r = Some res -> StopsSocket res = true -> sk_stopped k' = true) ->
  served socket s r (withSocket socket k' s).
Proof.
  intros (H1 & H2 & H3 & H4) Ho Hl Hp Hs Hr. split_and!.
  - split_and!; [done..| |done]. intros Hb c Hc. by apply held_with; [apply H3|..].
  - exists []. by rewrite app_nil_r.
  - by rewrite Ho.
  - intros k. destruct (decide (socket = k)) as [<-|]; [by rewrite socketOf_eq|by rewrite socketOf_ne].
  - rewrite socketOf_eq. done.
Qed.

Lemma open_under s k : open env s k = true -> sw_spent s < sv_Budget env /\ sk_stopped k = false.
Proof. unfold open. intros [? ?%negb_true_iff]%andb_true_iff. split; [lia|done]. Qed.

(** A call that returns with the budget spent, and one within it. *)
Lemma served_new call s within s1 : clock_sane -> sweep_ok s ->
  open env s (socketOf s (callSocket call)) = true -> ~ held s call ->
  timed env call s = (within, s1) ->
  let socket := callSocket call in
  (within = false -> served socket s (Some skippedResult) s1) /\
  (forall r k', held (withSocket socket k' s1) call ->
   (is_Some (sk_lookup (socketOf s socket)) -> is_Some (sk_lookup k')) ->
   (is_Some (sk_panes (socketOf s socket)) -> is_Some (sk_panes k')) ->
   (forall res, r = Some res -> StopsSocket res = true -> sk_stopped k' = true) ->
   served socket s r (withSocket socket k' s1)).
Proof.
  intros Hc Hok Ho Hn Ht. cbv zeta. pose proof (open_under _ _ Ho) as [Hu Hst].
  assert (call ∉ sw_calls s) as Hni by (intros Hin; destruct Hok as (_ & _ & H3 & _); by apply Hn, H3).
  destruct (timed_ok _ _ _ _ Hc Hok Hu Hni Ht) as (E1 & E2 & E3 & E4 & E5 & E6).
  assert (forall k, socketOf s1 k = socketOf s k) as Es by (intros k; unfold socketOf; by rewrite E1).
  destruct Hok as (_ & _ & H3 & _). split.
  - intros ->. split_and!.
    + split_and!; [done..| |done]. intros Hb. by apply Z.ltb_lt in Hb; rewrite Hb in E6.
    + exists [call]. split; [done|by repeat constructor].
    + by rewrite Ho.
    + intros k. by rewrite Es.
    + by intros res [= <-].
  - intros r k' Hh Hl Hp Hr. split_and!.
    + split_and!; [done..| |done]. intros Hb c Hin. simpl in Hin. rewrite E2 in Hin.
      apply elem_of_app in Hin as [Hin| ->%list_elem_of_singleton]; [|done].
      apply held_with; rewrite ?Es; [|done..]. specialize (H3 Hu c Hin). destruct c; simpl; by rewrite Es.
    + exists [call]. split; [done|by repeat constructor].
    + by rewrite Ho.
    + intros k. destruct (decide (callSocket call = k)) as [<-|]; [by rewrite Hst|by rewrite socketOf_ne, Es].
    + rewrite socketOf_eq. done.
Qed.

#[local] Opaque timed.
Lemma served_closed socket s : sweep_ok s -> open env s (socketOf s socket) = false -> served socket s (Some skippedResult) s.
Proof.
  intros Hok Ho. split_and!; [done|exists []; by rewrite app_nil_r|done|done|by intros res [= <-]].
Qed.

Lemma serve_served q s r s' : clock_sane -> sweep_ok s -> serve env q s = (r, s') -> served (reqSocket q) s r s'.
Proof.
  intros Hc Hok. destruct q as [row start holder|row start]; simpl.
  - unfold Lookup. destruct (open env s (socketOf s (ln_Socket row))) eqn:Ho; simpl;
      [|intros [= <- <-]; by apply served_closed].
    destruct (sk_lookup (socketOf s (ln_Socket row))) as [call|] eqn:Ek.
    + intros [= <- <-]. apply served_held; try done; try (rewrite ?(proj1 (stopOn_holds _ _)), ?(proj2 (stopOn_holds _ _)); done).
      * intros Hst. by rewrite stopOn_stopped, Hst, orb_true_r.
      * intros res [= <-] Hs. by rewrite stopOn_stopped, Hs.
    + destruct (timed env (CallLookup (ln_Socket row)) s) as [within s1] eqn:Et.
      edestruct (served_new (CallLookup (ln_Socket row)) s within s1) as [Hf Ht]; try done.
      { simpl. rewrite Ek. by intros [? ?]. }
      destruct within; simpl; intros [= <- <-]; [|by apply Hf].
      apply Ht; simpl; rewrite ?socketOf_eq, ?(proj1 (stopOn_holds _ _)), ?(proj2 (stopOn_holds _ _)); simpl; eauto.
      intros res [= <-] Hs. by rewrite stopOn_stopped, Hs.
  - unfold ListPanes. destruct (open env s (socketOf s (ln_Socket row))) eqn:Ho; simpl;
      [|intros [= <- <-]; by apply served_closed].
    destruct (sk_panes (socketOf s (ln_Socket row))) as [[err|panes]|] eqn:Ek.
    + intros [= <- <-]. apply served_held; try done; try (rewrite ?(proj1 (stopOn_holds _ _)), ?(proj2 (stopOn_holds _ _)); done).
      * intros Hst. by rewrite stopOn_stopped, Hst, orb_true_r.
      * intros res [= <-] Hs. by rewrite stopOn_stopped, Hs.
    + intros [= <- <-]. by apply served_held.
    + destruct (timed env (CallListPanes (ln_Socket row)) s) as [within s1] eqn:Et.
      edestruct (served_new (CallListPanes (ln_Socket row)) s within s1) as [Hf Ht]; try done.
      { simpl. rewrite Ek. by intros [? ?]. }
      destruct within; simpl; [|intros [= <- <-]; by apply Hf].
      destruct (sv_ListPanes env (ln_Socket row)) as [err|panes]; intros [= <- <-];
        apply Ht; simpl; rewrite ?socketOf_eq, ?(proj1 (stopOn_holds _ _)), ?(proj2 (stopOn_holds _ _)); simpl; eauto; try done.
      intros res [= <-] Hs. by rewrite stopOn_stopped, Hs.
Qed.
End Sweep.

Section Runs.
Context (env : SweepEnv).

Lemma serveAll_ok qs s rs s' : clock_sane env -> sweep_ok env s -> serveAll env qs s = (rs, s') -> sweep_ok env s'.
Proof.
  intros Hc. revert s rs. induction qs as [|q qs IH]; intros s rs Hok; simpl; [by intros [= _ <-]|].
  destruct (serve env q s) as [r s1] eqn:E1. destruct (serveAll env qs s1) as [rs1 s2] eqn:E2. intros [= _ <-].
  eapply IH; [|done]. eapply (proj1 (serve_served env _ _ _ _ Hc Hok E1)).
Qed.

Lemma serveAll_stopped socket qs s rs s' : clock_sane env -> sweep_ok env s ->
  sk_stopped (socketOf s socket) = true -> serveAll env qs s = (rs, s') ->
  (forall i q, qs !! i = Some q -> reqSocket q = socket -> rs !! i = Some (Some skippedResult)) /\
  exists new, sw_calls s' = sw_calls s ++ new /\ Forall (fun c => callSocket c <> socket) new.
Proof.
  intros Hc. revert s rs. induction qs as [|q qs IH]; intros s rs Hok Hst; simpl.
  { intros [= <- <-]. split; [done|]. exists []. by rewrite app_nil_r. }
  destruct (serve env q s) as [r s1] eqn:E1. destruct (serveAll env qs s1) as [rs1 s2] eqn:E2. intros [= <- <-].
  destruct (serve_served env _ _ _ _ Hc Hok E1) as (Hok1 & (new & En & Hn) & Hcl & Hk & _).
  destruct (IH _ _ Hok1 (Hk _ Hst) E2) as (Hrs & new2 & En2 & Hn2).
  assert (reqSocket q = socket -> r = Some skippedResult /\ s1 = s) as Hq.
  { intros <-. apply Hcl. unfold open. by rewrite Hst, andb_false_r. }
  split.
  - intros [|i] q' Hi Hs; simpl in *; [|by eapply Hrs]. injection Hi as <-. by rewrite (proj1 (Hq Hs)).
  - exists (new ++ new2). split; [by rewrite En2, En, app_assoc|]. apply Forall_app. split; [|done].
    destruct (decide (reqSocket q = socket)) as [Hs|Hs].
    + rewrite (proj2 (Hq Hs)) in En. rewrite <-(app_nil_r (sw_calls s)) in En at 1. apply app_inv_head in En. by subst.
    + eapply Forall_impl; [exact Hn|]. by intros c ->.
Qed.
End Runs.

(** ** What a lookup of a run answers *)

(** Every outcome the sweep holds is what tmux answered of the socket. *)
Definition answers_ok (env : SweepEnv) (s : Sweep) : Prop :=
  forall k call, sk_lookup (socketOf s k) = Some call -> call = sv_Lookup env k.

Lemma NewSweep_answers env : answers_ok env NewSweep.
Proof. by intros k call. Qed.

Lemma with_answers env socket k s : answers_ok env s ->
  (forall call, sk_lookup k = Some call -> call = sv_Lookup env socket) -> answers_ok env (withSocket socket k s).
Proof.
  intros Hs Hk j call. destruct (decide (socket = j)) as [<-|]; [rewrite socketOf_eq; apply Hk|rewrite socketOf_ne by done; apply Hs].
Qed.

(** A lookup that was made, now or for an earlier row, is judged by what tmux
    answered of the socket. *)
Lemma Lookup_answers env row start holder s r s' : answers_ok env s -> Lookup env row start holder s = (r, s') ->
  answers_ok env s' /\ (rs_Skipped r = false -> r = resultForCall row start (sv_Lookup env (ln_Socket row)) holder).
Proof.
  intros Hs. unfold Lookup. destruct (negb (open env s _)); [intros [= <- <-]; split; [done|by intros [=]]|].
  destruct (sk_lookup (socketOf s (ln_Socket row))) as [call|] eqn:E.
  - intros [= <- <-]. rewrite (Hs _ _ E). split; [|done]. apply with_answers; [done|].
    intros c. rewrite (proj1 (stopOn_holds _ _)), E. intros [= <-]. by apply Hs.
  - destruct (timed env (CallLookup (ln_Socket row)) s) as [within s1] eqn:Et.
    assert (answers_ok env s1) as Hs1 by (unfold timed in Et; injection Et as _ <-; exact Hs).
    destruct within; simpl; intros [= <- <-]; [|split; [done|by intros [=]]]. split; [|done].
    apply with_answers; [done|]. intros c. rewrite (proj1 (stopOn_holds _ _)). simpl. by intros [= <-].
Qed.

(** Likewise of the pane listings it holds. *)
Definition panes_ok (env : SweepEnv) (s : Sweep) : Prop :=
  forall k listed, sk_panes (socketOf s k) = Some listed -> listed = sv_ListPanes env k.

Lemma NewSweep_panes env : panes_ok env NewSweep.
Proof. by intros k listed. Qed.

Lemma with_panes env socket k s : panes_ok env s ->
  (forall listed, sk_panes k = Some listed -> listed = sv_ListPanes env socket) -> panes_ok env (withSocket socket k s).
Proof.
  intros Hs Hk j l. destruct (decide (socket = j)) as [<-|]; [rewrite socketOf_eq; apply Hk|rewrite socketOf_ne by done; apply Hs].
Qed.

Lemma timed_holds env call s within s1 : timed env call s = (within, s1) ->
  (answers_ok env s -> answers_ok env s1) /\ (panes_ok env s -> panes_ok env s1).
Proof. unfold timed. intros [= _ <-]. by split. Qed.

Lemma Lookup_panes env row start holder s r s' : panes_ok env s -> Lookup env row start holder s = (r, s') -> panes_ok env s'.
Proof.
  intros Hs. unfold Lookup. destruct (negb (open env s _)); [by intros [= _ <-]|].
  destruct (sk_lookup (socketOf s (ln_Socket row))) as [call|].
  - intros [= _ <-]. apply with_panes; [done|]. intros l. rewrite (proj2 (stopOn_holds _ _)). apply Hs.
  - destruct (timed env (CallLookup (ln_Socket row)) s) as [within s1] eqn:Et.
    pose proof (proj2 (timed_holds _ _ _ _ _ Et) Hs) as Hs1.
    destruct within; simpl; intros [= _ <-]; [|done]. apply with_panes; [done|]. intros l.
    rewrite (proj2 (stopOn_holds _ _)). simpl. apply Hs.
Qed.

(** A listing that was read, now or for an earlier row, is what tmux answered
    of the socket. *)
Lemma ListPanes_answers env row start s r s' : answers_ok env s -> panes_ok env s -> ListPanes env row start s = (r, s') ->
  answers_ok env s' /\ panes_ok env s' /\ forall panes, r = inr panes -> sv_ListPanes env (ln_Socket row) = inr panes.
Proof.
  intros Ha Hs. unfold ListPanes. destruct (negb (open env s _)); [intros [= <- <-]; by split_and!|].
  destruct (sk_panes (socketOf s (ln_Socket row))) as [listed|] eqn:E.
  - pose proof (Hs _ _ E) as El. destruct listed as [err|panes]; intros [= <- <-]; split_and!;
      try (apply with_answers; [done|intros c; rewrite ?(proj1 (stopOn_holds _ _)); apply Ha]);
      try (apply with_panes; [done|intros l; rewrite ?(proj2 (stopOn_holds _ _)); apply Hs]); [done|].
    intros ps [= <-]. done.
  - destruct (timed env (CallListPanes (ln_Socket row)) s) as [within s1] eqn:Et.
    destruct (timed_holds _ _ _ _ _ Et) as [Ha1 Hs1]. specialize (Ha1 Ha). specialize (Hs1 Hs).
    destruct within; simpl; [|intros [= <- <-]; by split_and!].
    destruct (sv_ListPanes env (ln_Socket row)) as [err|panes] eqn:El; intros [= <- <-]; split_and!;
      try (apply with_answers; [done|intros c; rewrite ?(proj1 (stopOn_holds _ _)); simpl; apply Ha]);
      try (apply with_panes; [done|intros l; rewrite ?(proj2 (stopOn_holds _ _)); simpl; by intros [= <-]]); [done|].
    intros ps [= <-]. done.
Qed.

(** C35: Whatever rows a run serves, it calls tmux at most once of a kind per
    socket, and never once its calls have taken the budget: it spends less
    than the budget before its last call. A run without a budget calls
    nothing. *)
Theorem sweep_calls_bounded (env : SweepEnv) (qs : list request) :
  clock_sane env ->
  let s := snd (serveAll env qs NewSweep) in
  NoDup (sw_calls s) /\ sw_spent s = charged env (length (sw_calls s)) /\
  (forall n, (n < length (sw_calls s))%nat -> charged env n < sv_Budget env) /\
  (sv_Budget env <= 0 -> sw_calls s = []).
Proof.
  intros Hc. destruct (serveAll env qs NewSweep) as [rs s] eqn:E. simpl.
  destruct (serveAll_ok env qs NewSweep rs s Hc (NewSweep_ok env) E) as (H1 & H2 & _ & H4).
  split_and!; [done..|]. intros Hb. destruct (sw_calls s) as [|c l]; [done|].
  specialize (H2 0%nat). simpl in H2. lia.
Qed.

(** After an answer that cannot be used, the socket is left alone: every
    later row of it is told that no call was made, and none is, while the
    other sockets keep theirs. *)
Theorem stopped_socket_is_left_alone (env : SweepEnv) (before after : list request) (q : request) (r : Result) s :
  clock_sane env -> serve env q (snd (serveAll env before NewSweep)) = (Some r, s) -> StopsSocket r = true ->
  let '(rs, s') := serveAll env after s in
  (forall i q', after !! i = Some q' -> reqSocket q' = reqSocket q -> rs !! i = Some (Some skippedResult)) /\
  exists new, sw_calls s' = sw_calls s ++ new /\ Forall (fun c => callSocket c <> reqSocket q) new.
Proof.
  intros Hc Hq Hr. destruct (serveAll env before NewSweep) as [rs0 s0] eqn:E0.
  assert (sweep_ok env s0) as Hok by (by eapply serveAll_ok; [|apply NewSweep_ok|]).
  destruct (serve_served env _ _ _ _ Hc Hok Hq) as (Hok1 & _ & _ & _ & Hst).
  destruct (serveAll env after s) as [rs s'] eqn:E. eapply serveAll_stopped; [done..| |done]. by eapply Hst.
Qed.

(** Two sockets, one of which does not answer in a form that can be read. *)
Definition sampleLaunchRow (socket : string) : Launch := mkLaunch "inst-1" "00000000000000aa" "00000000000000ff" socket 0 0 "".
Definition unread : Z -> StartAnswer := fun _ => mkStartAnswer "" false false.
Definition sampleSweepEnv : SweepEnv :=
  mkSweepEnv (15 * 10 ^ 9) (fun _ => 10 ^ 9)
    (fun k => if bool_decide (k = "/tmp/a") then inl OtherError else inr (mkAnswer [] 4242 99 false)) (fun _ => inl OtherError).
Definition ask (socket : string) : request := ReqLookup (sampleLaunchRow socket) unread "work".

Lemma sample_clock_sane : clock_sane sampleSweepEnv.
Proof. split; [done|]. intros n. simpl. lia. Qed.

Lemma sweep_calls_bounded_witness :
  clock_sane sampleSweepEnv /\
  sw_calls (snd (serveAll sampleSweepEnv [ask "/tmp/a"; ask "/tmp/b"; ask "/tmp/a"; ask "/tmp/b"] NewSweep))
  = [CallLookup "/tmp/a"; CallLookup "/tmp/b"] /\
  NoDup (sw_calls (snd (serveAll sampleSweepEnv [ask "/tmp/a"; ask "/tmp/b"; ask "/tmp/a"; ask "/tmp/b"] NewSweep))).
Proof.
  split_and!; [apply sample_clock_sane|by vm_compute|].
  apply (sweep_calls_bounded sampleSweepEnv _ sample_clock_sane).
Defined.

Lemma stopped_socket_is_left_alone_witness :
  let s := snd (serve sampleSweepEnv (ask "/tmp/a") NewSweep) in
  serve sampleSweepEnv (ask "/tmp/a") NewSweep = (Some (failed CantTell CantTellUnreadable None), s) /\
  let '(rs, s') := serveAll sampleSweepEnv [ask "/tmp/b"; ask "/tmp/a"] s in rs !! 1%nat = Some (Some skippedResult).
Proof.
  assert (serve sampleSweepEnv (ask "/tmp/a") (snd (serveAll sampleSweepEnv [] NewSweep))
    = (Some (failed CantTell CantTellUnreadable None), snd (serve sampleSweepEnv (ask "/tmp/a") NewSweep))) as E
    by (by vm_compute).
  split; [exact E|].
  pose proof (stopped_socket_is_left_alone sampleSweepEnv [] [ask "/tmp/b"; ask "/tmp/a"] (ask "/tmp/a") _ _
    sample_clock_sane E eq_refl) as H.
  destruct (serveAll _ _ _). by apply (proj1 H 1%nat (ask "/tmp/a")).
Defined.
