(* ===== verification/Delivery.v ===== *)
(** * The delivery of a relayed verdict (pkg/api: relay_delivery.go,
      deliverability.go)

    What a reader of permission requests says of each: whether its relay hook
    still runs ([process]), whether its verdict was delivered ([deliveryOf]),
    when the agent's record stopped awaiting an answer ([unprovenSince]); the
    check-before-read rule by which a reader judges a hook before the record
    it rests on ([readOneJudged], [readManyJudged]); and the time-based
    boundaries of a request recorded before schema v7.

    A reader's clock, its pid namespace and what it reads of a process are the
    view ([RelayView]), indexed by the point of the call that reads it.
    Instants are nanoseconds. *)

From S2P Require Import Prelude Sql Rows Requests Settle Family Display History Steps Gate HookWrites RelayWrites HookEnv Payload Classify RelayHook Lifecycle CursorWrites Process.

(** A stored instant in nanoseconds; the zero time is one too. *)
Definition nsOf (t : goTime) : Z := default zeroTimeMillis t * nsPerMs.

Definition nullableString (s : string) : option string := nullif_empty s.
Definition nullableTime (t : goTime) : option goTime := if IsZero t then None else Some t.

(** ** The view *)

(** [rv_StartTime k rid pid] is what the reader answers at point [k] of the
    call, for the request [rid], of [pid]; [None] is no reader. [rv_NS] is the
    caller's own pid namespace, [None] when it is not known. *)
Record RelayView := mkRelayView {
  rv_StartTime : option (nat -> Z -> Z -> StartAnswer);
  rv_NS : option string;
  rv_Now : nat -> Z;
  rv_Window : Z;
}.

Inductive hookVerdict := hookCantTell | hookAlive | hookGone.
#[export] Instance hookVerdict_eq_dec : EqDecision hookVerdict.
Proof. solve_decision. Defined.

(** *** Time-based boundaries (deliverability.go) *)

Definition RelayKillSafetyMargin : Z := 1 * second.
Definition createdAtResolution : Z := 1 * second.

Definition RelayDeliverabilityCutoff (now window : Z) : Z := now + wrap64 (- wrap64 (window - RelayKillSafetyMargin)).
Definition RelayRequestUndeliverable (createdAt window now : Z) : bool :=
  negb (RelayDeliverabilityCutoff now window <? createdAt).
Definition relayGuardHold (window : Z) : Z := wrap64 (wrap64 (window + RelayKillSafetyMargin) + createdAtResolution).
Definition relayHookSettledAt (createdAt window : Z) : Z := createdAt + relayGuardHold window.
Definition relayRequestFallenBack (pr : PermissionRow) (window now : Z) : bool :=
  bool_decide (pw_Decision pr = "") && negb (now <? relayHookSettledAt (nsOf (pw_CreatedAt pr)) window).

(** ** Delivery facts *)

Definition DeliveryDelivered : string := "delivered".
Definition DeliveryNotConfirmed : string := "not_confirmed".
Definition DeliveryFallenBack : string := "fallen_back".

Record RequestDelivery := mkDelivery {
  dl_Observation : FallbackObservation;
  dl_Request : PermissionRow;
  dl_Delivery : string;
  dl_ConfirmBy : Z;
  dl_HookAlive : option bool;
  dl_HookGoneAt : option goTime;
  dl_AttemptedDecision : option string;
  dl_AttemptedAt : option goTime;
  dl_ToolUseID : option string;
  dl_PaneAnswer : string;
  dl_PaneAs : option string;
  dl_ProvenGoneAt : option goTime;
  dl_ProvenGoneHow : option string;
  dl_UnprovenSince : option goTime;
}.
#[export] Instance eta_Delivery : Eta RequestDelivery := fun d => mkDelivery
  (dl_Observation d) (dl_Request d) (dl_Delivery d) (dl_ConfirmBy d) (dl_HookAlive d) (dl_HookGoneAt d)
  (dl_AttemptedDecision d) (dl_AttemptedAt d) (dl_ToolUseID d) (dl_PaneAnswer d) (dl_PaneAs d) (dl_ProvenGoneAt d)
  (dl_ProvenGoneHow d) (dl_UnprovenSince d).
#[export] Instance set_dl_Delivery : Setter dl_Delivery. Proof. solve_setter. Defined.
#[export] Instance set_dl_HookGoneAt : Setter dl_HookGoneAt. Proof. solve_setter. Defined.

Definition deliveryOf (pr : PermissionRow) (v : hookVerdict) (settled : bool) : string :=
  if negb (IsZero (pw_DeliveredAt pr)) then DeliveryDelivered
  else if PaneAnswered pr then DeliveryFallenBack
  else if PreV7 pr then
    if negb settled then DeliveryNotConfirmed
    else if negb (bool_decide (pw_Decision pr = "")) && negb (CloseDenied pr) then DeliveryDelivered
    else DeliveryFallenBack
  else match v with
  | hookAlive => DeliveryNotConfirmed
  | hookGone => DeliveryFallenBack
  | hookCantTell => if settled then DeliveryFallenBack else DeliveryNotConfirmed
  end.

Definition unprovenSince (pr : PermissionRow) : goTime :=
  if ProvenGone pr then None
  else if negb (IsZero (pw_DeliveredAt pr)) then pw_DeliveredAt pr
  else if PaneAnswered pr then pw_DecidedAt pr
  else if Closed pr then pw_ClosedAt pr
  else if PreV7 pr && negb (bool_decide (pw_Decision pr = "")) then pw_DecidedAt pr
  else None.

Definition paneAnswerOf (pr : PermissionRow) : string :=
  if bool_decide (pw_PaneAnswer pr = "") then PaneAnswerNone else pw_PaneAnswer pr.

Section Judge.
Context (v : RelayView).

Definition process (k : nat) (rid : Z) (id : ProcessIdentity) : hookVerdict :=
  if (pi_PID id <=? 0) || bool_decide (pi_Starttime id = "") then hookCantTell
  else match rv_StartTime v, rv_NS v with
  | Some start, Some ns =>
      if negb (bool_decide (ns = pi_PIDNamespace id)) then hookCantTell
      else match JudgeProcess (start k rid (pi_PID id)) (pi_PID id) (pi_Starttime id) with
      | ProcAlive => hookAlive
      | ProcGone => hookGone
      | _ => hookCantTell
      end
  | _, _ => hookCantTell
  end.

Definition hook (k : nat) (pr : PermissionRow) : hookVerdict := process k (pw_RequestID pr) (pw_Hook pr).
Definition sender (k : nat) (pr : PermissionRow) : hookVerdict := process k (pw_RequestID pr) (pw_PaneSender pr).

Definition confirmBy (pr : PermissionRow) : Z :=
  if PreV7 pr then relayHookSettledAt (nsOf (pw_CreatedAt pr)) (rv_Window v) else nsOf (pw_SettledAt pr).

Definition delivery (pr : PermissionRow) (verdict : hookVerdict) (now : Z) : RequestDelivery :=
  let by_ := confirmBy pr in
  mkDelivery
    (mkFallback (pw_RequestID pr) (stamped by_) (bool_decide (verdict = hookGone)) (bool_decide (verdict = hookCantTell)))
    pr (deliveryOf pr verdict (negb (now <? by_))) by_
    (match verdict with hookAlive => Some true | hookGone => Some false | hookCantTell => None end)
    (nullableTime (pw_HookGoneAt pr)) (nullableString (pw_AttemptedDecision pr)) (nullableTime (pw_AttemptedAt pr))
    (nullableString (pw_ToolUseID pr)) (paneAnswerOf pr) (nullableString (pw_PaneAs pr))
    (nullableTime (pw_ProvenGoneAt pr)) (nullableString (pw_ProvenGoneHow pr)) (nullableTime (unprovenSince pr)).

(** RelayHookGone, at point [k] and clock point [c]. *)
Definition RelayHookGone (k c : nat) (pr : PermissionRow) : bool :=
  match hook k pr with
  | hookGone => true
  | hookAlive => false
  | hookCantTell => negb (rv_Now v c <? confirmBy pr)
  end.

(** *** Check before read *)

Definition readOneJudged (read : Op PermissionRow) (k : nat) : Op (PermissionRow * hookVerdict) :=
  pr <- read;;
  let verdict := hook k pr in
  pr <- read;;
  ret (pr, verdict).

(** The verdicts of the requests first read, by request id: can't tell for
    any other. *)
Definition verdictsOf (k : nat) (rows : list PermissionRow) (rid : Z) : hookVerdict :=
  match find (fun pr => pw_RequestID pr =? rid) (reverse rows) with Some pr => hook k pr | None => hookCantTell end.

Definition readManyJudged (read : Op (list PermissionRow)) (k : nat) : Op (list PermissionRow * (Z -> hookVerdict)) :=
  first <- read;;
  if bool_decide (first = []) then ret ([], fun _ => hookCantTell)
  else rows <- read;; ret (rows, verdictsOf k first).

(** ** Projections *)

Record PermissionRequestInfo := mkInfo {
  in_RequestID : Z;
  in_RequestToken : string;
  in_ToolName : string;
  in_ToolInput : string;
  in_RequestedAt : goTime;
  in_Decision : option string;
  in_DecisionReason : option string;
  in_Delivery : RequestDelivery;
}.

Definition permissionRequestInfo (pr : PermissionRow) (d : RequestDelivery) : PermissionRequestInfo :=
  mkInfo (pw_RequestID pr) (pw_RequestToken pr) (pw_ToolName pr) (pw_ToolInput pr) (pw_CreatedAt pr)
    (nullableString (pw_Decision pr)) (nullableString (pw_DecisionReason pr)) d.

Definition infoOf (verdicts : Z -> hookVerdict) (now : Z) (pr : PermissionRow) : PermissionRequestInfo :=
  permissionRequestInfo pr (delivery pr (verdicts (pw_RequestID pr)) now).

Definition openRequestInfos (read : Op (list PermissionRow)) (k c : nat) : Op (list PermissionRequestInfo) :=
  r <- readManyJudged read k;;
  ret (infoOf (snd r) (rv_Now v c) <$> fst r).

(** Oldest first: created_at, then the request's id. *)
Definition older (a b : PermissionRow) : Prop :=
  nsOf (pw_CreatedAt a) < nsOf (pw_CreatedAt b) \/
  (nsOf (pw_CreatedAt a) = nsOf (pw_CreatedAt b) /\ pw_RequestID a <= pw_RequestID b).
#[global] Instance older_dec a b : Decision (older a b).
Proof. unfold older. apply _. Defined.
Definition oldestFirst (rows : list PermissionRow) : list PermissionRow := merge_sort older rows.

Definition judgedOpenInfos (rows : list PermissionRow) (verdicts : Z -> hookVerdict) (c : nat) : list PermissionRequestInfo :=
  infoOf verdicts (rv_Now v c) <$> oldestFirst (filter (fun pr => AwaitsAnswer pr = true) rows).

Definition judgedSpawnInfos (rows : list PermissionRow) (verdicts : Z -> hookVerdict) (c : nat) (agent token : string)
    : list PermissionRequestInfo * list PermissionRequestInfo :=
  let prs := oldestFirst rows in
  (infoOf verdicts (rv_Now v c) <$> filter (fun pr => AwaitsAnswer pr = true) prs,
   infoOf verdicts (rv_Now v c) <$> filter (fun pr => HoldsDialog pr agent token = true) prs).

(** ** What a reader records *)

(** addGone: whether the fallback write would store something. *)
Definition addGone (d : RequestDelivery) (agent relayMode : string) (now : Z) : bool :=
  if negb (bool_decide (dl_Delivery d = DeliveryFallenBack)) then false
  else if bool_decide (dl_HookGoneAt d = None) then true
  else if negb (IsZero (pw_FallbackAt (dl_Request d))) then false
  else negb (IsZero (fst (FallbackClock agent relayMode (dl_Request d) (dl_Observation d) (stamped now)))).

Definition goneSlotsOf (infos : list PermissionRequestInfo) (agent relayMode : string) (now : Z) : list PermissionRequestInfo :=
  filter (fun i => addGone (in_Delivery i) agent relayMode now = true) infos.

Definition storedOf (stored : list (Z * goTime)) (rid : Z) : option goTime :=
  snd <$> find (fun p => fst p =? rid) (reverse stored).

(** recordGone through a store that keeps the fallback clock: the slots, with
    what it stored; a write that fails leaves them as read. *)
Definition recordGone (at_ : Z) (slots : list PermissionRequestInfo) : Op (list RequestDelivery) :=
  let facts := in_Delivery <$> slots in
  if bool_decide (facts = []) then ret facts
  else
    catch (RecordPermissionFallbacks (stamped at_) (dl_Observation <$> facts)) (fun r => ret (match r with
      | Err _ => facts
      | Ok stored => (fun d => match storedOf stored (fo_RequestID (dl_Observation d)) with
                               | Some (Some t) => d <| dl_HookGoneAt := Some (Some t) |>
                               | _ => d
                               end) <$> facts
      end)).
End Judge.
