(* ===== verification/Guard.v ===== *)
(** * When input to a Spawn is refused on account of its requests
      (pkg/api: sendkeys_relay.go, record_pane_answer.go, pane_answer.go)

    One judged read of every permission request of a Spawn ([spawnRequests]),
    and the refusals send-keys, pause, record-pane-answer and decide take from
    it: whether a request's relay hook may still answer it, whether it has
    fallen back, whether a pane answer on it is still being sent, whether its
    dialog may still be open ([sendKeysRefusal], [claimRefusal]). *)

From S2P Require Import Prelude Sql Rows Requests Settle Family Display History Steps Gate HookWrites RelayWrites HookEnv Payload Classify RelayHook Lifecycle CursorWrites Process Delivery.

(** ** Errors and their details (errors.go, error_details.go) *)

Record OpenRequestFacts := mkOpenFacts {
  of_RequestToken : string;
  of_ToolName : string;
  of_RequestedAt : goTime;
  of_Delivery : string;
  of_HookAlive : option bool;
  of_PaneAnswer : string;
}.

(** [fb_OpenRequests]: [None] when they could not be read. *)
Record RelayFallenBackDetails := mkFallenBack {
  fb_Request : PermissionRequestInfo;
  fb_State : string;
  fb_OpenRequests : option (list OpenRequestFacts);
}.
Record DialogMaybeOpenDetails := mkMaybeOpen {
  mo_Request : PermissionRequestInfo;
  mo_State : string;
  mo_UnprovenRequests : list PermissionRequestInfo;
}.
Record PaneAnswerInProgressDetails := mkInProgress {
  pg_RequestToken : string;
  pg_PaneAs : string;
  pg_PaneIntentAt : goTime;
  pg_SenderAlive : option bool;
  pg_NotBefore : option Z;
}.
Record ClaimTooSoonDetails := mkTooSoon {
  ts_RequestToken : string;
  ts_HookAlive : option bool;
  ts_HookGoneAt : option goTime;
  ts_NotBefore : option Z;
}.

(** The errors of the verbs; [AStore] is an error of the store as it is. *)
Inductive apiError :=
  | AStore (e : error)
  | AInternal
  | AMissingRequestToken
  | AInvalidDecision
  | AInvalidFlags
  | ARelayModeOff
  | AStoreBusy
  | ANoOpenPermissionRequest
  | AAlreadyDecided
  | ARelayFallenBack (d : RelayFallenBackDetails)
  | ASendKeysWhileRelayed (token : string) (decided : bool)
  | ADialogMaybeOpen (d : DialogMaybeOpenDetails)
  | APaneAnswerInProgress (d : PaneAnswerInProgressDetails)
  | AClaimTooSoon (d : ClaimTooSoonDetails)
  | APaneChanged (nLines : Z) (token : string)
  | ASpawnNotInteractive
  | ASpawnNotPausable
  | APaneKeySent (token : string) (released : bool)   (* an unnamed error, PaneKeySentDetails *)
  | ATmux (name : string).                            (* the tmux phase's error, by its name *)

Definition finishedState (state : string) : bool :=
  bool_decide (state = StateEnded) || bool_decide (state = StateMissing).

(** recordedRefusal (decide.go): a request decided, closed or answered at the
    pane. *)
Definition recordedRefusal (pr : PermissionRow) : apiError :=
  if Closed pr && IsZero (pw_DeliveredAt pr) && negb (bool_decide (pw_DecisionReason pr = DecisionReasonFindMissing))
  then ANoOpenPermissionRequest
  else AAlreadyDecided.

(** ** One judged read of a Spawn's requests *)

Record spawnRequests := mkRequests {
  sr_view : RelayView;
  sr_sp : SpawnRow;
  sr_rows : list PermissionRow;
  sr_verdicts : Z -> hookVerdict;
  sr_now : Z;
  sr_point : nat;                  (* the point at which a pane sender is judged *)
}.

(** newSpawnRequests, at clock point [c]. *)
Definition newSpawnRequests (v : RelayView) (c k : nat) (sp : SpawnRow) (rows : list PermissionRow)
    (verdicts : Z -> hookVerdict) : spawnRequests :=
  mkRequests v sp (oldestFirst rows) verdicts (rv_Now v c) k.

Definition judgedRequests (v : RelayView) (c k : nat) (read : Op (list PermissionRow)) (sp : SpawnRow) : Op spawnRequests :=
  r <- readManyJudged v read k;;
  ret (newSpawnRequests v c (S k) sp (fst r) (snd r)).

Definition lockedRequests (v : RelayView) (c k : nat) (sp : SpawnRow) (rows : list PermissionRow) : spawnRequests :=
  newSpawnRequests v c (S k) sp rows (verdictsOf v k rows).

Definition legacyRequestAgentGone (pr : PermissionRow) : bool :=
  PreV7 pr && negb (bool_decide (pw_Decision pr = "")) && ProvenGone pr
  && bool_decide (pw_ProvenGoneHow pr = ProvenGoneAgentGone).

(** The row's agent, and its launch token as SQL's text or none. *)
Definition agentOf (sp : SpawnRow) : string := coalesce (sp_agent sp) "".
Definition tokenOf (sp : SpawnRow) : string := li_Token (lifeIdentity sp).

Section Judged.
Context (r : spawnRequests).

Definition deliveryFor (pr : PermissionRow) : RequestDelivery :=
  delivery (sr_view r) pr (sr_verdicts r (pw_RequestID pr)) (sr_now r).

Definition rowFinished : bool := finishedState (sp_state (sr_sp r)).
Definition closed (pr : PermissionRow) : bool :=
  rowFinished || Closed pr || PaneAnswered pr || legacyRequestAgentGone pr.
Definition awaits (pr : PermissionRow) : bool := negb rowFinished && AwaitsAnswer pr.

Definition hookMayAnswer (pr : PermissionRow) : bool :=
  if closed pr then false
  else bool_decide (sr_verdicts r (pw_RequestID pr) = hookAlive)
       || bool_decide (dl_Delivery (deliveryFor pr) = DeliveryNotConfirmed).

Definition fallenBack (pr : PermissionRow) : bool :=
  negb (closed pr) && bool_decide (dl_Delivery (deliveryFor pr) = DeliveryFallenBack).

(** liveHolder, [held] the one found so far. *)
Fixpoint liveHolderFrom (held : option PermissionRow) (rows : list PermissionRow) : option PermissionRow :=
  match rows with
  | [] => held
  | pr :: rows =>
      if negb (hookMayAnswer pr) then liveHolderFrom held rows
      else liveHolderFrom (match held with
                           | None => Some pr
                           | Some h => if awaits pr && negb (awaits h) then Some pr else held
                           end) rows
  end.
Definition liveHolder : option PermissionRow := liveHolderFrom None (sr_rows r).

Definition oldestFallenBack : option PermissionRow := find fallenBack (sr_rows r).
Definition unproven : list PermissionRow :=
  filter (fun pr => HoldsDialog pr (agentOf (sr_sp r)) (tokenOf (sr_sp r)) = true) (sr_rows r).
Definition findToken (token : string) : option PermissionRow :=
  find (fun pr => bool_decide (pw_RequestToken pr = token)) (sr_rows r).

Definition openFacts (o : PermissionRow) : OpenRequestFacts :=
  let d := deliveryFor o in
  mkOpenFacts (pw_RequestToken o) (pw_ToolName o) (pw_CreatedAt o) (dl_Delivery d) (dl_HookAlive d) (dl_PaneAnswer d).
Definition fallenBackDetails (pr : PermissionRow) : RelayFallenBackDetails :=
  mkFallenBack (permissionRequestInfo pr (deliveryFor pr)) (sp_state (sr_sp r))
    (Some (openFacts <$> filter (fun o => negb (pw_RequestID o =? pw_RequestID pr) && awaits o = true) (sr_rows r))).

Definition dialogMaybeOpenDetails (first : PermissionRow) (others : list PermissionRow) : DialogMaybeOpenDetails :=
  mkMaybeOpen (permissionRequestInfo first (deliveryFor first)) (sp_state (sr_sp r))
    ((fun pr => permissionRequestInfo pr (deliveryFor pr)) <$> others).

(** ** Refusals *)

Definition relayGuardRefusal (pr : PermissionRow) : apiError :=
  ASendKeysWhileRelayed (pw_RequestToken pr) (negb (bool_decide (pw_Decision pr = ""))).

Definition notFallenBackRefusal (pr : PermissionRow) : option apiError :=
  if fallenBack pr then None
  else if rowFinished then Some ANoOpenPermissionRequest
  else if Closed pr then Some (recordedRefusal pr)
  else if PaneAnswered pr then Some AAlreadyDecided
  else if legacyRequestAgentGone pr then
    Some (if bool_decide (pw_DecisionReason pr = DecisionReasonFindMissing) then AAlreadyDecided else ANoOpenPermissionRequest)
  else if bool_decide (dl_Delivery (deliveryFor pr) = DeliveryDelivered) then Some AAlreadyDecided
  else Some (relayGuardRefusal pr).

(** Whether a pane answer is still being sent, whether its sender runs, and
    until when it counts. *)
Definition paneInProgress (pr : PermissionRow) (hold : Z) : bool * option bool * option Z :=
  if negb (bool_decide (pw_PaneAnswer pr = PaneAnswerIntent)) || IsZero (pw_PaneIntentAt pr) then (false, None, None)
  else match sender (sr_view r) (sr_point r) pr with
  | hookAlive => (true, Some true, None)
  | hookGone => (false, None, None)
  | hookCantTell =>
      let until := nsOf (pw_PaneIntentAt pr) + hold in
      if sr_now r <? until then (true, None, Some until) else (false, None, None)
  end.

Definition inProgressRefusal (pr : PermissionRow) (hold : Z) : option apiError :=
  let '(busy, alive, until) := paneInProgress pr hold in
  if busy then
    Some (APaneAnswerInProgress (mkInProgress (pw_RequestToken pr) (pw_PaneAs pr) (pw_PaneIntentAt pr) alive until))
  else None.

(** The first refusal there is. *)
Definition orElse (a b : option apiError) : option apiError := match a with Some _ => a | None => b end.

(** sendKeysRefusal, of a call with [token] and, when [hashed], an expected
    pane hash. *)
Definition sendKeysRefusal (token : string) (hashed : bool) (hold : Z) : option apiError :=
  match liveHolder with
  | Some pr => Some (relayGuardRefusal pr)
  | None =>
      if bool_decide (token = "") then
        match oldestFallenBack with
        | Some pr => Some (ARelayFallenBack (fallenBackDetails pr))
        | None =>
            match unproven with
            | first :: others => if hashed then None else Some (ADialogMaybeOpen (dialogMaybeOpenDetails first others))
            | [] => None
            end
        end
      else
        match findToken token with
        | None => Some ANoOpenPermissionRequest
        | Some pr => orElse (notFallenBackRefusal pr) (inProgressRefusal pr hold)
        end
  end.

(** *** record-pane-answer *)

Definition paneClaimMinAge : Z := 2 * second.

Definition hookJudgedByTime (pr : PermissionRow) : bool :=
  PreV7 pr || bool_decide (sr_verdicts r (pw_RequestID pr) = hookCantTell).

Definition claimNotBefore (pr : PermissionRow) (d : RequestDelivery) : Z :=
  let goneAt := if IsZero (pw_HookGoneAt pr) then sr_now r else nsOf (pw_HookGoneAt pr) in
  if hookJudgedByTime pr && negb (goneAt <? dl_ConfirmBy d) then dl_ConfirmBy d + paneClaimMinAge
  else goneAt + paneClaimMinAge.

Definition hookMayAnswerNotBefore (d : RequestDelivery) : option Z :=
  if bool_decide (dl_HookAlive d = Some true) then None else Some (dl_ConfirmBy d + paneClaimMinAge).

Definition claimTooSoonError (pr : PermissionRow) (d : RequestDelivery) (notBefore : option Z) : apiError :=
  AClaimTooSoon (mkTooSoon (pw_RequestToken pr) (dl_HookAlive d) (nullableTime (pw_HookGoneAt pr)) notBefore).

Definition claimRefusal (token : string) (hold : Z) : option apiError :=
  match findToken token with
  | None => Some ANoOpenPermissionRequest
  | Some pr =>
      let d := deliveryFor pr in
      if negb (closed pr) && bool_decide (dl_Delivery d = DeliveryNotConfirmed) then
        Some (claimTooSoonError pr d (hookMayAnswerNotBefore d))
      else
        orElse (notFallenBackRefusal pr)
          (orElse (inProgressRefusal pr hold)
             (if sr_now r <? claimNotBefore pr d then Some (claimTooSoonError pr d (Some (claimNotBefore pr d))) else None))
  end.

(** recordFallenBackGone, through a store that records it: the read, with the
    stored instants. *)
Definition goneUnrecorded : list Z :=
  pw_RequestID <$> filter (fun pr => fallenBack pr && IsZero (pw_HookGoneAt pr) = true) (sr_rows r).
End Judged.

#[export] Instance eta_PermissionRow : Eta PermissionRow := fun p => mkPermissionRow
  (pw_RequestID p) (pw_InstanceID p) (pw_RequestToken p) (pw_ToolName p) (pw_ToolInput p) (pw_Decision p)
  (pw_DecisionReason p) (pw_DecidedAt p) (pw_CreatedAt p) (pw_Hook p) (pw_ToolUseID p) (pw_AgentID p)
  (pw_MainTurnEndEligible p) (pw_DeliveredAt p) (pw_SettledAt p) (pw_HookGoneAt p) (pw_AttemptedDecision p)
  (pw_AttemptedAt p) (pw_PaneAnswer p) (pw_PaneAs p) (pw_PaneSender p) (pw_PaneIntentAt p) (pw_ClosedAt p)
  (pw_ProvenGoneAt p) (pw_ProvenGoneHow p) (pw_OwnerLaunchToken p) (pw_OwnerPermissionEpoch p) (pw_AdmittedAt p)
  (pw_FallbackAt p) (pw_FallbackBasis p).
#[export] Instance set_pw_HookGoneAt : Setter pw_HookGoneAt. Proof. solve_setter. Defined.
#[export] Instance set_pw_AttemptedDecision : Setter pw_AttemptedDecision. Proof. solve_setter. Defined.
#[export] Instance set_pw_AttemptedAt : Setter pw_AttemptedAt. Proof. solve_setter. Defined.

Definition withStoredGone (stored : list (Z * goTime)) (pr : PermissionRow) : PermissionRow :=
  match storedOf stored (pw_RequestID pr) with
  | Some (Some t) => pr <| pw_HookGoneAt := Some t |>
  | _ => pr
  end.

Definition recordFallenBackGone (r : spawnRequests) : Op spawnRequests :=
  match goneUnrecorded r with
  | [] => ret r
  | ids =>
      catch (RecordHookGone (stamped (sr_now r)) ids) (fun res => ret (match res with
        | Err _ => r
        | Ok stored => mkRequests (sr_view r) (sr_sp r) (withStoredGone stored <$> sr_rows r) (sr_verdicts r) (sr_now r) (sr_point r)
        end))
  end.
