(* ===== verification/PaneAnswer.v ===== *)
(** * Input to a Spawn's pane (pkg/api: pane_answer.go, sendkeys.go,
      record_pane_answer.go)

    The shape of a send-keys call ([planSendKeys]), the guards every input
    passes ([sendKeysStateGuard], [relayGuard]), a send-keys call over the
    store ([sendKeys]: plain input, or a pane answer that records its intent
    under the write lock, types one key, then records it sent), and
    record-pane-answer ([RecordPaneAnswer]).

    tmux's part of a call (the lookup of the agent's pane, the capture and
    its hash, whether typing failed) is the [PaneTmux] of a call; the clock
    and the process readings are its [RelayView]. A call answers whether it
    typed ([found.Sent]) and an [outcome]. An error a check raised under the
    write lock comes back by its name. *)

From S2P Require Import Prelude Sql Text Bytes Rows Requests Settle Family Display History Steps Gate HookWrites RelayWrites HookEnv Payload Classify RelayHook Lifecycle CursorWrites Process Handler Delivery Guard.

(** ** Outcomes *)

Inductive outcome (A : Type) := Done (a : A) | Refuse (e : apiError).
Arguments Done {A} a.
Arguments Refuse {A} e.

Definition refuse {A} (e : apiError) : Op (outcome A) := ret (Refuse e).
(** A store call whose error is the verb's. *)
Definition stored {A B} (m : Op A) (k : A -> Op (outcome B)) : Op (outcome B) :=
  catch m (fun r => match r with Ok a => k a | Err e => refuse (AStore e) end).
(** A guard. *)
Definition unlessRefused {A} (e : option apiError) (m : Op (outcome A)) : Op (outcome A) :=
  match e with Some e => refuse e | None => m end.

(** ** The names of errors (error_name.go, record_pane_answer.go) *)

Definition errorName (e : apiError) : string :=
  match e with
  | AStore EStoreBusy | AStoreBusy => "ErrStoreBusy"
  | AStore ESpawnNotFound => "ErrSpawnNotFound"
  | AStore (ECheck name) => name
  | AStore _ | AInternal | APaneKeySent _ _ => "ErrInternal"
  | AMissingRequestToken => "ErrMissingRequestToken"
  | AInvalidDecision => "ErrInvalidDecision"
  | AInvalidFlags => "ErrInvalidFlags"
  | ARelayModeOff => "ErrRelayModeOff"
  | ANoOpenPermissionRequest => "ErrNoOpenPermissionRequest"
  | AAlreadyDecided => "ErrAlreadyDecided"
  | ARelayFallenBack _ => "ErrRelayFallenBack"
  | ASendKeysWhileRelayed _ _ => "ErrSendKeysWhileRelayed"
  | ADialogMaybeOpen _ => "ErrDialogMaybeOpen"
  | APaneAnswerInProgress _ => "ErrPaneAnswerInProgress"
  | AClaimTooSoon _ => "ErrClaimTooSoon"
  | APaneChanged _ _ => "ErrPaneChanged"
  | ASpawnNotInteractive => "ErrSpawnNotInteractive"
  | ASpawnNotPausable => "ErrSpawnNotPausable"
  | ATmux name => name
  end.
Definition checkError (e : apiError) : error := match e with AStore e => e | _ => ECheck (errorName e) end.

(** ** The shape of a call (planSendKeys) *)

Definition parsePaneSHA256 (h : string) : option string :=
  if (String.length h =? 64)%nat && allBytes hexByte h then Some (mapBytes lowerChar h) else None.

Definition paneKeyNames : list string := ["Escape"; "Enter"; "Up"; "Down"; "Tab"].

Inductive paneKey := KeyName (name : string) | KeyChar (char : string).
#[export] Instance paneKey_eq_dec : EqDecision paneKey.
Proof. solve_decision. Defined.

Definition parsePaneKey (k : string) : option paneKey :=
  if bool_decide (k ∈ paneKeyNames) then Some (KeyName k)
  else match runes k with
       | Some [r] => if IsControl r then None else Some (KeyChar k)
       | _ => None
       end.

Record SendKeysParams := mkSendKeys {
  sk_DeliveryRequestID : string;
  sk_InstanceID : string;
  sk_Text : string;
  sk_AllowPending : bool;
  sk_NoEnter : bool;
  sk_Key : string;
  sk_ExpectPaneSHA256 : string;
  sk_NLines : Z;
  sk_RequestToken : string;
  sk_As : string;
}.

Record sendKeysPlan := mkPlan {
  pp_answer : bool;
  pp_key : option paneKey;
  pp_text : string;
  pp_enter : bool;
  pp_hash : string;
  pp_nLines : Z;
}.

Definition paneAsAllow : string := "allow".
Definition paneAsDeny : string := "deny".
Definition paneAsUnknown : string := "unknown".
Definition DefaultReadPaneLines : Z := 25.

Definition deliveryIDByte (c : char) : bool :=
  inRange 97 122 c || inRange 65 90 c || inRange 48 57 c || (byte c =? 95)%nat || (byte c =? 45)%nat.

Definition linesOf (nLines : Z) : Z := if nLines =? 0 then DefaultReadPaneLines else nLines.

Definition badDeliveryID (p : SendKeysParams) (text : string) : bool :=
  negb (bool_decide (sk_DeliveryRequestID p = ""))
  && ((128 <? String.length (sk_DeliveryRequestID p))%nat
      || negb (allBytes deliveryIDByte (sk_DeliveryRequestID p))
      || negb (bool_decide (sk_RequestToken p = "")) || negb (bool_decide (sk_Key p = "")) || sk_NoEnter p
      || negb (bool_decide (sk_ExpectPaneSHA256 p = "")) || bool_decide (text = "")).

(** An optional field: absent, or as [parse] reads it. *)
Definition optionalField {A} (parse : string -> option A) (s : string) : option (option A) :=
  if bool_decide (s = "") then Some None else Some <$> parse s.

(** [None] is ErrInvalidFlags. *)
Definition planSendKeys (p : SendKeysParams) : option sendKeysPlan :=
  let answer := negb (bool_decide (sk_RequestToken p = "")) in
  let text := dropByte (chr 13) (sk_Text p) in
  if badDeliveryID p text || (sk_NLines p <? 0) then None
  else
    match optionalField parsePaneSHA256 (sk_ExpectPaneSHA256 p), optionalField parsePaneKey (sk_Key p) with
    | Some hash, Some key =>
        let plan enter := mkPlan answer key text enter (default "" hash) (linesOf (sk_NLines p)) in
        if answer then
          if negb (bool_decide (sk_As p = paneAsAllow)) && negb (bool_decide (sk_As p = paneAsDeny)) then None
          else if bool_decide (key = None) then None
          else if bool_decide (hash = None) then None
          else if negb (bool_decide (sk_Text p = "")) then None
          else Some (plan false)
        else if negb (bool_decide (sk_As p = "")) then None
        else if negb (bool_decide (key = None)) && negb (bool_decide (sk_Text p = "")) then None
        else if bool_decide (key = None) && sk_NoEnter p && bool_decide (text = "") then None
        else Some (plan (bool_decide (key = None) && negb (sk_NoEnter p)))
    | _, _ => None
    end.

(** ** What a call reads outside the store *)

Record PaneTmux := mkPaneTmux {
  (* the row's name and socket, the input journal, the lookup and the agent's
     pane: the refusal, or none *)
  tm_Target : SpawnRow -> option apiError;
  (* the pane's last lines, ANSI stripped, as their SHA-256 *)
  tm_Capture : Z -> apiError + string;
  (* the input journal's record, before anything is typed *)
  tm_Journal : option apiError;
  (* the one key *)
  tm_Key : paneKey -> option apiError;
  (* everything a plain text call does past its guards: whether it typed *)
  tm_Text : SpawnRow -> sendKeysPlan -> bool * option apiError;
}.

Record SendKeysEnv := mkSendKeysEnv {
  se_Relay : RelayView;
  se_Self : ProcessIdentity;
  se_IntentHold : Z;
  se_ReleaseNow : nat -> Z;           (* the clock of releaseIntent *)
}.

(** ** The guards *)

Definition isInteractiveState (state : string) : bool :=
  bool_decide (state ∈ [StateWaiting; StateWorking; StateAskUser; StateCheckPermission]).

Definition sendKeysStateGuard (row : SpawnRow) (allowPending : bool) : option apiError :=
  if allowPending && bool_decide (sp_state row = StatePending) then
    if (launchStartedAtMillis row =? 0) || bool_decide (tokenOf row = "") then Some ASpawnNotInteractive else None
  else if negb (isInteractiveState (sp_state row)) then Some ASpawnNotInteractive
  else None.

Inductive sendKeysGuard := guardNotApplicable | guardHeld (e : apiError) | guardReleased | guardError (e : error).

Definition isFallenBack (e : option apiError) : bool :=
  match e with Some (ARelayFallenBack _) => true | _ => false end.
Definition guardOf (refusal : option apiError) : sendKeysGuard :=
  match refusal with Some e => guardHeld e | None => guardReleased end.

(** relayGuard: the clock is read at point [c], the hooks at point [k]. *)
Definition relayGuard (v : RelayView) (c k : nat) (hold : Z) (row : SpawnRow) (id token : string) (hashed : bool)
    : Op sendKeysGuard :=
  if negb (bool_decide (sp_relay_mode row = "on")) then ret guardNotApplicable
  else
    catch (judgedRequests v c k (read (PermissionRequestsForSpawn id)) row) (fun r => match r with
      | Err e => ret (guardError e)
      | Ok reqs =>
          let refusal := sendKeysRefusal reqs token hashed hold in
          if isFallenBack refusal then
            reqs <- recordFallenBackGone reqs;;
            ret (guardOf (sendKeysRefusal reqs token hashed hold))
          else ret (guardOf refusal)
      end).

(** ** A send-keys call *)

(** Whether it typed, and what it answers. *)
Definition Sent : Type := bool * outcome unit.
Definition notSent (e : apiError) : Op Sent := ret (false, Refuse e).

Section SendKeys.
Context (env : SendKeysEnv) (tmux : PaneTmux).

Definition paneMatches (nLines : Z) (hash token : string) : option apiError :=
  match tm_Capture tmux nLines with
  | inl e => Some e
  | inr got => if negb (bool_decide (got = hash)) then Some (APaneChanged nLines token) else None
  end.

(** sendKey: it has typed once the journal holds it, whatever the key's call
    answers. *)
Definition sendKey (k : paneKey) : Sent :=
  match tm_Journal tmux with
  | Some e => (false, Refuse e)
  | None => (true, match tm_Key tmux k with Some e => Refuse e | None => Done tt end)
  end.

Definition paneReleaseAttempts : nat := 3.
Definition paneReleaseBudget : Z := 10 * second.

(** releaseIntent, with [n] attempts left, the [i]th reading of the clock
    next. *)
Fixpoint releaseLoop (end_ : Z) (id token : string) (intent : PaneIntent) (n i : nat) : Op bool :=
  catch (ReleasePaneIntent id token intent) (fun r => match r with
    | Ok _ => ret true
    | Err _ =>
        match n with
        | O => ret false
        | S n => if negb (se_ReleaseNow env i <? end_) then ret false else releaseLoop end_ id token intent n (S i)
        end
    end).
Definition releaseIntent (id token : string) (intent : PaneIntent) : Op bool :=
  releaseLoop (se_ReleaseNow env 0 + paneReleaseBudget) id token intent (paneReleaseAttempts - 1) 1.

(** The check of RecordPaneIntent, under the write lock: its hooks are judged
    at point 3, its clock is read at point 2. *)
Definition intentCheck (plan : sendKeysPlan) (p : SendKeysParams) (sp : SpawnRow) (rows : list PermissionRow)
    : option apiError :=
  orElse (sendKeysStateGuard sp (sk_AllowPending p))
    (orElse (sendKeysRefusal (lockedRequests (se_Relay env) 2 3 sp rows) (sk_RequestToken p)
               (negb (bool_decide (sk_ExpectPaneSHA256 p = ""))) (se_IntentHold env))
       (paneMatches (pp_nLines plan) (pp_hash plan) (sk_RequestToken p))).

Definition paneAnswer (plan : sendKeysPlan) (key : paneKey) (p : SendKeysParams) : Op Sent :=
  let id := sk_InstanceID p in
  let token := sk_RequestToken p in
  catch (RecordPaneIntent id token (sk_As p) (se_Self env)
           (Some (fun sp rows => checkError <$> intentCheck plan p sp rows))) (fun r => match r with
    | Err e => notSent (AStore e)
    | Ok None => notSent ANoOpenPermissionRequest
    | Ok (Some intent) =>
        match sendKey key with
        | (sent, Refuse e) => _ <- releaseIntent id token intent;; ret (sent, Refuse e)
        | (sent, Done _) =>
            catch (RecordPaneSent id token intent) (fun r => match r with
              | Ok _ => ret (sent, Done tt)
              | Err _ => released <- releaseIntent id token intent;; ret (sent, Refuse (APaneKeySent token released))
              end)
        end
    end).

(** send: the tmux phase. *)
Definition send (row : SpawnRow) (plan : sendKeysPlan) (p : SendKeysParams) : Op Sent :=
  match tm_Target tmux row with
  | Some e => notSent e
  | None =>
      match pp_answer plan, pp_key plan with
      | true, Some key => paneAnswer plan key p
      | _, key =>
          match (if bool_decide (pp_hash plan = "") then None else paneMatches (pp_nLines plan) (pp_hash plan) "") with
          | Some e => notSent e
          | None =>
              ret (match key with
                   | Some key => sendKey key
                   | None =>
                       let '(sent, e) := tm_Text tmux row plan in
                       (sent, match e with Some e => Refuse e | None => Done tt end)
                   end)
          end
      end
  end.

Definition sendKeys (p : SendKeysParams) : Op Sent :=
  match planSendKeys p with
  | None => notSent AInvalidFlags
  | Some plan =>
      catch (GetSpawn (sk_InstanceID p)) (fun r => match r with
        | Err e => notSent (AStore e)
        | Ok row =>
            match sendKeysStateGuard row (sk_AllowPending p) with
            | Some e => notSent e
            | None =>
                guard <- relayGuard (se_Relay env) 0 0 (se_IntentHold env) row (sk_InstanceID p) (sk_RequestToken p)
                           (negb (bool_decide (sk_ExpectPaneSHA256 p = "")));;
                match guard with
                | guardError e => notSent (AStore e)
                | guardHeld e => notSent e
                | guardNotApplicable | guardReleased => send row plan p
                end
            end
        end)
  end.
End SendKeys.

(** ** record-pane-answer *)

Record RecordPaneAnswerParams := mkRecordParams {
  ra_RequestToken : string;
  ra_As : string;
  ra_ExpectPaneSHA256 : string;
  ra_NLines : Z;
}.
Record RecordPaneAnswerResult := mkRecordResult {
  rr_RequestToken : string;
  rr_PaneAnswer : string;
  rr_PaneAs : string;
  rr_Decision : option string;
  rr_DecisionReason : string;
}.

(** The expected hash; [None] is ErrInvalidFlags. *)
Definition checkRecordPaneAnswerParams (p : RecordPaneAnswerParams) : option string :=
  if bool_decide (ra_RequestToken p = "") then None
  else if negb (bool_decide (ra_As p ∈ [paneAsAllow; paneAsDeny; paneAsUnknown])) then None
  else if ra_NLines p <? 0 then None
  else parsePaneSHA256 (ra_ExpectPaneSHA256 p).

Definition GetPermissionRequestByToken (token : string) : Op PermissionRow :=
  r <- read (fun s => find (fun pr => bool_decide (pr_request_token pr = token)) (db_requests s));;
  match r with Some pr => ret (scanPermissionRow pr) | None => fail EPermissionRequestNotFound end.

Section RecordPaneAnswer.
Context (view : RelayView) (hold : Z) (tmux : PaneTmux).

(** The check of RecordPaneOutside, under the write lock. *)
Definition outsideCheck (p : RecordPaneAnswerParams) (hash : string) (sp : SpawnRow) (rows : list PermissionRow)
    : option apiError :=
  orElse (claimRefusal (lockedRequests view 2 3 sp rows) (ra_RequestToken p) hold)
    (paneMatches tmux (linesOf (ra_NLines p)) hash (ra_RequestToken p)).

Definition RecordPaneAnswer (p : RecordPaneAnswerParams) : Op (outcome RecordPaneAnswerResult) :=
  match checkRecordPaneAnswerParams p with
  | None => refuse AInvalidFlags
  | Some hash =>
      stored (GetPermissionRequestByToken (ra_RequestToken p)) (fun pr =>
      stored (GetSpawn (pw_InstanceID pr)) (fun row =>
      let id := pw_InstanceID pr in
      stored (judgedRequests view 0 0 (read (PermissionRequestsForSpawn id)) row) (fun reqs =>
      reqs <- recordFallenBackGone reqs;;
      unlessRefused (claimRefusal reqs (ra_RequestToken p) hold)
      (unlessRefused (tm_Target tmux row)
      (stored (RecordPaneOutside id (ra_RequestToken p) (ra_As p)
                 (Some (fun sp rows => checkError <$> outsideCheck p hash sp rows))) (fun written =>
       if negb written then refuse ANoOpenPermissionRequest
       else ret (Done (mkRecordResult (ra_RequestToken p) PaneAnswerOutside (ra_As p)
                         (if bool_decide (ra_As p = paneAsUnknown) then None else nullableString (ra_As p))
                         DecisionReasonPaneOutside))))))))
  end.
End RecordPaneAnswer.
