(* ===== verification/PaneProps.v ===== *)
(** * Properties of input to a Spawn's pane

    What lets input through: plain input only when no request of the Spawn
    may still be answered or still hold its dialog, a pane answer only on a
    request that has fallen back; a pane answer types only after its own
    committed intent; a record of an answer given outside is accepted only
    two seconds after the request's hook was gone. *)

From S2P Require Import Prelude Sql Text Bytes Rows Requests Settle Family Display History Steps Programs Gate HookWrites HookProps RelayWrites HookEnv Payload Classify RelayHook RequestInv RelayProps Lifecycle CursorWrites Process Handler Delivery Guard PaneAnswer.

(** ** Reads *)

Lemma silent_GetSpawn id : silent (GetSpawn id).
Proof. unfold GetSpawn. sil. Qed.
Lemma silent_byToken token : silent (GetPermissionRequestByToken token).
Proof. unfold GetPermissionRequestByToken. sil. Qed.
#[export] Hint Resolve silent_GetSpawn silent_byToken : silent.
Lemma silent_readManyJudged v m k : silent m -> silent (readManyJudged v m k).
Proof. intros H. unfold readManyJudged. sil; done. Qed.
Lemma silent_judgedRequests v c k m sp : silent m -> silent (judgedRequests v c k m sp).
Proof. intros H. unfold judgedRequests. apply silent_bind; [by apply silent_readManyJudged|]. sil. Qed.

(** ** What lets input through *)

Lemma liveHolder_none r : liveHolder r = None <-> forall pr, pr ∈ sr_rows r -> hookMayAnswer r pr = false.
Proof.
  unfold liveHolder. generalize (sr_rows r). intros rows.
  assert (forall h rows, liveHolderFrom r (Some h) rows <> None) as Hsome.
  { intros h l. revert h. induction l as [|pr l IH]; intros h; simpl; [done|].
    destruct (negb _); [apply IH|]. by destruct (_ && _); apply IH. }
  induction rows as [|pr rows IH]; simpl; [split; [by intros _ pr ?%elem_of_nil|done]|].
  destruct (hookMayAnswer r pr) eqn:E; simpl.
  - split; [by intros ?%Hsome|]. intros H. by rewrite H in E by left.
  - rewrite IH. split; [intros H q [->|Hq]%elem_of_cons; auto|intros H q Hq; apply H; by right].
Qed.

Lemma oldestFallenBack_none r : oldestFallenBack r = None <-> forall pr, pr ∈ sr_rows r -> fallenBack r pr = false.
Proof.
  unfold oldestFallenBack. generalize (sr_rows r). intros rows.
  induction rows as [|pr rows IH]; simpl; [split; [by intros _ pr ?%elem_of_nil|done]|].
  destruct (fallenBack r pr) eqn:E.
  - split; [done|]. intros H. by rewrite H in E by left.
  - rewrite IH. split; [intros H q [->|Hq]%elem_of_cons; auto|intros H q Hq; apply H; by right].
Qed.

Lemma unproven_nil r : unproven r = [] <->
  forall pr, pr ∈ sr_rows r -> HoldsDialog pr (agentOf (sr_sp r)) (tokenOf (sr_sp r)) = false.
Proof.
  unfold unproven. split.
  - intros E pr Hpr. destruct (HoldsDialog pr _ _) eqn:H; [|done].
    assert (pr ∈ unproven r) as Hin by (apply list_elem_of_filter; done). unfold unproven in Hin. rewrite E in Hin.
    by apply elem_of_nil in Hin.
  - intros H. destruct (filter _ _) as [|pr l] eqn:E; [done|].
    assert (pr ∈ unproven r) as Hin by (unfold unproven; rewrite E; left).
    apply list_elem_of_filter in Hin as [H1 H2]. by rewrite H in H1.
Qed.

(** C31: Plain input without a pane hash passes exactly when, for every
    request of the Spawn as read, its relay hook can no longer answer it, it
    has not fallen back unanswered, and the agent's own hooks proved its
    dialog gone (or it belongs to an earlier launch of a Cursor row). *)
Theorem plain_input_needs_every_dialog_gone (r : spawnRequests) (hold : Z) :
  sendKeysRefusal r "" false hold = None <->
  forall pr, pr ∈ sr_rows r -> hookMayAnswer r pr = false /\ fallenBack r pr = false /\
    HoldsDialog pr (agentOf (sr_sp r)) (tokenOf (sr_sp r)) = false.
Proof.
  transitivity (liveHolder r = None /\ oldestFallenBack r = None /\ unproven r = []).
  - unfold sendKeysRefusal. rewrite bool_decide_true by done.
    destruct (liveHolder r); [naive_solver|]. destruct (oldestFallenBack r); [naive_solver|].
    destruct (unproven r); naive_solver.
  - rewrite liveHolder_none, oldestFallenBack_none, unproven_nil. naive_solver.
Qed.

Lemma notFallenBack_none r pr : notFallenBackRefusal r pr = None <-> fallenBack r pr = true.
Proof.
  unfold notFallenBackRefusal. destruct (fallenBack r pr); [done|]. split; [|done].
  repeat case_match; done.
Qed.
Lemma orElse_none a b : orElse a b = None <-> a = None /\ b = None.
Proof. destruct a; naive_solver. Qed.
Lemma inProgress_none r pr hold : inProgressRefusal r pr hold = None <-> fst (fst (paneInProgress r pr hold)) = false.
Proof. unfold inProgressRefusal. destruct (paneInProgress r pr hold) as [[[] al] un]; naive_solver. Qed.

(** A pane answer passes exactly when no relay hook of the Spawn may
    still answer, its request is the Spawn's, has fallen back, and no earlier
    pane answer on it is still being sent. *)
Theorem pane_answer_needs_a_fallen_back_request (r : spawnRequests) (token : string) (hashed : bool) (hold : Z) :
  token <> "" ->
  sendKeysRefusal r token hashed hold = None <->
  (forall pr, pr ∈ sr_rows r -> hookMayAnswer r pr = false) /\
  exists pr, findToken r token = Some pr /\ fallenBack r pr = true /\ fst (fst (paneInProgress r pr hold)) = false.
Proof.
  intros Ht. rewrite <-liveHolder_none. unfold sendKeysRefusal. destruct (liveHolder r); [naive_solver|].
  rewrite bool_decide_false by done. destruct (findToken r token) as [pr|]; [|naive_solver].
  rewrite orElse_none, notFallenBack_none, inProgress_none. naive_solver.
Qed.

(** *** A record of an answer given outside *)

(** What record-pane-answer's refusal leaves open. *)
Definition claim_ready (r : spawnRequests) (token : string) (hold : Z) : Prop :=
  exists pr gone, findToken r token = Some pr /\ fallenBack r pr = true /\
    fst (fst (paneInProgress r pr hold)) = false /\ gone + paneClaimMinAge <= sr_now r /\
    ((exists t, pw_HookGoneAt pr = Some t /\ gone = nsOf (Some t)) \/
     (hookJudgedByTime r pr = true /\ gone = confirmBy (sr_view r) pr)).

Lemma claimRefusal_none r token hold : claimRefusal r token hold = None -> claim_ready r token hold.
Proof.
  unfold claimRefusal, claim_ready. destruct (findToken r token) as [pr|]; [|done].
  destruct (negb (closed r pr) && _); [done|].
  rewrite !orElse_none, notFallenBack_none, inProgress_none. intros (Hf & Hp & Hn).
  destruct (sr_now r <? claimNotBefore r pr (deliveryFor r pr)) eqn:E; [done|]. apply Z.ltb_ge in E.
  unfold claimNotBefore in E. change (dl_ConfirmBy (deliveryFor r pr)) with (confirmBy (sr_view r) pr) in E.
  destruct (hookJudgedByTime r pr && _) eqn:Ej.
  - apply andb_true_iff in Ej as [Ej _]. exists pr, (confirmBy (sr_view r) pr). split_and!; auto.
  - destruct (pw_HookGoneAt pr) as [t|] eqn:Eg; simpl in E.
    + exists pr, (nsOf (Some t)). split_and!; eauto.
    + assert (0 < paneClaimMinAge) by done. lia.
Qed.

(** ** The checked writes *)

Lemma runPaneCheck_spec id f s gs u s' gs' : runPaneCheck id (Some f) s gs = (Ok (u, s'), gs') ->
  s' = s /\ exists sp, db_spawns s !! id = Some sp /\ f sp (PermissionRequestsForSpawn id s) = None.
Proof.
  unfold runPaneCheck. intros (sp & s1 & gs1 & H1%tstmt_Ok & H2)%tbind_Ok. injection H1 as <- <-.
  destruct (db_spawns s !! id) as [sp|]; [|done].
  apply tbind_Ok in H2 as (rows & s2 & gs2 & H2%tstmt_Ok & H3). injection H2 as <- <-.
  apply checkTx_spec in H3 as [H3 ->]. split; [done|]. by exists sp.
Qed.

(** Under the lock: the row, its requests as the check read them, and the
    request written. *)
Definition checked (check : SpawnRow -> list PermissionRow -> Prop) (set : PermReq -> PermReq) (id token : string)
    (s s' : Store) : Prop :=
  exists sp pr, db_spawns s !! id = Some sp /\ check sp (PermissionRequestsForSpawn id s) /\
    pr ∈ db_requests s /\ pr_instance_id pr = id /\ pr_request_token pr = token /\
    where3 (awaitingAnswerSQL pr) = true /\ set pr ∈ db_requests s'.

Lemma updateReqs_in c f s pr : pr ∈ db_requests s -> c pr = true -> f pr ∈ db_requests (updateReqs c f s).
Proof.
  intros Hin Hc. unfold updateReqs. rsimp. apply list_elem_of_fmap. exists pr. by rewrite Hc.
Qed.

Lemma ensures_paneIntent id token as_ sender f :
  ensures (fun r own => match r with
    | Ok (Some intent) => pn_As intent = as_ /\ pn_Sender intent = sender /\
        exists s s', own = [(s, s')] /\ checked (fun sp rows => f sp rows = None) (paneIntentSet intent) id token s s'
    | _ => True
    end) (RecordPaneIntent id token as_ sender (Some f)).
Proof.
  unfold RecordPaneIntent. cbv zeta.
  eapply ensures_mono; [apply (ensures_txBounded (fun s x s' => match x with
    | Some intent => pn_As intent = as_ /\ pn_Sender intent = sender /\
        checked (fun sp rows => f sp rows = None) (paneIntentSet intent) id token s s'
    | None => True end))|].
  - intros s gs x s' gs' (u & s1 & gs1 & [-> (sp & Hsp & Hf)]%runPaneCheck_spec & H2)%tbind_Ok.
    apply tbind_Ok in H2 as (now & s2 & gs2 & H2%tstmt_Ok & H3). injection H2 as <- <-.
    apply tbind_Ok in H3 as (n & s3 & gs3 & H3%tstmt_Ok & H4). injection H3 as <- <-. injection H4 as <- <- _.
    destruct (0 <? _)%nat eqn:En; [|done]. apply Nat.ltb_lt in En.
    destruct (filter _ _) as [|pr l] eqn:Ef; [simpl in En; lia|].
    assert (pr ∈ pr :: l) as Hin by left. rewrite <-Ef in Hin. apply list_elem_of_filter in Hin as [Hc Hin].
    split_and!; [done..|]. exists sp, pr. pose proof Hc as Hc'. conds Hc. simplify_eq. split_and!; try done.
    by apply (updateReqs_in (fun pr => where3 (ofToken _ _ pr AND awaitingAnswerSQL pr))).
  - intros [[intent|]|e] own; [|done..]. intros (s & s' & -> & H1 & H2 & H3). eauto 10.
Qed.

Lemma ensures_paneOutside id token claim f :
  ensures (fun r own => match r with
    | Ok true => exists s s', own = [(s, s')] /\
        checked (fun sp rows => f sp rows = None) (paneOutsideSet claim (nowSec s)) id token s s'
    | Ok false => exists s, own = [(s, s)]
    | Err e => own = [] \/ e = ECommitUnconfirmed
    end) (RecordPaneOutside id token claim (Some f)).
Proof.
  unfold RecordPaneOutside. eapply ensures_bind.
  { apply (ensures_txBounded (fun s x s' => match x with
      | Some _ => checked (fun sp rows => f sp rows = None) (paneOutsideSet claim (nowSec s)) id token s s'
      | None => s' = s end)).
    intros s gs x s' gs' (u & s1 & gs1 & [-> (sp & Hsp & Hf)]%runPaneCheck_spec & H2)%tbind_Ok.
    apply updFirstNow_spec in H2 as [-> H2]. destruct x as [x|]; [|by destruct H2 as [-> _]].
    destruct H2 as (pr & Hin & Hc & E). pose proof Hc as Hc'. conds Hc. simplify_eq. exists sp, pr. split_and!; try done.
    by apply (updateReqs_in (fun pr => where3 (ofToken _ _ pr AND awaitingAnswerSQL pr)) (paneOutsideSet claim (nowSec s))). }
  - intros [[rid tool]|] o1 (s & s' & -> & H1).
    + apply ensures_emit_ret. rewrite app_nil_r. eauto 10.
    + apply ensures_ret. rewrite app_nil_r. subst. by exists s.
  - intros e o1 [->|[-> _]]; [by left|by right].
Qed.

Definition returns {A} (r : result A) (own : list (Store * Store)) : Prop := exists a, r = Ok a.

(** What is left of the requests without the instant a hook was found gone. *)
Definition gone_noted (s s' : Store) : Prop :=
  (fun r => r <| pr_hook_gone_at := None |>) <$> db_requests s' = (fun r => r <| pr_hook_gone_at := None |>) <$> db_requests s /\
  db_spawns s' = db_spawns s.
#[global] Instance gone_noted_preorder : PreOrder gone_noted.
Proof. split; [by intros s|]. intros s1 s2 s3 [H1 H2] [H3 H4]. split; by etrans. Qed.

Lemma recordHookGone_notes at_ ids : tx_keeps gone_noted (recordHookGoneLoop at_ ids).
Proof.
  induction ids as [|rid ids IH]; [apply keeps_ret|]. simpl. apply keeps_bind; [|intros a; apply keeps_bind; [done|intros; apply keeps_ret]].
  intros s gs x s' gs' [-> _]%updFirst_spec. unfold updateReqs. split; rsimp; [|done].
  rewrite <-list_fmap_compose. apply list_fmap_ext. intros i r _. simpl. by destruct (_ =? _).
Qed.

Lemma gone_notes r : ensures (fun res own => returns res own /\ Forall (fun x => gone_noted (fst x) (snd x)) own) (recordFallenBackGone r).
Proof.
  unfold recordFallenBackGone. destruct (goneUnrecorded r) as [|i l]; [apply ensures_ret; split; [by eexists|constructor]|].
  eapply (ensures_catch (fun _ own => Forall (fun x => gone_noted (fst x) (snd x)) own)).
  - intros w. destruct (guarantees_txBounded (Ev := Event) gone_noted (recordHookGoneLoop (stamped (sr_now r)) (i :: l))
      (recordHookGone_notes _ _) w) as (own & E & F). by exists own.
  - intros [x|e] o1 H; apply ensures_ret; (split; [by eexists|by rewrite app_nil_r]).
Qed.

(** ** The verbs *)

(** What a call writes when nothing is asked of it. *)
Lemma ensures_writes {A} (m : Op A) : guarantees (fun _ _ => True) m -> ensures (fun _ _ => True) m.
Proof. intros H w. destruct (H w) as (own & E & _). by exists own. Qed.
Lemma tx_any {A} (body : Tx Store A) : tx_spec (fun _ _ _ => True) body.
Proof. by intros s gs a s' gs' _. Qed.
Ltac writes := apply ensures_writes; guar; apply guarantees_txBounded, tx_any.

Lemma gone_any r : ensures returns (recordFallenBackGone r).
Proof. eapply ensures_mono; [apply gone_notes|]. by intros r' own [? _]. Qed.

Lemma relayGuard_any v c k hold row id token hashed : ensures returns (relayGuard v c k hold row id token hashed).
Proof.
  unfold relayGuard. destruct (negb _); [apply ensures_ret; by eexists|].
  apply ensures_catch_silent; [apply silent_judgedRequests, silent_read|]. intros [reqs|e]; [|apply ensures_ret; by eexists].
  cbv zeta. destruct (isFallenBack _); [|apply ensures_ret; by eexists].
  eapply ensures_bind; [apply gone_any| |by intros e o1 [? ?]]. intros r o1 _. apply ensures_ret. by eexists.
Qed.

Lemma releaseLoop_any env end_ id token intent n i : ensures returns (releaseLoop env end_ id token intent n i).
Proof.
  revert i. induction n as [|n IH]; intros i; simpl;
    (eapply (ensures_catch (fun _ _ => True)); [unfold ReleasePaneIntent; writes|]);
    intros [b|e] o1 _; try (apply ensures_ret; by eexists).
  destruct (negb _); [apply ensures_ret; by eexists|apply IH].
Qed.

(** Typing for a pane answer: the intent that held the request, and what was
    checked when it was taken. *)
Definition answeredUnder (env : SendKeysEnv) (tmux : PaneTmux) (p : SendKeysParams) (plan : sendKeysPlan)
    (s s' : Store) : Prop :=
  exists intent, pn_As intent = sk_As p /\ pn_Sender intent = se_Self env /\
    checked (fun sp rows =>
        sendKeysStateGuard sp (sk_AllowPending p) = None /\
        sendKeysRefusal (lockedRequests (se_Relay env) 2 3 sp rows) (sk_RequestToken p) true (se_IntentHold env) = None /\
        tm_Capture tmux (pp_nLines plan) = inr (pp_hash plan))
      (paneIntentSet intent) (sk_InstanceID p) (sk_RequestToken p) s s'.

Lemma plan_answer p plan : sk_RequestToken p <> "" -> planSendKeys p = Some plan ->
  pp_answer plan = true /\ pp_enter plan = false /\ sk_ExpectPaneSHA256 p <> "" /\ sk_Text p = "" /\
  exists key, pp_key plan = Some key.
Proof.
  intros Ht. unfold planSendKeys. cbv zeta. rewrite (bool_decide_false (sk_RequestToken p = "")) by done. simpl.
  destruct (_ || (sk_NLines p <? 0)); [done|].
  destruct (optionalField parsePaneSHA256 _) as [hash|] eqn:Eh; [|done].
  destruct (optionalField parsePaneKey _) as [key|]; [|done].
  destruct (negb _ && _); [done|]. destruct (bool_decide (key = None)) eqn:Ek; [done|].
  destruct (bool_decide (hash = None)) eqn:Eh'; [done|]. destruct (negb _) eqn:Et; [done|].
  intros [= <-]. simpl. apply negb_false_iff, bool_decide_eq_true in Et. apply bool_decide_eq_false in Ek, Eh'.
  split_and!; try done.
  - intros E. unfold optionalField in Eh. rewrite bool_decide_true in Eh by done. congruence.
  - destruct key; [by eexists|done].
Qed.

Lemma intentCheck_none env tmux plan p sp rows : sk_ExpectPaneSHA256 p <> "" ->
  checkError <$> intentCheck env tmux plan p sp rows = None ->
  sendKeysStateGuard sp (sk_AllowPending p) = None /\
  sendKeysRefusal (lockedRequests (se_Relay env) 2 3 sp rows) (sk_RequestToken p) true (se_IntentHold env) = None /\
  tm_Capture tmux (pp_nLines plan) = inr (pp_hash plan).
Proof.
  intros Hh. rewrite fmap_None. unfold intentCheck. rewrite !orElse_none, (bool_decide_false (sk_ExpectPaneSHA256 p = "")) by done.
  intros (H1 & H2 & H3). refine (conj H1 (conj H2 _)). unfold paneMatches in H3.
  destruct (tm_Capture _ _) as [e|got]; [done|].
  destruct (bool_decide (got = pp_hash plan)) eqn:E; [|done]. apply bool_decide_eq_true in E. by subst.
Qed.

Ltac untyped := apply ensures_ret; simpl; split; by intros ?.

Lemma ensures_paneAnswer env tmux plan key p : sk_ExpectPaneSHA256 p <> "" ->
  ensures (fun r own => match r with
    | Ok (sent, out) => (out = Done tt -> sent = true) /\
        (sent = true -> exists s s', (s, s') ∈ own /\ answeredUnder env tmux p plan s s')
    | Err _ => False
    end) (paneAnswer env tmux plan key p).
Proof.
  intros Hh. unfold paneAnswer. cbv zeta. eapply ensures_catch; [apply ensures_paneIntent|].
  intros [[intent|]|e] o1; [|intros _; untyped..].
  intros (H1 & H2 & s & s' & -> & sp & pr & Hsp & Hf & Hpr).
  assert (exists s0 s0', (s0, s0') ∈ [(s, s')] /\ answeredUnder env tmux p plan s0 s0') as Hown.
  { exists s, s'. split; [by left|]. exists intent. split_and!; [done..|]. exists sp, pr. split_and!; try done.
    all: try (by eapply intentCheck_none). all: naive_solver. }
  assert (forall o, exists s0 s0', (s0, s0') ∈ [(s, s')] ++ o /\ answeredUnder env tmux p plan s0 s0') as Hown'
    by (intros o; destruct Hown as (a & b & Hin & Ha); exists a, b; split; [apply elem_of_app; by left|done]).
  unfold sendKey. destruct (tm_Journal tmux) as [e|].
  { eapply ensures_bind; [apply releaseLoop_any| |by intros e1 o1 [? ?]].
    intros b o2 _. untyped. }
  destruct (tm_Key tmux key) as [e|].
  { eapply ensures_bind; [apply releaseLoop_any| |by intros e1 o1 [? ?]].
    intros b o2 _. apply ensures_ret. rewrite app_nil_r. by split. }
  eapply (ensures_catch (fun _ _ => True)); [unfold RecordPaneSent; writes|].
  intros [b|e] o2 _; [apply ensures_ret; rewrite app_nil_r; by split|].
  eapply ensures_bind; [apply releaseLoop_any| |by intros e1 o3 [? ?]].
  intros b o3 _. apply ensures_ret. rewrite app_nil_r. by split.
Qed.

(** C29: A pane answer types only after its own committed intent: whatever
    other processes do and whatever fails, a call that names a request and
    typed anything committed, before that, a write on a request of that Spawn
    and token that awaited an answer, recording its claim and its sender; and
    under the write lock of that write the row took input, no relay hook
    could still answer, the request had fallen back with no other pane answer
    in progress, and the pane had the expected hash. A call that succeeds
    typed its key. *)
Theorem pane_answer_types_only_under_its_intent (env : SendKeysEnv) (tmux : PaneTmux) (p : SendKeysParams) :
  sk_RequestToken p <> "" ->
  ensures (fun r own => match r with
    | Ok (sent, out) => (out = Done tt -> sent = true) /\
        (sent = true -> exists plan s s', planSendKeys p = Some plan /\ pp_enter plan = false /\
          (s, s') ∈ own /\ answeredUnder env tmux p plan s s')
    | Err _ => False
    end) (sendKeys env tmux p).
Proof.
  intros Ht. unfold sendKeys. destruct (planSendKeys p) as [plan|] eqn:Ep; [|untyped].
  destruct (plan_answer p plan Ht Ep) as (Ha & He & Hh & _ & key & Hk).
  apply ensures_catch_silent; [apply silent_GetSpawn|]. intros [row|e]; [|untyped].
  destruct (sendKeysStateGuard row _); [untyped|].
  eapply ensures_bind; [apply relayGuard_any| |by intros e o1 [? ?]].
  assert (forall o1, ensures (fun r o2 => match r with
    | Ok (sent, out) => (out = Done tt -> sent = true) /\
        (sent = true -> exists plan0 s s', Some plan = Some plan0 /\ pp_enter plan0 = false /\
          (s, s') ∈ o1 ++ o2 /\ answeredUnder env tmux p plan0 s s')
    | Err _ => False
    end) (send env tmux row plan p)) as Hs.
  { intros o1. unfold send. destruct (tm_Target tmux row); [untyped|]. rewrite Ha, Hk.
    eapply ensures_mono; [by apply ensures_paneAnswer|]. intros [[sent out]|e] own; [|done].
    intros [H1 H2]. split; [done|]. intros (s & s' & Hin & Hu)%H2. exists plan, s, s'. split_and!; try done.
    apply elem_of_app. by right. }
  intros [] o1 _; first [untyped|apply Hs].
Qed.

(** *** record-pane-answer *)

Lemma outsideCheck_none view hold tmux p hash sp rows :
  checkError <$> outsideCheck view hold tmux p hash sp rows = None ->
  claim_ready (lockedRequests view 2 3 sp rows) (ra_RequestToken p) hold /\
  tm_Capture tmux (linesOf (ra_NLines p)) = inr hash.
Proof.
  rewrite fmap_None. unfold outsideCheck. rewrite orElse_none. intros [H1 H2]. split; [by apply claimRefusal_none|].
  unfold paneMatches in H2. destruct (tm_Capture _ _) as [e|got]; [done|].
  destruct (bool_decide (got = hash)) eqn:E; [|done]. apply bool_decide_eq_true in E. by subst.
Qed.

(** C32: record-pane-answer records an answer only where one may have been
    given at the pane: when it succeeds, its last committed write answered a
    request of that token, still awaiting an answer, with the caller's claim;
    and under the write lock of that write the request had fallen back, no
    pane answer on it was being sent, its hook had been gone for two seconds,
    and the pane had the expected hash. Refused, it changed nothing but when
    a hook was found gone, an unconfirmed COMMIT apart. *)
Theorem recorded_answers_had_fallen_back (view : RelayView) (hold : Z) (tmux : PaneTmux) (p : RecordPaneAnswerParams) :
  ensures (fun r own => match r with
    | Ok (Done res) => exists id hash s s', last own = Some (s, s') /\
        parsePaneSHA256 (ra_ExpectPaneSHA256 p) = Some hash /\ rr_PaneAs res = ra_As p /\
        checked (fun sp rows => claim_ready (lockedRequests view 2 3 sp rows) (ra_RequestToken p) hold /\
            tm_Capture tmux (linesOf (ra_NLines p)) = inr hash)
          (paneOutsideSet (ra_As p) (nowSec s)) id (ra_RequestToken p) s s'
    | Ok (Refuse e) => e = AStore ECommitUnconfirmed \/ Forall (fun x => gone_noted (fst x) (snd x)) own
    | Err _ => False
    end) (RecordPaneAnswer view hold tmux p).
Proof.
  unfold RecordPaneAnswer. destruct (checkRecordPaneAnswerParams p) as [hash|] eqn:Ep; [|by apply ensures_ret; right].
  assert (parsePaneSHA256 (ra_ExpectPaneSHA256 p) = Some hash) as Eh.
  { revert Ep. unfold checkRecordPaneAnswerParams. by repeat case_match. }
  unfold stored, unlessRefused.
  apply ensures_catch_silent; [apply silent_byToken|]. intros [pr|e]; [|by apply ensures_ret; right].
  apply ensures_catch_silent; [apply silent_GetSpawn|]. intros [row|e]; [|by apply ensures_ret; right].
  cbv zeta. apply ensures_catch_silent; [apply silent_judgedRequests, silent_read|]. intros [reqs|e]; [|by apply ensures_ret; right].
  eapply ensures_bind; [apply gone_notes| |by intros e o1 [[? ?] _]]. intros r o1 [_ H1].
  destruct (claimRefusal r _ _); [by apply ensures_ret; right; rewrite app_nil_r|].
  destruct (tm_Target tmux row); [by apply ensures_ret; right; rewrite app_nil_r|].
  eapply ensures_catch; [apply ensures_paneOutside|]. intros [[]|e] o2 H2.
  - destruct H2 as (s & s' & -> & sp & q & Hsp & Hf & Hq). apply ensures_ret. rewrite app_nil_r.
    exists (pw_InstanceID pr), hash, s, s'. split_and!; [by rewrite last_snoc|done..|].
    exists sp, q. split_and!; try naive_solver; by eapply outsideCheck_none.
  - destruct H2 as (s & ->). apply ensures_ret. right. rewrite app_nil_r. apply Forall_app. split; [done|].
    by repeat constructor.
  - apply ensures_ret. rewrite app_nil_r. destruct H2 as [->| ->]; [right; by rewrite app_nil_r|by left].
Qed.

(** *** Plain input, alone *)

Lemma GetSpawn_alone id s sp tr own : db_spawns s !! id = Some sp -> GetSpawn id (alone s tr own) = (Ok sp, alone s tr own).
Proof. intros H. unfold GetSpawn, bind. by rewrite read_alone, H. Qed.

(** The judged read of a Spawn's requests, when nobody interferes. *)
Definition aloneRequests (v : RelayView) (c k : nat) (id : string) (s : Store) (sp : SpawnRow) : spawnRequests :=
  newSpawnRequests v c (S k) sp (PermissionRequestsForSpawn id s)
    (if bool_decide (PermissionRequestsForSpawn id s = []) then fun _ => hookCantTell
     else verdictsOf v k (PermissionRequestsForSpawn id s)).

Lemma judgedRequests_alone v c k id s sp tr own :
  judgedRequests v c k (read (PermissionRequestsForSpawn id)) sp (alone s tr own)
  = (Ok (aloneRequests v c k id s sp), alone s tr own).
Proof.
  unfold judgedRequests, readManyJudged, bind, aloneRequests. rewrite !read_alone.
  destruct (bool_decide (PermissionRequestsForSpawn id s = [])) eqn:E; [|by rewrite read_alone].
  apply bool_decide_eq_true in E. unfold ret. simpl. by rewrite E.
Qed.

(** Recording when a hook was found gone keeps what has fallen back. *)
Lemma fallenBack_withGone r r' stored pr :
  sr_view r' = sr_view r -> sr_sp r' = sr_sp r -> sr_now r' = sr_now r -> sr_verdicts r' = sr_verdicts r ->
  fallenBack r' (withStoredGone stored pr) = fallenBack r pr.
Proof.
  intros E1 E2 E3 E4. assert (forall t, fallenBack r' (pr <| pw_HookGoneAt := t |>) = fallenBack r pr) as H.
  { intros t. unfold fallenBack, closed, rowFinished, deliveryFor, delivery, legacyRequestAgentGone. simpl.
    rewrite E1, E2, E3, E4. by destruct pr. }
  unfold withStoredGone. destruct (storedOf _ _) as [[t|]|]; [apply H| |].
  all: specialize (H (pw_HookGoneAt pr)); by destruct pr.
Qed.

Lemma recordGone_refused r hold : isFallenBack (sendKeysRefusal r "" false hold) = true ->
  ensures (fun res _ => forall r', res = Ok r' -> is_Some (sendKeysRefusal r' "" false hold)) (recordFallenBackGone r).
Proof.
  intros Hf. assert (is_Some (sendKeysRefusal r "" false hold)) as H0 by (by destruct (sendKeysRefusal r "" false hold)).
  unfold recordFallenBackGone. destruct (goneUnrecorded r) as [|i l]; [apply ensures_ret; by intros r' [= <-]|].
  eapply (ensures_catch (fun _ _ => True)); [unfold RecordHookGone; writes|]. intros [stored|e] o1 _; apply ensures_ret; intros r' [= <-]; [|done].
  match goal with |- is_Some (sendKeysRefusal ?r' _ _ _) => destruct (sendKeysRefusal r' "" false hold) eqn:E end; [by eexists|].
  rewrite plain_input_needs_every_dialog_gone in E. simpl in E.
  destruct (sendKeysRefusal r "" false hold) as [e|] eqn:E0; [|by destruct H0]. exfalso. revert Hf E0.
  unfold sendKeysRefusal. rewrite bool_decide_true by done. destruct (liveHolder r); [by intros Hf [= <-]|].
  destruct (oldestFallenBack r) as [pr|] eqn:Eo.
  - intros _ _. apply find_some in Eo as [Hin Ho]. apply list_elem_of_In in Hin.
    destruct (E (withStoredGone stored pr)) as (_ & H & _); [by apply list_elem_of_fmap_2|].
    by erewrite fallenBack_withGone, Ho in H.
  - destruct (unproven r); [done|by intros Hf [= <-]].
Qed.

Lemma plainGuard_alone v c k hold row id s tr own : sp_relay_mode row = "on" ->
  exists g w, relayGuard v c k hold row id "" false (alone s tr own) = (Ok g, w) /\ g <> guardNotApplicable /\
    (g = guardReleased -> sendKeysRefusal (aloneRequests v c k id s row) "" false hold = None).
Proof.
  intros Hm. unfold relayGuard. rewrite bool_decide_true by done. unfold catch. cbv beta iota delta [negb].
  rewrite judgedRequests_alone. cbv zeta. set (r := aloneRequests _ _ _ _ _ _).
  destruct (isFallenBack (sendKeysRefusal r "" false hold)) eqn:Ef.
  - unfold bind. destruct (recordGone_refused r hold Ef (alone s tr own)) as (o & _ & H).
    destruct (gone_any r (alone s tr own)) as (o' & _ & [r1 E1]).
    destruct (recordFallenBackGone r (alone s tr own)) as [res w]. simpl in *. subst res.
    destruct (H r1 eq_refl) as [e He]. rewrite He. by exists (guardHeld e), w.
  - exists (guardOf (sendKeysRefusal r "" false hold)), (alone s tr own).
    split; [done|]. by destruct (sendKeysRefusal r "" false hold).
Qed.

(** C30: Plain input without a pane hash is typed past no dialog: run alone on
    a relayed Spawn, a call that typed found, for every permission request of
    the Spawn, that its relay hook could no longer answer it, that it had not
    fallen back unanswered, and that the agent's hooks had proved its dialog
    gone (or that it was of an earlier launch of a Cursor row). *)
Theorem plain_send_keys_types_past_no_dialog (env : SendKeysEnv) (tmux : PaneTmux) (p : SendKeysParams) (s : Store)
    (sp : SpawnRow) (out : outcome unit) :
  db_spawns s !! sk_InstanceID p = Some sp -> sp_relay_mode sp = "on" ->
  sk_RequestToken p = "" -> sk_ExpectPaneSHA256 p = "" ->
  fst (fst (run (sendKeys env tmux p) s)) = Ok (true, out) ->
  let r := aloneRequests (se_Relay env) 0 0 (sk_InstanceID p) s sp in
  forall pr, pr ∈ sr_rows r -> hookMayAnswer r pr = false /\ fallenBack r pr = false /\
    HoldsDialog pr (agentOf sp) (tokenOf sp) = false.
Proof.
  intros Hs Hm Ht Hh. cbv zeta. unfold run. change (mkWorld s [] [] []) with (alone s ([] : list Event) []).
  unfold sendKeys. destruct (planSendKeys p) as [plan|]; [|done].
  unfold catch at 1. rewrite (GetSpawn_alone _ _ sp) by done. destruct (sendKeysStateGuard _ _); [done|].
  rewrite Ht, Hh. unfold bind at 1. rewrite (bool_decide_true ("" = "")) by done. simpl negb.
  destruct (plainGuard_alone (se_Relay env) 0 0 (se_IntentHold env) sp (sk_InstanceID p) s [] [] Hm) as (g & w & -> & Hg & H).
  intros E. apply plain_input_needs_every_dialog_gone with (hold := se_IntentHold env).
  destruct g; try done. by apply H.
Qed.

(** ** Samples *)

Definition sampleHash : string := "00000000000000000000000000000000000000000000000000000000000000aa".
(** Every relay hook is gone. *)
Definition goneView : RelayView :=
  mkRelayView (Some (fun _ _ _ => mkStartAnswer "" false true)) (Some "") (fun _ => 250 * second) (600 * second).
Definition samplePane : PaneTmux :=
  mkPaneTmux (fun _ => None) (fun _ => inr sampleHash) None (fun _ => None) (fun _ _ => (true, None)).
Definition sampleKeysEnv : SendKeysEnv := mkSendKeysEnv goneView (mkProcessIdentity 5 "p5" "") (30 * second) (fun _ => 0).
Definition answerParams : SendKeysParams := mkSendKeys "" "leaf" "" false false "Enter" sampleHash 0 "tok1" "allow".
Definition textParams : SendKeysParams := mkSendKeys "" "leaf" "hello" false false "" "" 0 "" "".

Definition relayedRow : SpawnRow := soloRow <| sp_relay_mode := "on" |>.
Definition fallenStore : Store := reqStore <| db_spawns := {[ "leaf" := relayedRow ]} |>.
Definition provenStore : Store := fallenStore <| db_requests := [ackedReq] |>.

Lemma pane_answer_needs_a_fallen_back_request_witness :
  sendKeysRefusal (aloneRequests goneView 0 0 "leaf" fallenStore relayedRow) "tok1" true (30 * second) = None.
Proof.
  apply (pane_answer_needs_a_fallen_back_request (aloneRequests goneView 0 0 "leaf" fallenStore relayedRow) "tok1"); [done|].
  split.
  - intros pr Hpr. assert (Forall (fun q => hookMayAnswer (aloneRequests goneView 0 0 "leaf" fallenStore relayedRow) q = false)
      (sr_rows (aloneRequests goneView 0 0 "leaf" fallenStore relayedRow))) as H by (vm_compute; repeat constructor).
    rewrite Forall_forall in H. by apply H.
  - eexists. split; [by vm_compute|]. by vm_compute.
Defined.

Lemma pane_answer_types_only_under_its_intent_witness :
  fst (fst (run (sendKeys sampleKeysEnv samplePane answerParams) fallenStore)) = Ok (true, Done tt) /\
  exists s s' plan, answeredUnder sampleKeysEnv samplePane answerParams plan s s'.
Proof.
  assert (fst (fst (run (sendKeys sampleKeysEnv samplePane answerParams) fallenStore)) = Ok (true, Done tt)) as E by by vm_compute.
  split; [done|].
  pose proof (pane_answer_types_only_under_its_intent sampleKeysEnv samplePane answerParams ltac:(done)
    (alone fallenStore [] [])) as (own & _ & H).
  unfold run in E. change (mkWorld fallenStore [] [] []) with (alone fallenStore ([] : list Event) []) in E.
  destruct (sendKeys sampleKeysEnv samplePane answerParams (alone fallenStore [] [])) as [r w]. simpl in E, H. subst r.
  destruct H as [_ H]. destruct (H eq_refl) as (plan & s & s' & _ & _ & _ & Ha). by exists s, s', plan.
Defined.

Lemma plain_send_keys_types_past_no_dialog_witness :
  fst (fst (run (sendKeys sampleKeysEnv samplePane textParams) provenStore)) = Ok (true, Done tt) /\
  forall pr, pr ∈ sr_rows (aloneRequests goneView 0 0 "leaf" provenStore relayedRow) ->
    HoldsDialog pr (agentOf relayedRow) (tokenOf relayedRow) = false.
Proof.
  assert (fst (fst (run (sendKeys sampleKeysEnv samplePane textParams) provenStore)) = Ok (true, Done tt)) as E by by vm_compute.
  split; [done|]. intros pr Hpr.
  apply (plain_send_keys_types_past_no_dialog sampleKeysEnv samplePane textParams provenStore relayedRow (Done tt)
    ltac:(by vm_compute) eq_refl eq_refl eq_refl E pr Hpr).
Defined.

Example dialog_holds : fst (fst (run (sendKeys sampleKeysEnv samplePane textParams) fallenStore)) <> Ok (true, Done tt).
Proof. by vm_compute. Qed.
Definition claimParams : RecordPaneAnswerParams := mkRecordParams "tok1" "unknown" sampleHash 0.
Example record_sample :
  match fst (fst (run (RecordPaneAnswer goneView (30 * second) samplePane claimParams) fallenStore)) with
  | Ok (Refuse (AClaimTooSoon _)) => True | _ => False end /\
  match fst (fst (run (RecordPaneAnswer goneView (30 * second) samplePane claimParams)
    (fallenStore <| db_requests := [openReq <| pr_hook_gone_at := Some 248000 |>] |>))) with
  | Ok (Done res) => rr_Decision res = None | _ => False end.
Proof. by vm_compute. Qed.
