(* ===== verification/Decide.v ===== *)
(** * decide (pkg/api/decide.go)

    The verdict on a permission request: what is checked and read before it
    ([decideWithin]), the guarded write that records it, the refusals, each
    named from what is read again ([finishedRowRefusal], [refuseFallenBack],
    [notWritten], [refusePreV7], [fallenBackRefusal]), and the wait for the
    relay hook's ack ([awaitAck]).

    Under a bound (MaxWaitMs) every read is a bounded one. The call's clock
    and process readings are its [RelayView], by program point; the turns of
    the ack wait have readings of their own. *)

From S2P Require Import Prelude Sql Rows Requests Settle Family Display History Steps Gate HookWrites RelayWrites HookEnv Payload Classify RelayHook Lifecycle CursorWrites Process Delivery Guard PaneAnswer.

Record DecideParams := mkDecide {
  dp_InstanceID : string;
  dp_RequestToken : string;
  dp_Decision : string;
  dp_Reason : string;
  dp_MaxWaitMs : option Z;
}.

Definition decideAckWait : Z := 1 * second.
Definition decideAckPoll : Z := 50 * millisecond.

(** What one turn of the ack wait reads: whether the context ended, the clock
    after the read, and what lockWait then says. *)
Record AckTurn := mkAckTurn { ak_cancelled : bool; ak_now : Z; ak_lockWait : Z }.

Record DecideEnv := mkDecideEnv {
  de_View : RelayView;
  de_LockWait : Z;                  (* lockWait, before a wait until a request has settled *)
  de_Turn : nat -> AckTurn;
}.

Section Decide.
Context (env : DecideEnv) (p : DecideParams).
Let v := de_View env.
Let id := dp_InstanceID p.
Let token := dp_RequestToken p.

Definition bounded : bool := bool_decide (is_Some (dp_MaxWaitMs p)).
(** The call's start, at clock point 0, plus the bound. *)
Definition deadline : Z := rv_Now v 0 + wrap64 (default 0 (dp_MaxWaitMs p) * millisecond).

Definition readBy {A} (within : bool) (f : Store -> A) : Op A := if within then readWithin f else read f.

Definition requestBy (within : bool) : Op PermissionRow :=
  r <- readBy within (fun s => find (fun pr => where3 (ofToken id token pr)) (db_requests s));;
  match r with Some pr => ret (scanPermissionRow pr) | None => fail ENoRows end.
Definition readRequest : Op PermissionRow := requestBy bounded.
Definition GetPermissionRequestWithin : Op PermissionRow := requestBy true.
Definition getSpawn : Op SpawnRow :=
  r <- readBy bounded (fun s => db_spawns s !! id);;
  match r with Some sp => ret sp | None => fail ESpawnNotFound end.
Definition readAllRequests : Op (list PermissionRow) := readBy bounded (PermissionRequestsForSpawn id).

Definition dbReason : string := if bool_decide (dp_Decision p = "deny") then DecisionReasonOperator else "".

Definition writeError (e : error) : apiError :=
  match e with EStoreBusy => if bounded then AStore EStoreBusy else AInternal | _ => AStore e end.

(** A request that no verdict can be recorded on. *)
Definition settledRow (pr : PermissionRow) : bool :=
  negb (bool_decide (pw_Decision pr = "")) || Closed pr || PaneAnswered pr.

(** A request's read whose missing row is ErrNoOpenPermissionRequest. *)
Definition orNoRequest (e : error) : apiError := match e with ENoRows => ANoOpenPermissionRequest | _ => AStore e end.
Definition orNoSpawn (e : error) : apiError := match e with ESpawnNotFound => ANoOpenPermissionRequest | _ => AStore e end.

Definition finishedRowRefusal : Op apiError :=
  catch readRequest (fun r => ret (match r with
    | Err e => orNoRequest e
    | Ok pr => if settledRow pr then recordedRefusal pr else ANoOpenPermissionRequest
    end)).

Definition decideFallenBackDetails (sp : SpawnRow) (pr : PermissionRow) (verdict : hookVerdict) : Op RelayFallenBackDetails :=
  catch (judgedRequests v 3 1 readAllRequests sp) (fun r => ret (match r with
    | Err _ => mkFallenBack (permissionRequestInfo pr (delivery v pr verdict (rv_Now v 4))) (sp_state sp) None
    | Ok reqs => fallenBackDetails reqs (default pr (findToken reqs (pw_RequestToken pr)))
    end)).

(** The request as the write of a refused verdict leaves it. *)
Definition withAttempt (at_ : goTime) (gone : bool) (pr : PermissionRow) : PermissionRow :=
  let pr := pr <| pw_AttemptedDecision := dp_Decision p |> <| pw_AttemptedAt := at_ |> in
  if gone && IsZero (pw_HookGoneAt pr) then pr <| pw_HookGoneAt := at_ |> else pr.

Definition refuseFallenBack (sp : SpawnRow) (pr : PermissionRow) (verdict : hookVerdict) : Op apiError :=
  let at_ := stamped (rv_Now v 2) in
  catch (RecordRefusedDecision id token (dp_Decision p) at_ (if IsZero (pw_HookGoneAt pr) then at_ else None)) (fun r =>
    let pr := match r with Ok _ => withAttempt at_ true pr | Err _ => pr end in
    d <- decideFallenBackDetails sp pr verdict;;
    ret (ARelayFallenBack d)).

(** notWritten: every answer but the first two is ErrNoOpenPermissionRequest,
    with its own description. *)
Definition notWritten : Op apiError :=
  catch readRequest (fun r => match r with
    | Err e => ret (orNoRequest e)
    | Ok pr =>
        if settledRow pr then ret (recordedRefusal pr)
        else catch getSpawn (fun r => ret (match r with Err e => orNoSpawn e | Ok _ => ANoOpenPermissionRequest end))
    end).

(** *** The wait for the ack *)

Definition ackEnd : Z :=
  let end_ := rv_Now v 2 + decideAckWait in
  if bounded && (deadline <? end_) then deadline else end_.

Definition ackSleep (end_ : Z) (t : AckTurn) : Z :=
  let wait := Z.min decideAckPoll (end_ - ak_now t) in
  if bounded then Z.min wait (ak_lockWait t) else wait.

(** The request and the hook's verdict when the wait ends; [None] when the
    fuel runs out. The hook of turn [i] is judged at point [i + 1]. *)
Fixpoint ackLoop (fuel : nat) (end_ : Z) (i : nat) (pr : PermissionRow) : Op (option (PermissionRow * hookVerdict)) :=
  match fuel with
  | O => ret None
  | S fuel =>
      let t := de_Turn env i in
      let verdict := hook v (S i) pr in
      if ak_cancelled t then ret (Some (pr, verdict))
      else
        catch GetPermissionRequestWithin (fun r =>
          let pr := match r with Ok read => read | Err _ => pr end in
          if bool_decide (is_Some (match r with Ok read => pw_DeliveredAt read | Err _ => None end)) then ret (Some (pr, verdict))
          else if negb (ak_now t <? end_) then ret (Some (pr, verdict))
          else if ackSleep end_ t <=? 0 then ret (Some (pr, verdict))
          else ackLoop fuel end_ (S i) pr)
  end.

Definition awaitAck (fuel : nat) (pr : PermissionRow) : Op (option RequestDelivery) :=
  r <- ackLoop fuel ackEnd 0 pr;;
  ret (match r with
       | None => None
       | Some (pr, verdict) =>
           let d := delivery v pr verdict (rv_Now v 3) in
           Some (if bool_decide (dl_Delivery d = DeliveryDelivered) then d else d <| dl_Delivery := DeliveryNotConfirmed |>)
       end).

(** *** A request recorded before schema v7 *)

Definition fallenBackUnshown (sp : SpawnRow) (rows : list PermissionRow) (pr : PermissionRow) : bool :=
  negb (bool_decide (sp_state sp = StateCheckPermission))
  || existsb (fun r => pw_RequestID pr <? pw_RequestID r) rows
  || existsb (fun r => negb (pw_RequestID r =? pw_RequestID pr) && AwaitsAnswer r) rows.

Definition replaceRow (pr : PermissionRow) (rows : list PermissionRow) : list PermissionRow :=
  (fun r => if pw_RequestID r =? pw_RequestID pr then pr else r) <$> rows.

Definition fallenBackRefusal (pr : PermissionRow) : Op apiError :=
  catch getSpawn (fun r => match r with
  | Err e => ret (orNoSpawn e)
  | Ok sp =>
      catch readAllRequests (fun r => match r with
      | Err e => ret (AStore e)
      | Ok rows =>
          match find (fun r => pw_RequestID r =? pw_RequestID pr) rows with
          | None => ret ANoOpenPermissionRequest
          | Some pr =>
              if settledRow pr then ret (recordedRefusal pr)
              else if fallenBackUnshown sp rows pr then ret ANoOpenPermissionRequest
              else
                let at_ := stamped (rv_Now v 4) in
                catch (RecordRefusedDecision id token (dp_Decision p) at_ None) (fun r =>
                  let pr := match r with Ok _ => withAttempt at_ false pr | Err _ => pr end in
                  let reqs := lockedRequests v 5 2 sp (replaceRow pr rows) in
                  ret (ARelayFallenBack (fallenBackDetails reqs pr)))
          end
      end)
  end).

Definition namePreV7 (now : Z) (r : result PermissionRow) : Op apiError :=
  match r with
  | Err e => ret (orNoRequest e)
  | Ok pr =>
      if settledRow pr then ret (recordedRefusal pr)
      else if relayRequestFallenBack pr (rv_Window v) now then fallenBackRefusal pr
      else notWritten
  end.

Definition refusePreV7 : Op apiError :=
  let now := rv_Now v 3 in
  let window := rv_Window v in
  catch readRequest (fun r => match r with
  | Ok pr =>
      let created := nsOf (pw_CreatedAt pr) in
      let settled := relayHookSettledAt created window in
      if AwaitsAnswer pr && RelayRequestUndeliverable created window now && (now <? settled) then
        if bounded && ((deadline <? settled) || (de_LockWait env <? settled - now)) then ret AStoreBusy
        else catch readRequest (namePreV7 settled)
      else namePreV7 now r
  | Err _ => namePreV7 now r
  end).

Definition decidePreV7 (pr : PermissionRow) : Op (option (outcome RequestDelivery)) :=
  let cutoff := RelayDeliverabilityCutoff (rv_Now v 2) (rv_Window v) in
  catch (DecideRelayRequest id token (dp_Decision p) dbReason WriterProcessDecide (cutoff / nsPerMs)) (fun r => match r with
  | Err e => ret (Some (Refuse (writeError e)))
  | Ok false => e <- refusePreV7;; ret (Some (Refuse e))
  | Ok true =>
      catch GetPermissionRequestWithin (fun r =>
        let pr := match r with Ok read => read | Err _ => pr end in
        ret (Some (Done (delivery v pr hookCantTell (rv_Now v 3)))))
  end).

(** *** The verb; [None] when the fuel of the ack wait runs out *)

Definition refused (m : Op apiError) : Op (option (outcome RequestDelivery)) := e <- m;; ret (Some (Refuse e)).

Definition decideRequest (fuel : nat) (row : SpawnRow) : Op (option (outcome RequestDelivery)) :=
  catch (readOneJudged v readRequest 0) (fun r => match r with
  | Err e => refused (ret (orNoRequest e))
  | Ok (pr, verdict) =>
      if settledRow pr then refused (ret (recordedRefusal pr))
      else if PreV7 pr then decidePreV7 pr
      else if bool_decide (dl_Delivery (delivery v pr verdict (rv_Now v 1)) = DeliveryFallenBack)
      then refused (refuseFallenBack row pr verdict)
      else
        catch (DecideRelayRequest id token (dp_Decision p) dbReason WriterProcessDecide zeroTimeMillis) (fun r => match r with
        | Err e => refused (ret (writeError e))
        | Ok false => refused notWritten
        | Ok true => d <- awaitAck fuel pr;; ret (Done <$> d)
        end)
  end).

Definition decideWithin (fuel : nat) : Op (option (outcome RequestDelivery)) :=
  if bool_decide (token = "") then refused (ret AMissingRequestToken)
  else if negb (bool_decide (dp_Decision p = "allow")) && negb (bool_decide (dp_Decision p = "deny")) then
    refused (ret AInvalidDecision)
  else if default 0 (dp_MaxWaitMs p) <? 0 then refused (ret AInvalidFlags)
  else
    catch getSpawn (fun r => match r with
    | Err e => refused (ret (AStore e))
    | Ok row =>
        if negb (bool_decide (sp_relay_mode row = "on")) then refused (ret ARelayModeOff)
        else if finishedState (sp_state row) then refused finishedRowRefusal
        else decideRequest fuel row
    end).
End Decide.

(** decideOutcome, for ad.decide.called. *)
Definition decideOutcome (r : outcome RequestDelivery) : string :=
  match r with
  | Done _ => "ok"
  | Refuse (AStore EAmbiguousRequest) => "ErrAmbiguousRequest"
  | Refuse e =>
      if bool_decide (errorName e ∈ ["ErrMissingRequestToken"; "ErrInvalidDecision"; "ErrInvalidFlags"; "ErrRelayModeOff";
           "ErrRelayFallenBack"; "ErrStoreBusy"; "ErrSpawnNotFound"; "ErrAlreadyDecided"; "ErrNoOpenPermissionRequest"])
      then errorName e else "ErrInternal"
  end.
