(* ===== verification/DecideProps.v ===== *)
(** * Properties of decide

    A decide that reports success committed one verdict, and one that is
    refused recorded none; the wait for the ack ends and never reports a
    request fallen back; and what a reader is told of a verdict's delivery is
    settled by the ack. *)

From S2P Require Import Prelude Sql Text Bytes Rows Requests Settle Family Display History Steps Programs Gate HookWrites HookProps RelayWrites HookEnv Payload Classify RelayHook Protocol RequestInv RelayProps Lifecycle CursorWrites Process Handler Delivery Guard PaneAnswer PaneProps Decide.

(** ** What decide writes *)

(** The requests without what a refused verdict and a gone hook leave. *)
Definition plainRequest (r : PermReq) : PermReq :=
  r <| pr_hook_gone_at := None |> <| pr_attempted_decision := None |> <| pr_attempted_at := None |>.
Definition attempt_noted (s s' : Store) : Prop :=
  plainRequest <$> db_requests s' = plainRequest <$> db_requests s /\ db_spawns s' = db_spawns s.
Definition only_notes (own : list (Store * Store)) : Prop := Forall (fun x => attempt_noted (fst x) (snd x)) own.

Lemma ensures_refusedDecision id token d at_ gone :
  ensures (fun _ own => only_notes own) (RecordRefusedDecision id token d at_ gone).
Proof.
  unfold RecordRefusedDecision. eapply ensures_mono; [apply (ensures_txBounded (fun s _ s' => attempt_noted s s'))|].
  - intros s gs u s' gs' H%tstmt_Ok. injection H as <- <-. unfold updateReqs. split; rsimp; [|done].
    rewrite <-list_fmap_compose. apply list_fmap_ext. intros i r _. simpl. by case_match.
  - intros [u|e] own; simpl.
    + intros (s & s' & -> & H). constructor; [exact H|constructor].
    + intros [->|(_ & s & u & s' & -> & H)]; [constructor|]. constructor; [exact H|constructor].
Qed.

Section Decide.
Context (env : DecideEnv) (p : DecideParams).

Lemma silent_readBy {A} within (f : Store -> A) : silent (readBy within f : Op A).
Proof. unfold readBy. destruct within; auto with silent. Qed.
Hint Resolve silent_readBy : silent.
Lemma silent_requestBy within : silent (requestBy p within).
Proof. unfold requestBy. sil. Qed.
Lemma silent_getSpawn : silent (getSpawn p).
Proof. unfold getSpawn. sil. Qed.
Lemma silent_all : silent (readAllRequests p).
Proof. apply silent_readBy. Qed.
Lemma silent_details sp pr verdict : silent (decideFallenBackDetails env p sp pr verdict).
Proof. unfold decideFallenBackDetails. apply silent_catch; [apply silent_judgedRequests, silent_all|]. sil. Qed.
Hint Resolve silent_requestBy silent_getSpawn silent_all silent_details : silent.
Lemma silent_notWritten : silent (notWritten p).
Proof. unfold notWritten. sil; try apply silent_requestBy. Qed.
Lemma silent_finished : silent (finishedRowRefusal p).
Proof. unfold finishedRowRefusal. sil; try apply silent_requestBy. Qed.
Lemma silent_ackLoop fuel end_ i pr : silent (ackLoop env p fuel end_ i pr).
Proof.
  revert i pr. induction fuel as [|fuel IH]; intros i pr; [done|]. simpl. destruct (ak_cancelled _); [done|].
  apply silent_catch; [apply silent_requestBy|]. intros r. destruct (bool_decide _); [done|].
  destruct (negb _); [done|]. destruct (_ <=? 0); [done|]. apply IH.
Qed.
Lemma silent_awaitAck fuel pr : silent (awaitAck env p fuel pr).
Proof. unfold awaitAck. apply silent_bind; [apply silent_ackLoop|]. sil. Qed.

(** *** Refusals *)

Definition refuses {A} (r : result A) (own : list (Store * Store)) : Prop := returns r own /\ only_notes own.

Lemma refuses_silent {A} (m : Op A) : silent m -> results (fun _ => True) m -> ensures refuses m.
Proof.
  intros Hs Ht w. exists []. rewrite app_nil_r. split; [apply Hs|]. split; [|constructor].
  destruct (Ht w) as (a & E & _). by exists a.
Qed.

Lemma refuses_notWritten : ensures refuses (notWritten p).
Proof. apply refuses_silent; [apply silent_notWritten|]. unfold notWritten. rsl. Qed.
Lemma refuses_finished : ensures refuses (finishedRowRefusal p).
Proof. apply refuses_silent; [apply silent_finished|]. unfold finishedRowRefusal. rsl. Qed.

Lemma refuses_ret {A} (a : A) own : only_notes own -> ensures (fun r o => refuses r (own ++ o)) (ret a : Op A).
Proof. intros H. apply ensures_ret. rewrite app_nil_r. split; [by eexists|done]. Qed.

Lemma refuses_fallenBack sp pr verdict : ensures refuses (refuseFallenBack env p sp pr verdict).
Proof.
  unfold refuseFallenBack. cbv zeta. eapply ensures_catch; [apply ensures_refusedDecision|]. intros r o1 H1.
  apply (ensures_bind refuses).
  - apply refuses_silent; [apply silent_details|unfold decideFallenBackDetails; rsl].
  - intros d o2 [_ H2]. apply ensures_ret. rewrite app_nil_r. split; [by eexists|by apply Forall_app].
  - by intros e o2 [[? ?] _].
Qed.

Lemma refuses_fallenBackRefusal pr : ensures refuses (fallenBackRefusal env p pr).
Proof.
  unfold fallenBackRefusal. apply ensures_catch_silent; [apply silent_getSpawn|]. intros [sp|e]; [|by apply (refuses_ret _ []); constructor].
  apply ensures_catch_silent; [apply silent_all|]. intros [rows|e]; [|by apply (refuses_ret _ []); constructor].
  destruct (find _ rows) as [q|]; [|by apply (refuses_ret _ []); constructor].
  destruct (settledRow q); [by apply (refuses_ret _ []); constructor|].
  destruct (fallenBackUnshown sp rows q); [by apply (refuses_ret _ []); constructor|].
  cbv zeta. eapply ensures_catch; [apply ensures_refusedDecision|]. intros r o1 H1. by apply refuses_ret.
Qed.

Lemma refuses_namePreV7 now r : ensures refuses (namePreV7 env p now r).
Proof.
  unfold namePreV7. destruct r as [pr|e]; [|by apply (refuses_ret _ []); constructor].
  destruct (settledRow pr); [by apply (refuses_ret _ []); constructor|].
  destruct (relayRequestFallenBack _ _ _); [apply refuses_fallenBackRefusal|apply refuses_notWritten].
Qed.

Lemma refuses_preV7 : ensures refuses (refusePreV7 env p).
Proof.
  unfold refusePreV7. cbv zeta. apply ensures_catch_silent; [apply silent_requestBy|].
  intros [pr|e]; [|apply refuses_namePreV7]. destruct (AwaitsAnswer pr && _ && _); [|apply refuses_namePreV7].
  destruct (bounded p && _); [by apply (refuses_ret _ []); constructor|].
  apply ensures_catch_silent; [apply silent_requestBy|]. intros r. apply refuses_namePreV7.
Qed.

(** *** The verdict *)

(** One committed write: the verdict, on a request of that Spawn and token
    nobody had decided, acked, answered at the pane or closed, of a Spawn not
    finished. *)
Definition verdictRecorded (own : list (Store * Store)) : Prop :=
  exists s s' pr, own = [(s, s')] /\ pr ∈ db_requests s /\ pr_instance_id pr = dp_InstanceID p /\
    pr_request_token pr = dp_RequestToken p /\ pr_decision pr = None /\ pr_delivered_at pr = None /\
    pr_pane_answer pr = PaneAnswerNone /\ pr_closed_at pr = None /\ spawnFinished s (dp_InstanceID p) = false /\
    decideSet (dp_Decision p) (dbReason p) (nowSec s) pr ∈ db_requests s'.

Lemma decided_recorded cutoff own :
  decideWrote (dp_InstanceID p) (dp_RequestToken p) (dp_Decision p) (dbReason p) cutoff (Ok true) own -> verdictRecorded own.
Proof. intros (s & pr & -> & H1 & H2 & H3 & H4 & H5 & H6 & H7 & H8 & _ & H9). by eexists s, _, pr. Qed.

Definition decideLeft (r : result (option (outcome RequestDelivery))) (own : list (Store * Store)) : Prop :=
  match r with
  | Ok (Some (Done _)) | Ok None => verdictRecorded own
  | Ok (Some (Refuse e)) => e = AStore ECommitUnconfirmed \/ only_notes own
  | Err _ => False
  end.

Lemma left_refused m own : only_notes own -> ensures refuses m -> ensures (fun r o => decideLeft r (own ++ o)) (refused m).
Proof.
  intros H Hm. unfold refused. eapply ensures_bind; [apply Hm| |by intros e o [[? ?] _]].
  intros e o1 [_ H1]. apply ensures_ret. right. rewrite app_nil_r. by apply Forall_app.
Qed.
Lemma left_now e own : only_notes own -> ensures (fun r o => decideLeft r (own ++ o)) (refused (ret e)).
Proof. intros H. apply left_refused; [done|]. apply (refuses_ret e []). constructor. Qed.

Lemma left_writeError e own : e = ECommitUnconfirmed \/ own = [] ->
  ensures (fun r o => decideLeft r (own ++ o)) (refused (ret (writeError p e))).
Proof.
  intros [->| ->]; [|apply left_now; constructor]. apply ensures_ret. by left.
Qed.

Lemma silent_tail {A} (Q : result A -> list (Store * Store) -> Prop) own (m : Op A) :
  silent m -> (forall w, Q (fst (m w)) own) -> ensures (fun r o => Q r (own ++ o)) m.
Proof. intros Hs H w. exists []. rewrite !app_nil_r. split; [apply Hs|apply H]. Qed.

Lemma results_ackLoop fuel end_ i pr : results (fun _ => True) (ackLoop env p fuel end_ i pr).
Proof. revert i pr. induction fuel as [|fuel IH]; intros i pr; simpl; rsl; apply IH. Qed.

Lemma left_awaitAck fuel pr own : verdictRecorded own ->
  ensures (fun r o => decideLeft r (own ++ o)) (d <- awaitAck env p fuel pr;; ret (Done <$> d)).
Proof.
  intros H. apply silent_tail.
  - apply silent_bind; [apply silent_awaitAck|]. sil.
  - intros w. assert (results (fun _ => True) (d <- awaitAck env p fuel pr;; ret (Done <$> d))) as Ht.
    { unfold awaitAck. rsl. apply results_ackLoop. }
    destruct (Ht w) as (o & E & _). unfold bind in E |- *. destruct (awaitAck env p fuel pr w) as [[[d|]|e] w']; [| |done];
      injection E as <-; done.
Qed.

Lemma left_preV7 pr : ensures decideLeft (decidePreV7 env p pr).
Proof.
  unfold decidePreV7. cbv zeta. eapply ensures_catch; [apply ensures_decide|]. intros [[]|e] o1 H1.
  - apply silent_tail.
    + apply silent_catch; [apply silent_requestBy|]. sil.
    + intros w. unfold catch. destruct (GetPermissionRequestWithin p w) as [r w']. by eapply decided_recorded.
  - simpl in H1. subst o1. by apply (left_refused _ []); [constructor|apply refuses_preV7].
  - by apply left_writeError.
Qed.

Lemma left_request fuel row : ensures decideLeft (decideRequest env p fuel row).
Proof.
  unfold decideRequest. apply ensures_catch_silent.
  { unfold readOneJudged. apply silent_bind; [apply silent_requestBy|intros a]. cbv zeta.
    apply silent_bind; [apply silent_requestBy|]. sil. }
  intros [[pr verdict]|e]; [|by apply (left_now _ []); constructor].
  destruct (settledRow pr); [by apply (left_now _ []); constructor|].
  destruct (PreV7 pr); [apply left_preV7|].
  destruct (bool_decide _); [by apply (left_refused _ []); [constructor|apply refuses_fallenBack]|].
  eapply ensures_catch; [apply ensures_decide|]. intros [[]|e] o1 H1.
  - apply left_awaitAck. by eapply decided_recorded.
  - simpl in H1. subst o1. by apply (left_refused _ []); [constructor|apply refuses_notWritten].
  - by apply left_writeError.
Qed.
End Decide.

(** C26: A decide that reports success committed exactly one write, which
    recorded its verdict on a request of that Spawn and token that nobody had
    decided, acked, answered at the pane or closed, of a Spawn not finished.
    One that is refused recorded no decision: what it wrote is the verdict as
    attempted and when the hook was found gone, unless the verdict's COMMIT
    is unconfirmed, and then it says so. It never ends without an answer
    other than by the fuel of its ack wait. *)
Theorem decide_records_or_refuses (env : DecideEnv) (p : DecideParams) (fuel : nat) :
  ensures (fun r own => match r with
    | Ok (Some (Done _)) | Ok None => verdictRecorded p own
    | Ok (Some (Refuse e)) => e = AStore ECommitUnconfirmed \/ only_notes own
    | Err _ => False
    end) (decideWithin env p fuel).
Proof.
  eapply ensures_mono with (Q := decideLeft p); [|done]. unfold decideWithin.
  destruct (bool_decide _); [by apply (left_now _ _ []); constructor|].
  destruct (_ && _); [by apply (left_now _ _ []); constructor|].
  destruct (_ <? 0); [by apply (left_now _ _ []); constructor|].
  apply ensures_catch_silent; [apply silent_getSpawn|]. intros [row|e]; [|by apply (left_now _ _ []); constructor].
  destruct (negb _); [by apply (left_now _ _ []); constructor|].
  destruct (finishedState _); [by apply (left_refused _ _ []); [constructor|apply refuses_finished]|].
  apply left_request.
Qed.

(** ** The wait for the ack *)

(** The clock does not go back, and a turn that slept starts the next one no
    earlier than it slept for, or finds the context ended (a sleep that
    lockWait cut short ends with it). *)
Record ack_clock (env : DecideEnv) (p : DecideParams) : Prop := {
  ac_start : rv_Now (de_View env) 2 <= ak_now (de_Turn env 0);
  ac_sleep : forall i, ak_cancelled (de_Turn env (S i)) = true \/
    Z.min (ackEnd env p) (ak_now (de_Turn env i) + decideAckPoll) <= ak_now (de_Turn env (S i));
}.

Lemma ackLoop_ends env p fuel i pr : ack_clock env p -> (0 < fuel)%nat ->
  ak_cancelled (de_Turn env i) = true \/ ackEnd env p - ak_now (de_Turn env i) <= (Z.of_nat fuel - 1) * decideAckPoll ->
  results (fun r => is_Some r) (ackLoop env p fuel (ackEnd env p) i pr).
Proof.
  intros Hc. assert (0 < decideAckPoll) as Hp by done. revert i pr.
  induction fuel as [|fuel IH]; intros i pr Hf Ht; [lia|]. simpl.
  destruct (ak_cancelled (de_Turn env i)) eqn:Ec; [by apply results_ret; eexists|]. destruct Ht as [|Ht]; [done|].
  apply results_catch. intros r. destruct (bool_decide _); [by apply results_ret; eexists|].
  destruct (ak_now (de_Turn env i) <? ackEnd env p) eqn:En; simpl; [|by apply results_ret; eexists].
  apply Z.ltb_lt in En. destruct (_ <=? 0); [by apply results_ret; eexists|].
  assert (0 < fuel)%nat by nia. apply IH; [lia|]. destruct (ac_sleep env p Hc i) as [|Hn]; [by left|right]. nia.
Qed.

Lemma ackEnd_le env p : ackEnd env p <= rv_Now (de_View env) 2 + decideAckWait.
Proof. unfold ackEnd. cbv zeta. destruct (_ && _) eqn:E; [|lia]. apply andb_true_iff in E as [_ E]. apply Z.ltb_lt in E. lia. Qed.

(** Twenty-one turns are enough: one second at fifty milliseconds a turn. *)
Lemma awaitAck_ends env p fuel pr : ack_clock env p -> (21 <= fuel)%nat ->
  results (fun o => exists d, o = Some d /\ (dl_Delivery d = DeliveryDelivered \/ dl_Delivery d = DeliveryNotConfirmed))
    (awaitAck env p fuel pr).
Proof.
  intros Hc Hf. unfold awaitAck. apply (results_bind (fun r => is_Some r)).
  - apply ackLoop_ends; [done|lia|right]. pose proof (ackEnd_le env p). pose proof (ac_start env p Hc).
    assert (decideAckWait = 20 * decideAckPoll) by done. assert (0 < decideAckPoll) by done. nia.
  - intros [[q verdict]|] H; [|by destruct H]. apply results_ret. eexists. split; [done|].
    case_match eqn:E; [by apply bool_decide_eq_true in E; left|by right].
Qed.

Section Ends.
Context (env : DecideEnv) (p : DecideParams) (fuel : nat).
Context (Hc : ack_clock env p) (Hf : (21 <= fuel)%nat).

Lemma refused_ends m : ensures refuses m -> results (fun o => is_Some o) (refused m).
Proof.
  intros H. unfold refused. apply (results_bind (fun _ => True)); [|intros e _; by apply results_ret; eexists].
  intros w. destruct (H w) as (own & _ & [[a Ha] _]). by exists a.
Qed.
Lemma refused_now e : results (fun o => is_Some o) (refused (ret e)).
Proof. by apply refused_ends, (refuses_ret e []); constructor. Qed.

Lemma decideRequest_ends row : results (fun o => is_Some o) (decideRequest env p fuel row).
Proof.
  unfold decideRequest. apply results_catch. intros [[pr verdict]|e]; [|apply refused_now].
  destruct (settledRow pr); [apply refused_now|]. destruct (PreV7 pr).
  - unfold decidePreV7. cbv zeta. apply results_catch. intros [[]|e]; [|apply refused_ends, refuses_preV7|by apply results_ret; eexists].
    apply results_catch. intros r. by apply results_ret; eexists.
  - destruct (bool_decide _); [apply refused_ends, refuses_fallenBack|].
    apply results_catch. intros [[]|e]; [|apply refused_ends, refuses_notWritten|apply refused_now].
    eapply results_bind; [by apply awaitAck_ends|]. intros o (d & -> & _). by apply results_ret; eexists.
Qed.
End Ends.

(** C27: decide always ends with an answer: with a clock that runs, whatever
    other processes do and whatever fails, twenty-one turns of the ack wait
    are enough. *)
Theorem decide_ends (env : DecideEnv) (p : DecideParams) (fuel : nat) (w : World Store Event) :
  ack_clock env p -> (21 <= fuel)%nat -> exists o, fst (decideWithin env p fuel w) = Ok (Some o).
Proof.
  intros Hc Hf. assert (results (fun o => is_Some o) (decideWithin env p fuel)) as H.
  { unfold decideWithin. destruct (bool_decide _); [apply refused_now|]. destruct (_ && _); [apply refused_now|].
    destruct (_ <? 0); [apply refused_now|]. apply results_catch. intros [row|e]; [|apply refused_now].
    destruct (negb _); [apply refused_now|]. destruct (finishedState _); [apply refused_ends, refuses_finished|].
    by apply decideRequest_ends. }
  destruct (H w) as (o & E & [x ->]). by exists x.
Qed.

(** ** What a reader reports *)

(** What the protocol's phase of a request says of its delivery. *)
Definition phaseDelivery (p : phase) (v : hookVerdict) (settled : bool) : string :=
  match p with
    | Relayed _ => DeliveryDelivered
    | AtPane _ _ => DeliveryFallenBack
    | Waiting _ _ _ | Shut _ _ => match v with
        | hookAlive => DeliveryNotConfirmed
        | hookGone => DeliveryFallenBack
        | hookCantTell => if settled then DeliveryFallenBack else DeliveryNotConfirmed
        end
    end.

Lemma delivery_phase (r : PermReq) (v : hookVerdict) (settled : bool) :
  req_good r -> is_Some (pr_settled_at r) ->
  deliveryOf (scanPermissionRow r) v settled = phaseDelivery (phase_of r) v settled.
Proof.
  unfold phaseDelivery. intros Hg [t Ht]. pose proof (good_wf r Hg) as Hw. unfold deliveryOf, PreV7, PaneAnswered. simpl.
  rewrite !IsZero_millisTime by apply Hw.
  destruct (pr_delivered_at r) as [d|] eqn:Ed.
  { rewrite phase_relayed by (rewrite Ed; by eexists). by rewrite bool_decide_false. }
  rewrite (bool_decide_true (None = None)) by done. simpl. rewrite Ht, (bool_decide_false (Some t = None)) by done.
  destruct (decide (completedPane r)) as [Hp|Hp].
  - rewrite phase_at_pane by done. unfold completedPane in Hp. rewrite !elem_of_cons in Hp.
    by destruct Hp as [->|[->|[->|Hp%elem_of_nil]]].
  - rewrite !bool_decide_false by (intros E; apply Hp; unfold completedPane; rewrite E; set_solver).
    destruct (pr_closed_at r) as [c|] eqn:Ec; [rewrite phase_shut by (done || rewrite Ec; by eexists)|rewrite phase_waiting by done];
      by destruct v, settled.
Qed.

(** C28: The delivery reported of a request recorded from schema v7 on is what the
    relay protocol says of it: delivered exactly when its phase is relayed,
    fallen back once it was answered at the pane, and otherwise by its hook:
    not confirmed while the hook runs, fallen back when it is gone, and by
    the settle instant when that cannot be told. *)
Theorem reported_delivery_is_the_protocol_phase (r : PermReq) (v : hookVerdict) (settled : bool) :
  req_good r -> is_Some (pr_settled_at r) ->
  deliveryOf (scanPermissionRow r) v settled = match phase_of r with
    | Relayed _ => DeliveryDelivered
    | AtPane _ _ => DeliveryFallenBack
    | Waiting _ _ _ | Shut _ _ => match v with
        | hookAlive => DeliveryNotConfirmed
        | hookGone => DeliveryFallenBack
        | hookCantTell => if settled then DeliveryFallenBack else DeliveryNotConfirmed
        end
    end.
Proof. apply delivery_phase. Qed.

(** A verdict once delivered is delivered for good. *)
Lemma delivered_is_final r r' v v' st st' : req_good r -> req_evolves r r' -> is_Some (pr_settled_at r) ->
  deliveryOf (scanPermissionRow r) v st = DeliveryDelivered ->
  deliveryOf (scanPermissionRow r') v' st' = DeliveryDelivered /\ pr_decision r' = pr_decision r.
Proof.
  intros Hg He Hs. rewrite delivery_phase by done. unfold phaseDelivery. intros Hd.
  assert (is_Some (pr_delivered_at r)) as Ha.
  { destruct (pr_delivered_at r) as [t|] eqn:E; [by eexists|]. exfalso. revert Hd. unfold phase_of.
    rewrite E, bool_decide_false by (by intros [? ?]). repeat case_match; done. }
  destruct (ev_acked r r' He Ha) as (E1 & E2 & _). split; [|done].
  unfold deliveryOf. simpl. rewrite IsZero_millisTime by apply (good_wf r' (ev_good r r' He)).
  rewrite E1. destruct Ha as [t ->]. by rewrite bool_decide_false.
Qed.

(** ** Samples *)

(** Every relay hook runs; the clock turns every fifty milliseconds. *)
Definition aliveView : RelayView :=
  mkRelayView (Some (fun _ _ _ => mkStartAnswer "h90" true true)) (Some "") (fun _ => 250 * second) (600 * second).
Definition sampleTurn (i : nat) : AckTurn :=
  mkAckTurn false (250 * second + Z.of_nat i * decideAckPoll) (60 * second).
Definition sampleDecide : DecideEnv := mkDecideEnv aliveView (60 * second) sampleTurn.
Definition allowParams : DecideParams := mkDecide "leaf" "tok1" "allow" "" None.

Lemma sample_ack_clock : ack_clock sampleDecide allowParams.
Proof.
  split; [by vm_compute|]. intros i. right. replace (ackEnd sampleDecide allowParams) with (250 * second + decideAckWait) by by vm_compute.
  unfold sampleDecide, sampleTurn. simpl. assert (0 < decideAckPoll) by done. lia.
Qed.

Definition sampleAnswer := fst (decideWithin sampleDecide allowParams 21 (alone fallenStore [] [])).
Definition answeredAs (r : result (option (outcome RequestDelivery))) (delivery : string) : Prop :=
  match r with Ok (Some (Done d)) => dl_Delivery d = delivery | _ => False end.
Lemma decide_ends_witness :
  answeredAs sampleAnswer DeliveryNotConfirmed /\ exists o, sampleAnswer = Ok (Some o).
Proof.
  split; [by vm_compute|].
  exact (decide_ends sampleDecide allowParams 21 (alone fallenStore [] []) sample_ack_clock (le_n 21)).
Defined.

Lemma reported_delivery_is_the_protocol_phase_witness :
  deliveryOf (scanPermissionRow decidedReq) hookAlive true = DeliveryNotConfirmed /\
  phase_of decidedReq = Waiting true (Some "allow") None.
Proof.
  split; [|by vm_compute].
  assert (req_good decidedReq) as Hg.
  { pose proof sampleRequests_good as (_ & H & _). rewrite Forall_forall in H. apply H. unfold reqStore. simpl. set_solver. }
  etrans; [apply (reported_delivery_is_the_protocol_phase decidedReq hookAlive true Hg); by eexists|]. by vm_compute.
Defined.

(** A decide on a request whose hook is gone keeps the verdict as attempted
    only. *)
Example attempted_sample :
  let '(r, s, _) := run (decideWithin (mkDecideEnv goneView (60 * second) sampleTurn) allowParams 21) fallenStore in
  match r with Ok (Some (Refuse (ARelayFallenBack d))) => dl_AttemptedDecision (in_Delivery (fb_Request d)) = Some "allow" | _ => False end /\
  (pr_decision <$> db_requests s) = (pr_decision <$> db_requests fallenStore).
Proof. by vm_compute. Qed.
