(* ===== verification/FindMissing.v ===== *)
(** * find-missing (pkg/api: find_missing.go, find_missing_writes.go,
      find_missing_lookup.go, find_missing_repair.go, agent_pane.go)

    One run over the live rows: each is judged by its agent's process
    ([judgeLiveRow]) and, where that cannot be checked, by its socket's lookup
    through the run's one sweep ([lookupRow], [oursRow]); the outcome is
    written through the guarded writers ([markMissingSameLife] and the note
    writers). Afterwards provisional transcripts are healed and stale
    check_permission rows repaired.

    What the start-time reader answers is indexed by the point of the run that
    asks and by the row: 0 its launch owner, 1 its agent's process, 2 the
    lookup's server check, 3 the listing's, 4 an adopted server, 5 an adopted
    pane, 6 the adopted pane's process. *)

From S2P Require Import Prelude Sql Rows Requests Settle Family Display History Steps Programs Gate HookWrites RelayWrites HookEnv Payload Classify RelayHook Lifecycle CursorWrites Process Handler Bytes Tmux Sweep Delivery.

(** ** The live-row read (recovery.go) *)

Record LiveSpawnIdentity := mkLive {
  lv_InstanceID : string;
  lv_State : string;
  lv_LaunchStartedAtMillis : Z;
  lv_LivenessNote : string;
  lv_Snapshot : RowSnapshot;
  lv_Identity : LaunchIdentity;
  lv_LaunchOwner : ProcessIdentity;
  lv_Agent : option string;
  lv_EndReportedAtMillis : Z;
}.

Definition launchOwnerOf (r : SpawnRow) : ProcessIdentity :=
  mkProcessIdentity (coalesce (sp_launch_owner_pid r) 0) (coalesce (sp_launch_owner_starttime r) "")
    (coalesce (sp_launch_owner_pidns r) "").
Definition liveIdentity (p : string * SpawnRow) : LiveSpawnIdentity :=
  let '(id, r) := p in
  mkLive id (sp_state r) (launchStartedAtMillis r) (coalesce (sp_liveness_note r) "") (lifeSnapshot r) (lifeIdentity r)
    (launchOwnerOf r) (sp_agent r) (decodeEndReportedAt (dval_int (sp_end_reported_at r))).

Definition live_le (a b : LiveSpawnIdentity) : Prop := String.leb (lv_InstanceID a) (lv_InstanceID b) = true.
#[export] Instance live_le_dec a b : Decision (live_le a b).
Proof. unfold live_le. apply _. Defined.

Definition ListLiveSpawnIdentities (s : Store) : list LiveSpawnIdentity :=
  liveIdentity <$> filter (fun p => IsLiveState (sp_state (snd p)) = true) (map_to_list (db_spawns s)).

(** ** Constants *)

Definition reasonProcAbsent : string := "proc_absent".
Definition reasonTmuxAbsent : string := "tmux_absent".
Definition reasonTmuxNameHeld : string := "tmux_name_held".
Definition noteProbeEACCES : string := "probe_eacces".
Definition noteProcessNotSeenSessionPresent : string := "process_not_seen_session_present".
Definition noteProcessNotSeenTmuxUnchecked : string := "process_not_seen_tmux_unchecked".
Definition noteTmuxServerChanged : string := "tmux_server_changed".
Definition noteProvenanceConflict : string := LivenessNoteProvenanceConflict.
Definition noteUnreported : string := LivenessNoteUnreported.
Definition unusableNameNote (k : UnusableKind) : string :=
  match k with
  | UnusableEmpty => "tmux_session_name_empty"
  | UnusableControl => "tmux_session_name_control_char"
  | UnusableRewritten => "tmux_session_name_rewritten"
  | UnusableNone => ""
  end.
Definition tickLookupOutcome : string := "lookup_outcome".
Definition tickSessionName : string := "tmux_session_name".
Definition ReasonAdopted : string := "adopted".
Definition ReasonNameChanged : string := "name_changed".
Definition reasonStaleCheckPermission : string := "stale_check_permission".
Definition disagreeReasons : list string :=
  [ReasonServerRestarted; ReasonServerMismatch; ReasonAdopted; ReasonDuplicateLabel; ReasonScopeValue; ReasonNameChanged].

Definition findMissingActionMarked : string := "marked_missing".
Definition findMissingActionLeftLive : string := "left_live".
Definition findMissingActionUnreported : string := "left_unreported".
Definition findMissingActionUnverified : string := "left_unverified".
Definition findMissingActionChanged : string := "left_changed".
Definition findMissingActionStoreError : string := "store_error".

(** One ad.provenance.disagree record (provenance_disagree.go), and the one of
    a lookup's result. *)
Definition disagreeRecord (verb id socket name session current server verdict action reason : string) : Event :=
  EvProvenanceDisagree verb id reason socket name (nullableString session)
    (if bool_decide (reason = ReasonNameChanged) then Some current else None)
    (if bool_decide (server = "") then ServerUnknown else server) verdict action.
Definition provenanceDisagree (verb id socket name : string) (from : Result) (action reason : string) : Event :=
  disagreeRecord verb id socket name (from_option ss_ID "" (rs_Session from)) (from_option ss_Name "" (rs_Session from))
    (rs_Server from) (if bool_decide (Token from = "") then "not_run" else Token from) action reason.

(** ** The row writers (find_missing_writes.go) *)

Record findMissingWrite := mkWrite {
  fw_Listed : bool;
  fw_Wrote : bool;
  fw_Res : option CondResult;
  fw_Err : option error;
}.
Definition noWrite : findMissingWrite := mkWrite false false None None.
Definition storeFailed (e : error) : findMissingWrite := mkWrite false true None (Some e).

Definition noteTickReason (readNote note : string) : option string :=
  if bool_decide (note = readNote) then None
  else if bool_decide (note = noteProvenanceConflict) then Some noteProvenanceConflict
  else if bool_decide (readNote = "") then Some note
  else None.

Section Writers.
Context (settleMs : Z) (id : string) (examined : RowSnapshot).

(** emitMarkTick after a mark or a move that applied. *)
Definition markSameLife (listed : bool) (newState reason : string) (extra : list (string * string))
    (m : Op (string * CondResult)) : Op findMissingWrite :=
  catch m (fun r => match r with
    | Err e => ret (storeFailed e)
    | Ok (prior, CondApplied) =>
        emit (EvFindMissingTick id (Some prior) (Some newState) reason extra);;;
        ret (mkWrite listed true (Some CondApplied) None)
    | Ok (_, res) => ret (mkWrite false true (Some res) None)
    end).
Definition markMissingSameLife (reason : string) (extra : list (string * string)) : Op findMissingWrite :=
  markSameLife true "missing" reason extra (MarkMissingIfSameLife settleMs id examined).
Definition markEndedSameLife (reason : string) (extra : list (string * string)) : Op findMissingWrite :=
  markSameLife false "ended" reason extra (MarkEndedIfSameLife settleMs id examined).

Definition emitNoteTick (readNote note : string) : Op unit :=
  match noteTickReason readNote note with
  | None => ret tt
  | Some reason => emit (EvFindMissingTick id None None reason [])
  end.
(** A guarded note write, its tick when it applied. *)
Definition noteSameLife (listed : bool) (tick : Op unit) (m : Op CondResult) : Op findMissingWrite :=
  catch m (fun r => match r with
    | Err e => ret (storeFailed e)
    | Ok CondApplied => tick;;; ret (mkWrite listed true (Some CondApplied) None)
    | Ok res => ret (mkWrite false true (Some res) None)
    end).

Definition writeUnreportedNote (readNote : string) : Op findMissingWrite :=
  if bool_decide (readNote = noteUnreported) then ret noWrite
  else noteSameLife false (emitNoteTick readNote noteUnreported) (NoteUnreportedIfSameLife settleMs id examined).
Definition writeLivenessNote (readNote note : string) : Op findMissingWrite :=
  if bool_decide (note = readNote) then ret (mkWrite true false None None)
  else noteSameLife true (emitNoteTick readNote note) (SetLivenessNoteIfSameLife settleMs id examined note).
Definition clearLivenessNote (readNote : string) : Op findMissingWrite :=
  if bool_decide (readNote = "") then ret noWrite
  else noteSameLife false (ret tt) (ClearLivenessIfSameLife settleMs id examined).
End Writers.

(** ** Adoption (agent_pane.go) *)

Record adoption := mkAdoption {
  ad_Identity : LaunchIdentity;
  ad_Due : bool;
  ad_Pane : PaneMatch;
}.

Definition adoptionDue (recorded : LaunchIdentity) (res : Result) : bool :=
  bool_decide (rs_Verdict res = Ours) && (rs_Adopt res || bool_decide (li_PaneID recorded = "")).
Definition adoptionNeedsListing (recorded : LaunchIdentity) : bool := bool_decide (li_PaneID recorded = "").

(** [server] and [pane] are what the reader answers of an adopted server and
    of an adopted pane. *)
Definition findAdoption (recorded : LaunchIdentity) (res : Result) (panes : list Pane) (server pane : Z -> StartAnswer) : adoption :=
  if negb (adoptionDue recorded res) then mkAdoption recorded false PaneNone
  else
    let i := if rs_Adopt res then
               mkLaunchIdentity (li_Token recorded) (li_Socket recorded) (rs_ServerPID res) (rs_ServerStart res)
                 (KnownStartTime server (rs_ServerPID res)) (li_PaneID recorded) (li_PanePID recorded) (li_PaneStarttime recorded)
             else recorded in
    if adoptionNeedsListing recorded then
      let '(p, m) := PaneByToken panes (li_Token recorded) in
      mkAdoption
        (match m with
         | PaneOne => mkLaunchIdentity (li_Token i) (li_Socket i) (li_ServerPID i) (li_ServerStart i) (li_ServerStarttime i)
                        (pa_ID p) (pa_PID p) (KnownStartTime pane (pa_PID p))
         | _ => i
         end) true m
    else mkAdoption i true PaneNone.

Record sweepAdoption := mkSweepAdoption {
  sa_Identity : LaunchIdentity;
  sa_Pane : PaneMatch;
  sa_Applied : bool;
  sa_Unlisted : bool;
  sa_Listing : Result;
  sa_Guard : RowSnapshot;
  sa_Write : findMissingWrite;
  sa_Left : bool;
}.

(** ** A run *)

Record FindMissingEnv := mkFindMissingEnv {
  fe_Grace : Z;                                        (* pendingGrace *)
  fe_Now : Z;                                          (* sweepNow *)
  fe_Start : nat -> string -> Z -> StartAnswer;
  fe_Namespace : string -> option string;              (* SelfPIDNamespace, when the row's owner is judged *)
  fe_Sweep : SweepEnv;
  fe_CallerSocket : option string;                     (* ResolveQuerySocket, or its refusal *)
  fe_StoreID : string;
  fe_ConfigDir : string -> option string;              (* CLAUDE_CONFIG_DIR of a row's extra_env, if that decodes *)
  fe_Transcript : string -> string -> string -> option string;
    (* the transcript of a config dir, cwd and session, when it is on disk *)
}.

Record findMissingRow := mkRow {
  fm_write : findMissingWrite;
  fm_marked : bool;
  fm_action : string;
  fm_disagree : list string;
  fm_socket : string;
  fm_res : Result;
  fm_listing : Result;
}.
Definition zeroRow : findMissingRow := mkRow noWrite false "" [] "" zeroResult zeroResult.

Definition findMissingAction (r : findMissingRow) : string :=
  match fw_Err (fm_write r) with
  | Some _ => findMissingActionStoreError
  | None =>
      if fw_Wrote (fm_write r) && negb (bool_decide (fw_Res (fm_write r) = Some CondApplied)) then findMissingActionChanged
      else fm_action r
  end.

(** The run's state: its sweep, and whether the refusal of the caller's
    socket has been given. *)
Definition findMissingRun : Type := Sweep * bool.

Definition rowLaunch (id : string) (i : LaunchIdentity) (storeID socket : string) : Launch :=
  mkLaunch id (li_Token i) storeID socket (li_ServerPID i) (li_ServerStart i) (li_ServerStarttime i).

Definition LaunchOwnerAlive (start : Z -> StartAnswer) (ns : option string) (owner : ProcessIdentity) : bool :=
  if pi_PID owner <=? 0 then false
  else if negb (bool_decide (ns = Some (pi_PIDNamespace owner))) then false
  else bool_decide (JudgeProcess (start (pi_PID owner)) (pi_PID owner) (pi_Starttime owner) = ProcAlive).

Definition notCalledNote (state : ProcState) : string :=
  if bool_decide (state = ProcUnknown) then noteProbeEACCES else noteProcessNotSeenTmuxUnchecked.

Definition nameChanged (res : Result) (recordedName : string) : bool :=
  bool_decide (rs_Verdict res = Ours)
  && negb (bool_decide (from_option ss_Name "" (rs_Session res) ∈ StoredForms recordedName)).

Section Run.
Context (settleMs : Z) (env : FindMissingEnv).

Section Row.
Context (it : LiveSpawnIdentity).
Let id := lv_InstanceID it.
Let start (k : nat) : Z -> StartAnswer := fe_Start env k id.

(** *** A row's outcome *)

Definition withWrite (row : findMissingRow) (marked : bool) (action : string) (m : Op findMissingWrite) : Op findMissingRow :=
  w <- m;;
  ret (mkRow w marked action (fm_disagree row) (fm_socket row) (fm_res row) (fm_listing row)).

Definition markRow (row : findMissingRow) (guard : RowSnapshot) (reason : string) (extra : list (string * string)) : Op findMissingRow :=
  withWrite row true findMissingActionMarked (markMissingSameLife settleMs id guard reason extra).
Definition goneRow (row : findMissingRow) (guard : RowSnapshot) : Op findMissingRow :=
  if negb (bool_decide (lv_Agent it = Some AgentCodex)) || (lv_EndReportedAtMillis it <=? 0) then
    markRow row guard reasonProcAbsent []
  else withWrite row true findMissingActionMarked (markEndedSameLife settleMs id guard reasonProcAbsent []).
Definition noteRow (row : findMissingRow) (guard : RowSnapshot) (note : string) : Op findMissingRow :=
  withWrite row (fm_marked row) findMissingActionUnverified (writeLivenessNote settleMs id guard (lv_LivenessNote it) note).
Definition unreportedRow (row : findMissingRow) (guard : RowSnapshot) : Op findMissingRow :=
  withWrite row (fm_marked row) findMissingActionUnreported (writeUnreportedNote settleMs id guard (lv_LivenessNote it)).
Definition clearRow (row : findMissingRow) (guard : RowSnapshot) : Op findMissingRow :=
  withWrite row (fm_marked row) findMissingActionLeftLive (clearLivenessNote settleMs id guard (lv_LivenessNote it)).

Definition aliveRow (row : findMissingRow) (guard : RowSnapshot) (ident : LaunchIdentity) : Op findMissingRow :=
  if bool_decide (lv_State it = StatePending) && (0 <? li_PanePID ident) then
    if bool_decide (lv_LivenessNote it = noteProvenanceConflict) then
      ret (mkRow (fm_write row) (fm_marked row) findMissingActionLeftLive (fm_disagree row) (fm_socket row) (fm_res row)
             (fm_listing row))
    else unreportedRow row guard
  else clearRow row guard.

(** The agent's process, from the SessionStart identity and a pane's. *)
Definition agentProcess (i : LaunchIdentity) : ProcIdentity :=
  ap_Identity (SelectAgentProcess (mkProc (rs_PID (lv_Snapshot it)) (rs_ProcStarttime (lv_Snapshot it)))
                 (mkProc (li_PanePID i) (li_PaneStarttime i))).
Definition judged (k : nat) (i : LaunchIdentity) : ProcState :=
  JudgeProcess (start k (pc_PID (agentProcess i))) (pc_PID (agentProcess i)) (pc_Starttime (agentProcess i)).

(** *** The tmux path (find_missing_lookup.go) *)

Definition heldHolder (res : Result) : option Session :=
  if rs_HolderAmbiguous res then None else rs_Holder res.
(** emitRowNameHeld: carries_this_id and current_launch from the holder's
    class, which a Can't tell result does not have. *)
Definition emitRowNameHeld (row : findMissingRow) : Op unit :=
  let res := fm_res row in
  let holder := heldHolder res in
  let class := if bool_decide (rs_Verdict res = CantTell) then None else holder ≫= fun _ => rs_HolderClass res in
  emit (EvNameHeld "ad_find_missing" id (rs_TmuxSessionName (lv_Snapshot it)) (fm_socket row)
          (ss_ID <$> holder) (ss_Created <$> holder)
          ((fun c => bool_decide (c = ClassCurrent \/ c = ClassOld)) <$> class)
          (class ≫= fun c => match c with ClassCurrent => Some true | ClassOld => Some false | _ => None end)
          (Token res)
          (match fw_Err (fm_write row), fw_Res (fm_write row) with
           | Some _, _ => "still_pending"
           | None, Some CondApplied => "marked_missing"
           | None, _ => "left_changed"
           end)).

Definition lookupMarkRow (row : findMissingRow) (guard : RowSnapshot) : Op findMissingRow :=
  let extra := [(tickLookupOutcome, Token (fm_res row))] in
  if bool_decide (rs_Holder (fm_res row) = None) && negb (rs_HolderAmbiguous (fm_res row)) then
    markRow row guard reasonTmuxAbsent extra
  else
    row <- markRow row guard reasonTmuxNameHeld (extra ++ [(tickSessionName, rs_TmuxSessionName (lv_Snapshot it))]);;
    emitRowNameHeld row;;;
    ret row.

Definition adoptInSweep (sw : Sweep) (launch : Launch) (res : Result) : Op (sweepAdoption * Sweep) :=
  let recorded := lv_Identity it in
  let keep pane unlisted listing := mkSweepAdoption recorded pane false unlisted listing (lv_Snapshot it) noWrite false in
  let adopt panes sw :=
    let a := findAdoption recorded res panes (start 4) (start 5) in
    let out applied guard w left := mkSweepAdoption (ad_Identity a) (ad_Pane a) applied false zeroResult guard w left in
    if bool_decide (ad_Identity a = recorded) then ret (out false (lv_Snapshot it) noWrite false, sw)
    else
      catch (AdoptIdentityIfSameLife settleMs id (lv_Snapshot it) (ad_Identity a)) (fun r => ret (match r with
        | Err e => out false (lv_Snapshot it) (storeFailed e) true
        | Ok (CondApplied, now) => out true now (mkWrite false true (Some CondApplied) None) false
        | Ok (cr, _) => out false (lv_Snapshot it) (mkWrite false true (Some cr) None) true
        end, sw)) in
  if negb (adoptionDue recorded res) then ret (keep PaneNone false zeroResult, sw)
  else if adoptionNeedsListing recorded then
    match ListPanes (fe_Sweep env) launch (start 3) sw with
    | (inl listing, sw) => ret (keep PaneNone true listing, sw)
    | (inr panes, sw) => adopt panes sw
    end
  else adopt [] sw.

(** The row judged by the pane its adoption found. *)
Definition adoptedPaneRow (row : findMissingRow) (sa : sweepAdoption) : Op findMissingRow :=
  match judged 6 (sa_Identity sa) with
  | ProcAlive => aliveRow row (sa_Guard sa) (sa_Identity sa)
  | ProcGone => goneRow row (sa_Guard sa)
  | ProcUnknown => noteRow row (sa_Guard sa) noteProbeEACCES
  | ProcNone => noteRow row (sa_Guard sa) noteProcessNotSeenSessionPresent
  end.

Definition oursRow (row : findMissingRow) (state : ProcState) (launch : Launch) (run : findMissingRun)
    : Op (findMissingRow * findMissingRun) :=
  sas <- adoptInSweep (fst run) launch (fm_res row);;
  let '(sa, sw) := sas in
  let disagree := if sa_Applied sa then fm_disagree row ++ [ReasonAdopted] else fm_disagree row in
  let row := mkRow (fm_write row) (fm_marked row) (fm_action row) disagree (fm_socket row) (fm_res row) (sa_Listing sa) in
  row <-
    (if sa_Left sa then ret (mkRow (sa_Write sa) (fm_marked row) (fm_action row) disagree (fm_socket row) (fm_res row)
                               (sa_Listing sa))
     else if bool_decide (state = ProcUnknown) then noteRow row (sa_Guard sa) noteProbeEACCES
     else if negb (adoptionNeedsListing (lv_Identity it)) || sa_Unlisted sa || bool_decide (sa_Pane sa = PaneMany) then
       noteRow row (sa_Guard sa) noteProcessNotSeenSessionPresent
     else if bool_decide (sa_Pane sa = PaneNone) then
       markRow row (sa_Guard sa) reasonTmuxAbsent [(tickLookupOutcome, Token (fm_res row))]
     else adoptedPaneRow row sa);;
  ret (row, (sw, snd run)).

Definition lookupRow (state : ProcState) (run : findMissingRun) : Op (findMissingRow * findMissingRun) :=
  let '(sock, refused) := forRow (fe_CallerSocket env) (snd run) (li_Socket (lv_Identity it)) in
  let '(socket, res, launch, sw) :=
    match sock with
    | inl res => ("", res, rowLaunch "" zeroIdentity "" "", fst run)
    | inr socket =>
        let launch := rowLaunch id (lv_Identity it) (fe_StoreID env) socket in
        let '(res, sw) := Lookup (fe_Sweep env) launch (start 2) (rs_TmuxSessionName (lv_Snapshot it)) (fst run) in
        (socket, res, launch, sw)
    end in
  let run := (sw, refused) in
  let row disagree := mkRow noWrite false "" disagree socket res zeroResult in
  let done (m : Op findMissingRow) := r <- m;; ret (r, run) in
  let notCalled := notCalledNote state in
  if rs_Skipped res then done (noteRow (row []) (lv_Snapshot it) notCalled)
  else
    match rs_Verdict res, rs_CantTell res with
    | Ours, _ =>
        let disagree := if nameChanged res (rs_TmuxSessionName (lv_Snapshot it)) then rs_Disagree res ++ [ReasonNameChanged]
                        else rs_Disagree res in
        oursRow (row disagree) state launch run
    | Leftover, _ | Gone, _ => done (lookupMarkRow (row (rs_Disagree res)) (lv_Snapshot it))
    | CantTell, CantTellDifferentServer => done (noteRow (row (rs_Disagree res)) (lv_Snapshot it) noteTmuxServerChanged)
    | CantTell, CantTellProvenanceConflict => done (noteRow (row (rs_Disagree res)) (lv_Snapshot it) noteProvenanceConflict)
    | _, _ => done (noteRow (row (rs_Disagree res)) (lv_Snapshot it) notCalled)
    end.

Definition judgeLiveRow (run : findMissingRun) : Op (findMissingRow * findMissingRun) :=
  let done (m : Op findMissingRow) := r <- m;; ret (r, run) in
  match judged 1 (lv_Identity it) with
  | ProcAlive => done (aliveRow zeroRow (lv_Snapshot it) (lv_Identity it))
  | ProcGone => done (goneRow zeroRow (lv_Snapshot it))
  | (ProcUnknown | ProcNone) as state =>
      let note := unusableNameNote (Unusable (rs_TmuxSessionName (lv_Snapshot it))) in
      if negb (bool_decide (note = "")) then done (noteRow zeroRow (lv_Snapshot it) note)
      else lookupRow state run
  end.

(** *** ad.provenance.disagree *)

Definition disagreeEvent (row : findMissingRow) (reason : string) : list Event :=
  let from := if bool_decide (reason ∈ fm_disagree row) then Some (fm_res row)
              else if bool_decide (reason ∈ rs_Disagree (fm_listing row)) then Some (fm_listing row)
              else None in
  match from with
  | None => []
  | Some from =>
      [provenanceDisagree "find-missing" id (if bool_decide (fm_socket row = "") then li_Socket (lv_Identity it) else fm_socket row)
         (rs_TmuxSessionName (lv_Snapshot it)) from (findMissingAction row) reason]
  end.
Definition emitDisagree (row : findMissingRow) : Op unit := emits (disagreeReasons ≫= disagreeEvent row).

(** A row left as it is: inside its grace period, or held by its launch. *)
Definition notJudged : bool :=
  InsidePendingGrace (lv_State it) (lv_LaunchStartedAtMillis it) (Z.quot (fe_Grace env) millisecond) (fe_Now env / millisecond)
  || (bool_decide (lv_State it = StatePending) && LaunchOwnerAlive (start 0) (fe_Namespace env id) (lv_LaunchOwner it)).
End Row.

(** ** The sweep *)

(** The ids marked missing and left unverified, in the order judged. *)
Fixpoint judgeRows (its : list LiveSpawnIdentity) (run : findMissingRun) : Op (list string * list string) :=
  match its with
  | [] => ret ([], [])
  | it :: its =>
      if notJudged it then judgeRows its run
      else
        judged <- judgeLiveRow it run;;
        let '(row, run) := judged in
        emitDisagree it row;;;
        rest <- judgeRows its run;;
        let '(missing, unverified) := rest in
        ret (if negb (fw_Listed (fm_write row)) then (missing, unverified)
             else if fm_marked row then (lv_InstanceID it :: missing, unverified)
             else (missing, lv_InstanceID it :: unverified))
  end.

(** *** Provisional transcripts *)

Record ProvisionalTranscript := mkProvisional {
  pt_InstanceID : string;
  pt_SessionID : string;
  pt_CWD : string;
  pt_ConfigDir : string;
}.
Definition provisional (r : SpawnRow) : bool :=
  where3 (is_null (sp_jsonl_path r) AND not_null (sp_session_id r) AND sql_ne (sp_session_id r) (Some "")
          AND sql_ne (sp_agent r) (Some AgentCodex) AND sql_ne (sp_agent r) (Some AgentCursor) AND Some (IsLiveState (sp_state r))).
(** [None]: an extra_env that does not decode fails the read. *)
Definition ListProvisionalTranscripts (s : Store) : option (list ProvisionalTranscript) :=
  mapM (fun p => let '(id, r) := p in
          mkProvisional id (coalesce (sp_session_id r) "") (sp_cwd r) <$> fe_ConfigDir env (sp_extra_env r))
    (filter (fun p => provisional (snd p) = true) (map_to_list (db_spawns s))).

Fixpoint healAll (pts : list ProvisionalTranscript) : Op unit :=
  match pts with
  | [] => ret tt
  | pt :: pts =>
      match fe_Transcript env (pt_ConfigDir pt) (pt_CWD pt) (pt_SessionID pt) with
      | None => healAll pts
      | Some path => catch (HealJsonlPath (pt_InstanceID pt) (pt_SessionID pt) path) (fun _ => healAll pts)
      end
  end.
Definition healProvisionalTranscripts : Op unit :=
  catch (read ListProvisionalTranscripts) (fun r => match r with
    | Ok (Some pts) => healAll pts
    | _ => ret tt
    end).

Record FindMissingResult := mkFound {
  fr_Count : Z;
  fr_IDs : list string;
  fr_Unverified : Z;
  fr_UnverifiedIDs : list string;
}.
Definition string_le (a b : string) : Prop := String.leb a b = true.
#[export] Instance string_le_dec a b : Decision (string_le a b).
Proof. unfold string_le. apply _. Defined.

(** The rows' half of a run; the transcripts' follows it. *)
Definition judgeLiveRows : Op (list string * list string) :=
  its <- read ListLiveSpawnIdentities;;
  judgeRows (merge_sort live_le its) (NewSweep, false).
Definition FindMissing : Op FindMissingResult :=
  judged <- judgeLiveRows;;
  healProvisionalTranscripts;;;
  let '(missing, unverified) := judged in
  ret (mkFound (Z.of_nat (length missing)) (merge_sort string_le missing)
         (Z.of_nat (length unverified)) (merge_sort string_le unverified)).

(** ** The repair of check_permission rows (find_missing_repair.go) *)

(** The row's hooks are judged at point [k] and its clock read at point [k]. *)
Definition mayHaveLiveHook (v : RelayView) (k : nat) (reqs : list PermissionRow) : bool :=
  existsb (fun pr => negb (Closed pr) && (rv_Now v k <? confirmBy v pr) && negb (bool_decide (hook v k pr = hookGone))) reqs.

Fixpoint repairRows (v : RelayView) (k : nat) (its : list LiveSpawnIdentity) : Op unit :=
  match its with
  | [] => ret tt
  | it :: its =>
      let next := repairRows v (S k) its in
      if negb (bool_decide (lv_State it = StateCheckPermission)) then next
      else
        catch (read (PermissionRequestsForSpawn (lv_InstanceID it))) (fun r => match r with
        | Err _ => next
        | Ok reqs =>
            if mayHaveLiveHook v k reqs then next
            else
              catch (RepairCheckPermissionIfSameLife settleMs (lv_InstanceID it) (lv_Snapshot it)) (fun r => match r with
              | Ok (newState, CondApplied) =>
                  emit (EvFindMissingTick (lv_InstanceID it) (Some StateCheckPermission) (Some newState)
                          reasonStaleCheckPermission []);;;
                  next
              | _ => next
              end)
        end)
  end.
Definition RepairCheckPermission (v : RelayView) : Op unit :=
  catch (read ListLiveSpawnIdentities) (fun r => match r with
    | Err _ => ret tt
    | Ok its => repairRows v 0 its
    end).

(** The Client's verb. *)
Definition ClientFindMissing (v : RelayView) : Op FindMissingResult :=
  res <- FindMissing;;
  RepairCheckPermission v;;;
  ret res.
End Run.
