(* ===== verification/FindMissingProps.v ===== *)
(** * Properties of find-missing

    Every write of a run is a write of one row the run judged, of the life it
    examined, that what the run saw warrants ([warranted]): the processes, and
    what tmux answered of the row's own socket. The ids it lists are the rows
    it moved to missing. *)

From S2P Require Import Prelude Sql Rows Requests Settle Family Display History Steps Programs Gate HookWrites HookProps RelayWrites RequestInv RelayProps HookEnv Payload Classify RelayHook Lifecycle LifecycleProps CursorWrites Process Handler Bytes Tmux TmuxProps Sweep SweepProps Delivery FindMissing.

#[export] Instance snapshotOp_eq_dec : EqDecision snapshotOp.
Proof. solve_decision. Defined.

(** ** What a lookup shows *)

(** No session of the launch: a listing of a server that stands for the row,
    with no label out of place, in which no session carries its label; or no
    server answered and the recorded one is gone. *)
Definition noCurrent (row : Launch) (start : Z -> StartAnswer) (call : CallErr + LookupAnswer) : Prop :=
  (exists ans, answered row start call ans /\
     forall s, s ∈ an_Sessions ans -> ClassOf row (ss_Label s) <> ClassCurrent) \/
  ((call = inl (CallFailure FailNoServer) \/ call = inl (CallFailure FailNoSocket)) /\ serverStands row start None).

Lemma none_current row ans : sessionsOf row ClassCurrent (an_Sessions ans) = [] ->
  forall s, s ∈ an_Sessions ans -> ClassOf row (ss_Label s) <> ClassCurrent.
Proof. intros H s Hs. by eapply none_of_class. Qed.

Lemma shown_noCurrent row start call holder :
  rs_Verdict (resultForCall row start call holder) = Gone \/ rs_Verdict (resultForCall row start call holder) = Leftover ->
  noCurrent row start call.
Proof.
  pose proof (verdict_says row start call holder) as H. cbv zeta in H. intros [E|E]; rewrite E in H.
  - destruct H as [(ans & Ha & Hc & _)|H]; [left|by right]. exists ans. split; [done|by apply none_current].
  - destruct H as (ans & Ha & Hc & _). left. exists ans. split; [done|by apply none_current].
Qed.

(** ** What warrants a write *)

Section Warranted.
Context (env : FindMissingEnv) (it : LiveSpawnIdentity).

(** The row's own socket, the launch looked up on it, and the lookup's result
    by what tmux answered of that socket. *)
Definition rowSocket : option string :=
  if bool_decide (li_Socket (lv_Identity it) = "") then fe_CallerSocket env else Some (li_Socket (lv_Identity it)).
Definition itLaunch (socket : string) : Launch := rowLaunch (lv_InstanceID it) (lv_Identity it) (fe_StoreID env) socket.
Definition shown (socket : string) : Result :=
  resultForCall (itLaunch socket) (fe_Start env 2 (lv_InstanceID it)) (sv_Lookup (fe_Sweep env) socket)
    (rs_TmuxSessionName (lv_Snapshot it)).

(** Its process could not be checked, its name can be looked up, and the
    lookup shows [P]. *)
Definition unchecked : Prop :=
  judged env it 1 (lv_Identity it) = ProcUnknown \/ judged env it 1 (lv_Identity it) = ProcNone.
Definition lookedUp (P : Result -> Prop) : Prop :=
  unchecked /\ Unusable (rs_TmuxSessionName (lv_Snapshot it)) = UnusableNone /\
  exists socket, rowSocket = Some socket /\ P (shown socket).
Definition ownSessionThere : Prop := lookedUp (fun r => rs_Verdict r = Ours).
Definition noSessionThere : Prop :=
  unchecked /\ Unusable (rs_TmuxSessionName (lv_Snapshot it)) = UnusableNone /\
  exists socket, rowSocket = Some socket /\
    noCurrent (itLaunch socket) (fe_Start env 2 (lv_InstanceID it)) (sv_Lookup (fe_Sweep env) socket).

(** A lost create reply: no process and no pane is recorded, the row's own
    session is there, and tmux listed the panes of its socket. *)
Definition lostReply : Prop :=
  judged env it 1 (lv_Identity it) = ProcNone /\ ownSessionThere /\ li_PaneID (lv_Identity it) = "".
Definition listed (panes : list Pane) : Prop :=
  lostReply /\ exists socket, rowSocket = Some socket /\ sv_ListPanes (fe_Sweep env) socket = inr panes.
Definition carriesToken (p : Pane) : Prop := pa_AdPane p = li_Token (lv_Identity it).
(** The one pane of the listing that carries the row's token. *)
Definition adoptedPane (i : LaunchIdentity) : Prop :=
  exists panes p, listed panes /\ p ∈ panes /\ carriesToken p /\
    (forall q, q ∈ panes -> carriesToken q -> pa_ID q = pa_ID p) /\
    li_PaneID i = pa_ID p /\ li_PanePID i = pa_PID p /\
    li_PaneStarttime i = KnownStartTime (fe_Start env 5 (lv_InstanceID it)) (pa_PID p).

(** The agent of the identity [i] judged [st]: the recorded one, or the
    adopted pane's. *)
Definition agentIs (i : LaunchIdentity) (st : ProcState) : Prop :=
  (i = lv_Identity it /\ judged env it 1 i = st) \/ (adoptedPane i /\ judged env it 6 i = st).
Definition processIs (st : ProcState) : Prop := exists i, agentIs i st.
Definition endReported : Prop := lv_Agent it = Some AgentCodex /\ 0 < lv_EndReportedAtMillis it.

(** A pending row with a pane: its agent runs and has not reported in. *)
Definition unreportedAgent (i : LaunchIdentity) : Prop := lv_State it = StatePending /\ 0 < li_PanePID i.
End Warranted.

(** The states a run's sweep goes through: each request is of a row of the
    run, on that row's socket. *)
Inductive reached (env : FindMissingEnv) (its : list LiveSpawnIdentity) : Sweep -> Prop :=
  | reached_new : reached env its NewSweep
  | reached_lookup it socket sw : it ∈ its -> rowSocket env it = Some socket -> reached env its sw ->
      reached env its (snd (Lookup (fe_Sweep env) (itLaunch env it socket) (fe_Start env 2 (lv_InstanceID it))
                              (rs_TmuxSessionName (lv_Snapshot it)) sw))
  | reached_panes it socket sw : it ∈ its -> rowSocket env it = Some socket -> reached env its sw ->
      reached env its (snd (ListPanes (fe_Sweep env) (itLaunch env it socket) (fe_Start env 3 (lv_InstanceID it)) sw)).

Lemma reached_ok env its sw : reached env its sw -> answers_ok (fe_Sweep env) sw /\ panes_ok (fe_Sweep env) sw.
Proof.
  induction 1 as [|it socket sw _ _ _ [IH1 IH2]|it socket sw _ _ _ [IH1 IH2]].
  - split; [apply NewSweep_answers|apply NewSweep_panes].
  - destruct (Lookup _ _ _ _ sw) as [r sw'] eqn:E. split; [by eapply Lookup_answers|by eapply Lookup_panes].
  - destruct (ListPanes _ _ _ sw) as [r sw'] eqn:E. by destruct (ListPanes_answers _ _ _ _ _ _ IH1 IH2 E) as (H1 & H2 & _).
Qed.

Section Writes.
Context (env : FindMissingEnv) (its : list LiveSpawnIdentity) (it : LiveSpawnIdentity).

(** tmux told nothing: there is no socket to ask, the lookup was not made (the
    budget is spent, or the socket no longer asked), or it answered neither of
    another server nor of labels in conflict and still can't tell. *)
Definition notTold : Prop :=
  rowSocket env it = None \/
  exists socket, rowSocket env it = Some socket /\
    ((exists sw, reached env its sw /\
        rs_Skipped (fst (Lookup (fe_Sweep env) (itLaunch env it socket) (fe_Start env 2 (lv_InstanceID it))
                           (rs_TmuxSessionName (lv_Snapshot it)) sw)) = true) \/
     (rs_Verdict (shown env it socket) = CantTell /\
      rs_CantTell (shown env it socket) <> CantTellDifferentServer /\
      rs_CantTell (shown env it socket) <> CantTellProvenanceConflict)).

(** No listing of the panes: it failed, or was not made. *)
Definition notListed : Prop :=
  exists socket sw err, rowSocket env it = Some socket /\ reached env its sw /\
    fst (ListPanes (fe_Sweep env) (itLaunch env it socket) (fe_Start env 3 (lv_InstanceID it)) sw) = inl err.

(** The row's own session is there and no pane of it can be named. *)
Definition noPaneNamed : Prop :=
  li_PaneID (lv_Identity it) <> "" \/ notListed \/
  (exists panes q q', listed env it panes /\ q ∈ panes /\ q' ∈ panes /\ carriesToken it q /\ carriesToken it q' /\ pa_ID q <> pa_ID q') \/
  (exists i, adoptedPane env it i /\ judged env it 6 i = ProcNone).

Definition noteWarranted (note : string) : Prop :=
  unchecked env it /\
  ((Unusable (rs_TmuxSessionName (lv_Snapshot it)) <> UnusableNone /\
    note = unusableNameNote (Unusable (rs_TmuxSessionName (lv_Snapshot it)))) \/
   (note = notCalledNote (judged env it 1 (lv_Identity it)) /\ notTold) \/
   (note = noteTmuxServerChanged /\
    lookedUp env it (fun r => rs_Verdict r = CantTell /\ rs_CantTell r = CantTellDifferentServer)) \/
   (note = noteProvenanceConflict /\
    lookedUp env it (fun r => rs_Verdict r = CantTell /\ rs_CantTell r = CantTellProvenanceConflict)) \/
   (note = noteProbeEACCES /\ ownSessionThere env it /\
    (judged env it 1 (lv_Identity it) = ProcUnknown \/ exists i, adoptedPane env it i /\ judged env it 6 i = ProcUnknown)) \/
   (note = noteProcessNotSeenSessionPresent /\ ownSessionThere env it /\
    judged env it 1 (lv_Identity it) = ProcNone /\ noPaneNamed)).

(** What the run saw of the row's own session: the server that answered, and
    the pane that carries the token. *)
Definition adoptionWarranted (i : LaunchIdentity) : Prop :=
  ownSessionThere env it /\ i <> lv_Identity it /\
  exists socket panes, rowSocket env it = Some socket /\
    (li_PaneID (lv_Identity it) = "" -> sv_ListPanes (fe_Sweep env) socket = inr panes) /\
    i = ad_Identity (findAdoption (lv_Identity it) (shown env it socket) panes
                       (fe_Start env 4 (lv_InstanceID it)) (fe_Start env 5 (lv_InstanceID it))).

Definition warranted (op : snapshotOp) : Prop :=
  match op with
  | OpMarkEnded => endReported it /\ processIs env it ProcGone
  | OpMarkMissing =>
      (~ endReported it /\ processIs env it ProcGone) \/ noSessionThere env it \/
      exists panes, listed env it panes /\ forall q, q ∈ panes -> carriesToken it q -> li_Token (lv_Identity it) = ""
  | OpClearNote => exists i, agentIs env it i ProcAlive /\ ~ unreportedAgent it i
  | OpNoteUnreported =>
      exists i, agentIs env it i ProcAlive /\ unreportedAgent it i /\ lv_LivenessNote it <> LivenessNoteProvenanceConflict
  | OpSetNote note => noteWarranted note
  | OpAdopt i => adoptionWarranted i
  | _ => False
  end.

(** A committed write of the row as the run read it, or as its own adoption
    left it; in every column what the write's SET makes of it. *)
Definition rowWrote (op : snapshotOp) (p : Store * Store) : Prop :=
  exactlyWritten op (lv_InstanceID it) (lv_Snapshot it) (fst p) (snd p) \/
  (ownSessionThere env it /\ exactlyWritten op (lv_InstanceID it) (nextSnapshot (lv_Snapshot it)) (fst p) (snd p)).

(** The writes of a row's judgement and the row it returns. *)
Definition rowDone (row : findMissingRow) (own : list (Store * Store)) : Prop :=
  exists ops, Forall2 rowWrote ops own /\ Forall warranted ops /\
    (fw_Listed (fm_write row) = true /\ fm_marked row = true <-> OpMarkMissing ∈ ops).
End Writes.

(** ** The row writers *)

Lemma ensures_bind_ret {A B} (Q : result B -> list (Store * Store) -> Prop) (m : Op A) (f : A -> B) :
  ensures Q (a <- m;; ret (f a)) ->
  ensures (fun r own => Q (match r with Ok a => Ok (f a) | Err e => Err e end) own) m.
Proof.
  intros H w. destruct (H w) as (own & E & HQ). unfold bind in *. destruct (m w) as [[a|e] w1]; simpl in *; eauto.
Qed.

Section Writers.
Context (T : Z) (id : string) (x : RowSnapshot).

(** One write of [op], or none: a mark is listed exactly when it was made. *)
Definition markDone (listed : bool) (op : snapshotOp) (r : result findMissingWrite) (own : list (Store * Store)) : Prop :=
  exists w, r = Ok w /\
    ((own = [] /\ fw_Listed w = false) \/
     (fw_Listed w = listed /\ exists s s', own = [(s, s')] /\ exactlyWritten op id x s s')).
Definition noteDone (op : snapshotOp) (r : result findMissingWrite) (own : list (Store * Store)) : Prop :=
  exists w, r = Ok w /\ (own = [] \/ exists s s', own = [(s, s')] /\ exactlyWritten op id x s s').

Lemma markSameLife_done listed newState reason extra op (m : Op (string * CondResult)) :
  ensures (condWrote (exactlyWritten op id x)) (r <- m;; ret (snd r)) ->
  ensures (markDone listed op) (markSameLife id listed newState reason extra m).
Proof.
  intros H%ensures_bind_ret. unfold markSameLife. eapply ensures_catch; [exact H|]. clear H.
  intros [[prior []]|e] o1 H1; simpl in H1.
  - intros w. exists []. rewrite !app_nil_r. split; [done|]. eexists. split; [done|]. right. split; [done|].
    destruct H1 as (s & s' & -> & H1). eauto.
  - apply ensures_ret. rewrite app_nil_r. eexists. split; [done|]. by left.
  - apply ensures_ret. rewrite app_nil_r. eexists. split; [done|]. by left.
  - apply ensures_ret. rewrite app_nil_r. eexists. split; [done|]. by left.
Qed.

Lemma markMissing_done reason extra : ensures (markDone true OpMarkMissing) (markMissingSameLife T id x reason extra).
Proof. apply markSameLife_done. apply (ensures_exactOp T id x OpMarkMissing). Qed.
Lemma markEnded_done reason extra : ensures (markDone false OpMarkEnded) (markEndedSameLife T id x reason extra).
Proof. apply markSameLife_done. apply (ensures_exactOp T id x OpMarkEnded). Qed.

Lemma noteSameLife_done listed (tick : Op unit) op (m : Op CondResult) :
  (forall w, w_own (snd (tick w)) = w_own w /\ fst (tick w) = Ok tt) ->
  ensures (condWrote (exactlyWritten op id x)) m ->
  ensures (noteDone op) (noteSameLife listed tick m).
Proof.
  intros Ht H. unfold noteSameLife. eapply ensures_catch; [exact H|]. clear H.
  intros [[]|e] o1 H1; simpl in H1; try (apply ensures_ret; rewrite app_nil_r; eexists; split; [done|by left]).
  intros w. exists []. rewrite !app_nil_r. unfold bind. destruct (Ht w) as [H2 H3].
  destruct (tick w) as [r w1]. simpl in *. subst r. simpl. split; [done|]. eexists. split; [done|]. by right.
Qed.

Lemma emitNoteTick_quiet a b w : w_own (snd (emitNoteTick id a b w)) = w_own w /\ fst (emitNoteTick id a b w) = Ok tt.
Proof. unfold emitNoteTick. by destruct (noteTickReason a b). Qed.

Lemma unreported_done note : ensures (noteDone OpNoteUnreported) (writeUnreportedNote T id x note).
Proof.
  unfold writeUnreportedNote. case_bool_decide; [apply ensures_ret; eexists; split; [done|by left]|].
  apply noteSameLife_done; [apply emitNoteTick_quiet|apply (ensures_exactOp T id x OpNoteUnreported)].
Qed.
Lemma liveness_done old note : ensures (noteDone (OpSetNote note)) (writeLivenessNote T id x old note).
Proof.
  unfold writeLivenessNote. case_bool_decide; [apply ensures_ret; eexists; split; [done|by left]|].
  apply noteSameLife_done; [apply emitNoteTick_quiet|apply (ensures_exactOp T id x (OpSetNote note))].
Qed.
Lemma clear_done old : ensures (noteDone OpClearNote) (clearLivenessNote T id x old).
Proof.
  unfold clearLivenessNote. case_bool_decide; [apply ensures_ret; eexists; split; [done|by left]|].
  apply noteSameLife_done; [done|apply (ensures_exactOp T id x OpClearNote)].
Qed.
End Writers.

(** ** A row *)

Section Row.
Context (T : Z) (env : FindMissingEnv) (its : list LiveSpawnIdentity) (it : LiveSpawnIdentity) (Hin : it ∈ its).
Let id := lv_InstanceID it.

Definition guard_ok (g : RowSnapshot) : Prop :=
  g = lv_Snapshot it \/ (ownSessionThere env it /\ g = nextSnapshot (lv_Snapshot it)).
Definition done (r : result findMissingRow) (own : list (Store * Store)) : Prop :=
  exists row, r = Ok row /\ rowDone env its it row own.

Lemma rowWrote_guard op g s s' : guard_ok g -> exactlyWritten op id g s s' -> rowWrote env it op (s, s').
Proof. intros [->| [? ->]]; [by left|by right]. Qed.

Lemma mark_withWrite row guard action listed op m :
  guard_ok guard -> warranted env its it op -> listed = bool_decide (op = OpMarkMissing) ->
  ensures (markDone id guard listed op) m -> ensures done (withWrite row true action m).
Proof.
  intros Hg Hw Hl Hm. unfold withWrite. eapply ensures_bind; [exact Hm| |by intros e o1 (w & [=] & _)].
  intros w o1 (w' & [= <-] & H). apply ensures_ret. rewrite app_nil_r. eexists. split; [done|].
  destruct H as [[-> Hf]|(Hli & s & s' & -> & Hs)].
  - exists []. split_and!; [constructor|constructor|]. simpl. rewrite Hf. split; [by intros [? _]|by intros ?%elem_of_nil].
  - exists [op]. split_and!; [constructor; [by eapply rowWrote_guard|constructor]|by repeat constructor|].
    simpl. rewrite Hli, Hl, bool_decide_eq_true, list_elem_of_singleton. naive_solver.
Qed.

Lemma note_withWrite row guard action op m :
  guard_ok guard -> warranted env its it op -> fm_marked row = false -> op <> OpMarkMissing ->
  ensures (noteDone id guard op) m -> ensures done (withWrite row (fm_marked row) action m).
Proof.
  intros Hg Hw Hf Hne Hm. unfold withWrite. eapply ensures_bind; [exact Hm| |by intros e o1 (w & [=] & _)].
  intros w o1 (w' & [= <-] & H). apply ensures_ret. rewrite app_nil_r. eexists. split; [done|].
  rewrite Hf. destruct H as [->|(s & s' & -> & Hs)].
  - exists []. split_and!; [constructor|constructor|]. simpl. split; [by intros [_ ?]|by intros ?%elem_of_nil].
  - exists [op]. split_and!; [constructor; [by eapply rowWrote_guard|constructor]|by repeat constructor|].
    simpl. rewrite list_elem_of_singleton. split; [by intros [_ ?]|by intros <-].
Qed.

Lemma markRow_done row guard reason extra :
  guard_ok guard -> warranted env its it OpMarkMissing -> ensures done (markRow T it row guard reason extra).
Proof. intros. apply (mark_withWrite row guard _ true OpMarkMissing); [done..|apply markMissing_done]. Qed.

Lemma goneRow_done row guard : guard_ok guard -> processIs env it ProcGone -> ensures done (goneRow T it row guard).
Proof.
  intros Hg Hp. unfold goneRow. destruct (negb _ || _) eqn:E.
  - apply markRow_done; [done|]. left. split; [|done]. unfold endReported. intros [Ha Hr].
    rewrite Ha, bool_decide_true in E by done. simpl in E. lia.
  - bsimp. apply (mark_withWrite row guard _ false OpMarkEnded); [done| |done|apply markEnded_done].
    split; [|done]. split; [done|lia].
Qed.

Lemma noteRow_done row guard note :
  guard_ok guard -> noteWarranted env its it note -> fm_marked row = false -> ensures done (noteRow T it row guard note).
Proof. intros. by apply (note_withWrite row guard _ (OpSetNote note)); [..|apply liveness_done]. Qed.

Lemma aliveRow_done row guard i :
  guard_ok guard -> agentIs env it i ProcAlive -> fm_marked row = false -> ensures done (aliveRow T it row guard i).
Proof.
  intros Hg Hp Hf. unfold aliveRow. destruct (bool_decide (lv_State it = StatePending) && _) eqn:E.
  - bsimp. assert (unreportedAgent it i) as Hu by (split; [done|lia]). case_bool_decide.
    + apply ensures_ret. eexists. split; [done|]. exists []. split_and!; [constructor|constructor|]. simpl. rewrite Hf.
      split; [by intros [_ ?]|by intros ?%elem_of_nil].
    + apply (note_withWrite row guard _ OpNoteUnreported); [done| |done|done|apply unreported_done]. by exists i.
  - apply (note_withWrite row guard _ OpClearNote); [done| |done|done|apply clear_done]. exists i. split; [done|].
    intros [Hs Hp0]. rewrite Hs, bool_decide_true in E by done. simpl in E. lia.
Qed.

(** A judgement after its adoption's write. *)
Lemma done_after i p r own : rowWrote env it (OpAdopt i) p -> adoptionWarranted env it i -> done r own -> done r (p :: own).
Proof.
  intros Hp Ho (row & -> & ops & H1 & H2 & H3). exists row. split; [done|]. exists (OpAdopt i :: ops).
  split_and!; [by constructor|by constructor|]. rewrite H3, elem_of_cons. naive_solver.
Qed.

(** A row the adoption left, or that nothing was written of. *)
Lemma done_left row own : fm_marked row = false -> own = [] -> done (Ok row) own.
Proof.
  intros Hf ->. exists row. split; [done|]. exists []. split_and!; [constructor|constructor|]. rewrite Hf.
  split; [by intros [_ ?]|by intros ?%elem_of_nil].
Qed.

Lemma lookupMarkRow_done row guard :
  guard_ok guard -> noSessionThere env it -> ensures done (lookupMarkRow T it row guard).
Proof.
  intros Hg Hl. assert (warranted env its it OpMarkMissing) as Hw by (right; by left). unfold lookupMarkRow.
  destruct (bool_decide _ && _); [by apply markRow_done|].
  eapply ensures_bind; [by apply (markRow_done row guard)| |by intros e o1 (w & [=] & _)].
  intros row' o1 H w. exists []. rewrite !app_nil_r. split; [done|]. exact H.
Qed.

(** *** Adoption *)

Lemma adopt_now x i w now :
  fst (AdoptIdentityIfSameLife T id x i w) = Ok (CondApplied, now) -> now = nextSnapshot x.
Proof.
  unfold AdoptIdentityIfSameLife, bind. destruct (execGuarded _ _ _ w) as [[[]|e] w1]; simpl; [by intros [= <-]| |done].
  unfold condNotApplied, bind, read. destruct (next_gap _) as [[e|e why] gs]; simpl; [|done].
  by destruct (bool_decide _).
Qed.

Lemma adopt_done x i : ensures (fun r own => match r with
    | Ok (CondApplied, now) => now = nextSnapshot x /\ exists s s', own = [(s, s')] /\ exactlyWritten (OpAdopt i) id x s s'
    | _ => own = []
    end) (AdoptIdentityIfSameLife T id x i).
Proof.
  intros w. destruct (ensures_bind_ret _ _ _ (ensures_exactOp T id x (OpAdopt i)) w) as (own & E & H).
  exists own. split; [done|]. pose proof (adopt_now x i w) as Hn.
  destruct (fst (AdoptIdentityIfSameLife T id x i w)) as [[[] now]|e]; simpl in *; auto.
Qed.

(** What [findAdoption] gives of a listing that was needed. *)
Lemma findAdoption_listing res panes : rs_Verdict res = Ours -> adoptionNeedsListing (lv_Identity it) = true ->
  let a := findAdoption (lv_Identity it) res panes (fe_Start env 4 id) (fe_Start env 5 id) in
  exists p, PaneByToken panes (li_Token (lv_Identity it)) = (p, ad_Pane a) /\
    (ad_Pane a = PaneOne ->
     li_PaneID (ad_Identity a) = pa_ID p /\ li_PanePID (ad_Identity a) = pa_PID p /\
     li_PaneStarttime (ad_Identity a) = KnownStartTime (fe_Start env 5 id) (pa_PID p)).
Proof.
  intros Hv Hn. unfold adoptionNeedsListing in Hn. apply bool_decide_eq_true in Hn.
  unfold findAdoption, adoptionDue. rewrite Hv, Hn, !bool_decide_true, orb_true_r by done. simpl.
  unfold adoptionNeedsListing. rewrite Hn, bool_decide_true by done.
  destruct (PaneByToken panes _) as [p m] eqn:E. exists p. simpl. split; [done|]. intros ->. done.
Qed.

Section Ours.
Context (socket : string) (Hsock : rowSocket env it = Some socket).
Context (Hours : ownSessionThere env it).
Let launch := itLaunch env it socket.
Let res := shown env it socket.

(** What the adoption found of the pane: nothing where no listing was needed,
    a failure, or what the listing says of the row's token. *)
Definition paneFound (sa : sweepAdoption) : Prop :=
  adoptionNeedsListing (lv_Identity it) = true ->
  if sa_Unlisted sa then notListed env its it
  else exists panes p, sv_ListPanes (fe_Sweep env) socket = inr panes /\
    PaneByToken panes (li_Token (lv_Identity it)) = (p, sa_Pane sa) /\
    (sa_Pane sa = PaneOne ->
     li_PaneID (sa_Identity sa) = pa_ID p /\ li_PanePID (sa_Identity sa) = pa_PID p /\
     li_PaneStarttime (sa_Identity sa) = KnownStartTime (fe_Start env 5 id) (pa_PID p)).

Definition adopts (r : result (sweepAdoption * Sweep)) (own : list (Store * Store)) : Prop :=
  exists sa sw', r = Ok (sa, sw') /\ reached env its sw' /\ guard_ok (sa_Guard sa) /\
    (own = [] \/ exists i p, own = [p] /\ adoptionWarranted env it i /\ rowWrote env it (OpAdopt i) p) /\
    (sa_Left sa = false -> paneFound sa).

Lemma adopt_step panes sw' :
  rs_Verdict res = Ours -> reached env its sw' ->
  (li_PaneID (lv_Identity it) = "" -> sv_ListPanes (fe_Sweep env) socket = inr panes) ->
  let a := findAdoption (lv_Identity it) res panes (fe_Start env 4 id) (fe_Start env 5 id) in
  let out applied guard w left := mkSweepAdoption (ad_Identity a) (ad_Pane a) applied false zeroResult guard w left in
  ensures adopts
    (if bool_decide (ad_Identity a = lv_Identity it) then ret (out false (lv_Snapshot it) noWrite false, sw')
     else catch (AdoptIdentityIfSameLife T id (lv_Snapshot it) (ad_Identity a)) (fun r => ret (match r with
      | Err e => out false (lv_Snapshot it) (storeFailed e) true
      | Ok (CondApplied, now) => out true now (mkWrite false true (Some CondApplied) None) false
      | Ok (cr, _) => out false (lv_Snapshot it) (mkWrite false true (Some cr) None) true
      end, sw'))).
Proof.
  intros Hv Hr Hl a out. pose proof (findAdoption_listing res panes Hv) as Hf. cbv zeta in Hf. fold a in Hf.
  assert (forall applied guard w left, paneFound (out applied guard w left)) as Hp.
  { intros applied guard w left Hn. simpl. destruct (Hf Hn) as (p & Hp & Hi). exists panes, p. split_and!; [|done..].
    apply Hl. by apply bool_decide_eq_true in Hn. }
  case_bool_decide as Ei.
  - apply ensures_ret. eexists _, _. split; [done|]. split_and!; [done|by left|by left|by intros _].
  - eapply ensures_catch; [apply adopt_done|]. intros [[cr now]|e] o1 H1; cycle 1.
    { simpl in H1. subst o1. apply ensures_ret. eexists _, _. split; [done|]. split_and!; [done|by left|by left|done]. }
    destruct cr; simpl in H1; apply ensures_ret; rewrite app_nil_r; eexists _, _; (split; [done|]);
      try (subst o1; split_and!; [done|by left|by left|done]).
    destruct H1 as (-> & s & s' & -> & Hw). split_and!; [done|by right| |by intros _].
    right. eexists _, _. split; [done|]. split; [|by left]. split_and!; [done|done|]. by exists socket, panes.
Qed.

Lemma adoptInSweep_done sw : rs_Verdict res = Ours -> reached env its sw ->
  ensures adopts (adoptInSweep T env it sw launch res).
Proof.
  intros Hv Hr. unfold adoptInSweep.
  destruct (adoptionDue (lv_Identity it) res) eqn:Ed; simpl.
  - destruct (adoptionNeedsListing (lv_Identity it)) eqn:En.
    + pose proof (reached_panes env its it socket sw Hin Hsock Hr) as Hr'. fold launch id in Hr'.
      destruct (reached_ok _ _ _ Hr) as [Ha Hps].
      fold id. destruct (ListPanes (fe_Sweep env) launch (fe_Start env 3 id) sw) as [r sw'] eqn:El. simpl in Hr'.
      destruct (ListPanes_answers _ _ _ _ _ _ Ha Hps El) as (_ & _ & Hans).
      destruct r as [listing|panes].
      * apply ensures_ret. eexists _, _. split; [done|]. split_and!; [done|by left|by left|]. intros _ _.
        exists socket, sw, listing. split_and!; [done|done|]. fold launch id. by rewrite El.
      * apply adopt_step; [done|done|]. intros _. by apply Hans.
    + apply adopt_step; [done|done|]. intros E. unfold adoptionNeedsListing in En. by rewrite E, bool_decide_true in En.
  - apply ensures_ret. eexists _, _. split; [done|]. split_and!; [done|by left|by left|]. intros _ Hn.
    unfold adoptionDue, adoptionNeedsListing in *. by rewrite Hv, Hn, bool_decide_true, orb_true_r in Ed.
Qed.

(** *** The row's own session, the lookup, the judgement *)

Definition doneRun (r : result (findMissingRow * findMissingRun)) (own : list (Store * Store)) : Prop :=
  exists row run', r = Ok (row, run') /\ reached env its (fst run') /\ rowDone env its it row own.

Lemma note_ours note : 
  (note = noteProbeEACCES /\
    (judged env it 1 (lv_Identity it) = ProcUnknown \/ exists i, adoptedPane env it i /\ judged env it 6 i = ProcUnknown)) \/
  (note = noteProcessNotSeenSessionPresent /\ judged env it 1 (lv_Identity it) = ProcNone /\ noPaneNamed env its it) ->
  noteWarranted env its it note.
Proof.
  intros H. split; [by destruct Hours|].
  destruct H as [[-> H]|(-> & H1 & H2)]; [do 4 right; left|do 5 right]; by split_and!.
Qed.

Lemma oursRow_row row sa : fm_marked row = false -> guard_ok (sa_Guard sa) -> paneFound sa ->
  ensures done
    (if bool_decide (judged env it 1 (lv_Identity it) = ProcUnknown) then noteRow T it row (sa_Guard sa) noteProbeEACCES
     else if negb (adoptionNeedsListing (lv_Identity it)) || sa_Unlisted sa || bool_decide (sa_Pane sa = PaneMany) then
       noteRow T it row (sa_Guard sa) noteProcessNotSeenSessionPresent
     else if bool_decide (sa_Pane sa = PaneNone) then
       markRow T it row (sa_Guard sa) reasonTmuxAbsent [(tickLookupOutcome, Token (fm_res row))]
     else adoptedPaneRow T env it row sa).
Proof.
  intros Hf Hg Hp. pose proof Hours as (Hu & _).
  case_bool_decide as Eu; [apply noteRow_done; [done| |done]; apply note_ours; left; auto|].
  assert (judged env it 1 (lv_Identity it) = ProcNone) as Hnone by (by destruct Hu).
  assert (forall panes, li_PaneID (lv_Identity it) = "" -> sv_ListPanes (fe_Sweep env) socket = inr panes -> listed env it panes)
    as Hlisted by (intros panes E Hlp; split; [by split_and!|by exists socket]).
  assert (noPaneNamed env its it -> ensures done (noteRow T it row (sa_Guard sa) noteProcessNotSeenSessionPresent)) as Hnote
    by (intros Hno; apply noteRow_done; [done| |done]; apply note_ours; right; by split_and!).
  unfold paneFound in Hp. destruct (adoptionNeedsListing (lv_Identity it)) eqn:En; simpl; cycle 1.
  { apply Hnote. left. unfold adoptionNeedsListing in En. by apply bool_decide_eq_false in En. }
  specialize (Hp eq_refl). unfold adoptionNeedsListing in En. apply bool_decide_eq_true in En.
  destruct (sa_Unlisted sa); simpl; [apply Hnote; right; by left|].
  destruct Hp as (panes & p & Hlp & Htok & Hone). specialize (Hlisted panes En Hlp).
  unfold PaneByToken in Htok. pose proof (paneFrom_spec (li_Token (lv_Identity it)) None panes I) as Hs.
  case_bool_decide as Et.
  { injection Htok as _ Htok. rewrite <-Htok. simpl. apply markRow_done; [done|]. right. right. exists panes. by split. }
  rewrite Htok in Hs. destruct (sa_Pane sa) eqn:Ep; simpl.
  - apply markRow_done; [done|]. right. right. exists panes. split; [done|]. intros q Hq Hc.
    destruct Hs as [_ Hs]. by destruct (Hs q Hq).
  - destruct Hs as (H1 & [?|[_ H2]] & H3); [done|]. 
    assert (adoptedPane env it (sa_Identity sa)) as Had by (exists panes, p; split_and!; try done; by apply Hone).
    unfold adoptedPaneRow. destruct (judged env it 6 (sa_Identity sa)) eqn:Ej.
    + apply Hnote. do 3 right. by eexists.
    + apply aliveRow_done; [done| |done]. by right.
    + apply goneRow_done; [done|]. eexists. by right.
    + apply noteRow_done; [done| |done]. apply note_ours. left. split; [done|]. right. by eexists.
  - apply Hnote. do 2 right. left. destruct Hs as (q & q' & [?|Hq] & Hs & H1 & H2 & H3); [done|].
    exists panes, q, q'. by split_and!.
Qed.
End Ours.

Lemma doneRun_ret (m : Op findMissingRow) run' : reached env its (fst run') -> ensures done m ->
  ensures doneRun (r <- m;; ret (r, run')).
Proof.
  intros Hr Hm. eapply ensures_bind; [exact Hm| |by intros e o1 (w & [=] & _)].
  intros row o1 (row' & [= <-] & H). apply ensures_ret. rewrite app_nil_r. by eexists _, _.
Qed.

Lemma oursRow_done row socket sw refused :
  fm_marked row = false -> rowSocket env it = Some socket -> fm_res row = shown env it socket ->
  rs_Verdict (shown env it socket) = Ours -> ownSessionThere env it -> reached env its sw ->
  ensures doneRun (oursRow T env it row (judged env it 1 (lv_Identity it)) (itLaunch env it socket) (sw, refused)).
Proof.
  intros Hf Hs Hres Hv Ho Hr. unfold oursRow. rewrite Hres.
  eapply ensures_bind; [by apply (adoptInSweep_done socket)| |by intros e o1 (? & ? & [=] & _)].
  intros [sa sw'] o1 (sa' & sw'' & [= <- <-] & Hr' & Hg & Ho1 & Hp). cbn [fst snd].
  match goal with |- ensures _ (bind ?m _) => assert (ensures done m) as Hm end.
  { destruct (sa_Left sa) eqn:Eleft; [apply ensures_ret; by apply done_left|]. apply (oursRow_row socket); auto. }
  eapply ensures_bind; [exact Hm| |by intros e o2 (w & [=] & _)].
  intros row' o2 (row'' & [= <-] & H). apply ensures_ret. rewrite app_nil_r. eexists _, _. split; [done|].
  split; [done|]. destruct Ho1 as [->|(i & q & -> & Hi & Hw)]; [done|].
  destruct (done_after i q (Ok row') o2 Hw Hi) as (? & [= <-] & H'); [by eexists|done].
Qed.

Lemma note_told socket v k note : unchecked env it -> Unusable (rs_TmuxSessionName (lv_Snapshot it)) = UnusableNone ->
  rowSocket env it = Some socket -> rs_Verdict (shown env it socket) = v -> rs_CantTell (shown env it socket) = k ->
  v = CantTell ->
  note = match k with
         | CantTellDifferentServer => noteTmuxServerChanged
         | CantTellProvenanceConflict => noteProvenanceConflict
         | _ => notCalledNote (judged env it 1 (lv_Identity it))
         end -> noteWarranted env its it note.
Proof.
  intros Hu Hn Hs Hv Hk -> ->. split; [done|]. assert (forall P : Result -> Prop, P (shown env it socket) -> lookedUp env it P) as Hl
    by (intros P HP; split_and!; [done|done|by exists socket]).
  destruct k; [right; left; split; [done|]; right; exists socket; split; [done|]; right; rewrite Hv, Hk; by split_and!..
    |do 2 right; left; split; [done|]; by apply Hl|do 3 right; left; split; [done|]; by apply Hl|].
  right; left; split; [done|]. right; exists socket; split; [done|]; right; rewrite Hv, Hk; by split_and!.
Qed.

Lemma lookupRow_done run : reached env its (fst run) ->
  unchecked env it -> Unusable (rs_TmuxSessionName (lv_Snapshot it)) = UnusableNone ->
  ensures doneRun (lookupRow T env it (judged env it 1 (lv_Identity it)) run).
Proof.
  intros Hr Hu Hn. unfold lookupRow, forRow.
  assert (forall row, fm_marked row = false -> rowSocket env it = None ->
    ensures done (noteRow T it row (lv_Snapshot it) (notCalledNote (judged env it 1 (lv_Identity it))))) as Hno.
  { intros row Hf Hs. apply noteRow_done; [by left| |done]. split; [done|]. right. left. split; [done|by left]. }
  assert (forall socket refused, rowSocket env it = Some socket ->
    ensures doneRun
      (let '(socket, res, launch, sw) :=
         let launch := rowLaunch (lv_InstanceID it) (lv_Identity it) (fe_StoreID env) socket in
         let '(res, sw) := Lookup (fe_Sweep env) launch (fe_Start env 2 (lv_InstanceID it))
                             (rs_TmuxSessionName (lv_Snapshot it)) (fst run) in
         (socket, res, launch, sw) in
       let row disagree := mkRow noWrite false "" disagree socket res zeroResult in
       let done (m : Op findMissingRow) := r <- m;; ret (r, (sw, refused)) in
       if rs_Skipped res then done (noteRow T it (row []) (lv_Snapshot it) (notCalledNote (judged env it 1 (lv_Identity it))))
       else
         match rs_Verdict res, rs_CantTell res with
         | Ours, _ =>
             let disagree := if nameChanged res (rs_TmuxSessionName (lv_Snapshot it)) then rs_Disagree res ++ [ReasonNameChanged]
                             else rs_Disagree res in
             oursRow T env it (row disagree) (judged env it 1 (lv_Identity it)) launch (sw, refused)
         | Leftover, _ | Gone, _ => done (lookupMarkRow T it (row (rs_Disagree res)) (lv_Snapshot it))
         | CantTell, CantTellDifferentServer =>
             done (noteRow T it (row (rs_Disagree res)) (lv_Snapshot it) noteTmuxServerChanged)
         | CantTell, CantTellProvenanceConflict =>
             done (noteRow T it (row (rs_Disagree res)) (lv_Snapshot it) noteProvenanceConflict)
         | _, _ => done (noteRow T it (row (rs_Disagree res)) (lv_Snapshot it) (notCalledNote (judged env it 1 (lv_Identity it))))
         end)) as Hgo.
  { intros socket refused Hs. cbv zeta. change (rowLaunch (lv_InstanceID it) (lv_Identity it) (fe_StoreID env) socket) with (itLaunch env it socket).
    pose proof (reached_lookup env its it socket (fst run) Hin Hs Hr) as Hr'.
    assert (rs_Skipped (fst (Lookup (fe_Sweep env) (itLaunch env it socket) (fe_Start env 2 (lv_InstanceID it))
      (rs_TmuxSessionName (lv_Snapshot it)) (fst run))) = true -> notTold env its it) as Hskip
      by (intros E; right; exists socket; split; [done|]; left; by exists (fst run)).
    destruct (Lookup _ _ _ _ (fst run)) as [res sw] eqn:El. simpl in Hr', Hskip.
    destruct (Lookup_answers _ _ _ _ _ _ _ (proj1 (reached_ok _ _ _ Hr)) El) as [_ Hans].
    destruct (rs_Skipped res) eqn:Es.
    { apply doneRun_ret, noteRow_done; [done|by left| |done]. split; [done|]. right. left. split; [done|by apply Hskip]. }
    specialize (Hans eq_refl). change (resultForCall _ _ _ _) with (shown env it socket) in Hans. subst res.
    assert (forall note k, rs_Verdict (shown env it socket) = CantTell -> rs_CantTell (shown env it socket) = k ->
      note = match k with
         | CantTellDifferentServer => noteTmuxServerChanged
         | CantTellProvenanceConflict => noteProvenanceConflict
         | _ => notCalledNote (judged env it 1 (lv_Identity it))
         end -> ensures doneRun (r <- noteRow T it (mkRow noWrite false "" (rs_Disagree (shown env it socket)) socket (shown env it socket) zeroResult)
           (lv_Snapshot it) note;; ret (r, (sw, refused)))) as Hnote.
    { intros note k Ev Ek En. apply doneRun_ret, noteRow_done; [done|by left| |done]. by apply (note_told socket CantTell k). }
    assert (rs_Verdict (shown env it socket) = Gone \/ rs_Verdict (shown env it socket) = Leftover -> noSessionThere env it) as Hgone
      by (intros E%shown_noCurrent; split_and!; [done|done|by exists socket]).
    destruct (rs_Verdict (shown env it socket)) eqn:Ev.
    - pose proof (verdict_says (itLaunch env it socket) (fe_Start env 2 (lv_InstanceID it)) (sv_Lookup (fe_Sweep env) socket)
        (rs_TmuxSessionName (lv_Snapshot it))) as H. cbv zeta in H. fold (shown env it socket) in H. by rewrite Ev in H.
    - apply oursRow_done; [done..| |done]. split_and!; [done|done|by exists socket].
    - apply doneRun_ret, lookupMarkRow_done; [done|by left|apply Hgone; by right].
    - apply doneRun_ret, lookupMarkRow_done; [done|by left|apply Hgone; by left].
    - destruct (rs_CantTell (shown env it socket)) eqn:Ek; by apply (Hnote _ _ eq_refl eq_refl). }
  unfold rowSocket in *. destruct (bool_decide (li_Socket (lv_Identity it) = "")) eqn:Ec; simpl; [|by apply Hgo].
  destruct (fe_CallerSocket env) as [socket|]; [by apply Hgo|].
  destruct (snd run); simpl; by apply doneRun_ret, Hno.
Qed.

Lemma judgeLiveRow_done run : reached env its (fst run) -> ensures doneRun (judgeLiveRow T env it run).
Proof.
  intros Hr. unfold judgeLiveRow. pose proof (lookupRow_done run Hr) as Hlk.
  assert (unchecked env it -> unusableNameNote (Unusable (rs_TmuxSessionName (lv_Snapshot it))) <> "" ->
    ensures done (noteRow T it zeroRow (lv_Snapshot it) (unusableNameNote (Unusable (rs_TmuxSessionName (lv_Snapshot it)))))) as Hno.
  { intros Hu Hn. apply noteRow_done; [by left| |done]. split; [done|]. left. split; [|done]. by intros E; rewrite E in Hn. }
  unfold unchecked in *. destruct (judged env it 1 (lv_Identity it)) eqn:Ej.
  - destruct (negb _) eqn:En; [apply doneRun_ret; [done|]; apply Hno; [by right|by bsimp]|].
    apply Hlk; [by right|]. bsimp. by destruct (Unusable _).
  - apply doneRun_ret, aliveRow_done; [done|by left|by left|done].
  - apply doneRun_ret, goneRow_done; [done|by left|]. eexists. by left.
  - destruct (negb _) eqn:En; [apply doneRun_ret; [done|]; apply Hno; [by left|by bsimp]|].
    apply Hlk; [by left|]. bsimp. by destruct (Unusable _).
Qed.
End Row.

(** ** The run *)

(** A committed write moved the live row [id] to missing. *)
Definition movedToMissing (id : string) (p : Store * Store) : Prop :=
  exists a b, db_spawns (fst p) !! id = Some a /\ db_spawns (snd p) !! id = Some b /\
    IsLiveState (sp_state a) = true /\ sp_state b = StateMissing.

Lemma missing_not_live : IsLiveState StateMissing = false.
Proof. reflexivity. Qed.

Lemma written_moved env its it op x s s' j : warranted env its it op -> exactlyWritten op (lv_InstanceID it) x s s' ->
  movedToMissing j (s, s') <-> j = lv_InstanceID it /\ op = OpMarkMissing.
Proof.
  intros Hw (r & Hr & _ & Hg & Hs & Ho)%exact_written. split.
  - intros (a & b & Ha & Hb & Hl & Hm). simpl in Ha, Hb. destruct (decide (j = lv_InstanceID it)) as [->|Hj].
    + split; [done|]. assert (r = a) as -> by congruence. destruct op; simpl in Hw, Hs; try done;
        destruct Hs as (r' & Hr' & _ & Hst & _); assert (r' = b) as -> by congruence;
        rewrite Hst in Hm; rewrite ?Hm in Hl; by rewrite ?missing_not_live in Hl.
    + specialize (Ho j Hj). rewrite Ha, Hb in Ho. injection Ho as Ho. unfold lifeColumns in Ho. 
      assert (sp_state b = sp_state a) as E by congruence. by rewrite <- E, Hm in Hl.
  - intros [-> ->]. simpl in Hs. destruct Hs as (r' & Hr' & _ & Hst & _). exists r, r'. by split_and!.
Qed.

Lemma rowWrote_moved env its it op p j : warranted env its it op -> rowWrote env it op p ->
  movedToMissing j p <-> j = lv_InstanceID it /\ op = OpMarkMissing.
Proof. intros Hw. destruct p. intros [H|[_ H]]; by eapply written_moved. Qed.

Lemma rowDone_moved env its it row own j : rowDone env its it row own ->
  (exists p, p ∈ own /\ movedToMissing j p) <->
  j = lv_InstanceID it /\ fw_Listed (fm_write row) = true /\ fm_marked row = true.
Proof.
  intros (ops & H1 & H2 & H3). rewrite H3. clear H3. revert H2. induction H1 as [|op p ops own Hp _ IH]; intros H2.
  - split; [by intros (p & ?%elem_of_nil & _)|by intros [_ ?%elem_of_nil]].
  - inversion_clear H2 as [|? ? Hw H2']. specialize (IH H2'). pose proof (rowWrote_moved _ _ _ _ _ j Hw Hp) as Hm.
    setoid_rewrite elem_of_cons. naive_solver.
Qed.

(** A committed write of a row the run judged, on evidence. *)
Definition warrantedWrite (env : FindMissingEnv) (its : list LiveSpawnIdentity) (p : Store * Store) : Prop :=
  exists it op, it ∈ its /\ notJudged env it = false /\ warranted env its it op /\ rowWrote env it op p.

Definition judgedAll (env : FindMissingEnv) (its : list LiveSpawnIdentity) (r : result (list string * list string))
    (own : list (Store * Store)) : Prop :=
  exists missing unverified, r = Ok (missing, unverified) /\
    Forall (warrantedWrite env its) own /\
    (forall id, id ∈ missing <-> exists p, p ∈ own /\ movedToMissing id p).

Lemma rowDone_writes env its it row own : rowDone env its it row own -> it ∈ its -> notJudged env it = false ->
  Forall (warrantedWrite env its) own.
Proof.
  intros (ops & H1 & H2 & _) Hin Hn. apply Forall_forall. intros p (i & Hi)%list_elem_of_lookup.
  destruct (Forall2_lookup_r _ _ _ _ _ H1 Hi) as (op & Ho & Hp). rewrite Forall_lookup in H2.
  exists it, op. split_and!; [done..|by eapply H2|done].
Qed.

Lemma judgeRows_done T env its rows run : rows ⊆ its -> reached env its (fst run) ->
  ensures (judgedAll env its) (judgeRows T env rows run).
Proof.
  revert run. induction rows as [|it rows IH]; intros run Hsub Hr; simpl.
  { apply ensures_ret. exists [], []. split_and!; [done|constructor|].
    intros id. split; [by intros ?%elem_of_nil|by intros (p & ?%elem_of_nil & _)]. }
  assert (it ∈ its /\ rows ⊆ its) as [Hit Hrows] by set_solver.
  destruct (notJudged env it) eqn:En; [by apply IH|].
  eapply ensures_bind; [by apply judgeLiveRow_done| |by intros e o1 (? & ? & [=] & _)].
  intros [row run1] o1 (? & ? & [= <- <-] & Hr1 & Hd).
  eapply ensures_bind; [by apply (ensures_emits (fun r own => r = Ok tt /\ own = []))| |by intros e o [[=] _]].
  intros [] o2 [_ ->]. cbn [app].
  eapply ensures_bind; [by apply IH| |by intros e o (? & ? & [=] & _)].
  intros [m u] o3 (? & ? & [= <- <-] & H1 & H2). apply ensures_ret. rewrite app_nil_r.
  assert (exists m' u', (if negb (fw_Listed (fm_write row)) then (m, u)
      else if fm_marked row then (lv_InstanceID it :: m, u) else (m, lv_InstanceID it :: u)) = (m', u') /\
      m' = if fw_Listed (fm_write row) && fm_marked row then lv_InstanceID it :: m else m) as (m' & u' & -> & ->)
    by (destruct (fw_Listed _), (fm_marked row); simpl; eauto).
  eexists _, _. split; [done|]. split; [apply Forall_app; split; [by eapply rowDone_writes|done]|].
  intros id. pose proof (rowDone_moved _ _ _ _ _ id Hd) as Hm. setoid_rewrite elem_of_app.
  transitivity (id ∈ m \/ (id = lv_InstanceID it /\ fw_Listed (fm_write row) = true /\ fm_marked row = true)).
  - destruct (fw_Listed (fm_write row)), (fm_marked row); simpl; rewrite ?elem_of_cons; naive_solver.
  - rewrite H2, <- Hm. naive_solver.
Qed.

(** *** Healing *)

(** A committed write records the transcript of one provisional row: the file
    on disk for the directory, the cwd and the session the run read of it, on
    the row while it still has that session and no transcript. An UPDATE that
    matched no row changed nothing. *)
Definition transcriptHealed (env : FindMissingEnv) (s1 : option Store) (p : Store * Store) : Prop :=
  snd p = fst p \/
  exists s pts pt path r, s1 = Some s /\ ListProvisionalTranscripts env s = Some pts /\ pt ∈ pts /\
    fe_Transcript env (pt_ConfigDir pt) (pt_CWD pt) (pt_SessionID pt) = Some path /\
    db_spawns (fst p) !! pt_InstanceID pt = Some r /\ sp_session_id r = Some (pt_SessionID pt) /\ sp_jsonl_path r = None /\
    snd p = fst p <| db_spawns := <[pt_InstanceID pt := r <| sp_jsonl_path := Some path |>
                                                          <| sp_row_version := sp_row_version r + 1 |>]> (db_spawns (fst p)) |>.

Lemma heal_done env s pts pt path : ListProvisionalTranscripts env s = Some pts -> pt ∈ pts ->
  fe_Transcript env (pt_ConfigDir pt) (pt_CWD pt) (pt_SessionID pt) = Some path ->
  guarantees (fun a b => transcriptHealed env (Some s) (a, b)) (HealJsonlPath (pt_InstanceID pt) (pt_SessionID pt) path).
Proof.
  intros Hl Hpt Hp. unfold HealJsonlPath. guar. apply guarantees_stmt. intros a n b [= E].
  assert (b = snd (update1 (pt_InstanceID pt) (fun _ => healRow (pt_SessionID pt) path) a)) as -> by by rewrite E.
  unfold update1, healRow. destruct (db_spawns a !! pt_InstanceID pt) as [r|] eqn:Er; simpl; [|by left].
  destruct (where3 _) eqn:Ew; simpl; [right|by left]. rewrite where3_and, where3_sql_eq, where3_is_null in Ew. bsimp.
  exists s, pts, pt, path, r. by split_and!.
Qed.

Lemma healAll_done env : ensures_from (fun s1 r own => r = Ok tt /\ Forall (transcriptHealed env s1) own)
  (healProvisionalTranscripts env).
Proof.
  unfold healProvisionalTranscripts. eapply ensures_from_catch.
  { apply (ensures_from_read (fun s1 r own => own = [] /\
      forall pts, r = Ok (Some pts) -> exists s, s1 = Some s /\ ListProvisionalTranscripts env s = Some pts)); [|done].
    intros s. split; [done|]. intros pts [= E]. by exists s. }
  assert (forall s pts l, ListProvisionalTranscripts env s = Some pts -> l ⊆ pts ->
    ensures (fun r own => r = Ok tt /\ Forall (transcriptHealed env (Some s)) own) (healAll env l)) as H.
  { intros s pts l Hl. induction l as [|pt l IH]; simpl; intros Hsub; [apply ensures_ret; by split|].
    assert (pt ∈ pts /\ l ⊆ pts) as [Hpt Hsub'] by set_solver.
    destruct (fe_Transcript _ _ _ _) as [path|] eqn:Ep; [|by apply IH].
    eapply (ensures_catch (fun _ own => Forall (transcriptHealed env (Some s)) own)).
    - intros w. destruct (heal_done env s pts pt path Hl Hpt Ep w) as (own & E & Hw). exists own. split; [done|].
      eapply Forall_impl; [exact Hw|]. by intros [].
    - intros r o1 H1. eapply ensures_mono; [by apply IH|]. intros r' o2 [-> H2]. split; [done|by apply Forall_app]. }
  intros s1 r o1 [-> Hr]. destruct r as [[pts|]|e]; try (apply ensures_ret; by split).
  destruct (Hr pts eq_refl) as (s & -> & Hl). by apply (H s pts pts).
Qed.

Lemma healed_moved env s1 j p : transcriptHealed env s1 p -> ~ movedToMissing j p.
Proof.
  intros [E|(s & pts & pt & path & r & _ & _ & _ & _ & Hr & _ & _ & E)] (a & b & Ha & Hb & Hl & Hm).
  - rewrite E, Ha in Hb. injection Hb as <-. by rewrite Hm in Hl.
  - rewrite E in Hb. rsimp_in Hb. destruct (decide (j = pt_InstanceID pt)) as [->|].
    + rewrite lookup_insert_eq in Hb. injection Hb as <-. revert Hm. rsimp. rewrite Hr in Ha. injection Ha as ->.
      intros Hm. by rewrite Hm in Hl.
    + rewrite lookup_insert_ne in Hb by done. rewrite Ha in Hb. injection Hb as <-. by rewrite Hm in Hl.
Qed.

#[export] Instance string_le_total : Total string_le.
Proof. intros a b. unfold string_le. destruct (String.leb_total a b) as [?|?]; auto. Qed.

Lemma judgeLiveRows_done T env : ensures_from (fun s0 r own =>
    match s0 with
    | Some s => judgedAll env (ListLiveSpawnIdentities s) r own
    | None => own = [] /\ exists e, r = Err e
    end) (judgeLiveRows T env).
Proof.
  unfold judgeLiveRows. eapply ensures_from_bind.
  - apply (ensures_from_read (fun s0 r own => own = [] /\
      match s0 with Some s => r = Ok (ListLiveSpawnIdentities s) | None => exists e, r = Err e end)); [done|].
    split; [done|]. by eexists.
  - intros [s|] its o1 [-> H]; [|by destruct H]. injection H as ->. cbn [app]. apply judgeRows_done; [|constructor].
    by rewrite (merge_sort_Permutation live_le).
  - intros [s|] e o1 [-> H]; [done|]. split; [done|by eexists].
Qed.

(** What a run leaves: its result, and the writes of its two halves, from the
    rows and the transcripts each half read. *)
Definition foundMissing (env : FindMissingEnv) (s0 s1 : option Store) (r : result FindMissingResult)
    (judged healed : list (Store * Store)) : Prop :=
  match r with
  | Err _ => judged = [] /\ healed = []
  | Ok res =>
      (exists s, s0 = Some s /\ Forall (warrantedWrite env (ListLiveSpawnIdentities s)) judged) /\
      Forall (transcriptHealed env s1) healed /\
      (forall id, id ∈ fr_IDs res <-> exists p, p ∈ judged ++ healed /\ movedToMissing id p) /\
      fr_Count res = Z.of_nat (length (fr_IDs res)) /\ Sorted string_le (fr_IDs res) /\ Sorted string_le (fr_UnverifiedIDs res)
  end.

Lemma FindMissing_done T env w : exists judged healed,
  w_own (snd (FindMissing T env w)) = w_own w ++ judged ++ healed /\
  foundMissing env (firstStore w) (firstStore (snd (judgeLiveRows T env w))) (fst (FindMissing T env w)) judged healed.
Proof.
  unfold FindMissing, bind. destruct (judgeLiveRows_done T env w) as (judged & E1 & H1).
  destruct (judgeLiveRows T env w) as [[[m u]|e] w1]; simpl in *; cycle 1.
  { exists [], []. rewrite !app_nil_r. destruct (firstStore w); [by destruct H1 as (? & ? & [=] & _)|].
    destruct H1 as [-> _]. by rewrite app_nil_r in E1. }
  destruct (firstStore w) as [s|]; [|by destruct H1 as (_ & e & [=])].
  destruct H1 as (? & ? & [= <- <-] & H1 & H2).
  destruct (healAll_done env w1) as (healed & E2 & Hr & H3).
  destruct (healProvisionalTranscripts env w1) as [r w2]. simpl in *. subst r. simpl. exists judged, healed.
  split; [by rewrite E2, E1, app_assoc|]. split_and!.
  - by exists s.
  - done.
  - intros id. rewrite (merge_sort_Permutation string_le), H2. setoid_rewrite elem_of_app. split.
    + intros (p & Hp & Hm). eauto.
    + intros (p & [Hp|Hp] & Hm); [eauto|]. rewrite Forall_forall in H3. by eapply healed_moved in Hm; [|apply H3].
  - by rewrite (merge_sort_Permutation string_le).
  - apply (Sorted_merge_sort string_le).
  - apply (Sorted_merge_sort string_le).
Qed.

(** C19: find-missing writes a row only on evidence. Whatever else writes the
    store, a run's writes are those of the rows it judged, then those that
    record transcripts. A judged row is one of the live rows the run's own
    read returned, past its grace period and not held by a live launch owner;
    each write is of the life the run read (or its own adoption left) and sets
    exactly the columns of its kind. A row moves to ended only with a Codex
    end report and its process gone; to missing only when the process is
    gone, when tmux, asked on the row's own socket, shows no session of its
    launch, or when none of the panes it lists there carries the row's token.
    A note is cleared, or a pending agent noted as unreported, only with the
    process seen running; every other note, and the adoption, is the one the
    process and the answer of that socket call for. A transcript is recorded
    only of a row the run read without one, from the file of its own session.
    A run that fails wrote nothing. *)
Theorem find_missing_writes_on_evidence (T : Z) (env : FindMissingEnv) (w : World Store Event) :
  let s0 := firstStore w in
  let s1 := firstStore (snd (judgeLiveRows T env w)) in
  exists judged healed, w_own (snd (FindMissing T env w)) = w_own w ++ judged ++ healed /\
    match fst (FindMissing T env w) with
    | Err _ => judged = [] /\ healed = []
    | Ok _ => (exists s, s0 = Some s /\ Forall (warrantedWrite env (ListLiveSpawnIdentities s)) judged) /\
        Forall (transcriptHealed env s1) healed
    end.
Proof.
  destruct (FindMissing_done T env w) as (judged & healed & E & H). exists judged, healed. split; [done|].
  destruct (fst (FindMissing T env w)); [|done]. by destruct H as (H1 & H2 & _).
Qed.

(** C20: The ids find-missing returns are exactly the rows its own writes
    moved from a live state to missing, counted and in order; a run that
    fails wrote nothing. *)
Theorem find_missing_lists_what_it_marked (T : Z) (env : FindMissingEnv) :
  ensures (fun r own => match r with
    | Err _ => own = []
    | Ok res => (forall id, id ∈ fr_IDs res <-> exists p, p ∈ own /\ movedToMissing id p) /\
        fr_Count res = Z.of_nat (length (fr_IDs res)) /\ Sorted string_le (fr_IDs res)
    end) (FindMissing T env).
Proof.
  intros w. destruct (FindMissing_done T env w) as (judged & healed & E & H). exists (judged ++ healed). split; [done|].
  destruct (fst (FindMissing T env w)); [by destruct H as (_ & _ & H1 & H2 & H3 & _)|by destruct H as [-> ->]].
Qed.

(** *** A run alone *)

(** A working agent whose process is gone, a Codex one that reported its end,
    one whose process runs, and a launch inside its grace period. *)
Definition liveRow (pid : Z) : SpawnRow :=
  sampleRow <| sp_state := StateWorking |> <| sp_pid := Some pid |> <| sp_proc_starttime := Some "5" |> <| sp_pane_pid := None |>.
Definition sweepStore : Store :=
  storeOf {[ "gone" := liveRow 10;
             "ended" := liveRow 11 <| sp_agent := Some AgentCodex |> <| sp_end_reported_at := Some 7 |>;
             "runs" := liveRow 12;
             "boots" := sampleRow <| sp_state := StatePending |> <| sp_launch_started_at := Some 100000 |> ]} 100000.
Definition sampleFindEnv : FindMissingEnv :=
  mkFindMissingEnv (60 * second) (110 * second) (fun _ _ pid => mkStartAnswer "5" (pid =? 12) true) (fun _ => None)
    (mkSweepEnv 0 (fun _ => 0) (fun _ => inl OtherError) (fun _ => inl OtherError)) None "00000000000000ff"
    (fun _ => None) (fun _ _ _ => None).
Definition sampleFound : result FindMissingResult * World Store Event := FindMissing 0 sampleFindEnv (alone sweepStore [] []).

Lemma find_missing_sample :
  fst sampleFound = Ok (mkFound 1 ["gone"] 0 []) /\
  ((fun id => sp_state <$> db_spawns (w_store (snd sampleFound)) !! id) <$> ["gone"; "ended"; "runs"; "boots"])
  = [Some StateMissing; Some StateEnded; Some StateWorking; Some StatePending].
Proof. split; vm_compute; reflexivity. Qed.
