(* ===== verification/StartingSession.v ===== *)
(** * The starting-session rule (internal/tmux/starting_session.go; pkg/api:
      starting_session.go, resume_lookup.go, spawn_scan.go)

    Whether a finished row's session may still be stopping or starting, by the
    row's end and the session's age ([StartingSession]), and the order in which
    the sessions of a launch are taken. Instants are nanoseconds; ended_at and a
    session's creation are whole seconds. *)

From S2P Require Import Prelude Sql Rows Requests Steps Gate HookWrites HookEnv RelayHook Bytes Process Tmux.

(** ** Ages *)

Record Elapsed := mkElapsed { el_Since : Z; el_Future : bool }.
Definition Under (e : Elapsed) (limit : Z) : bool := el_Future e || (el_Since e <? limit).
Definition elapsedSince (now at_ : Z) : Elapsed := if now <? at_ then mkElapsed 0 true else mkElapsed (now - at_) false.
Definition SessionAge (now created : Z) : Elapsed := elapsedSince now (created * second).

Inductive StartingSessionOutcome := StillStopping | StillStarting | PastBoth.
#[export] Instance StartingSessionOutcome_eq_dec : EqDecision StartingSessionOutcome.
Proof. solve_decision. Defined.

Record StartingSessionInput := mkStartingInput {
  si_EndedAt : option Z;              (* in whole seconds *)
  si_RecordsPID : bool;
  si_RecordsSessionID : bool;
  si_Session : option Session;
  si_Now : Z;
  si_Bound : Z;
  si_Window : Z;
}.

Definition StartingSession (i : StartingSessionInput) : StartingSessionOutcome :=
  let age :=
    match si_Session i with
    | Some s => if Under (SessionAge (si_Now i) (ss_Created s)) (si_Bound i) then StillStarting else PastBoth
    | None => PastBoth
    end in
  match si_EndedAt i with
  | Some ended =>
      if (si_RecordsPID i || si_RecordsSessionID i) && Under (elapsedSince (si_Now i) (ended * second)) (si_Window i)
      then StillStopping else age
  | None => age
  end.

(** ** The row as the verb examined it *)

Record startingSessionRow := mkStartingRow {
  sr_EndedAt : option Z;
  sr_RecordsPID : bool;
  sr_RecordsSessionID : bool;
}.
Definition startingRowOf (r : SpawnRow) : startingSessionRow :=
  mkStartingRow (sp_ended_at r) (0 <? coalesce (sp_pid r) 0) (negb (bool_decide (coalesce (sp_session_id r) "" = ""))).
Definition recordsNoLaunchSession (i : LaunchIdentity) : bool :=
  negb (bool_decide (li_Token i = "")) && (li_ServerPID i =? 0) && bool_decide (li_PaneID i = "").

Record startingSessionLimits := mkLimits { lm_Bound : Z; lm_Window : Z }.
Definition checkStartingSession (lim : startingSessionLimits) (now : Z) (row : startingSessionRow) (session : option Session)
    : StartingSessionOutcome :=
  StartingSession (mkStartingInput (sr_EndedAt row) (sr_RecordsPID row) (sr_RecordsSessionID row) session now
    (lm_Bound lim) (lm_Window lim)).

(** The first of the sessions created last; [None] of none. *)
Fixpoint youngestSession (sessions : list Session) : option Session :=
  match sessions with
  | [] => None
  | s :: sessions =>
      match youngestSession sessions with
      | Some q => if ss_Created s <? ss_Created q then Some q else Some s
      | None => Some s
      end
  end.

(** The age step alone, on the youngest. *)
Definition abandonedLaunchCheck (lim : startingSessionLimits) (now : Z) (row : startingSessionRow) (leftovers : list Session)
    : StartingSessionOutcome :=
  checkStartingSession lim now (mkStartingRow None (sr_RecordsPID row) (sr_RecordsSessionID row)) (youngestSession leftovers).

(** ** The order of sessions *)

Definition MaxInt : Z := 2 ^ 63 - 1.
(** strconv.Atoi. *)
Definition Atoi (s : string) : option Z :=
  match s with
  | String c t =>
      if Ascii.eqb c (chr 43) then parseDecimal64 t
      else if Ascii.eqb c (chr 45) then
        if isDigits t && (decimalFrom 0 t <=? 2 ^ 63) then Some (- decimalFrom 0 t) else None
      else parseDecimal64 s
  | EmptyString => None
  end.
Definition sessionNumber (id : string) : Z :=
  match cutPrefix "$" id with
  | Some digits => match Atoi digits with Some n => if n <? 0 then MaxInt else n | None => MaxInt end
  | None => MaxInt
  end.
Definition number_le (a b : Session) : Prop := sessionNumber (ss_ID a) <= sessionNumber (ss_ID b).
#[export] Instance number_le_dec a b : Decision (number_le a b).
Proof. unfold number_le. apply _. Defined.
Definition sortedBySessionNumber (sessions : list Session) : list Session := merge_sort number_le sessions.

(** ** Facts *)

Lemma youngest_in sessions y : youngestSession sessions = Some y ->
  y ∈ sessions /\ forall s, s ∈ sessions -> ss_Created s <= ss_Created y.
Proof.
  revert y. induction sessions as [|x l IH]; intros y; simpl; [done|].
  destruct (youngestSession l) as [q|] eqn:E.
  - destruct (IH q eq_refl) as [Hq Hl]. destruct (ss_Created x <? ss_Created q) eqn:El; intros [= <-].
    + split; [by right|]. intros s [->|Hs]%elem_of_cons; [lia|by apply Hl].
    + split; [by left|]. intros s [->|Hs]%elem_of_cons; [lia|]. specialize (Hl s Hs). lia.
  - intros [= <-]. destruct l as [|z l]; [|simpl in E; by repeat case_match].
    split; [by left|]. intros s ->%list_elem_of_singleton. lia.
Qed.
Lemma youngest_none sessions : youngestSession sessions = None -> sessions = [].
Proof. destruct sessions as [|x l]; simpl; [done|]. by repeat case_match. Qed.

Lemma not_under now at_ limit : Under (elapsedSince now at_) limit = false <-> at_ <= now /\ limit <= now - at_.
Proof.
  unfold Under, elapsedSince. destruct (now <? at_) eqn:E; simpl; [split; [done|lia]|].
  rewrite Z.ltb_ge. lia.
Qed.

(** Past both: the session is at least the bound old, and the row, if it
    ended and recorded an agent, ended at least the window ago. *)
Lemma past_both i : StartingSession i = PastBoth <->
  (forall s, si_Session i = Some s -> ss_Created s * second <= si_Now i /\ si_Bound i <= si_Now i - ss_Created s * second) /\
  (forall ended, si_EndedAt i = Some ended -> si_RecordsPID i || si_RecordsSessionID i = true ->
     ended * second <= si_Now i /\ si_Window i <= si_Now i - ended * second).
Proof.
  unfold StartingSession, SessionAge. pose proof (fun at_ limit => not_under (si_Now i) at_ limit) as Hu.
  assert (match si_Session i with
      | Some s => if Under (elapsedSince (si_Now i) (ss_Created s * second)) (si_Bound i) then StillStarting else PastBoth
      | None => PastBoth
      end = PastBoth <->
    forall s, si_Session i = Some s -> ss_Created s * second <= si_Now i /\ si_Bound i <= si_Now i - ss_Created s * second) as Ha.
  { destruct (si_Session i) as [s|]; [|done]. specialize (Hu (ss_Created s * second) (si_Bound i)).
    destruct (Under _ _); naive_solver. }
  rewrite <-Ha. destruct (si_EndedAt i) as [ended|]; [|naive_solver].
  specialize (Hu (ended * second) (si_Window i)).
  destruct (si_RecordsPID i || si_RecordsSessionID i); simpl; [|naive_solver].
  destruct (Under (elapsedSince (si_Now i) (ended * second)) (si_Window i)); naive_solver.
Qed.
