(* ===== verification/Expire.v ===== *)
(** * expire (pkg/api: expire.go, expire_trail.go)

    One run over the finished rows older than the retention window: each is
    judged by its recorded name, by its agent's process and by its socket's
    lookup through the run's one sweep ([judgeCandidate]); only a row whose lookup
    found no session of the agent is deleted, and only while it is still the
    life the run examined ([deleteGoneRow]). *)

From S2P Require Import Prelude Sql Rows Requests Settle Family Display History Steps Programs Gate HookWrites RelayWrites HookEnv Payload Classify RelayHook Lifecycle CursorWrites Process Handler Bytes Tmux Sweep Delivery Guard PaneAnswer ContextSource FindMissing.

(** ** The retention window *)

Definition DefaultExpireRetentionDays : Z := 31.
Definition day : Z := 24 * 3600 * second.
Definition MaxExpireRetentionDays : Z := Z.quot MaxInt64 day.

(** [None]: refused with ErrInvalidFlags. A time.Duration is an int64 of
    nanoseconds. *)
Definition retentionWindow (days : Z) : option Z :=
  if days <? 0 then None
  else if days =? 0 then Some (wrap64 (DefaultExpireRetentionDays * day))
  else if MaxExpireRetentionDays <? days then Some MaxInt64
  else Some (wrap64 (days * day)).

(** 9999-12-31 23:59:59 UTC, in nanoseconds. *)
Definition farFutureCutoff : Z := 253402300799 * second.

(** The window of a run: [olderThan] overrides the retention. *)
Definition runWindow (retentionDays : Z) (olderThan : option Z) : option Z :=
  window ← retentionWindow retentionDays;
  match olderThan with
  | None => Some window
  | Some w => if w <? 0 then None else Some w
  end.
Definition cutoffOf (now window : Z) : Z := if 0 <? window then now - window else farFutureCutoff.

(** ** Kept reasons *)

Definition keptEmptySessionName : string := "empty_session_name".
Definition keptControlCharSessionName : string := "control_char_session_name".
Definition keptRewrittenSessionName : string := "rewritten_session_name".
Definition keptProcessAlive : string := "process_alive".
Definition keptTmuxSkipped : string := "tmux_skipped".
Definition keptLeftoverRunning : string := "leftover_running".
Definition keptOurs : string := "ours".
Definition keptTmuxServerChanged : string := "tmux_server_changed".
Definition keptProvenanceConflict : string := "provenance_conflict".
Definition keptCantTell : string := "cant_tell".
Definition keptTmuxUnavailable : string := "tmux_unavailable".
Definition keptChangedSinceExamined : string := "changed_since_examined".
Definition keptStoreError : string := "store_error".

Definition unusableKeptReason (kind : UnusableKind) : string :=
  match kind with
  | UnusableEmpty => keptEmptySessionName
  | UnusableControl => keptControlCharSessionName
  | UnusableRewritten => keptRewrittenSessionName
  | UnusableNone => ""
  end.

(** Of a result that is neither Skipped nor Gone. *)
Definition expireKeptReason (res : Result) : string :=
  match rs_Verdict res, rs_CantTell res with
  | Leftover, _ => keptLeftoverRunning
  | Ours, _ => keptOurs
  | CantTell, CantTellDifferentServer => keptTmuxServerChanged
  | CantTell, CantTellProvenanceConflict => keptProvenanceConflict
  | CantTell, CantTellUnavailable => keptTmuxUnavailable
  | _, _ => keptCantTell
  end.

(** ** A run *)

(** [xe_Start k id]: what the start-time reader answers, 0 for the row's agent
    process and 1 for the lookup's server check. *)
Record ExpireEnv := mkExpireEnv {
  xe_Now : Z;                                          (* now(), when the cutoff is taken *)
  xe_Start : nat -> string -> Z -> StartAnswer;
  xe_Sweep : SweepEnv;
  xe_CallerSocket : option string;
  xe_StoreID : string;
}.

Record expireRow := mkExpireRow {
  xr_deleted : bool;
  xr_reason : string;
  xr_socket : string;
  xr_res : Result;
  xr_disagree : list string;
}.
Definition keptRow (reason : string) : expireRow := mkExpireRow false reason "" zeroResult [].
Definition expireAction (r : expireRow) : string :=
  if xr_deleted r then "deleted"
  else if negb (bool_decide (xr_reason r = "")) then xr_reason r
  else findMissingActionChanged.

Section Run.
Context (settleMs : Z) (env : ExpireEnv).

Section Row.
Context (cand : ExpireCandidate).
Let id := ec_InstanceID cand.
Let name := rs_TmuxSessionName (ec_Snapshot cand).

(** The state the process of the row's agent is in. *)
Definition candProcess : ProcState :=
  let agent := ap_Identity (SelectAgentProcess (mkProc (rs_PID (ec_Snapshot cand)) (rs_ProcStarttime (ec_Snapshot cand)))
                 (mkProc (li_PanePID (ec_Identity cand)) (li_PaneStarttime (ec_Identity cand)))) in
  JudgeProcess (xe_Start env 0 id (pc_PID agent)) (pc_PID agent) (pc_Starttime agent).

(** expireRun.deleteRow. *)
Definition deleteGoneRow (row : expireRow) : Op expireRow :=
  let out deleted reason := mkExpireRow deleted reason (xr_socket row) (xr_res row) (xr_disagree row) in
  catch (DeleteFinishedIfSameLife settleMs id (ec_Snapshot cand)) (fun r => ret (match r with
    | Err _ => out false keptStoreError
    | Ok CondApplied => out true ""
    | Ok CondAbsent => out false ""
    | Ok CondChanged => out false keptChangedSinceExamined
    end)).

(** The row's lookup: the socket used and the result. *)
Definition candLookup (run : Sweep * bool) : string * Result * (Sweep * bool) :=
  let '(sock, refused) := forRow (xe_CallerSocket env) (snd run) (li_Socket (ec_Identity cand)) in
  match sock with
  | inl res => ("", res, (fst run, refused))
  | inr socket =>
      let '(res, sw) := Lookup (xe_Sweep env) (rowLaunch id (ec_Identity cand) (xe_StoreID env) socket)
                          (xe_Start env 1 id) name (fst run) in
      (socket, res, (sw, refused))
  end.

(** expireRun.lookupRow. *)
Definition lookupCandidate (run : Sweep * bool) : Op (expireRow * (Sweep * bool)) :=
  let '(socket, res, run) := candLookup run in
  if rs_Skipped res then ret (mkExpireRow false keptTmuxSkipped socket res [], run)
  else
    let disagree := if nameChanged res name then rs_Disagree res ++ [ReasonNameChanged] else rs_Disagree res in
    if bool_decide (rs_Verdict res = Gone) then
      row <- deleteGoneRow (mkExpireRow false "" socket res disagree);;
      ret (row, run)
    else ret (mkExpireRow false (expireKeptReason res) socket res disagree, run).

(** expireRun.judgeRow. *)
Definition judgeCandidate (run : Sweep * bool) : Op (expireRow * (Sweep * bool)) :=
  let reason := unusableKeptReason (Unusable name) in
  if negb (bool_decide (reason = "")) then ret (keptRow reason, run)
  else if bool_decide (candProcess = ProcAlive) then ret (keptRow keptProcessAlive, run)
  else lookupCandidate run.

(** expireRun.emitRow. *)
Definition expireEvents (row : expireRow) : list Event :=
  (if bool_decide (xr_reason row = "") then [] else [EvExpireKept id (xr_reason row) name])
  ++ (filter (fun reason => reason ∈ xr_disagree row) disagreeReasons
      ≫= fun reason => [provenanceDisagree "expire" id (xr_socket row) name (xr_res row) (expireAction row) reason]).
End Row.

(** The ids deleted and the ids kept, in the order judged. *)
Fixpoint judgeCandidates (cands : list ExpireCandidate) (run : Sweep * bool) : Op (list string * list string) :=
  match cands with
  | [] => ret ([], [])
  | cand :: cands =>
      judged <- judgeCandidate cand run;;
      let '(row, run) := judged in
      emits (expireEvents cand row);;;
      rest <- judgeCandidates cands run;;
      let '(deleted, kept) := rest in
      ret (if xr_deleted row then (ec_InstanceID cand :: deleted, kept)
           else if negb (bool_decide (xr_reason row = "")) then (deleted, ec_InstanceID cand :: kept)
           else (deleted, kept))
  end.

Record ExpireResult := mkExpired {
  ex_Count : Z;
  ex_IDs : list string;
  ex_Kept : Z;
  ex_KeptIDs : list string;
}.

Definition cand_le (a b : ExpireCandidate) : Prop := String.leb (ec_InstanceID a) (ec_InstanceID b) = true.
#[export] Instance cand_le_dec a b : Decision (cand_le a b).
Proof. unfold cand_le. apply _. Defined.

(** A failed candidate read is the run's error; the refusals are made before
    it. *)
Definition Expire (retentionDays : Z) (olderThan : option Z) : Op (outcome ExpireResult) :=
  match runWindow retentionDays olderThan with
  | None => refuse AInvalidFlags
  | Some window =>
      stored (read (ListExpireCandidates (cutoffOf (xe_Now env) window / millisecond))) (fun cands =>
        judged <- judgeCandidates (merge_sort cand_le cands) (NewSweep, false);;
        let '(deleted, kept) := judged in
        ret (Done (mkExpired (Z.of_nat (length deleted)) (merge_sort string_le deleted)
                     (Z.of_nat (length kept)) (merge_sort string_le kept))))
  end.
End Run.
