(* ===== verification/ExpireProps.v ===== *)
(** * Properties of expire

    Every write of a run deletes one finished row the run examined, on the
    evidence [expirable] names; the ids it returns are the rows it deleted. *)

From S2P Require Import Prelude Sql Rows Requests Settle Family Display History Steps Programs Gate HookWrites HookProps RelayWrites RequestInv RelayProps HookEnv Payload Classify RelayHook Lifecycle LifecycleProps CursorWrites Process Handler Bytes Tmux TmuxProps Sweep SweepProps Delivery Guard PaneAnswer FindMissing FindMissingProps Expire.

(** ** Evidence *)

Section Evidence.
Context (env : ExpireEnv) (cand : ExpireCandidate).

(** The socket of the row's lookup, and the row as the lookup sees it. *)
Definition candSocket : option string :=
  if bool_decide (li_Socket (ec_Identity cand) = "") then xe_CallerSocket env else Some (li_Socket (ec_Identity cand)).
Definition candLaunch (socket : string) : Launch :=
  rowLaunch (ec_InstanceID cand) (ec_Identity cand) (xe_StoreID env) socket.

(** tmux shows no session of the agent on the row's socket: a listing of a
    server that stands for the row holds none of any launch of it and no
    label out of place, or no server answered and the recorded one is gone. *)
Definition noSession : Prop :=
  exists socket, candSocket = Some socket /\
    ((exists ans, sv_Lookup (xe_Sweep env) socket = inr ans /\
        serverStands (candLaunch socket) (xe_Start env 1 (ec_InstanceID cand)) (Some ans) /\ an_ScopeValue ans = false /\
        forall s, s ∈ an_Sessions ans ->
          ClassOf (candLaunch socket) (ss_Label s) <> ClassCurrent /\ ClassOf (candLaunch socket) (ss_Label s) <> ClassOld) \/
     ((sv_Lookup (xe_Sweep env) socket = inl (CallFailure FailNoServer) \/
       sv_Lookup (xe_Sweep env) socket = inl (CallFailure FailNoSocket)) /\
      serverStands (candLaunch socket) (xe_Start env 1 (ec_InstanceID cand)) None)).

Definition expirable : Prop :=
  Unusable (rs_TmuxSessionName (ec_Snapshot cand)) = UnusableNone /\ candProcess env cand <> ProcAlive /\ noSession.

(** What a row's judgement did: deleted it, on evidence, or wrote nothing. *)
Definition judgedCand (row : expireRow) (own : list (Store * Store)) : Prop :=
  (own = [] /\ xr_deleted row = false) \/
  (xr_deleted row = true /\ expirable /\
   exists s s', own = [(s, s')] /\ snapshotWritten OpDelete (ec_InstanceID cand) (ec_Snapshot cand) s s').
End Evidence.

Lemma gone_evidence row start call holder : rs_Verdict (resultForCall row start call holder) = Gone ->
  (exists ans, call = inr ans /\ serverStands row start (Some ans) /\ an_ScopeValue ans = false /\
     forall s, s ∈ an_Sessions ans -> ClassOf row (ss_Label s) <> ClassCurrent /\ ClassOf row (ss_Label s) <> ClassOld) \/
  ((call = inl (CallFailure FailNoServer) \/ call = inl (CallFailure FailNoSocket)) /\ serverStands row start None).
Proof.
  intros Hg. pose proof (verdict_says row start call holder) as H. cbv zeta in H. rewrite Hg in H.
  destruct H as [(ans & (H1 & H2 & H3) & Hc & Ho)|H]; [left|by right]. exists ans. split_and!; [done..|].
  intros s Hs. split; by eapply none_of_class.
Qed.

(** ** A row *)

Section Row.
Context (T : Z) (env : ExpireEnv) (cand : ExpireCandidate).

Lemma candLookup_answers run socket res run' : answers_ok (xe_Sweep env) (fst run) ->
  candLookup env cand run = (socket, res, run') ->
  answers_ok (xe_Sweep env) (fst run') /\ (rs_Skipped res = false -> rs_Verdict res = Gone -> noSession env cand).
Proof.
  intros Hok. unfold candLookup, forRow, noSession, candSocket.
  destruct (bool_decide (li_Socket (ec_Identity cand) = "")) eqn:E; simpl.
  1: destruct (xe_CallerSocket env) as [k|]; [|by destruct (snd run); intros [= <- <- <-]].
  2: set (k := li_Socket (ec_Identity cand)).
  all: destruct (Lookup _ _ _ _ _) as [res' sw] eqn:El; intros [= <- <- <-];
    destruct (Lookup_answers _ _ _ _ _ _ _ Hok El) as [H1 H2]; split; [done|];
    intros Hs Hg; exists k; split; [done|]; rewrite (H2 Hs) in Hg; by apply gone_evidence in Hg.
Qed.

Lemma deleteGoneRow_done row : xr_deleted row = false -> expirable env cand ->
  ensures (fun r own => exists row', r = Ok row' /\ judgedCand env cand row' own) (deleteGoneRow T cand row).
Proof.
  intros Hf He. unfold deleteGoneRow.
  eapply ensures_catch; [apply (ensures_snapshotOp T (ec_InstanceID cand) (ec_Snapshot cand) OpDelete)|].
  intros [[]|e] o1 H1; simpl in H1; apply ensures_ret; rewrite app_nil_r; eexists; (split; [done|]); [by right|by left..].
Qed.

Definition judgedWith (run : Sweep * bool) (r : result (expireRow * (Sweep * bool))) (own : list (Store * Store)) : Prop :=
  exists row run', r = Ok (row, run') /\ answers_ok (xe_Sweep env) (fst run') /\ judgedCand env cand row own.

Lemma kept_with run row run' : xr_deleted row = false -> answers_ok (xe_Sweep env) (fst run') ->
  ensures (judgedWith run) (ret (row, run') : Op _).
Proof. intros. apply ensures_ret. eexists _, _. split; [done|]. split; [done|by left]. Qed.

Lemma judgeCandidate_done run : answers_ok (xe_Sweep env) (fst run) -> ensures (judgedWith run) (judgeCandidate T env cand run).
Proof.
  intros Hok. unfold judgeCandidate. destruct (negb _) eqn:En; [by apply kept_with|].
  destruct (bool_decide (candProcess env cand = ProcAlive)) eqn:Ep; [by apply kept_with|]. unfold lookupCandidate.
  destruct (candLookup env cand run) as [[socket res] run'] eqn:El.
  destruct (candLookup_answers _ _ _ _ Hok El) as [Hok' Hg].
  destruct (rs_Skipped res) eqn:Es; [by apply kept_with|].
  destruct (bool_decide (rs_Verdict res = Gone)) eqn:Ev; [|by apply kept_with].
  eapply ensures_bind; [apply deleteGoneRow_done; [done|]| |by intros e o1 (? & [=] & _)].
  - bsimp. split_and!; [by destruct (Unusable _)|done|by apply Hg].
  - intros row o1 (? & [= <-] & H). apply ensures_ret. rewrite app_nil_r. by eexists _, _.
Qed.
End Row.

(** ** The run *)

(** A committed write took the row away. *)
Definition removed (id : string) (p : Store * Store) : Prop :=
  is_Some (db_spawns (fst p) !! id) /\ db_spawns (snd p) !! id = None.

Definition deletedCand (env : ExpireEnv) (cands : list ExpireCandidate) (p : Store * Store) : Prop :=
  exists cand, cand ∈ cands /\ expirable env cand /\
    snapshotWritten OpDelete (ec_InstanceID cand) (ec_Snapshot cand) (fst p) (snd p).

Lemma deleted_removed id x s s' j : snapshotWritten OpDelete id x s s' -> removed j (s, s') <-> j = id.
Proof.
  intros (r & Hr & _ & _ & Hs & Ho). unfold removed. simpl in *. split.
  - intros [[q Hq] Hn]. destruct (decide (j = id)) as [|Hne]; [done|]. specialize (Ho j Hne). by rewrite Hq, Hn in Ho.
  - intros ->. rewrite Hr. split; [by eexists|done].
Qed.

Definition judgedCands (env : ExpireEnv) (cands : list ExpireCandidate) (r : result (list string * list string))
    (own : list (Store * Store)) : Prop :=
  exists deleted kept, r = Ok (deleted, kept) /\ Forall (deletedCand env cands) own /\
    Forall2 (fun id p => forall j, removed j p <-> j = id) deleted own /\
    sublist deleted (ec_InstanceID <$> cands) /\ sublist kept (ec_InstanceID <$> cands) /\
    (NoDup (ec_InstanceID <$> cands) -> forall id, id ∈ deleted -> id ∉ kept).

Lemma judgeCandidates_done T env cands run : answers_ok (xe_Sweep env) (fst run) ->
  ensures (judgedCands env cands) (judgeCandidates T env cands run).
Proof.
  revert run. induction cands as [|cand cands IH]; intros run Hok; simpl.
  { apply ensures_ret. exists [], []. split_and!; try constructor. by intros _ id ?%elem_of_nil. }
  eapply ensures_bind; [by apply judgeCandidate_done| |by intros e o1 (? & ? & [=] & _)].
  intros [row run'] o1 (? & ? & [= <- <-] & Hok' & Hj).
  eapply ensures_bind; [by apply (ensures_emits (fun r own => r = Ok tt /\ own = []))| |by intros e o [[=] _]].
  intros [] o2 [_ ->]. cbn [app].
  eapply ensures_bind; [by apply IH| |by intros e o (? & ? & [=] & _)].
  intros [deleted kept] o3 (? & ? & [= <- <-] & H1 & H2 & H3 & H4 & H5). apply ensures_ret. rewrite app_nil_r.
  assert (Forall (deletedCand env (cand :: cands)) o3) as H1'.
  { eapply Forall_impl; [exact H1|]. intros p (c & Hc & Hp). exists c. split; [by right|done]. }
  assert (forall l, sublist l (ec_InstanceID <$> cands) -> ec_InstanceID cand ∈ l -> NoDup (ec_InstanceID <$> cand :: cands) -> False)
    as Hfresh by (intros l Hl Hin [Hn _]%NoDup_cons; by apply Hn, (sublist_subseteq _ _ Hl)).
  destruct Hj as [[-> ->]|(-> & He & s & s' & -> & Hs)].
  - case_bool_decide; simpl; eexists _, _; (split; [done|]); split_and!;
      [done|done|by constructor|by constructor|by intros [_ ?]%NoDup_cons; auto|done|done|by constructor|by constructor|].
    intros Hn id Hd. pose proof Hn as [_ Hn']%NoDup_cons. rewrite not_elem_of_cons. split; [|by apply H5].
    intros ->. by apply (Hfresh deleted).
  - eexists _, _. split; [done|]. split_and!; [|constructor; [|done]|by constructor|by constructor|].
    + constructor; [|done]. exists cand. split; [by left|done].
    + intros j. by eapply deleted_removed.
    + intros Hn id. pose proof Hn as [_ Hn']%NoDup_cons. intros [->|Hd]%elem_of_cons; [|by apply H5].
      intros Hk. by apply (Hfresh kept).
Qed.

Lemma candidates_NoDup cutoff s : NoDup (ec_InstanceID <$> ListExpireCandidates cutoff s).
Proof.
  unfold ListExpireCandidates. rewrite <-list_fmap_compose. 
  rewrite (merge_sort_Permutation id_le). apply (NoDup_fmap_filter fst). apply NoDup_fst_map_to_list.
Qed.

#[export] Instance cand_le_total : Total cand_le.
Proof. intros a b. unfold cand_le. destruct (String.leb_total (ec_InstanceID a) (ec_InstanceID b)); auto. Qed.

(** What a run leaves, by the store its read of the candidates found. *)
Definition expired (env : ExpireEnv) (days : Z) (olderThan : option Z) (s0 : option Store)
    (r : result (outcome ExpireResult)) (own : list (Store * Store)) : Prop :=
  match r with
  | Err _ => False
  | Ok (Refuse _) => own = []
  | Ok (Done res) => exists window s, runWindow days olderThan = Some window /\ s0 = Some s /\
      Forall (deletedCand env (ListExpireCandidates (cutoffOf (xe_Now env) window / millisecond) s)) own /\
      (forall id, id ∈ ex_IDs res <-> exists p, p ∈ own /\ removed id p) /\
      ex_Count res = Z.of_nat (length own) /\ length (ex_IDs res) = length own /\ NoDup (ex_IDs res) /\
      ex_Kept res = Z.of_nat (length (ex_KeptIDs res)) /\
      (forall id, id ∈ ex_KeptIDs res -> id ∉ ex_IDs res) /\
      Sorted string_le (ex_IDs res) /\ Sorted string_le (ex_KeptIDs res)
  end.

Lemma Expire_done T env days olderThan : ensures_from (expired env days olderThan) (Expire T env days olderThan).
Proof.
  unfold Expire. destruct (runWindow days olderThan) as [window|] eqn:Ew; [|by apply ensures_any, ensures_ret].
  unfold stored. set (cands := ListExpireCandidates _). eapply ensures_from_catch.
  { apply (ensures_from_read (fun s0 r own => own = [] /\
      forall l, r = Ok l -> exists s, s0 = Some s /\ l = cands s)); [|done].
    intros s. split; [done|]. intros l [= <-]. by exists s. }
  intros s0 [l0|e] o1 [-> Hs]; [|by apply ensures_ret]. destruct (Hs l0 eq_refl) as (s & -> & ->). cbn [app].
  set (l := cands s).
  eapply ensures_bind; [apply judgeCandidates_done, NewSweep_answers| |by intros e o (? & ? & [=] & _)].
  intros [deleted kept] o1 (? & ? & [= <- <-] & H1 & H2 & H3 & H4 & H5). apply ensures_ret. rewrite app_nil_r.
  assert (NoDup (ec_InstanceID <$> merge_sort cand_le l)) as Hn.
  { rewrite (merge_sort_Permutation cand_le). apply candidates_NoDup. }
  exists window, s. simpl. split_and!.
  - done.
  - done.
  - eapply Forall_impl; [exact H1|]. intros p (c & Hc & Hp). exists c. split; [|done].
    by rewrite (merge_sort_Permutation cand_le) in Hc.
  - intros id. rewrite (merge_sort_Permutation string_le). split.
    + intros [i Hi]%list_elem_of_lookup. destruct (Forall2_lookup_l _ _ _ _ _ H2 Hi) as (p & Hp & Hr).
      exists p. split; [by eapply list_elem_of_lookup_2|by apply Hr].
    + intros (p & [i Hi]%list_elem_of_lookup & Hp). destruct (Forall2_lookup_r _ _ _ _ _ H2 Hi) as (j & Hj & Hr).
      apply Hr in Hp as ->. by eapply list_elem_of_lookup_2.
  - f_equal. by eapply Forall2_length.
  - rewrite (merge_sort_Permutation string_le). by eapply Forall2_length.
  - rewrite (merge_sort_Permutation string_le). by eapply sublist_NoDup.
  - by rewrite (merge_sort_Permutation string_le).
  - intros id. rewrite !(merge_sort_Permutation string_le). intros Hk Hd. by apply (H5 Hn id).
  - apply (Sorted_merge_sort string_le).
  - apply (Sorted_merge_sort string_le).
Qed.

(** ** The retention window *)

Lemma day_pos : 0 < day.
Proof. done. Qed.

(** What the window is: whole days, the default for none, capped at the
    longest duration. *)
Lemma retentionWindow_spec days w : retentionWindow days = Some w ->
  0 <= days /\ day <= w < 2 ^ 63 /\
  w = (if days =? 0 then DefaultExpireRetentionDays * day
       else if MaxExpireRetentionDays <? days then 2 ^ 63 - 1 else days * day).
Proof.
  unfold retentionWindow. assert (MaxExpireRetentionDays = 106751) as -> by (by vm_compute).
  change ContextSource.MaxInt64 with (2 ^ 63 - 1). unfold DefaultExpireRetentionDays.
  assert (day = 86400000000000) as -> by done.
  destruct (days <? 0) eqn:E; [done|]. destruct (days =? 0) eqn:E0; [intros [= <-]; split_and!; [lia|done|done|done]|].
  destruct (106751 <? days) eqn:Em; intros [= <-]; [split_and!; [lia|done|done|done]|].
  rewrite wrap64_id by lia. split_and!; lia.
Qed.

(** The finished row a candidate was read of. *)
Lemma candidate_row cutoff s cand : cand ∈ ListExpireCandidates cutoff s ->
  exists r t, db_spawns s !! ec_InstanceID cand = Some r /\
    cand = mkExpireCandidate (ec_InstanceID cand) (lifeIdentity r) (lifeSnapshot r) /\
    isTerminalState (sp_state r) = true /\ sp_ended_at r = Some t /\ t < storeTimestamp cutoff.
Proof.
  unfold ListExpireCandidates. intros ([id r] & -> & H)%list_elem_of_fmap.
  rewrite (merge_sort_Permutation id_le) in H. apply list_elem_of_filter in H as [Hw Hin%elem_of_map_to_list].
  simpl in *. rewrite !where3_and in Hw. destruct (sp_ended_at r) as [t|] eqn:Et; [|by rewrite !andb_false_r in Hw].
  rewrite where3_Some in Hw. apply andb_true_iff in Hw as [Hf [_ Ht]%andb_true_iff]. exists r, t. split_and!; try done; [|lia].
  revert Hf. unfold finishedStateGuardSQL, isTerminalState, where3, sql_eq, lift2, or3. simpl.
  repeat case_bool_decide; naive_solver.
Qed.

(** A row as a run read it: finished, and ended before the run's cutoff. *)
Definition expiredRow (env : ExpireEnv) (window : Z) (row : SpawnRow) : Prop :=
  isTerminalState (sp_state row) = true /\
  exists t, sp_ended_at row = Some t /\ t < storeTimestamp (cutoffOf (xe_Now env) window / millisecond).

Lemma deleted_row env window s p :
  deletedCand env (ListExpireCandidates (cutoffOf (xe_Now env) window / millisecond) s) p ->
  exists id row, db_spawns s !! id = Some row /\ expiredRow env window row /\
    expirable env (mkExpireCandidate id (lifeIdentity row) (lifeSnapshot row)) /\
    snapshotWritten OpDelete id (lifeSnapshot row) (fst p) (snd p).
Proof.
  intros (cand & Hc & He & Hs). destruct (candidate_row _ _ _ Hc) as (row & t & Hr & E & Hf & Ht & Hlt).
  exists (ec_InstanceID cand), row. rewrite <-E. split_and!; try done; [split; [done|by exists t]|]. rewrite E in Hs. exact Hs.
Qed.

(** C24: expire deletes a row only on evidence. Whatever else writes the
    store and whatever fails, a refused window or a failed read of the
    candidates deletes nothing, and every write of a run deletes one row that
    the run's own read of the candidates returned: finished and ended before
    the run's cutoff as it was read, and still that life at the delete. By what
    that row records, its name is usable, its agent's process was not seen
    running, and tmux, asked on the row's own socket (the caller's only where
    it records none), showed no session of any of its launches on a server
    that stands for the row. *)
Theorem expire_deletes_on_evidence (T : Z) (env : ExpireEnv) (days : Z) (olderThan : option Z) :
  ensures_from (fun s0 r own => match r with
    | Ok (Done res) => exists window s, runWindow days olderThan = Some window /\ s0 = Some s /\
        Forall (fun p => exists id row, db_spawns s !! id = Some row /\ expiredRow env window row /\
          expirable env (mkExpireCandidate id (lifeIdentity row) (lifeSnapshot row)) /\
          snapshotWritten OpDelete id (lifeSnapshot row) (fst p) (snd p)) own
    | _ => own = []
    end) (Expire T env days olderThan).
Proof.
  eapply ensures_from_mono; [apply Expire_done|]. intros s0 [[res|e]|e] own; [|done..].
  intros (window & s & Hw & Hs & H & _). exists window, s. split_and!; [done..|].
  eapply Forall_impl; [exact H|]. intros p. apply deleted_row.
Qed.

(** The ids expire returns are exactly the rows its own writes took
    away, each once, counted and in order, and none of them is among the kept
    ones. *)
Theorem expire_lists_what_it_deleted (T : Z) (env : ExpireEnv) (days : Z) (olderThan : option Z) :
  ensures_from (fun _ r own => match r with
    | Ok (Done res) => (forall id, id ∈ ex_IDs res <-> exists p, p ∈ own /\ removed id p) /\
        NoDup (ex_IDs res) /\ ex_Count res = Z.of_nat (length own) /\ length (ex_IDs res) = length own /\
        (forall id, id ∈ ex_KeptIDs res -> id ∉ ex_IDs res) /\ ex_Kept res = Z.of_nat (length (ex_KeptIDs res)) /\
        Sorted string_le (ex_IDs res) /\ Sorted string_le (ex_KeptIDs res)
    | _ => own = []
    end) (Expire T env days olderThan).
Proof.
  eapply ensures_from_mono; [apply Expire_done|]. intros s0 [[res|e]|e] own; [|done..].
  intros (window & s & _ & _ & _ & H). tauto.
Qed.

(** C25: Without an explicit window expire spares recent rows: the window is
    the given number of days, 31 for none, and the longest duration where the
    days do not fit one; never a wrapped one, never less than a day. Every row
    a run deletes was in the store the run's read of the candidates found, in
    a terminal state and ended there before now less the window, and is still
    that life when it is deleted. *)
Theorem expire_spares_recent_rows (T : Z) (env : ExpireEnv) (days : Z) :
  ensures_from (fun s0 r own => forall p, p ∈ own ->
    exists s w id row t, s0 = Some s /\ retentionWindow days = Some w /\ day <= w < 2 ^ 63 /\
      w = (if days =? 0 then DefaultExpireRetentionDays * day
           else if MaxExpireRetentionDays <? days then 2 ^ 63 - 1 else days * day) /\
      db_spawns s !! id = Some row /\ isTerminalState (sp_state row) = true /\
      sp_ended_at row = Some t /\ t < (xe_Now env - w) / second /\
      snapshotWritten OpDelete id (lifeSnapshot row) (fst p) (snd p)) (Expire T env days None).
Proof.
  eapply ensures_from_mono; [apply Expire_done|].
  intros s0 [[res|e]|e] own; [|by intros ->; intros p ?%elem_of_nil|done].
  intros (window & s & Hw & Hs0 & H & _) p Hp. rewrite Forall_forall in H.
  destruct (deleted_row _ _ _ _ (H p Hp)) as (id & row & Hr & [Hf (t & He & Ht)] & _ & Hs).
  unfold runWindow in Hw. destruct (retentionWindow days) as [w|] eqn:Er; [|done]. injection Hw as <-.
  destruct (retentionWindow_spec _ _ Er) as (_ & Hd & Heq).
  exists s, w, id, row, t. split_and!; try done; try lia.
  unfold cutoffOf, storeTimestamp in Ht. pose proof day_pos. destruct (0 <? w) eqn:E0; [|lia].
  rewrite Z.div_div in Ht by (unfold millisecond; lia). exact Ht.
Qed.

(** *** A run alone *)

(** Four finished rows: three of an old life, of which one's process runs and
    one has a name tmux stores differently, and a recent one. The server is
    gone. *)
Definition endedRow (pid endedAt : Z) : SpawnRow :=
  sampleRow <| sp_state := StateEnded |> <| sp_pid := Some pid |> <| sp_proc_starttime := Some "5" |> <| sp_pane_pid := None |>
    <| sp_tmux_socket := Some "/tmp/a" |> <| sp_ended_at := Some endedAt |>.
Definition expireStore : Store :=
  storeOf {[ "a-old" := endedRow 10 1000; "b-runs" := endedRow 12 1000;
             "c-name" := endedRow 11 1000 <| sp_tmux_session_name := "x.y" |>;
             "d-recent" := endedRow 13 9990000 ]} 10000000000.
Definition sampleExpireEnv : ExpireEnv :=
  mkExpireEnv (10000000 * second) (fun _ _ pid => mkStartAnswer "5" (pid =? 12) true)
    (mkSweepEnv second (fun _ => 1) (fun _ => inl (CallFailure FailNoServer)) (fun _ => inl OtherError)) None "00000000000000ff".
Definition sampleExpired (olderThan : option Z) : result (outcome ExpireResult) * World Store Event :=
  Expire 0 sampleExpireEnv 0 olderThan (alone expireStore [] []).

Lemma expire_sample :
  fst (sampleExpired None) = Ok (Done (mkExpired 1 ["a-old"] 2 ["b-runs"; "c-name"])) /\
  fst (sampleExpired (Some 0)) = Ok (Done (mkExpired 2 ["a-old"; "d-recent"] 2 ["b-runs"; "c-name"])) /\
  fst (sampleExpired (Some (-1))) = Ok (Refuse AInvalidFlags) /\
  db_spawns (w_store (snd (sampleExpired None))) !! "a-old" = None.
Proof. split_and!; vm_compute; reflexivity. Qed.
