(* ===== verification/Kill.v ===== *)
(** * kill (pkg/api: kill.go, kill_optin.go, kill_errors.go, kill_trail.go, and
      agent_pane.go's agentPane and adoptIdentity)

    A call looks the row's session up by its current label, kills the agent's
    pane and the labelled session by their tmux ids, and then either waits for
    the processes it listed or, when the agent's process cannot be checked,
    looks once more ([runKill]). On a finished row it does nothing, unless the
    operator's option asks it to end that row's own old session or this id's
    abandoned launch.

    What tmux and the start-time reader answer, and when, is the [KillEnv]: the
    reader is asked at points 0 (the lookup's server check), 1 (a failed
    listing's), 2 (an adopted server), 3 (an adopted or found pane), 4 (the
    listed panes' start times), 5 (the first reading of the agent) and 6 (the
    follow-up's server check), and at each turn of the wait. The calls made of
    tmux are kept in order ([kf_Calls]). *)

From S2P Require Import Prelude Sql Rows Requests Settle Family Display History Steps Programs Gate HookWrites RelayWrites HookEnv Payload Classify RelayHook Lifecycle CursorWrites Process Handler Bytes Tmux Sweep Delivery Guard PaneAnswer FindMissing StartingSession.

(** ** Errors *)

(** What a call's error says beside its class ([killErrorName]). *)
Inductive killError :=
  | KStore (e : error)
  | KUnusableName
  | KNoSocket
  | KLiveRow (state : string)
  | KLeftover (leftovers : list Session)
  | KNeverReportedIn
  | KStillStopping
  | KStillStarting
  | KCantTell (res : Result) (sent : bool)
  | KNoPane (pid : Z)
  | KUncheckable
  | KWaitExpired (agentRuns : bool) (survivors : list Z).

(** cantTellError's classes. *)
Definition cantTellName (res : Result) : string :=
  match rs_CantTell res with
  | CantTellDifferentServer | CantTellUnavailable => "ErrTmuxNotAvailable"
  | CantTellProvenanceConflict => "ErrTmuxSessionConflict"
  | _ => "ErrTmuxUnresponsive"
  end.
Definition killErrorName (e : killError) : string :=
  match e with
  | KStore e => errorName (AStore e)
  | KUnusableName => "ErrInternal"
  | KNoSocket => "ErrTmuxNotAvailable"
  | KLiveRow _ => "ErrSpawnNotResumable"
  | KLeftover _ | KNeverReportedIn => "ErrTmuxSessionConflict"
  | KStillStopping | KStillStarting => "ErrTmuxUnresponsive"
  | KCantTell res _ => cantTellName res
  | KNoPane _ | KUncheckable | KWaitExpired _ _ => "ErrTmuxKillFailed"
  end.

(** ** A call's facts *)

Inductive KillCall := CallKLookup | CallKListPanes | CallKillPane (pane : string) | CallKillSession (session : string) | CallKFollowUp.
#[export] Instance KillCall_eq_dec : EqDecision KillCall.
Proof. solve_decision. Defined.

Record killFacts := mkFacts {
  kf_Calls : list KillCall;
  kf_Socket : string;
  kf_Lookup : string;
  kf_FollowUp : string;
  kf_Check : string;
  kf_KillSent : bool;
  kf_PaneKilled : bool;
  kf_SessionKilled : bool;
  kf_AgentPID : Z;
  kf_Survivors : list Z;
  kf_Reasons : list string;
  kf_Server : string;
  kf_SessionID : string;
  kf_CurrentName : string;
}.
#[export] Instance eta_killFacts : Eta killFacts := fun f => mkFacts (kf_Calls f) (kf_Socket f) (kf_Lookup f) (kf_FollowUp f)
  (kf_Check f) (kf_KillSent f) (kf_PaneKilled f) (kf_SessionKilled f) (kf_AgentPID f) (kf_Survivors f) (kf_Reasons f)
  (kf_Server f) (kf_SessionID f) (kf_CurrentName f).
#[export] Instance set_kf_Calls : Setter kf_Calls. Proof. solve_setter. Defined.
#[export] Instance set_kf_Socket : Setter kf_Socket. Proof. solve_setter. Defined.
#[export] Instance set_kf_Lookup : Setter kf_Lookup. Proof. solve_setter. Defined.
#[export] Instance set_kf_FollowUp : Setter kf_FollowUp. Proof. solve_setter. Defined.
#[export] Instance set_kf_Check : Setter kf_Check. Proof. solve_setter. Defined.
#[export] Instance set_kf_KillSent : Setter kf_KillSent. Proof. solve_setter. Defined.
#[export] Instance set_kf_PaneKilled : Setter kf_PaneKilled. Proof. solve_setter. Defined.
#[export] Instance set_kf_SessionKilled : Setter kf_SessionKilled. Proof. solve_setter. Defined.
#[export] Instance set_kf_AgentPID : Setter kf_AgentPID. Proof. solve_setter. Defined.
#[export] Instance set_kf_Survivors : Setter kf_Survivors. Proof. solve_setter. Defined.
#[export] Instance set_kf_Reasons : Setter kf_Reasons. Proof. solve_setter. Defined.
#[export] Instance set_kf_Server : Setter kf_Server. Proof. solve_setter. Defined.
#[export] Instance set_kf_SessionID : Setter kf_SessionID. Proof. solve_setter. Defined.
#[export] Instance set_kf_CurrentName : Setter kf_CurrentName. Proof. solve_setter. Defined.

Definition newFacts : killFacts := mkFacts [] "" "not_run" "not_run" "not_run" false false false 0 [] [] "" "" "".
Definition called (c : KillCall) (f : killFacts) : killFacts := f <| kf_Calls := kf_Calls f ++ [c] |>.
Definition noteReasons (reasons : list string) (f : killFacts) : killFacts := f <| kf_Reasons := kf_Reasons f ++ reasons |>.

(** A step's facts and error; [None] when the wait's fuel ran out. *)
Definition killOut : Type := option (killFacts * option killError).
Definition kret (f : killFacts) (e : option killError) : killOut := Some (f, e).

(** ** The environment *)

(** One turn of the wait: the reader's answers of the listed processes, the
    clock, and after the pause the reader's answer of the agent's. *)
Record KillTurn := mkTurn { kt_Listed : Z -> StartAnswer; kt_Now : Z; kt_Agent : Z -> StartAnswer }.

Record KillEnv := mkKillEnv {
  ke_ExitWait : Z;
  ke_StartingSession : Z;
  ke_StoppingWindow : Z;
  ke_StoreID : string;
  ke_CallerSocket : option string;    (* the caller's socket, or its refusal *)
  ke_Lookup : CallErr + LookupAnswer;
  ke_Panes : CallErr + list Pane;
  ke_FollowUp : CallErr + LookupAnswer;
  ke_Start : nat -> Z -> StartAnswer;
  ke_Now : Z;                         (* read once after the lookup *)
  ke_WaitStart : Z;
  ke_Turn : nat -> KillTurn;
}.

(** ** Panes and processes (agent_pane.go, kill.go) *)

Definition agentPane (panes : list Pane) (paneID : string) (panePID : Z) : option Pane :=
  if bool_decide (paneID = "") || (panePID <=? 0) then None
  else find (fun p => bool_decide (pa_ID p = paneID) && (pa_PID p =? panePID)) panes.

Definition rowAgent (row : SpawnRow) (i : LaunchIdentity) : AgentProcess :=
  SelectAgentProcess (mkProc (coalesce (sp_pid row) 0) (coalesce (sp_proc_starttime row) ""))
    (mkProc (li_PanePID i) (li_PaneStarttime i)).

(** [seen]: the pids already taken, the agent's first. *)
Fixpoint sessionProcessesFrom (start : Z -> StartAnswer) (sessionIDs : list string) (seen : list Z) (panes : list Pane)
    : list ProcIdentity :=
  match panes with
  | [] => []
  | p :: panes =>
      if negb (bool_decide (pa_SessionID p ∈ sessionIDs)) || (pa_PID p <=? 0) || bool_decide (pa_PID p ∈ seen) then
        sessionProcessesFrom start sessionIDs seen panes
      else
        let rest := sessionProcessesFrom start sessionIDs (pa_PID p :: seen) panes in
        let st := KnownStartTime start (pa_PID p) in
        if bool_decide (st = "") then rest else mkProc (pa_PID p) st :: rest
  end.
Definition sessionProcesses (start : Z -> StartAnswer) (panes : list Pane) (agentPID : Z) (sessionIDs : list string)
    : list ProcIdentity :=
  sessionProcessesFrom start sessionIDs [agentPID] panes.

Fixpoint appendProcesses (listed : list ProcIdentity) (agentPID : Z) (more : list ProcIdentity) : list ProcIdentity :=
  match more with
  | [] => listed
  | p :: more =>
      if (pc_PID p <=? 0) || bool_decide (pc_Starttime p = "") || (pc_PID p =? agentPID)
         || bool_decide (pc_PID p ∈ pc_PID <$> listed)
      then appendProcesses listed agentPID more
      else appendProcesses (listed ++ [p]) agentPID more
  end.

Definition killPollInterval : Z := 100 * millisecond.
Definition processCheckToken (state : ProcState) : string :=
  match state with
  | ProcAlive => "alive"
  | ProcGone => "gone"
  | ProcUnknown => "unreadable"
  | ProcNone => "not_recorded"
  end.

Definition judgedBy (start : Z -> StartAnswer) (p : ProcIdentity) : ProcState :=
  JudgeProcess (start (pc_PID p)) (pc_PID p) (pc_Starttime p).

(** Whether a follow-up still shows what was ended. *)
Definition stillThere (res : Result) (ended : list string) : bool :=
  match ended with
  | [] => bool_decide (rs_Verdict res = Ours)
  | _ =>
      (bool_decide (rs_Verdict res = Ours) && bool_decide (from_option ss_ID "" (rs_Session res) ∈ ended))
      || existsb (fun s => bool_decide (ss_ID s ∈ ended)) (rs_Leftovers res)
  end.

(** ** The wait (pollExit) *)

Section Kill.
Context (env : KillEnv).

(** The pause of a turn, with [elapsed] of the wait over. *)
Definition killSleep (elapsed : Z) : Z := Z.min killPollInterval (ke_ExitWait env - elapsed).

Fixpoint pollExit (fuel i : nat) (agent : ProcIdentity) (state : ProcState) (listed : list ProcIdentity)
    : option (ProcState * list ProcIdentity) :=
  match fuel with
  | O => None
  | S fuel =>
      let turn := ke_Turn env i in
      let listed := filter (fun p => judgedBy (kt_Listed turn) p <> ProcGone) listed in
      if bool_decide (state = ProcGone) && bool_decide (listed = []) then Some (state, [])
      else if ke_ExitWait env <=? kt_Now turn - ke_WaitStart env then Some (state, listed)
      else pollExit fuel (S i) agent (if bool_decide (state = ProcGone) then state else judgedBy (kt_Agent turn) agent) listed
  end.

Section Row.
Context (id : string) (row : SpawnRow) (fuel : nat).
Let name := sp_tmux_session_name row.

Definition killRowFinished : bool := bool_decide (sp_state row = StateEnded) || bool_decide (sp_state row = StateMissing).
Definition launchFor (socket : string) (i : LaunchIdentity) : Launch := rowLaunch id i (ke_StoreID env) socket.

(** *** Sending *)

Definition killPane (pane : string) (f : killFacts) : killFacts :=
  called (CallKillPane pane) f <| kf_KillSent := true |> <| kf_PaneKilled := true |>.
Definition killSession (session : string) (f : killFacts) : killFacts :=
  called (CallKillSession session) f <| kf_KillSent := true |> <| kf_SessionKilled := true |>.

(** *** The check *)

Definition killCantTell (res : Result) (sent : bool) : option killError :=
  if bool_decide (rs_Verdict res = CantTell) then Some (KCantTell res sent) else None.
Definition noteCheck (agent : AgentProcess) (state : ProcState) (f : killFacts) : killFacts :=
  f <| kf_Check := processCheckToken state |> <| kf_AgentPID := pc_PID (ap_Identity agent) |>.

Definition waitOutcome (agentRuns : bool) (running : list ProcIdentity) (f : killFacts) : killOut :=
  if negb agentRuns && bool_decide (running = []) then kret f None
  else
    let f := f <| kf_Survivors := kf_Survivors f ++ (pc_PID <$> running) |> in
    kret f (Some (KWaitExpired agentRuns (kf_Survivors f))).
Definition wait (agent : ProcIdentity) (state : ProcState) (listed : list ProcIdentity) (f : killFacts) : killOut :=
  match pollExit fuel 0 agent state listed with
  | None => None
  | Some (state, running) =>
      let agentRuns := negb (bool_decide (state = ProcGone)) in
      waitOutcome agentRuns running (f <| kf_Check := if agentRuns then "alive" else "gone" |>)
  end.
Definition waitListed (listed : list ProcIdentity) (f : killFacts) : killOut :=
  match pollExit fuel 0 (mkProc 0 "") ProcGone listed with
  | None => None
  | Some (_, running) => waitOutcome false running f
  end.

Definition followUpResult (launch : Launch) : Result := resultForCall launch (ke_Start env 6) (ke_FollowUp env) "".
Definition followUp (launch : Launch) (ended : list string) (f : killFacts) : killFacts * option killError :=
  let res := followUpResult launch in
  let f := noteReasons (rs_Disagree res) (called CallKFollowUp f <| kf_FollowUp := Token res |>) in
  match rs_Verdict res with
  | Gone | Leftover | Ours => (f, if stillThere res ended then Some KUncheckable else None)
  | _ => (f, killCantTell res true)
  end.

(** [first]: the first reading of the agent's process. *)
Definition firstReading (agent : AgentProcess) : ProcState := judgedBy (ke_Start env 7) (ap_Identity agent).
Definition check (agent : AgentProcess) (listed : list ProcIdentity) (launch : Launch) (ended : list string) (f : killFacts)
    : killOut :=
  let first := firstReading agent in
  let f := noteCheck agent first f in
  if negb (bool_decide (first = ProcNone)) && negb (bool_decide (first = ProcUnknown)) then wait (ap_Identity agent) first listed f
  else
    match followUp launch ended f with
    | (f, Some e) => kret f (Some e)
    | (f, None) => match ended with [] => kret f None | _ => waitListed listed f end
    end.

(** *** No session of the launch *)

Definition noPane (f : killFacts) : killOut := kret f (Some (KNoPane (kf_AgentPID f))).
Definition listingResult (launch : Launch) (err : CallErr) : Result := resultForFailure launch (ke_Start env 1) err.

Definition goneReading : ProcState := judgedBy (ke_Start env 5) (ap_Identity (rowAgent row (lifeIdentity row))).
Definition killGone (launch : Launch) (listPanes : bool) (f : killFacts) : killOut :=
  let agent := rowAgent row (lifeIdentity row) in
  let f := noteCheck agent goneReading f in
  if negb (bool_decide (goneReading = ProcAlive)) then kret f None
  else if negb listPanes then noPane f
  else
    let f := called CallKListPanes f in
    match ke_Panes env with
    | inl err =>
        let res := listingResult launch err in
        let f := noteReasons (rs_Disagree res) f in
        if bool_decide (rs_Verdict res = Gone) then noPane f else kret f (killCantTell res false)
    | inr panes =>
        match agentPane panes (li_PaneID (lifeIdentity row)) (li_PanePID (lifeIdentity row)) with
        | None => noPane f
        | Some pane => check agent [] launch [] (killPane (pa_ID pane) f)
        end
    end.
Definition listingFailed (err : CallErr) (launch : Launch) (f : killFacts) : killOut :=
  let res := listingResult launch err in
  let f := noteReasons (rs_Disagree res) f in
  if bool_decide (rs_Verdict res = Gone) then killGone launch false f else kret f (killCantTell res false).

(** *** The kill sequence on the labelled session *)

Definition killAdopt (res : Result) (panes : list Pane) : Op (adoption * bool) :=
  let a := findAdoption (lifeIdentity row) res panes (ke_Start env 2) (ke_Start env 3) in
  if killRowFinished || bool_decide (ad_Identity a = lifeIdentity row) then ret (a, false)
  else catch (AdoptIdentityIfUnchanged id (lifeSnapshot row) (ad_Identity a)) (fun r =>
    ret (a, match r with Ok CondApplied => true | _ => false end)).

Definition killOurs (socket : string) (res : Result) (launch : Launch) (f : killFacts) : Op killOut :=
  let f := called CallKListPanes f in
  match ke_Panes env with
  | inl err => ret (listingFailed err launch f)
  | inr panes =>
      adopted <- killAdopt res panes;;
      let '(a, applied) := adopted in
      let f := if applied : bool then noteReasons [ReasonAdopted] f else f in
      let agent := rowAgent row (ad_Identity a) in
      let session := from_option ss_ID "" (rs_Session res) in
      let listed := sessionProcesses (ke_Start env 4) panes (pc_PID (ap_Identity agent)) [session] in
      let f := match agentPane panes (li_PaneID (ad_Identity a)) (li_PanePID (ad_Identity a)) with
               | Some pane => killPane (pa_ID pane) f
               | None => f
               end in
      ret (check agent listed (launchFor socket (ad_Identity a)) [] (killSession session f))
  end.

(** *** A finished row (kill_optin.go) *)

Definition killLimits : startingSessionLimits := mkLimits (ke_StartingSession env) (ke_StoppingWindow env).
Definition reportedIn (r : startingSessionRow) (s : Session) : bool :=
  sr_RecordsPID r && match sr_EndedAt r with Some ended => ss_Created s <? ended | None => false end.
Definition finishedOurs (res : Result) : option killError :=
  if negb killRowFinished then None
  else
    let r := startingRowOf row in
    match checkStartingSession killLimits (ke_Now env) r (rs_Session res) with
    | StillStopping => Some KStillStopping
    | StillStarting => Some KStillStarting
    | PastBoth => if match rs_Session res with Some s => reportedIn r s | None => false end then None else Some KNeverReportedIn
    end.

(** A session's agent pane, and its process as read now. *)
Definition abandonedPane (panes : list Pane) (s : Session) : option Pane :=
  match PaneByToken panes (lb_Token (ss_Label s)) with (p, PaneOne) => Some p | _ => None end.
Definition ownProcess (p : Pane) : ProcIdentity := mkProc (pa_PID p) (KnownStartTime (ke_Start env 3) (pa_PID p)).
Definition abandonedAgent (panes : list Pane) (youngest : string) (sorted : list Session) : AgentProcess :=
  fold_left (fun agent s =>
    match abandonedPane panes s with
    | Some p => if bool_decide (ss_ID s = youngest) then SelectAgentProcess (mkProc 0 "") (ownProcess p) else agent
    | None => agent
    end) sorted (mkAgentProcess AgentNone (mkProc 0 "")).
Definition olderProcesses (panes : list Pane) (youngest : string) (sorted : list Session) : list ProcIdentity :=
  omap (fun s => if bool_decide (ss_ID s = youngest) then None else ownProcess <$> abandonedPane panes s) sorted.

(** The kills, lowest $N first, each agent pane once. *)
Fixpoint endSessions (panes : list Pane) (killed : list string) (sorted : list Session) (f : killFacts) : killFacts :=
  match sorted with
  | [] => f
  | s :: sorted =>
      let pane := from_option pa_ID "" (abandonedPane panes s) in
      let fresh := negb (bool_decide (pane = "")) && negb (bool_decide (pane ∈ killed)) in
      let f := if fresh then killPane pane f else f in
      endSessions panes (if fresh then pane :: killed else killed) sorted (killSession (ss_ID s) f)
  end.

Definition abandonedLaunch (leftovers : list Session) (launch : Launch) (f : killFacts) : killOut :=
  if bool_decide (abandonedLaunchCheck killLimits (ke_Now env) (startingRowOf row) leftovers = StillStarting) then
    kret f (Some KStillStarting)
  else
    let f := called CallKListPanes f in
    match ke_Panes env with
    | inl err => listingFailed err launch f
    | inr panes =>
        let sorted := sortedBySessionNumber leftovers in
        let youngest := from_option ss_ID "" (youngestSession leftovers) in
        let agent := abandonedAgent panes youngest sorted in
        let ended := ss_ID <$> sorted in
        let listed := appendProcesses (sessionProcesses (ke_Start env 4) panes (pc_PID (ap_Identity agent)) ended)
                        (pc_PID (ap_Identity agent)) (olderProcesses panes youngest sorted) in
        check agent listed launch ended (endSessions panes [] sorted f)
    end.
Definition killLeftover (leftovers : list Session) (launch : Launch) (f : killFacts) : killOut :=
  if negb killRowFinished then kret f (Some (KLeftover leftovers))
  else if recordsNoLaunchSession (lifeIdentity row) then abandonedLaunch leftovers launch f
  else kret f (Some KNeverReportedIn).

(** *** The flow *)

Definition killRowSocket : option string :=
  if negb (bool_decide (li_Socket (lifeIdentity row) = "")) then Some (li_Socket (lifeIdentity row)) else ke_CallerSocket env.
Definition killLookup (launch : Launch) : Result := resultForCall launch (ke_Start env 0) (ke_Lookup env) name.
Definition noteOurs (res : Result) (f : killFacts) : killFacts :=
  let f := f <| kf_SessionID := from_option ss_ID "" (rs_Session res) |> in
  if nameChanged res name then
    noteReasons [ReasonNameChanged] f <| kf_CurrentName := from_option ss_Name "" (rs_Session res) |>
  else f.

(** Before the lookup: the call ends at once, or an error, or it goes on. *)
Definition killRefusal (optIn : bool) : option (option killError) :=
  let unusable := match Unusable name with UnusableNone => None | _ => Some (Some KUnusableName) end in
  if optIn then (if negb killRowFinished then Some (Some (KLiveRow (sp_state row))) else unusable)
  else if killRowFinished then Some None
  else unusable.

Definition killRun (optIn : bool) (f : killFacts) : Op killOut :=
  match killRefusal optIn with
  | Some e => ret (kret f e)
  | None =>
      match killRowSocket with
      | None => ret (kret f (Some KNoSocket))
      | Some socket =>
          let launch := launchFor socket (lifeIdentity row) in
          let res := killLookup launch in
          let f := noteReasons (rs_Disagree res)
                     (called CallKLookup f <| kf_Socket := socket |> <| kf_Lookup := Token res |> <| kf_Server := rs_Server res |>) in
          match rs_Verdict res with
          | Ours =>
              let f := noteOurs res f in
              match finishedOurs res with
              | Some e => ret (kret f (Some e))
              | None => killOurs socket res launch f
              end
          | Leftover => ret (killLeftover (rs_Leftovers res) launch f)
          | Gone => ret (killGone launch true f)
          | _ => ret (kret f (killCantTell res false))
          end
      end
  end.
End Row.

(** ** A call *)

Definition killEvents (id name : string) (optIn : bool) (f : killFacts) (e : option killError) : list Event :=
  (filter (fun reason => reason ∈ kf_Reasons f) disagreeReasons
   ≫= fun reason => [disagreeRecord "kill" id (kf_Socket f) name (kf_SessionID f) (kf_CurrentName f) (kf_Server f) (kf_Lookup f)
                       (if kf_KillSent f then "kill_sent" else "nothing_sent") reason])
  ++ [EvKillCalled id name (from_option killErrorName "ok" e) (kf_Lookup f) (kf_FollowUp f) (kf_KillSent f) (kf_PaneKilled f)
        (kf_Check f) (if 0 <? kf_AgentPID f then Some (kf_AgentPID f) else None) (kf_Survivors f) optIn].

(** The answer: the facts and the error, none for success; [None] when the
    fuel runs out. *)
Definition runKill (fuel : nat) (id : string) (optIn : bool) : Op killOut :=
  catch (GetSpawn id) (fun r => match r with
    | Err e =>
        emits (killEvents id "" optIn newFacts (Some (KStore e)));;;
        ret (kret newFacts (Some (KStore e)))
    | Ok row =>
        out <- killRun id row fuel optIn newFacts;;
        match out with
        | None => ret None
        | Some (f, e) =>
            emits (killEvents id (sp_tmux_session_name row) optIn f e);;;
            ret (kret f e)
        end
    end).
Definition Kill (fuel : nat) (id : string) : Op killOut := runKill fuel id false.
Definition killFinished (fuel : nat) (id : string) : Op killOut := runKill fuel id true.
End Kill.
