(* ===== verification/KillProps.v ===== *)
(** * Properties of kill

    What a call sends and to whom ([killWarranted]), what its success means
    ([endedAll]), and that its wait ends. *)

From S2P Require Import Prelude Sql Rows Requests Settle Family Display History Steps Programs Gate HookWrites HookProps RelayWrites RequestInv RelayProps HookEnv Payload Classify RelayHook Lifecycle CursorWrites Process Handler Bytes Tmux TmuxProps Sweep Delivery Guard PaneAnswer FindMissing FindMissingProps StartingSession Kill.

#[export] Instance ProcIdentity_eq_dec : EqDecision ProcIdentity.
Proof. solve_decision. Defined.

(** ** The wait *)

Section Wait.
Context (env : KillEnv).

(** The clock of a wait: each pause advances it by what it pauses for. *)
Record kill_clock : Prop := {
  kc_start : ke_WaitStart env <= kt_Now (ke_Turn env 0);
  kc_sleep : forall i, kt_Now (ke_Turn env i) + killSleep env (kt_Now (ke_Turn env i) - ke_WaitStart env)
               <= kt_Now (ke_Turn env (S i)) \/
             ke_ExitWait env <= kt_Now (ke_Turn env i) - ke_WaitStart env;
}.
Definition killFuel : nat := S (S (Z.to_nat (ke_ExitWait env / killPollInterval))).

Lemma pollExit_ends fuel i agent state listed : kill_clock ->
  Z.min (ke_ExitWait env) (Z.of_nat i * killPollInterval) <= kt_Now (ke_Turn env i) - ke_WaitStart env ->
  ke_ExitWait env <= (Z.of_nat i + Z.of_nat fuel - 1) * killPollInterval -> (0 < fuel)%nat ->
  is_Some (pollExit env fuel i agent state listed).
Proof.
  intros Hc. revert i state listed. induction fuel as [|fuel IH]; intros i state listed Ht Hf Hpos; [lia|]. simpl.
  destruct (bool_decide _ && _); [by eexists|]. destruct (ke_ExitWait env <=? _) eqn:E; [by eexists|].
  assert (0 < killPollInterval) by done. apply Z.leb_gt in E.
  apply IH; [|lia|].
  - destruct (kc_sleep Hc i) as [Hs|Hs]; [|lia]. unfold killSleep in Hs. lia.
  - destruct fuel; [|lia]. exfalso. lia.
Qed.

Lemma killFuel_ends fuel agent state listed : kill_clock -> (killFuel <= fuel)%nat ->
  is_Some (pollExit env fuel 0 agent state listed).
Proof.
  intros Hc Hf. pose proof (kc_start Hc). assert (0 < killPollInterval) by done. unfold killFuel in Hf.
  apply pollExit_ends; [done|lia| |lia].
  pose proof (Z.mul_succ_div_gt (ke_ExitWait env) killPollInterval ltac:(done)). nia.
Qed.

(** A process judged gone at a turn of the wait. *)
Definition exited (p : ProcIdentity) : Prop := exists i, judgedBy (kt_Listed (ke_Turn env i)) p = ProcGone.
Definition agentExited (agent : ProcIdentity) (state : ProcState) : Prop :=
  state = ProcGone \/ exists i, judgedBy (kt_Agent (ke_Turn env i)) agent = ProcGone.

Lemma pollExit_spec fuel i agent state listed state' running : pollExit env fuel i agent state listed = Some (state', running) ->
  (state' = ProcGone -> agentExited agent state) /\ running ⊆ listed /\
  forall p, p ∈ listed -> p ∉ running -> exited p.
Proof.
  revert i state listed. induction fuel as [|fuel IH]; intros i state listed; simpl; [done|].
  set (left := filter _ listed).
  assert (forall p, p ∈ listed -> p ∉ left -> exited p) as Hleft.
  { intros p Hp Hn. exists i. destruct (decide (judgedBy (kt_Listed (ke_Turn env i)) p = ProcGone)); [done|].
    destruct Hn. by apply list_elem_of_filter. }
  assert (left ⊆ listed) as Hsub by (intros p [_ ?]%list_elem_of_filter; done).
  destruct (bool_decide (state = ProcGone) && bool_decide (left = [])) eqn:Ed.
  - bsimp. intros [= <- <-]. split_and!; [by left|set_solver|]. intros p Hp _. apply Hleft; [done|].
    match goal with H : left = [] |- _ => rewrite H end. by intros ?%elem_of_nil.
  - destruct (ke_ExitWait env <=? _); [intros [= <- <-]; split_and!; [by left|done|done]|].
    intros H. apply IH in H as (H1 & H2 & H3). split_and!.
    + intros Hg. specialize (H1 Hg). case_bool_decide; [by left|].
      destruct H1 as [H1|H1]; [right; by exists i|by right].
    + set_solver.
    + intros p Hp Hn. destruct (decide (p ∈ left)); auto.
Qed.
End Wait.

(** ** What a call sends *)

Definition isKill (c : KillCall) : bool := match c with CallKillPane _ | CallKillSession _ => true | _ => false end.

Section Row.
Context (env : KillEnv) (id : string) (row : SpawnRow).

(** The facts of a step: its calls beyond those it was given are [new], and
    it says so. *)
Definition sends (f f' : killFacts) (new : list KillCall) : Prop :=
  kf_Calls f' = kf_Calls f ++ new /\ kf_KillSent f' = kf_KillSent f || existsb isKill new.

Lemma sends_refl f : sends f f [].
Proof. split; [by rewrite app_nil_r|by rewrite orb_false_r]. Qed.
Lemma sends_trans f g h a b : sends f g a -> sends g h b -> sends f h (a ++ b).
Proof. intros [A1 A2] [B1 B2]. split; [by rewrite B1, A1, app_assoc|by rewrite B2, A2, existsb_app, orb_assoc]. Qed.
Lemma sends_same f f' : kf_Calls f' = kf_Calls f -> kf_KillSent f' = kf_KillSent f -> sends f f' [].
Proof. unfold sends. intros -> ->. apply sends_refl. Qed.
Lemma sends_called c f : isKill c = false -> sends f (called c f) [c].
Proof. intros H. unfold sends, called. rsimp. simpl. by rewrite H, orb_false_r. Qed.
Lemma sends_pane p f : sends f (killPane p f) [CallKillPane p].
Proof. unfold sends, killPane, called. rsimp. by rewrite orb_true_r. Qed.
Lemma sends_session p f : sends f (killSession p f) [CallKillSession p].
Proof. unfold sends, killSession, called. rsimp. by rewrite orb_true_r. Qed.


(** The check sends no kill. *)
Definition quietly (f f' : killFacts) : Prop := exists new, sends f f' new /\ Forall (fun c => isKill c = false) new.
Lemma quietly_same f f' : kf_Calls f' = kf_Calls f -> kf_KillSent f' = kf_KillSent f -> quietly f f'.
Proof. intros. exists []. split; [by apply sends_same|constructor]. Qed.
Lemma quietly_called c f f' : isKill c = false -> kf_Calls f' = kf_Calls (called c f) -> kf_KillSent f' = kf_KillSent f -> quietly f f'.
Proof.
  intros Hc H1 H2. exists [c]. split; [|by repeat constructor]. destruct (sends_called c f Hc) as [E1 E2].
  split; [by rewrite H1, E1|by rewrite H2; simpl; rewrite Hc, orb_false_r].
Qed.
Lemma quietly_trans f g h : quietly f g -> quietly g h -> quietly f h.
Proof. intros (a & H1 & H2) (b & H3 & H4). exists (a ++ b). split; [by eapply sends_trans|by apply Forall_app]. Qed.

Lemma waitOutcome_quiet b running f f' e : waitOutcome b running f = Some (f', e) -> quietly f f'.
Proof. unfold waitOutcome, kret. destruct (negb b && _); intros [= <- _]; apply quietly_same; by rsimp. Qed.
Lemma wait_quiet fuel agent state listed f f' e : wait env fuel agent state listed f = Some (f', e) -> quietly f f'.
Proof.
  unfold wait. destruct (pollExit _ _ _ _ _ _) as [[st running]|]; [|done]. intros H%waitOutcome_quiet.
  eapply quietly_trans; [|exact H]. apply quietly_same; by rsimp.
Qed.
Lemma waitListed_quiet fuel listed f f' e : waitListed env fuel listed f = Some (f', e) -> quietly f f'.
Proof. unfold waitListed. destruct (pollExit _ _ _ _ _ _) as [[st running]|]; [|done]. apply waitOutcome_quiet. Qed.
Lemma followUp_quiet launch ended f : quietly f (fst (followUp env launch ended f)).
Proof.
  unfold followUp, noteReasons. apply (quietly_called CallKFollowUp); [done|..];
    destruct (rs_Verdict _); simpl; unfold called; by rsimp.
Qed.
Lemma check_quiet fuel agent listed launch ended f f' e : check env fuel agent listed launch ended f = Some (f', e) -> quietly f f'.
Proof.
  unfold check. assert (forall st, quietly f (noteCheck agent st f)) as Hn by (intros; apply quietly_same; unfold noteCheck; by rsimp).
  destruct (_ && _); [intros H%wait_quiet; eapply quietly_trans; [apply Hn|exact H]|].
  pose proof (followUp_quiet launch ended (noteCheck agent (firstReading env agent) f)) as Hf.
  destruct (followUp _ _ _ _) as [f1 [e1|]]; simpl in Hf.
  - intros [= <- _]. eapply quietly_trans; [apply Hn|exact Hf].
  - destruct ended; [intros [= <- _]; eapply quietly_trans; [apply Hn|exact Hf]|]. intros H%waitListed_quiet.
    eapply quietly_trans; [|exact H]. eapply quietly_trans; [apply Hn|exact Hf].
Qed.

(** ** What warrants a kill *)

Definition rowIdentity : LaunchIdentity := lifeIdentity row.

(** The listing the call saw, on the row's socket, for the row's launch. *)
Definition saw (launch : Launch) (ans : LookupAnswer) : Prop :=
  exists socket, killRowSocket env row = Some socket /\ launch = launchFor env id socket rowIdentity /\
    answered launch (ke_Start env 0) (ke_Lookup env) ans.

(** The session is at least the starting-session bound old. *)
Definition oldEnough (s : Session) : Prop := ke_StartingSession env <= ke_Now env - ss_Created s * second.

(** The one session that carries the row's current label. On a finished row:
    by the operator's option only, past the bound and the stopping window, and
    the row's agent reported in from it before the row ended. *)
Definition ownSession (optIn : bool) (session : string) : Prop :=
  exists launch ans s, saw launch ans /\ sessionsOf launch ClassCurrent (an_Sessions ans) = [s] /\ ss_ID s = session /\
    (killRowFinished row = true ->
     optIn = true /\ oldEnough s /\ 0 < coalesce (sp_pid row) 0 /\
     exists ended, sp_ended_at row = Some ended /\ ss_Created s < ended /\
       ke_StoppingWindow env <= ke_Now env - ended * second).

(** A session of this id's own abandoned launch: the operator's option, on a
    finished row that records no session of its latest launch, every session
    of an earlier launch past the bound. *)
Definition abandoned (optIn : bool) (launch : Launch) (ans : LookupAnswer) : Prop :=
  optIn = true /\ killRowFinished row = true /\ recordsNoLaunchSession rowIdentity = true /\ saw launch ans /\
  sessionsOf launch ClassCurrent (an_Sessions ans) = [] /\
  forall s, s ∈ sessionsOf launch ClassOld (an_Sessions ans) -> oldEnough s.

(** The one pane whose label names the token. *)
Definition tokenPane (panes : list Pane) (token pane : string) : Prop :=
  token <> "" /\ (exists q, q ∈ panes /\ pa_ID q = pane /\ pa_AdPane q = token) /\
  forall q, q ∈ panes -> pa_AdPane q = token -> pa_ID q = pane.

(** The recorded pane with its recorded process. *)
Definition recordedPane (panes : list Pane) (pane : string) : Prop :=
  pane = li_PaneID rowIdentity /\ exists q, q ∈ panes /\ pa_ID q = pane /\ pa_PID q = li_PanePID rowIdentity /\ 0 < pa_PID q.

(** The row's agent was seen running, and tmux shows no session of its
    launch. *)
Definition agentLeft : Prop :=
  goneReading env row = ProcAlive /\
  exists socket, killRowSocket env row = Some socket /\
    noCurrent (launchFor env id socket rowIdentity) (ke_Start env 0) (ke_Lookup env).

Definition killWarranted (optIn : bool) (c : KillCall) : Prop :=
  match c with
  | CallKillSession session =>
      ownSession optIn session \/
      exists launch ans s, abandoned optIn launch ans /\ s ∈ sessionsOf launch ClassOld (an_Sessions ans) /\ ss_ID s = session
  | CallKillPane pane =>
      exists panes, ke_Panes env = inr panes /\
        (((exists session, ownSession optIn session) /\
            (recordedPane panes pane \/ li_PaneID rowIdentity = "" /\ tokenPane panes (li_Token rowIdentity) pane)) \/
         (agentLeft /\ recordedPane panes pane) \/
         exists launch ans s, abandoned optIn launch ans /\ s ∈ sessionsOf launch ClassOld (an_Sessions ans) /\
           tokenPane panes (lb_Token (ss_Label s)) pane)
  | _ => True
  end.

Definition acted (optIn : bool) (f f' : killFacts) : Prop :=
  exists new, sends f f' new /\ Forall (killWarranted optIn) new.

Lemma acted_quiet optIn f f' : quietly f f' -> acted optIn f f'.
Proof. intros (new & H1 & H2). exists new. split; [done|]. eapply Forall_impl; [exact H2|]. by intros []. Qed.
Lemma acted_trans optIn f g h : acted optIn f g -> acted optIn g h -> acted optIn f h.
Proof. intros (a & H1 & H2) (b & H3 & H4). exists (a ++ b). split; [by eapply sends_trans|by apply Forall_app]. Qed.
Lemma acted_then_quiet optIn f g h : acted optIn f g -> quietly g h -> acted optIn f h.
Proof. intros H ?%(acted_quiet optIn). by eapply acted_trans. Qed.
Lemma acted_pane optIn p f : killWarranted optIn (CallKillPane p) -> acted optIn f (killPane p f).
Proof. intros. exists [CallKillPane p]. split; [apply sends_pane|by constructor]. Qed.
Lemma acted_session optIn s f : killWarranted optIn (CallKillSession s) -> acted optIn f (killSession s f).
Proof. intros. exists [CallKillSession s]. split; [apply sends_session|by constructor]. Qed.

Lemma agentPane_in panes paneID panePID pane : agentPane panes paneID panePID = Some pane ->
  pane ∈ panes /\ pa_ID pane = paneID /\ paneID <> "" /\ pa_PID pane = panePID /\ 0 < panePID.
Proof.
  unfold agentPane. destruct (bool_decide (paneID = "") || _) eqn:E; [done|]. intros [Hin%list_elem_of_In Hb]%find_some.
  bsimp. split_and!; try done; lia.
Qed.
End Row.

Section Flow.
Context (env : KillEnv) (id : string) (row : SpawnRow) (fuel : nat) (optIn : bool).

Lemma noteCheck_quiet agent st f : quietly f (noteCheck agent st f).
Proof. apply quietly_same; unfold noteCheck; by rsimp. Qed.
Lemma noteReasons_quiet rs f : quietly f (noteReasons rs f).
Proof. apply quietly_same; unfold noteReasons; by rsimp. Qed.
Lemma listPanes_quiet f : quietly f (called CallKListPanes f).
Proof. by apply (quietly_called CallKListPanes). Qed.

Lemma killGone_acted socket b f f' e : killRowSocket env row = Some socket ->
  let launch := launchFor env id socket (lifeIdentity row) in
  (b = true -> noCurrent launch (ke_Start env 0) (ke_Lookup env)) ->
  killGone env row fuel launch b f = Some (f', e) -> acted env id row optIn f f'.
Proof.
  intros Hk launch Hb. unfold killGone, noPane, kret. cbv zeta. pose proof (noteCheck_quiet (rowAgent row (lifeIdentity row)) (goneReading env row) f) as Hn.
  case_bool_decide as Hr; simpl; [|intros [= <- _]; by apply acted_quiet].
  destruct b; simpl; [|intros [= <- _]; by apply acted_quiet].
  assert (quietly f (called CallKListPanes (noteCheck (rowAgent row (lifeIdentity row)) (goneReading env row) f))) as Hl
    by (eapply quietly_trans; [exact Hn|apply listPanes_quiet]).
  destruct (ke_Panes env) as [err|panes] eqn:Ep.
  - set (r := rs_Disagree _). intros H. apply acted_quiet. eapply quietly_trans; [exact Hl|].
    destruct (bool_decide _); injection H as <- _; apply noteReasons_quiet.
  - destruct (agentPane _ _ _) as [pane|] eqn:Ea; [|intros [= <- _]; by apply acted_quiet].
    intros H%check_quiet. eapply acted_then_quiet; [|exact H]. eapply acted_trans; [by apply acted_quiet|].
    apply acted_pane. exists panes. split; [done|]. right. left. apply agentPane_in in Ea as (H1 & H2 & _ & H4 & H5).
    split; [split; [done|exists socket; auto]|]. split; [done|]. exists pane. split_and!; try done; lia.
Qed.

Lemma listingFailed_acted err socket f f' e : killRowSocket env row = Some socket ->
  listingFailed env row fuel err (launchFor env id socket (lifeIdentity row)) f = Some (f', e) -> acted env id row optIn f f'.
Proof.
  intros Hk. set (launch := launchFor env id socket (lifeIdentity row)). unfold listingFailed, kret. pose proof (noteReasons_quiet (rs_Disagree (listingResult env launch err)) f) as Hn.
  destruct (bool_decide _); [|intros [= <- _]; by apply acted_quiet].
  intros H%(killGone_acted socket); [|done..]. eapply acted_trans; [by apply acted_quiet|exact H].
Qed.

(** The pane an adoption gave, or the recorded one. *)
Lemma adopted_pane res panes pane session : ke_Panes env = inr panes -> ownSession env id row optIn session ->
  let a := findAdoption (lifeIdentity row) res panes (ke_Start env 2) (ke_Start env 3) in
  agentPane panes (li_PaneID (ad_Identity a)) (li_PanePID (ad_Identity a)) = Some pane ->
  killWarranted env id row optIn (CallKillPane (pa_ID pane)).
Proof.
  intros Hp Hown a Ha. exists panes. split; [done|]. left. split; [by exists session|]. apply agentPane_in in Ha as (H1 & H2 & H3 & H4 & H5).
  assert (li_PaneID (ad_Identity a) = li_PaneID (lifeIdentity row) /\ li_PanePID (ad_Identity a) = li_PanePID (lifeIdentity row) \/
    li_PaneID (lifeIdentity row) = "" /\ exists p, PaneByToken panes (li_Token (lifeIdentity row)) = (p, PaneOne) /\
      li_PaneID (ad_Identity a) = pa_ID p) as [[E1 E2]|(E1 & p & Et & E2)].
  - unfold a, findAdoption. destruct (negb (adoptionDue _ _)); [by left|]. unfold adoptionNeedsListing.
    case_bool_decide as En; [|left; by destruct (rs_Adopt res)].
    destruct (PaneByToken panes _) as [p []] eqn:Et; simpl; [left; by destruct (rs_Adopt res)| |left; by destruct (rs_Adopt res)].
    right. split; [done|]. by exists p.
  - left. rewrite H2, E1. split; [done|]. exists pane. rewrite E1 in H2. split_and!; try done; [by rewrite H4, E2|lia].
  - right. split; [done|]. destruct (pane_by_token_is_the_only_one _ _ _ Et) as (T1 & T2 & T3 & T4).
    rewrite H2, E2. split_and!; [done|by exists p|done].
Qed.

Lemma endSessions_acted panes launch ans killed sorted f : ke_Panes env = inr panes -> abandoned env id row optIn launch ans ->
  (forall s, s ∈ sorted -> s ∈ sessionsOf launch ClassOld (an_Sessions ans)) ->
  acted env id row optIn f (endSessions panes killed sorted f).
Proof.
  intros Hp Ha. revert killed f. induction sorted as [|s sorted IH]; intros killed f Hs; cbn [endSessions].
  { by apply acted_quiet, quietly_same. }
  set (pane := from_option pa_ID "" _). set (fresh := negb _ && _). cbv zeta.
  assert (acted env id row optIn f (if fresh then killPane pane f else f)) as H1.
  { destruct fresh eqn:Ef; [|by apply acted_quiet, quietly_same]. apply acted_pane. exists panes. split; [done|].
    right. right. exists launch, ans, s. split_and!; [done|apply Hs; by left|].
    unfold fresh, pane, abandonedPane in *. destruct (PaneByToken panes (lb_Token (ss_Label s))) as [p []] eqn:Et; bsimp; try done.
    destruct (pane_by_token_is_the_only_one _ _ _ Et) as (T1 & T2 & T3 & T4). simpl. split_and!; [done|by exists p|done]. }
  eapply acted_trans; [exact H1|]. eapply acted_trans; [|apply IH; intros q Hq; apply Hs; by right].
  apply acted_session. right. exists launch, ans, s. split_and!; [done|apply Hs; by left|done].
Qed.

Lemma abandoned_old leftovers : leftovers <> [] ->
  abandonedLaunchCheck (killLimits env) (ke_Now env) (startingRowOf row) leftovers <> StillStarting ->
  forall s, s ∈ leftovers -> oldEnough env s.
Proof.
  intros Hne Hc s Hs. unfold abandonedLaunchCheck, checkStartingSession in Hc.
  destruct (youngestSession leftovers) as [y|] eqn:Ey; [|by apply youngest_none in Ey].
  set (i := mkStartingInput _ _ _ _ _ _ _) in Hc. destruct (youngest_in _ _ Ey) as [_ Hy]. specialize (Hy s Hs).
  assert (StartingSession i = PastBoth) as Hp.
  { unfold StartingSession in *. simpl in *. by destruct (Under _ _). }
  apply past_both in Hp as [Hp _]. specialize (Hp y eq_refl). simpl in Hp. unfold oldEnough. assert (0 < second) by done. nia.
Qed.

Lemma abandonedLaunch_acted launch ans leftovers f f' e : optIn = true -> killRowFinished row = true ->
  recordsNoLaunchSession (lifeIdentity row) = true -> saw env id row launch ans ->
  sessionsOf launch ClassCurrent (an_Sessions ans) = [] -> leftovers = sessionsOf launch ClassOld (an_Sessions ans) ->
  leftovers <> [] -> abandonedLaunch env row fuel leftovers launch f = Some (f', e) -> acted env id row optIn f f'.
Proof.
  intros Ho Hf Hr Hs Hc Hl Hne. unfold abandonedLaunch. case_bool_decide as Hst.
  { intros [= <- _]. by apply acted_quiet, quietly_same. }
  pose proof (listPanes_quiet f) as Hq. destruct (ke_Panes env) as [err|panes] eqn:Ep.
  { intros H. destruct Hs as (socket & Hk & -> & _). apply (listingFailed_acted _ _ _ _ _ Hk) in H.
    eapply acted_trans; [by apply acted_quiet|exact H]. }
  cbv zeta. intros H%check_quiet. eapply acted_then_quiet; [|exact H]. eapply acted_trans; [by apply acted_quiet|].
  apply (endSessions_acted panes launch ans); [done| |].
  - split_and!; try done. rewrite <-Hl. by apply abandoned_old.
  - intros s. unfold sortedBySessionNumber. by rewrite (merge_sort_Permutation number_le), <-Hl.
Qed.

(** *** The kill sequence *)

Definition actedOut (f : killFacts) (r : result killOut) (own : list (Store * Store)) : Prop :=
  exists out, r = Ok out /\ forall f' e, out = Some (f', e) -> acted env id row optIn f f'.

Lemma actedOut_ret f out own : (forall f' e, out = Some (f', e) -> acted env id row optIn f f') -> actedOut f (Ok out) own.
Proof. intros H. by exists out. Qed.

(** The one write a call may make: the adoption of the live row as it was
    read, and no other column of any row. *)
Definition adoptedWrite (p : Store * Store) : Prop :=
  snd p = fst p \/
  exists r i, db_spawns (fst p) !! id = Some r /\ lifeSnapshot r = lifeSnapshot row /\ killRowFinished row = false /\
    snd p = fst p <| db_spawns := <[id := adoptIdentitySet i (fst p) r]> (db_spawns (fst p)) |>.

Lemma adoptWrite_done i : killRowFinished row = false ->
  guarantees (fun s s' => adoptedWrite (s, s')) (AdoptIdentityIfUnchanged id (lifeSnapshot row) i).
Proof.
  intros Hf. unfold AdoptIdentityIfUnchanged, condStmt, condNotApplied. guar. apply guarantees_stmt. intros s n s' [= E].
  unfold condUpdate, update1 in E. destruct (db_spawns s !! id) as [r|] eqn:Er; [|injection E as _ <-; by left].
  rewrite snapshot_match in E. case_bool_decide as Hx; injection E as _ <-; [right|by left].
  exists r, i. by split_and!.
Qed.

Lemma killAdopt_done res panes :
  ensures (fun r own => (exists b, r = Ok (findAdoption (lifeIdentity row) res panes (ke_Start env 2) (ke_Start env 3), b)) /\
    Forall adoptedWrite own /\ (killRowFinished row = true -> own = [])) (killAdopt env id row res panes).
Proof.
  unfold killAdopt. destruct (killRowFinished row) eqn:Ef; simpl.
  { apply ensures_ret. split_and!; [by eexists|constructor|done]. }
  case_bool_decide; [apply ensures_ret; split_and!; [by eexists|constructor|done]|].
  eapply (ensures_catch (fun _ own => Forall adoptedWrite own)).
  - intros w. destruct (adoptWrite_done (ad_Identity (findAdoption (lifeIdentity row) res panes (ke_Start env 2) (ke_Start env 3))) Ef w)
      as (own & E & Hw). exists own. split; [done|]. eapply Forall_impl; [exact Hw|]. by intros [].
  - intros r o1 H1. apply ensures_ret. rewrite app_nil_r. split_and!; [by eexists|done|done].
Qed.

Definition didWrite (own : list (Store * Store)) : Prop := Forall adoptedWrite own /\ (killRowFinished row = true -> own = []).

Lemma killOurs_done socket res launch ans s f :
  saw env id row launch ans -> sessionsOf launch ClassCurrent (an_Sessions ans) = [s] -> rs_Session res = Some s ->
  ownSession env id row optIn (ss_ID s) ->
  ensures (fun r own => actedOut f r own /\ didWrite own) (killOurs env id row fuel socket res launch f).
Proof.
  intros Hs Hc Hr Hown. unfold killOurs. pose proof (listPanes_quiet f) as Hq. destruct (ke_Panes env) as [err|panes] eqn:Ep.
  { apply ensures_ret. split; [|split; [constructor|done]]. apply actedOut_ret. intros f' e H.
    destruct Hs as (sock & Hk & -> & _). apply (listingFailed_acted _ _ _ _ _ Hk) in H. eapply acted_trans; [by apply acted_quiet|exact H]. }
  eapply ensures_bind; [apply killAdopt_done| |by intros e o [(b & [=]) _]].
  intros [a b] o1 [(? & [= -> <-]) Hw]. apply ensures_ret. rewrite app_nil_r. split; [|exact Hw].
  apply actedOut_ret. intros f' e H%check_quiet. eapply acted_then_quiet; [|exact H]. clear H. rewrite Hr. simpl.
  set (f1 := if b : bool then _ else _). assert (acted env id row optIn f f1) as H1.
  { eapply acted_trans; [by apply acted_quiet|]. apply acted_quiet. unfold f1. destruct b; [apply noteReasons_quiet|by apply quietly_same]. }
  eapply acted_trans; [|apply acted_session; by left].
  destruct (agentPane _ _ _) as [pane|] eqn:Ea; [|exact H1].
  eapply acted_trans; [exact H1|]. apply acted_pane. by eapply adopted_pane.
Qed.

(** *** The whole flow *)

Lemma finished_own res launch ans s : saw env id row launch ans -> sessionsOf launch ClassCurrent (an_Sessions ans) = [s] ->
  rs_Session res = Some s -> finishedOurs env row res = None -> (killRowFinished row = true -> optIn = true) ->
  ownSession env id row optIn (ss_ID s).
Proof.
  intros Hs Hc Hr Hf Ho. exists launch, ans, s. split_and!; [done..|]. intros Hfin. split; [by apply Ho|].
  unfold finishedOurs in Hf. rewrite Hfin, Hr in Hf. simpl in Hf.
  destruct (checkStartingSession _ _ _ _) eqn:E; [done..|]. destruct (reportedIn _ _) eqn:Er; [|done].
  unfold checkStartingSession in E. apply past_both in E as [E1 E2]. simpl in *. specialize (E1 s eq_refl).
  unfold reportedIn in Er. apply andb_true_iff in Er as [Hp Hend]. simpl in Hp, Hend, E2.
  destruct (sp_ended_at row) as [ended|]; [|done]. specialize (E2 ended eq_refl). rewrite Hp in E2. specialize (E2 eq_refl).
  unfold oldEnough. split_and!; [lia|lia|]. exists ended. split_and!; [done|lia|lia].
Qed.

(** A finished row without the option, or a live one with it, ends the call
    before it does anything. *)
Definition misdirected : Prop := killRowFinished row = true /\ optIn = false \/ killRowFinished row = false /\ optIn = true.
Definition runDone (f : killFacts) (r : result killOut) (own : list (Store * Store)) : Prop :=
  actedOut f r own /\ didWrite own /\ (misdirected -> own = [] /\ exists e, r = Ok (kret f e)).

Lemma killRun_done f : ensures (runDone f) (killRun env id row fuel optIn f).
Proof.
  assert (forall out, (forall f' e, out = Some (f', e) -> acted env id row optIn f f') ->
    (misdirected -> exists e, out = kret f e) -> ensures (runDone f) (ret out : Op killOut)) as Hret.
  { intros out H1 H2. apply ensures_ret. split_and!; [by apply actedOut_ret|split; [constructor|done]|].
    intros H. split; [done|]. destruct (H2 H) as [e ->]. by exists e. }
  assert (forall e, ensures (runDone f) (ret (kret f e) : Op killOut)) as Hsame.
  { intros e. apply Hret; [|by intros _; exists e]. intros f' e' [= <- _]. by apply acted_quiet, quietly_same. }
  unfold killRun. destruct (killRefusal row optIn) as [e|] eqn:Er; [apply Hsame|].
  assert (~ misdirected) as Hno.
  { unfold misdirected, killRefusal in *. destruct optIn, (killRowFinished row); simpl in Er; naive_solver. }
  destruct (killRowSocket env row) as [socket|] eqn:Es; [|apply Hsame]. clear Hsame.
  set (launch := launchFor env id socket (lifeIdentity row)). set (res := killLookup env row launch). cbv zeta.
  set (f1 := noteReasons _ _). assert (quietly f f1) as Hq.
  { apply (quietly_called CallKLookup); [done|..]; unfold f1, noteReasons, called; by rsimp. }
  pose proof (verdict_says launch (ke_Start env 0) (ke_Lookup env) (sp_tmux_session_name row)) as Hv. cbv zeta in Hv.
  change (resultForCall launch (ke_Start env 0) (ke_Lookup env) (sp_tmux_session_name row)) with res in Hv.
  assert (forall ans, answered launch (ke_Start env 0) (ke_Lookup env) ans -> saw env id row launch ans) as Hsaw
    by (intros ans Ha; by exists socket).
  assert (forall out, (forall f' e, out = Some (f', e) -> acted env id row optIn f1 f') ->
    ensures (runDone f) (ret out : Op killOut)) as Hout.
  { intros out H1. apply Hret; [|done]. intros f' e H. eapply acted_trans; [by apply acted_quiet|by eapply H1]. }
  destruct (rs_Verdict res) eqn:Ev.
  - done.
  - destruct Hv as (ans & s & Ha & Hc & Hs). set (f2 := noteOurs row res f1).
    assert (quietly f1 f2) as Hq2.
    { apply quietly_same; unfold f2, noteOurs, noteReasons; destruct (nameChanged _ _); by rsimp. }
    destruct (finishedOurs env row res) as [e|] eqn:Ef.
    { apply Hout. intros f' e' [= <- _]. by apply acted_quiet. }
    eapply ensures_mono; [apply (killOurs_done socket res launch ans s f2); auto|].
    + apply (finished_own res launch ans); auto. intros Hfin. destruct optIn eqn:Eo; [done|]. destruct Hno. by left.
    + intros r own [(out & -> & H) Hw]. split_and!; [|done|done]. apply actedOut_ret. intros f' e' E.
      eapply acted_trans; [apply acted_quiet; eapply quietly_trans; [exact Hq|exact Hq2]|by eapply H].
  - apply Hout. intros f' e. destruct Hv as (ans & Ha & Hc & Hl & Hne). unfold killLeftover.
    destruct (killRowFinished row) eqn:Ef; simpl; [|intros [= <- _]; by apply acted_quiet, quietly_same].
    destruct (recordsNoLaunchSession _) eqn:En; [|intros [= <- _]; by apply acted_quiet, quietly_same].
    apply (abandonedLaunch_acted launch ans); auto. destruct optIn eqn:Eo; [done|]. destruct Hno. by left.
  - apply Hout. intros f' e. apply (killGone_acted socket true _ _ _ Es). intros _.
    by apply (shown_noCurrent _ _ _ (sp_tmux_session_name row)); left.
  - apply Hout. intros f' e [= <- _]. by apply acted_quiet, quietly_same.
Qed.
End Flow.

(** ** What success means *)

Section Success.
Context (env : KillEnv) (id : string) (row : SpawnRow) (fuel : nat).

Definition checkable (st : ProcState) : Prop := st = ProcAlive \/ st = ProcGone.
Definition uncheckable (st : ProcState) : Prop := st = ProcNone \/ st = ProcUnknown.

Lemma wait_success agent state listed f f' : wait env fuel agent state listed f = Some (f', None) ->
  agentExited env agent state /\ forall p, p ∈ listed -> exited env p.
Proof.
  unfold wait. destruct (pollExit _ _ _ _ _ _) as [[st running]|] eqn:E; [|done]. apply pollExit_spec in E as (H1 & _ & H3).
  unfold waitOutcome. destruct (negb _ && _) eqn:Eb; [|done]. intros _. bsimp. subst. split; [by apply H1|].
  intros p Hp. apply H3; [done|]. by intros ?%elem_of_nil.
Qed.

Lemma check_success agent listed launch f f' : check env fuel agent listed launch [] f = Some (f', None) ->
  (checkable (firstReading env agent) /\ agentExited env (ap_Identity agent) (firstReading env agent) /\
     forall p, p ∈ listed -> exited env p) \/
  (uncheckable (firstReading env agent) /\
     (rs_Verdict (followUpResult env launch) = Gone \/ rs_Verdict (followUpResult env launch) = Leftover)).
Proof.
  unfold check. destruct (negb _ && _) eqn:E.
  - intros H%wait_success. left. split; [|done]. unfold checkable. destruct (firstReading env agent); bsimp; auto; done.
  - assert (uncheckable (firstReading env agent)) as Hu.
    { unfold uncheckable. destruct (firstReading env agent); simpl in E; bsimp; auto; done. }
    unfold followUp, killCantTell, stillThere, kret.
    pose proof (verdict_says launch (ke_Start env 6) (ke_FollowUp env) "") as Hv. cbv zeta in Hv.
    change (resultForCall launch (ke_Start env 6) (ke_FollowUp env) "") with (followUpResult env launch) in Hv.
    destruct (rs_Verdict (followUpResult env launch)); simpl; try done; intros _; right; auto.
Qed.

Lemma sessionProcesses_in start panes agentPID session pane :
  pane ∈ panes -> pa_SessionID pane = session -> 0 < pa_PID pane -> pa_PID pane <> agentPID ->
  KnownStartTime start (pa_PID pane) <> "" ->
  mkProc (pa_PID pane) (KnownStartTime start (pa_PID pane)) ∈ sessionProcesses start panes agentPID [session].
Proof.
  intros Hin Hs Hp Ha Hk. unfold sessionProcesses. assert (pa_PID pane ∉ [agentPID]) as Hn by set_solver. revert Hn. clear Ha.
  generalize [agentPID]. induction panes as [|q panes IH]; intros seen Hn; [by apply elem_of_nil in Hin|]. simpl.
  apply elem_of_cons in Hin as [<-|Hin].
  - rewrite (bool_decide_true (pa_SessionID pane ∈ [session])) by set_solver. rewrite (bool_decide_false (pa_PID pane ∈ seen)) by done.
    destruct (pa_PID pane <=? 0) eqn:E; [lia|]. simpl. rewrite bool_decide_false by done. by left.
  - destruct (_ || _); [by apply IH|]. destruct (decide (pa_PID pane = pa_PID q)) as [E|Hne].
    + rewrite <-E, bool_decide_false by done. by left.
    + case_bool_decide; [|right]; (apply IH; [done|set_solver]).
Qed.

(** The row's own lookup in a call. *)
Definition rowLookup' (socket : string) : Result := killLookup env row (launchFor env id socket (lifeIdentity row)).

(** What a success with a kill sent rests on: the agent's process was judged
    gone, and with it every process of a pane of the session that was killed;
    or the agent's process cannot be checked, and a second lookup found no
    session of the launch. [i] is the row's identity, with what an adoption
    found. *)
Definition endedAll : Prop :=
  exists socket i, killRowSocket env row = Some socket /\
    (i = lifeIdentity row \/ exists panes, ke_Panes env = inr panes /\
       i = ad_Identity (findAdoption (lifeIdentity row) (rowLookup' socket) panes (ke_Start env 2) (ke_Start env 3))) /\
    let agent := rowAgent row i in
    ((checkable (firstReading env agent) /\ agentExited env (ap_Identity agent) (firstReading env agent) /\
       forall panes pane s, ke_Panes env = inr panes -> rs_Verdict (rowLookup' socket) = Ours ->
         rs_Session (rowLookup' socket) = Some s -> pane ∈ panes -> pa_SessionID pane = ss_ID s -> 0 < pa_PID pane ->
         pa_PID pane <> pc_PID (ap_Identity agent) -> KnownStartTime (ke_Start env 4) (pa_PID pane) <> "" ->
         exited env (mkProc (pa_PID pane) (KnownStartTime (ke_Start env 4) (pa_PID pane)))) \/
     (uncheckable (firstReading env agent) /\
       (rs_Verdict (followUpResult env (launchFor env id socket i)) = Gone \/
        rs_Verdict (followUpResult env (launchFor env id socket i)) = Leftover))).

(** What a success with nothing sent rests on. *)
Definition nothingToEnd : Prop :=
  killRowFinished row = true \/
  exists socket, killRowSocket env row = Some socket /\ goneReading env row <> ProcAlive /\
    (rs_Verdict (rowLookup' socket) = Gone \/
     exists err, rs_Verdict (rowLookup' socket) = Ours /\ ke_Panes env = inl err /\
       rs_Verdict (listingResult env (launchFor env id socket (lifeIdentity row)) err) = Gone).

Definition succeeded (f : killFacts) : Prop := if kf_KillSent f then endedAll else nothingToEnd.

Lemma quietly_sent f f' : quietly f f' -> kf_KillSent f' = kf_KillSent f.
Proof.
  intros (new & [_ ->] & H). assert (existsb isKill new = false) as ->; [|by rewrite orb_false_r].
  induction H as [|c l Hc _ IH]; simpl; [done|by rewrite Hc].
Qed.

Lemma killCantTell_success r b : rs_Verdict r = CantTell -> killCantTell r b <> None.
Proof. unfold killCantTell. intros ->. done. Qed.

Lemma listing_verdict launch err :
  rs_Verdict (listingResult env launch err) = Gone \/ rs_Verdict (listingResult env launch err) = CantTell.
Proof.
  pose proof (verdict_says launch (ke_Start env 1) (inl err) "") as H. unfold listingResult. simpl in H.
  destruct (rs_Verdict (resultForFailure _ _ _)); auto; try done.
  - by destruct H as (? & ? & [? _] & _).
  - by destruct H as (? & [? _] & _).
Qed.

Lemma gone_success socket listPanes f f' : killRowSocket env row = Some socket -> kf_KillSent f = false ->
  (rs_Verdict (rowLookup' socket) = Gone \/
   exists err, rs_Verdict (rowLookup' socket) = Ours /\ ke_Panes env = inl err /\
     rs_Verdict (listingResult env (launchFor env id socket (lifeIdentity row)) err) = Gone) ->
  killGone env row fuel (launchFor env id socket (lifeIdentity row)) listPanes f = Some (f', None) -> succeeded f'.
Proof.
  intros Hs Hf Hv. unfold killGone, noPane, kret. cbv zeta. destruct (negb (bool_decide (goneReading env row = ProcAlive))) eqn:Eg.
  - intros [= <-]. unfold succeeded. rewrite (quietly_sent _ _ (noteCheck_quiet _ _ _)), Hf. right. exists socket.
    bsimp. by split_and!.
  - destruct (negb listPanes); [done|]. destruct (ke_Panes env) as [err|panes] eqn:Ep.
    + destruct (bool_decide (rs_Verdict (listingResult _ _ _) = Gone)) eqn:Ev; [done|]. intros [= _ Hc]. exfalso. revert Hc. apply killCantTell_success. bsimp.
      by destruct (listing_verdict (launchFor env id socket (lifeIdentity row)) err).
    + destruct (agentPane _ _ _) as [pane|]; [|done]. intros H. pose proof (check_quiet _ _ _ _ _ _ _ _ _ H) as Hq.
      apply check_success in H. unfold succeeded. rewrite (quietly_sent _ _ Hq). unfold killPane. rsimp.
      exists socket, (lifeIdentity row). split_and!; [done|by left|]. cbv zeta.
      destruct H as [(H1 & H2 & _)|H]; [left|by right]. split_and!; [done|done|]. intros ? ? ? _ Ho. exfalso.
      destruct Hv as [Hv|(? & _ & Hv & _)]; congruence.
Qed.

Definition allSucceeded (r : result killOut) (own : list (Store * Store)) : Prop :=
  forall f', r = Ok (Some (f', None)) -> succeeded f'.

Lemma ours_success socket s f : killRowSocket env row = Some socket -> kf_KillSent f = false ->
  rs_Verdict (rowLookup' socket) = Ours -> rs_Session (rowLookup' socket) = Some s ->
  ensures allSucceeded (killOurs env id row fuel socket (rowLookup' socket) (launchFor env id socket (lifeIdentity row)) f).
Proof.
  intros Hs Hf Hv Hr. unfold killOurs. destruct (ke_Panes env) as [err|panes] eqn:Ep.
  { apply ensures_ret. intros f' [= H]. unfold listingFailed, kret in H.
    destruct (bool_decide (rs_Verdict (listingResult _ _ _) = Gone)) eqn:Ev; bsimp.
    - eapply gone_success; [done| | |exact H]; [done|right; by exists err].
    - injection H as _ Hc. exfalso. revert Hc. apply killCantTell_success.
      by destruct (listing_verdict (launchFor env id socket (lifeIdentity row)) err). }
  eapply ensures_bind; [apply killAdopt_done| |by intros e o [(b & [=]) _]].
  intros [a b] o1 [(? & [= -> <-]) _]. apply ensures_ret. intros f' [= H].
  pose proof (check_quiet _ _ _ _ _ _ _ _ _ H) as Hq. apply check_success in H. unfold succeeded.
  rewrite (quietly_sent _ _ Hq). unfold killSession. rsimp.
  eexists socket, _. split_and!; [done|right; exists panes; split; [done|reflexivity]|]. cbv zeta.
  destruct H as [(H1 & H2 & H3)|H]; [left|by right]. split_and!; [done|done|].
  intros panes' pane s' Hp _ Hs' Hin Hsess Hpid Hne Hk. rewrite Ep in Hp. injection Hp as <-. rewrite Hr in Hs'. injection Hs' as <-.
  apply H3. rewrite Hr. simpl. by apply sessionProcesses_in.
Qed.

Lemma killRun_success : ensures allSucceeded (killRun env id row fuel false newFacts).
Proof.
  unfold killRun. destruct (killRefusal row false) as [e|] eqn:Er.
  { apply ensures_ret. intros f' [= <- ->]. unfold succeeded. simpl. left.
    unfold killRefusal in Er. destruct (killRowFinished row); [done|]. by destruct (Unusable _). }
  destruct (killRowSocket env row) as [socket|] eqn:Es; [|by apply ensures_ret].
  set (f1 := noteReasons _ _). assert (kf_KillSent f1 = false) as Hf by (unfold f1, noteReasons, called; by rsimp).
  cbv zeta. change (killLookup env row (launchFor env id socket (lifeIdentity row))) with (rowLookup' socket) in *.
  pose proof (verdict_says (launchFor env id socket (lifeIdentity row)) (ke_Start env 0) (ke_Lookup env) (sp_tmux_session_name row)) as Hv.
  cbv zeta in Hv. change (resultForCall _ _ _ _) with (rowLookup' socket) in Hv.
  destruct (rs_Verdict (rowLookup' socket)) eqn:Ev.
  - done.
  - destruct Hv as (ans & s & _ & _ & Hr). destruct (finishedOurs env row _) as [e|]; [by apply ensures_ret|].
    apply (ours_success socket s); [done| |done|done].
    unfold noteOurs, noteReasons. destruct (nameChanged _ _); rsimp; exact Hf.
  - apply ensures_ret. intros f' [= H]. unfold killLeftover in H. unfold succeeded.
    destruct (killRowFinished row) eqn:Ef; simpl in H; [|done]. unfold killRefusal in Er. by rewrite Ef in Er.
  - apply ensures_ret. intros f' [= H]. eapply gone_success; [done|exact Hf| |exact H]. by left.
  - apply ensures_ret. intros f' [= _ Hc]. by apply killCantTell_success in Hc.
Qed.
End Success.

(** ** The call ends *)

Section Ends.
Context (env : KillEnv) (fuel : nat) (Hc : kill_clock env) (Hf : (killFuel env <= fuel)%nat).

Lemma check_ends agent listed launch ended f : is_Some (check env fuel agent listed launch ended f).
Proof.
  assert (forall b running f, is_Some (waitOutcome b running f)) as Ho
    by (intros; unfold waitOutcome; destruct (_ && _); by eexists).
  assert (forall agent st listed, is_Some (pollExit env fuel 0 agent st listed)) as Hp by (intros; by apply killFuel_ends).
  unfold check, wait, waitListed. destruct (_ && _).
  - destruct (Hp (ap_Identity agent) (firstReading env agent) listed) as [[st running] ->]. apply Ho.
  - destruct (followUp _ _ _ _) as [f1 [e|]]; [by eexists|]. destruct ended; [by eexists|].
    destruct (Hp (mkProc 0 "") ProcGone listed) as [[st running] ->]. apply Ho.
Qed.
Lemma killGone_ends row launch b f : is_Some (killGone env row fuel launch b f).
Proof.
  unfold killGone, noPane, kret. cbv zeta.
  repeat (case_match; try apply check_ends; try by eexists).
Qed.
Lemma listingFailed_ends row err launch f : is_Some (listingFailed env row fuel err launch f).
Proof. unfold listingFailed, kret. case_match; [apply killGone_ends|by eexists]. Qed.
Lemma killOurs_ends id row socket res launch f : results (fun out => is_Some out) (killOurs env id row fuel socket res launch f).
Proof.
  unfold killOurs. destruct (ke_Panes env); [apply results_ret, listingFailed_ends|].
  apply (results_bind (fun _ => True)); [|intros [a b] _; apply results_ret, check_ends].
  unfold killAdopt. destruct (_ || _); [by apply results_ret|]. apply results_catch. intros r. by apply results_ret.
Qed.
Lemma killRun_ends id row optIn f : results (fun out => is_Some out) (killRun env id row fuel optIn f).
Proof.
  unfold killRun, killLeftover, abandonedLaunch, kret. cbv zeta.
  repeat (case_match; try (apply results_ret; first [by eexists|apply killGone_ends|apply listingFailed_ends|apply check_ends]);
          try apply killOurs_ends).
Qed.
End Ends.

(** The row a call found when it read it. *)
Definition readRow (id : string) (s0 : option Store) : option SpawnRow := s0 ≫= fun s => db_spawns s !! id.

Lemma ensures_GetSpawn id : ensures_from (fun s0 r own => own = [] /\
    match readRow id s0 with Some row => r = Ok row | None => exists e, r = Err e end) (GetSpawn id).
Proof.
  unfold GetSpawn. eapply ensures_from_bind.
  - apply (ensures_from_read (fun s0 r own => own = [] /\
      match s0 with Some s => r = Ok (db_spawns s !! id) | None => exists e, r = Err e end)); [done|].
    split; [done|by eexists].
  - intros [s|] r o1 [-> H]; [|by destruct H]. injection H as ->. unfold readRow. simpl.
    destruct (db_spawns s !! id) as [row|]; [by apply ensures_ret|apply ensures_fail]. split; [done|by eexists].
  - intros [s|] e o1 [-> H]; [done|]. split; [done|by eexists].
Qed.

(** A call's facts come from the row it read, and its events add nothing to
    them. *)
Lemma runKill_ensures env fuel id optIn (Q : option SpawnRow -> result killOut -> list (Store * Store) -> Prop) :
  (forall e, Q None (Ok (kret newFacts (Some (KStore e)))) []) ->
  (forall row, ensures (fun r own => exists out, r = Ok out /\ Q (Some row) (Ok out) own) (killRun env id row fuel optIn newFacts)) ->
  ensures_from (fun s0 => Q (readRow id s0)) (runKill env fuel id optIn).
Proof.
  intros He Hrow. unfold runKill. eapply ensures_from_catch; [apply ensures_GetSpawn|].
  assert (forall x es (out : killOut) o, Q x (Ok out) o -> ensures (fun r own => Q x r (o ++ own)) (emits es;;; ret out : Op killOut)) as Hem.
  { intros x es out o HQ w. exists []. rewrite !app_nil_r. by split. }
  intros s0 r o1 [-> H]. destruct (readRow id s0) as [row|].
  - subst r. eapply ensures_bind; [apply (Hrow row)| |by intros e o (? & [=] & _)].
    intros [[f e]|] o (? & [= <-] & HQ); [by apply Hem|]. apply ensures_ret. by rewrite app_nil_r.
  - destruct H as [e ->]. by apply Hem.
Qed.

(** C21: kill reaches only its own. Whatever else writes the store, every pane
    or session kill a call sends is warranted by the row the call itself read
    and by what it saw. A session is the only one with that row's current
    label, in a listing of a server that stands for the row; a pane is killed
    beside such a session, or when the row's agent was seen running and tmux
    shows no session of its launch, and is the row's recorded one with its
    recorded process or, beside a session, the only one whose label names the
    row's launch. On a row read finished nothing is sent but by the operator's
    option, and a session (with its pane) only past the starting-session bound,
    when the row's agent reported in from it, or as this id's own abandoned
    launch. A call that found no row sends nothing and writes nothing. A call
    says that a kill was sent exactly when one was, and its only write is the
    adoption of the live row as it was read. *)
Theorem kill_reaches_only_its_own (env : KillEnv) (fuel : nat) (id : string) (optIn : bool) :
  ensures_from (fun s0 r own => match r with
    | Err _ => False
    | Ok None => True
    | Ok (Some (f, e)) =>
        kf_KillSent f = existsb isKill (kf_Calls f) /\
        match readRow id s0 with
        | None => kf_Calls f = [] /\ own = []
        | Some row =>
            Forall (killWarranted env id row optIn) (kf_Calls f) /\ Forall (adoptedWrite id row) own /\
            (killRowFinished row = true -> own = []) /\
            (killRowFinished row <> optIn -> kf_Calls f = [] /\ own = [])
        end
    end) (runKill env fuel id optIn).
Proof.
  apply (runKill_ensures env fuel id optIn (fun row r own => match r with
    | Err _ => False
    | Ok None => True
    | Ok (Some (f, e)) =>
        kf_KillSent f = existsb isKill (kf_Calls f) /\
        match row with
        | None => kf_Calls f = [] /\ own = []
        | Some row =>
            Forall (killWarranted env id row optIn) (kf_Calls f) /\ Forall (adoptedWrite id row) own /\
            (killRowFinished row = true -> own = []) /\
            (killRowFinished row <> optIn -> kf_Calls f = [] /\ own = [])
        end
    end)); [by intros e|]. intros row.
  eapply ensures_mono; [apply killRun_done|]. intros r own ((out & -> & Ha) & [Hw Hfin] & Hno). exists out. split; [done|].
  destruct out as [[f e]|]; [|done]. destruct (Ha f e eq_refl) as (new & [E1 E2] & Hwar). simpl in E1, E2.
  split; [by rewrite E1, E2|]. split_and!; [by rewrite E1|done|done|].
  intros Hne. assert (misdirected row optIn) as H by (unfold misdirected; destruct (killRowFinished row), optIn; auto; done).
  destruct (Hno H) as [-> [e' E]]. by injection E as -> _.
Qed.

(** C22: A success of kill means its agent ended. The call read a row, and
    what it saw of that row says so. When a kill was sent, the row's agent
    process was judged gone in the wait, and so was every process, with a
    start time that could be read, of a pane of the session that was killed; or
    the agent's process cannot be checked, and a second lookup found no session
    of the launch. When none was sent, the row was finished as the call read
    it, or tmux shows no session of its launch and the agent's process was not
    seen running. *)
Theorem kill_success_means_ended (env : KillEnv) (fuel : nat) (id : string) :
  ensures_from (fun s0 r own => forall f, r = Ok (Some (f, None)) ->
    exists row, readRow id s0 = Some row /\ (if kf_KillSent f then endedAll env id row else nothingToEnd env id row))
  (Kill env fuel id).
Proof.
  apply (runKill_ensures env fuel id false (fun x r own => forall f, r = Ok (Some (f, None)) ->
    exists row, x = Some row /\ (if kf_KillSent f then endedAll env id row else nothingToEnd env id row))); [done|]. intros row.
  assert (ensures (fun r own => (exists out, r = Ok out) /\ allSucceeded env id row r own) (killRun env id row fuel false newFacts)) as H.
  { intros w. destruct (killRun_success env id row fuel w) as (own & E & H1).
    destruct (killRun_done env id row fuel false newFacts w) as (own' & E' & (out & Hout & _) & _).
    exists own. split; [done|]. split; [by exists out|done]. }
  eapply ensures_mono; [exact H|]. intros r own [[out ->] Hs]. exists out. split; [done|]. intros f E. exists row.
  split; [done|]. by apply (Hs f).
Qed.

(** C23: kill ends. When each pause of its wait advances the clock by what it
    pauses for, a call returns, with as many turns as the exit wait has
    intervals and two more, whatever tmux and the processes do. *)
Theorem kill_ends (env : KillEnv) (fuel : nat) (id : string) (optIn : bool) (w : World Store Event) :
  kill_clock env -> (killFuel env <= fuel)%nat -> exists f e, fst (runKill env fuel id optIn w) = Ok (Some (f, e)).
Proof.
  intros Hc Hf. assert (results (fun out => is_Some out) (runKill env fuel id optIn)) as H.
  { unfold runKill. apply results_catch. intros [row|e0].
    - apply (results_bind (fun out => is_Some out)); [by apply killRun_ends|]. intros [[f e]|] Hs; [|by destruct Hs].
      apply (results_bind (fun _ => True)); [intros ?; by eexists|]. intros ? _. by apply results_ret.
    - apply (results_bind (fun _ => True)); [intros ?; by eexists|]. intros ? _. by apply results_ret. }
  destruct (H w) as (out & E & [[f e] ->]). by exists f, e.
Qed.

(** *** A call alone *)

(** A working agent in its labelled session, which ends half a second after
    its kill. *)
Definition killToken : string := "00000000000000aa".
Definition killedRow : SpawnRow :=
  sampleRow <| sp_state := StateWorking |> <| sp_pid := Some 4300 |> <| sp_proc_starttime := Some "7" |>
    <| sp_launch_token := Some killToken |> <| sp_tmux_socket := Some "/tmp/a" |> <| sp_tmux_server_pid := Some 4242 |>
    <| sp_tmux_server_started := Some 99 |> <| sp_pane_id := Some "%1" |> <| sp_pane_pid := Some 4300 |> <| sp_pane_starttime := Some "7" |>.
Definition killStore : Store := storeOf {[ "inst-1" := killedRow; "done" := killedRow <| sp_state := StateEnded |> ]} 100000.
Definition ownLabel (id : string) : Label := mkLabel LabelValid killToken id "00000000000000ff".
Definition sampleKillEnv : KillEnv :=
  mkKillEnv (5 * second) (300 * second) (90 * second) "00000000000000ff" None
    (inr (mkAnswer [mkSession "$3" 50 "work" (ownLabel "inst-1"); mkSession "$4" 50 "other" noLabel] 4242 99 false))
    (inr [mkPane "$3" 0 0 "%1" 4300 killToken; mkPane "$3" 0 1 "%2" 4301 ""; mkPane "$4" 0 0 "%3" 4302 ""])
    (inl OtherError) (fun _ _ => mkStartAnswer "7" true true) (1000 * second) 0
    (fun i => mkTurn (fun _ => mkStartAnswer "7" (Nat.ltb i 3) true) (Z.of_nat i * killPollInterval)
                (fun _ => mkStartAnswer "7" (Nat.ltb i 5) true)).

Definition sampleKilled (id : string) := fst (Kill sampleKillEnv (killFuel sampleKillEnv) id (alone killStore [] [])).

Lemma kill_sample :
  (match sampleKilled "inst-1" with Ok (Some (f, e)) => Some (kf_Calls f, kf_Check f, e) | _ => None end)
  = Some ([CallKLookup; CallKListPanes; CallKillPane "%1"; CallKillSession "$3"], "gone", None) /\
  (match sampleKilled "done" with Ok (Some (f, e)) => Some (kf_Calls f, kf_KillSent f, e) | _ => None end)
  = Some ([], false, None).
Proof. split; vm_compute; reflexivity. Qed.

Lemma sample_kill_clock : kill_clock sampleKillEnv.
Proof. split; [done|]. intros i. left. unfold killSleep. simpl. assert (0 < killPollInterval) by done. lia. Qed.

Lemma kill_ends_witness :
  kill_clock sampleKillEnv /\
  exists f e, fst (runKill sampleKillEnv (killFuel sampleKillEnv) "inst-1" false (alone killStore [] [])) = Ok (Some (f, e)).
Proof.
  split; [exact sample_kill_clock|].
  apply (kill_ends sampleKillEnv (killFuel sampleKillEnv) "inst-1" false (alone killStore [] []) sample_kill_clock (le_n _)).
Defined.
