(* ===== verification/StoreInv.v ===== *)
(** * What every operation promises a store invariant

    The interface between the store's operations and a property of the whole
    store: [StoreInv R] asks the preorder [R] to relate the stores before and
    after each primitive change an operation makes (rows updated in place,
    requests updated, inserted, evicted or closed, a write of the subagent
    tables, a Cursor binding, a session archived, a pending row inserted). Every operation is built of
    these, so under any interference it commits only writes in [R]
    ([runHook_inv], [runRequest_inv], [runLifecycle_inv]). The deletes of a
    Spawn's row are the one change left out ([deletesRow]): a property that
    survives them too is [StoreInvDelete]. *)

From S2P Require Import Prelude Sql Rows Display Settle Family Requests History Steps Gate HookWrites HookProps RelayWrites Protocol RequestInv SubagentWrites SubagentInv Lifecycle LifecycleProps.

(** Rows updated in place: none appears or goes, and each keeps its parent or
    is given one that exists. *)
Definition rows_kept (s s' : Store) : Prop :=
  rows_step (fun s _ r r' => sp_parent_id r' = sp_parent_id r \/ parentExists s (sp_parent_id r') = true) s s'.

Class StoreInv (R : Store -> Store -> Prop) : Prop := {
  si_preorder :: PreOrder R;
  si_rows s s' : rows_kept s s' -> tables_eq s s' -> R s s';
  si_update c f s : (forall r, pr_instance_id (f r) = pr_instance_id r) ->
    (0 < db_now s -> forall r, req_good r -> c r = true -> req_evolves r (f r)) -> R s (updateReqs c f s);
  si_insert mk id token s x s' :
    (forall rid r, req_good (mk rid r) /\ pr_request_id (mk rid r) = rid /\ pr_instance_id (mk rid r) = id /\
       exists b, phase_of (mk rid r) = Waiting b None None) ->
    insertRequest mk id token s = Ok (x, s') -> R s s';
  si_evict cap : tx_keeps R (evictClosedRequests cap);
  si_sub s s' : sub_step s s' -> R s s';
  si_history id session path life s s' : upsertSessionHistoryEntry id session path life s = Ok (tt, s') -> R s s';
  si_runtimes m s : R s (s <| db_runtimes := m |>);
  si_pending text sp s n s' : insertPendingStmt text sp s = Ok (n, s') -> R s s';
}.

Class StoreInvDelete (R : Store -> Store -> Prop) : Prop := {
  sid_inv :: StoreInv R;
  sid_delete id s : R s (deleteRow id s);
}.

(** ** Rows *)

Lemma rows_kept_core s s' : core_step s s' -> rows_kept s s'.
Proof.
  intros H id. specialize (H id). destruct (db_spawns s !! id), (db_spawns s' !! id); try done.
  left. symmetry. by apply (core_field sp_parent_id _ _ H).
Qed.

Lemma rows_kept_update1 id upd s :
  (forall r r1, db_spawns s !! id = Some r -> upd s r = Some r1 ->
     sp_parent_id r1 = sp_parent_id r \/ parentExists s (sp_parent_id r1) = true) ->
  rows_kept s (snd (update1 id upd s)).
Proof. intros H. apply update1_step; [by left|done]. Qed.

Lemma parent_hookIdentity r r' : hookIdentity r' = hookIdentity r -> sp_parent_id r' = sp_parent_id r.
Proof. unfold hookIdentity. congruence. Qed.

Section Operations.
Context {R : Store -> Store -> Prop} `{!StoreInv R}.

Lemma inv_core s s' : core_step s s' -> tables_eq s s' -> R s s'.
Proof. intros H. by apply si_rows, rows_kept_core. Qed.

Lemma inv_update1 id upd s :
  (forall r r1, db_spawns s !! id = Some r -> upd s r = Some r1 ->
     sp_parent_id r1 = sp_parent_id r \/ parentExists s (sp_parent_id r1) = true) ->
  R s (snd (update1 id upd s)).
Proof. intros H. apply si_rows; [by apply rows_kept_update1|apply update1_tables]. Qed.

Lemma inImmediateTx_inv {A} T id (body : Tx Store A) :
  tx_keeps R body -> guarantees R (inImmediateTx T id body).
Proof.
  intros Hb. apply inImmediateTx_spec. intros s gs a s1 gs' H s' Hc Ht.
  etrans; [by eapply Hb|by apply inv_core].
Qed.

Lemma execGuarded_inv T id (q : Store -> bool * Store) :
  (forall s, R s (snd (q s))) -> guarantees R (execGuarded T id q).
Proof.
  intros Hq. unfold execGuarded. apply guarantees_catch; [|intros [?|[]]; guar].
  apply inImmediateTx_inv. apply keeps_bind; [by apply keeps_counted|]. intros []; ktx.
Qed.

Lemma inv_orphans id reason s gs cl s' gs' :
  closeOrphanedRequests id reason (storeNowMillis s) s gs = (Ok (cl, s'), gs') -> R s s'.
Proof.
  intros ->%closeOrphaned_update. apply si_update; [intros; apply closeOne_instance|].
  intros Hn r Hg _. by apply closeOne_evolves.
Qed.

(** The clock read just before a close is the store's own. *)
Lemma keeps_close {A} id reason (k : Z -> list closedRequest -> Tx Store A) :
  (forall at_ cl, tx_keeps R (k at_ cl)) ->
  tx_keeps R (at_ <-- tread storeNowMillis;; cl <-- closeOrphanedRequests id reason at_;; k at_ cl).
Proof.
  intros Hk s gs a s' gs' H. apply tbind_Ok in H as (at_ & s1 & gs1 & [= <- <-]%tstmt_Ok & H).
  apply tbind_Ok in H as (cl & s2 & gs2 & H1%inv_orphans & H). etrans; [done|]. by eapply Hk.
Qed.

Lemma closeSubagents_inv id at_ : tx_keeps R (closeSubagentsAgentGone id at_).
Proof.
  unfold closeSubagentsAgentGone. ktx; apply keeps_pure; intros; apply si_sub; [apply step_closeRunning|apply step_closeLaunches].
Qed.

(** ** The hooks' writes *)

Lemma gatedHookUpdate_inv id g set path present cond s : set_ok set ->
  R s (snd (gatedHookUpdate id g set path present cond s)).
Proof.
  intros Hok. apply inv_update1. intros r r1 _ Hu. destruct (where3 _); [|done]. injection Hu as <-. left.
  by apply parent_hookIdentity, gatedRow_fields.
Qed.

Lemma gatedExec_inv T id g set path present cond : set_ok set ->
  guarantees R (execGuarded T id (gatedHookUpdate id g set path present cond)).
Proof. intros Hok. apply execGuarded_inv. intros. by apply gatedHookUpdate_inv. Qed.

Lemma gatedStmt_inv id g set path present cond : set_ok set ->
  tx_keeps R (tstmt (fun s => Ok (gatedHookUpdate id g set path present cond s))).
Proof. intros Hok. apply keeps_counted. intros. by apply gatedHookUpdate_inv. Qed.
End Operations.
