(* ===== verification/References.v ===== *)
(** * Referential integrity

    Every parent_id names a row and every request, history entry, subagent
    entry and claimable launch belongs to one: an instance of StoreInv.v's
    interface, deletes included. *)

From S2P Require Import Prelude Sql Rows Display Settle Family Requests History Steps Gate HookWrites HookProps RelayWrites RequestInv SubagentWrites SubagentInv Lifecycle Reuse LifecycleProps StoreInv.

(** Every parent is a row, and every dependent row's Spawn exists. *)
Record refs_ok (s : Store) : Prop := {
  ref_parent : forall id r p, db_spawns s !! id = Some r -> sp_parent_id r = Some p -> is_Some (db_spawns s !! p);
  ref_requests : Forall (fun pr => is_Some (db_spawns s !! pr_instance_id pr)) (db_requests s);
  ref_history : Forall (fun h => is_Some (db_spawns s !! hi_instance_id h)) (db_history s);
  ref_subagents : Forall (fun e => is_Some (db_spawns s !! sa_instance_id e)) (db_subagents s);
  ref_launches : Forall (fun l => is_Some (db_spawns s !! la_instance_id l)) (db_launches s);
}.

Definition refs_kept (s s' : Store) : Prop := refs_ok s -> refs_ok s'.

Lemma parentExists_spec s p q : parentExists s p = true -> p = Some q -> is_Some (db_spawns s !! q).
Proof. intros H ->. simpl in H. by bsimp. Qed.


#[export] Instance refs_kept_preorder : PreOrder refs_kept.
Proof. split; [by intros s H|]. intros s s1 s2 H1 H2 H. auto. Qed.

(** Rows updated in place keep the references. *)
Lemma rows_kept_is_Some s s' id : rows_kept s s' -> is_Some (db_spawns s !! id) -> is_Some (db_spawns s' !! id).
Proof. intros H [r Hr]. specialize (H id). rewrite Hr in H. by destruct (db_spawns s' !! id). Qed.

Lemma refs_rows s s' : rows_kept s s' -> tables_eq s s' -> refs_kept s s'.
Proof.
  intros Hk (T1 & _ & T2 & T3 & T4 & _) [H1 H2 H3 H4 H5].
  assert (forall id, is_Some (db_spawns s !! id) -> is_Some (db_spawns s' !! id)) as Hdom
    by (intros id; by apply rows_kept_is_Some).
  split; rewrite ?T1, ?T2, ?T3, ?T4; try (eapply Forall_impl; [done|]; simpl; auto).
  intros id r' p Hr' Hp. specialize (Hk id). rewrite Hr' in Hk.
  destruct (db_spawns s !! id) as [r|] eqn:Er; [|done]. apply Hdom.
  destruct Hk as [E|E]; [rewrite E in Hp; by eapply H1|by eapply parentExists_spec].
Qed.

Lemma lookup_deleted id j (m : gmap string SpawnRow) (f : SpawnRow -> SpawnRow) :
  j <> id -> is_Some (m !! j) -> is_Some ((f <$> delete id m) !! j).
Proof. intros Hne Hs. by rewrite lookup_fmap, fmap_is_Some, lookup_delete_ne. Qed.

Lemma Forall_filter_kept {A} (P Q : A -> Prop) (k : A -> Prop) {Hd : forall x, Decision (k x)} (l : list A) :
  Forall P l -> (forall x, k x -> P x -> Q x) -> Forall Q (filter k l).
Proof.
  intros H HQ. apply Forall_forall. intros x [Hk Hin]%list_elem_of_filter. rewrite Forall_forall in H. auto.
Qed.

Lemma refs_delete id s : refs_kept s (deleteRow id s).
Proof.
  intros [H1 H2 H3 H4 H5]. unfold deleteRow. split; rsimp.
  - intros j r' p. rewrite lookup_fmap. destruct (decide (j = id)) as [->|Hne]; [by rewrite lookup_delete_eq|].
    rewrite lookup_delete_ne by done. destruct (db_spawns s !! j) as [r|] eqn:Er; [|done]. simpl. intros [= <-] Hp.
    rewrite lookup_fmap, fmap_is_Some. destruct (bool_decide (sp_parent_id r = Some id)) eqn:E; [by rsimp_in Hp|].
    bsimp. rewrite lookup_delete_ne by congruence. eauto.
  - apply (Forall_filter_kept (fun x => is_Some (db_spawns s !! pr_instance_id x))); [done|].
    intros x Hx Hs. by apply lookup_deleted.
  - apply (Forall_filter_kept (fun x => is_Some (db_spawns s !! hi_instance_id x))); [done|].
    intros x Hx Hs. by apply lookup_deleted.
  - apply (Forall_filter_kept (fun x => is_Some (db_spawns s !! sa_instance_id x))); [done|].
    intros x Hx Hs. by apply lookup_deleted.
  - apply (Forall_filter_kept (fun x => is_Some (db_spawns s !! la_instance_id x))); [done|].
    intros x Hx Hs. by apply lookup_deleted.
Qed.

Lemma refs_insert text sp s n s' : insertPendingStmt text sp s = Ok (n, s') -> refs_kept s s'.
Proof.
  unfold insertPendingStmt. case_bool_decide as Hn; [done|]. cbv zeta.
  destruct (parentExists _ _) eqn:Hp; [|done]. intros [= <- <-] [H1 H2 H3 H4 H5].
  assert (forall j, is_Some (db_spawns s !! j) ->
    is_Some (db_spawns (s <| db_spawns := <[ps_InstanceID sp := pendingRow text sp s]> (db_spawns s) |>) !! j)) as Hdom.
  { intros j Hj. rsimp. rewrite lookup_insert_ne by (intros <-; done). done. }
  split; try (eapply Forall_impl; [rsimp; done|]; simpl; auto).
  intros j r p Hr Hrp. rsimp_in Hr. destruct (decide (j = ps_InstanceID sp)) as [->|].
  - rewrite lookup_insert_eq in Hr. injection Hr as <-. eapply parentExists_spec; [done|done].
  - rewrite lookup_insert_ne in Hr by done. eauto.
Qed.


Lemma refs_requests s s' :
  db_spawns s' = db_spawns s -> db_history s' = db_history s -> db_subagents s' = db_subagents s ->
  db_launches s' = db_launches s ->
  (forall pr, pr ∈ db_requests s' -> (exists pr0, pr0 ∈ db_requests s /\ pr_instance_id pr = pr_instance_id pr0) \/
     is_Some (db_spawns s !! pr_instance_id pr)) -> refs_kept s s'.
Proof.
  intros E1 E2 E3 E4 Hr [H1 H2 H3 H4 H5]. split; rewrite ?E1, ?E2, ?E3, ?E4; try done.
  apply Forall_forall. intros pr Hpr. destruct (Hr pr Hpr) as [(pr0 & Hin & ->)|]; [|done].
  rewrite Forall_forall in H2. auto.
Qed.

Lemma refs_update c f s : (forall r, pr_instance_id (f r) = pr_instance_id r) -> refs_kept s (updateReqs c f s).
Proof.
  intros Hf. unfold updateReqs. apply refs_requests; rsimp; try done.
  intros pr (pr0 & -> & Hin)%list_elem_of_fmap. left. exists pr0. split; [done|]. by destruct (c pr0).
Qed.

Lemma refs_insertRequest mk id token s x s' : (forall rid r, pr_instance_id (mk rid r) = id) ->
  insertRequest mk id token s = Ok (x, s') -> refs_kept s s'.
Proof.
  intros Hmk. unfold insertRequest. destruct (db_spawns s !! id) as [r|] eqn:Er; [|by intros [= <- <-]].
  destruct (existsb _ _); [done|]. intros [= <- <-]. apply refs_requests; rsimp; try done.
  intros pr [Hin|Hin]%elem_of_app; [left; eauto|]. apply list_elem_of_singleton in Hin as ->. right.
  rewrite Hmk, Er. by eexists.
Qed.

Lemma refs_evict cap : tx_keeps refs_kept (evictClosedRequests cap).
Proof.
  intros s gs u s' gs' ->%evictClosedRequests_spec. destruct (_ && _); [|done].
  apply refs_requests; rsimp; try done. intros pr [_ Hin]%list_elem_of_filter. left. eauto.
Qed.

(** The subagent tables' writes name existing Spawns. *)
Lemma refs_sub s s' : sub_step s s' -> refs_kept s s'.
Proof.
  intros [E1 [E2 _] E3 _ _ _ He Hl] [H1 H2 H3 H4 H5]. split; rewrite ?E1, ?E2, ?E3; try done; apply Forall_forall.
  - intros e Hin. rewrite Forall_forall in H4. destruct (He e Hin) as [(e0 & Hin0 & <-)|]; [by apply H4|done].
  - intros l Hin. rewrite Forall_forall in H5. destruct (Hl l Hin); [by apply H5|done].
Qed.

Lemma refs_history id session path life s s' :
  upsertSessionHistoryEntry id session path life s = Ok (tt, s') -> refs_kept s s'.
Proof.
  unfold upsertSessionHistoryEntry. case_bool_decide as Hid; [|done]. intros [= <-] [H1 H2 H3 H4 H5].
  split; rsimp; try done. unfold upsertHistory. case_bool_decide.
  - apply Forall_fmap. eapply Forall_impl; [done|]. simpl. intros e He. case_bool_decide; by rsimp.
  - apply Forall_app. split; [done|]. by repeat constructor.
Qed.

#[export] Instance refs_inv : StoreInv refs_kept.
Proof.
  split; try apply _; eauto using refs_rows, refs_evict, refs_sub, refs_history,
    refs_insert.
  - intros c f s Hf _. by apply refs_update.
  - intros mk id token s x s' Hmk. apply refs_insertRequest. intros rid r. apply Hmk.
  - intros m s [H1 H2 H3 H4 H5]. split; by rsimp.
Qed.

#[export] Instance refs_inv_delete : StoreInvDelete refs_kept.
Proof. split; [apply _|]. intros. apply refs_delete. Qed.

Lemma refs_deleteRequests id s : refs_kept s (deleteRequests id s).
Proof.
  unfold deleteRequests. apply refs_requests; rsimp; try done. intros pr [_ Hin]%list_elem_of_filter. left. eauto.
Qed.
