(* ===== verification/Observe.v ===== *)
(** * The observers of a Spawn's display (internal/store/display.go)

    The two nonwaiting writes of the live read path. [ObserveNeedsIntelligence]
    observes a row by its permission requests: it starts the fallback clocks
    the samples establish ([planPermission]) and settles out a display an
    earlier interval left. [ObserveIdleScreen] observes it by one sample of its
    pane. Both apply the plan of Display.v only to the row it was made from
    ([lockedObservationRow]), the first only while every request of the Spawn
    is still the one sampled ([asSampled]); a COMMIT left unconfirmed is
    resolved by one re-read ([observationLanded]). *)

From S2P Require Import Prelude Sql Rows Requests Settle Family Display History Steps Gate HookWrites RelayWrites Lifecycle CursorWrites.

(** ** Samples *)

(** [ps_FallbackAt] is an instant in nanoseconds, [None] the zero time. *)
Record PermissionSample := mkSample {
  ps_Request : PermissionRow;
  ps_FallbackAt : option Z;
  ps_Basis : string;
}.

#[export] Instance PermissionRow_eq_dec : EqDecision PermissionRow.
Proof. solve_decision. Defined.

Definition examinedAgent (row : SpawnRow) : string := coalesce (sp_agent row) "".

Definition permissionCandidate (row : SpawnRow) (pr : PermissionRow) (sample : PermissionSample) (now : Z) : bool :=
  bool_decide (sp_state row = StateCheckPermission)
  && (bool_decide (examinedAgent row = AgentClaude) || bool_decide (examinedAgent row = AgentCodex)
      || bool_decide (examinedAgent row = AgentCursor))
  && bool_decide (pw_OwnerLaunchToken pr = li_Token (lifeIdentity row))
  && (pw_OwnerPermissionEpoch pr =? sp_permission_epoch row)
  && AwaitsAnswer pr && negb (ProvenGone pr)
  && match ps_FallbackAt sample with Some at_ => at_ <=? now | None => false end.

Definition planPermission (row : SpawnRow) (samples : list PermissionSample) (now : Z) : list PermissionSample :=
  List.filter (fun sample => permissionCandidate row (ps_Request sample) sample now
                             && IsZero (pw_FallbackAt (ps_Request sample))) samples.

(** ** The locked checks *)

(** What the plan was made from, as lockedObservationRow compares it. *)
Definition sameExamined (row examined : SpawnRow) : bool :=
  bool_decide (lifeSnapshot row = lifeSnapshot examined) && bool_decide (lifeIdentity row = lifeIdentity examined)
  && bool_decide (examinedAgent row = examinedAgent examined) && (sp_permission_epoch row =? sp_permission_epoch examined)
  && (sp_observation_version row =? sp_observation_version examined)
  && bool_decide (sp_state row = sp_state examined).

Definition lockedObservationRow (id : string) (examined : SpawnRow) : Tx Store SpawnRow :=
  found <-- tread (fun s => db_spawns s !! id);;
  match found with
  | None => tfail ENoRows
  | Some row => if sameExamined row examined then tret row else tfail ESampleChanged
  end.

(** byID: a later sample of an id replaces an earlier one. *)
Definition sampleByID (samples : list PermissionSample) (rid : Z) : option PermissionRow :=
  find (fun pr => pw_RequestID pr =? rid) (rev (ps_Request <$> samples)).

Definition asSampled (samples : list PermissionSample) (current : list PermissionRow) : bool :=
  (length current =? length samples)%nat
  && forallb (fun pr => bool_decide (sampleByID samples (pw_RequestID pr) = Some pr)) current.

(** The Spawn's requests by request_id, the order they are stored in. *)
Definition requestRows (id : string) (s : Store) : list PermissionRow :=
  scanPermissionRow <$> filter (fun pr => pr_instance_id pr = id) (db_requests s).

(** ** What an observation writes *)

(** The start of one fallback clock. *)
Definition observedClockSet (now : Z) (sample : PermissionSample) (pr : PermReq) : PermReq :=
  pr <| pr_fallback_at := ps_FallbackAt sample ≫= fun at_ => millisArg (stamped at_) |>
     <| pr_fallback_basis := Some (ps_Basis sample) |>
     <| pr_hook_gone_at := coalesce2 (pr_hook_gone_at pr) (millisArg (stamped now)) |>.

Fixpoint startClocks (now : Z) (clocks : list PermissionSample) : Tx Store unit :=
  match clocks with
  | [] => tret tt
  | sample :: clocks =>
      tstmt (fun s => Ok (tt, updateReqs (fun pr => pr_request_id pr =? pw_RequestID (ps_Request sample))
                                (observedClockSet now sample) s));;>
      startClocks now clocks
  end.

Definition observationSet (raw : option ObsText) (r : SpawnRow) : SpawnRow :=
  r <| sp_display_observation := raw |> <| sp_observation_version := sp_observation_version r + 1 |>.

Definition paneObservationSet (raw : option ObsText) (baseline : paneBaseline) (epoch : Z) (r : SpawnRow) : SpawnRow :=
  let '(sha, since, ep) := paneBaselineArgs baseline epoch in
  observationSet raw r <| sp_pane_sha256 := sha |> <| sp_pane_since_ms := since |> <| sp_pane_epoch := ep |>.

Definition observedUpdate (id : string) (f : SpawnRow -> SpawnRow) : Tx Store bool :=
  tstmt (fun s => Ok (update1 id (fun _ r => Some (f r)) s)).

(** ** Families *)

(** The recursive query of observedFamilies: the Spawn and its ancestors. *)
Definition chainIds (m : spawns) (id : string) : gset string :=
  default ∅ (closure m (closureFuel m) [id] {[ id ]}).

Definition observedFamilies (id : string) (settle : SettleRead) (s : Store) : gmap string string :=
  familyExpr settle <$> filter (fun p => fst p ∈ chainIds (db_spawns s) id) (db_spawns s).

Definition displayOf (reported : string) (row : SpawnRow) (obs : option ObsText) : string :=
  dd_State (CommittedDisplay (sp_state row) reported obs).

Definition refreshFamiliesAfterObservation (T : Z) (id reported : string) (row : SpawnRow) (raw : option ObsText)
    (settle : SettleRead) : Tx Store (option (gmap string string)) :=
  if negb (bool_decide (sp_state row = StateWaiting)) then tret None
  else
    let prior := displayOf reported row (sp_display_observation row) in
    let next := displayOf reported row raw in
    if negb (bool_decide (prior = StateNeedsIntelligence))
       && Bool.eqb (bool_decide (prior = StateIdleScreen)) (bool_decide (next = StateIdleScreen))
    then tret None
    else
      tstmt (fun s => Ok (tt, refreshFamilies T s));;>
      families <-- tread (observedFamilies id settle);;
      tret (Some families).

(** ** A COMMIT left unconfirmed *)

(** What the body of a transaction had found when its COMMIT was tried: the
    caller's variables keep it whether or not the COMMIT is confirmed. *)
Definition txFound {A} (body : Tx Store A) (w : World Store Event) : option A :=
  match next_gap (w_gaps w) with
  | (GapOk env, gs) => match body (env (w_store w)) gs with (Ok (a, _), _) => Some a | _ => None end
  | _ => None
  end.

Definition txKeeping {A} (body : Tx Store A) : Op (option A * option error) := fun w =>
  let '(r, w') := txBounded body w in
  (Ok (match r with Ok a => (Some a, None) | Err e => (txFound body w, Some e) end), w').

(** Texts as the reads' COALESCE gives them. *)
Definition sameText (x y : option ObsText) : bool :=
  bool_decide (x = y) || obsEmpty x && obsEmpty y.

Definition observationLanded (id : string) (examined : SpawnRow) (raw : option ObsText)
    (baseline : option paneBaseline) : Op bool :=
  catch (readWithin (fun s => db_spawns s !! id)) (fun r => ret (match r with
  | Ok (Some row) =>
      bool_decide (lifeSnapshot row = lifeSnapshot examined)
      && (sp_permission_epoch row =? sp_permission_epoch examined)
      && (sp_observation_version row =? sp_observation_version examined + 1)
      && sameText (sp_display_observation row) raw
      && match baseline with None => true | Some b => bool_decide (committedPaneBaseline row = b) end
  | _ => false
  end)).

(** ** The observers *)

Record Observed := mkObserved {
  ob_Display : DisplayDetail;
  ob_Families : option (gmap string string);
  ob_Error : option error;
}.

Section Observers.
(** The store's settle time, the reader's own settle read, the Spawn, and the
    row as the reader examined it, with the state it reported. *)
Context (T : Z) (settle : SettleRead) (id : string) (examined : SpawnRow) (reported : string).

Definition previousDisplay : DisplayDetail :=
  CommittedDisplay (sp_state examined) reported (sp_display_observation examined).

Definition planOf (target : DisplayDetail) (extra : bool) (now : Z) : result observationPlan :=
  planObservation id (sp_state examined) reported (sp_display_observation examined) (sp_permission_epoch examined)
    (now / nsPerMs) (sr_SettleMs settle) target extra.

(** The tail both observers share: the plan's outcome, its one transaction,
    and the re-read after a COMMIT left unconfirmed. *)
Definition observeAs (plan : result observationPlan) (baseline : option paneBaseline)
    (body : observationPlan -> Tx Store (option (gmap string string))) : Op Observed :=
  match plan with
  | Err e => ret (mkObserved previousDisplay None (Some e))
  | Ok p =>
      if negb (pl_write p) then ret (mkObserved previousDisplay None None)
      else
        r <- txKeeping (body p);;
        let committed := emits (pl_events p);;; ret (mkObserved (pl_result p) (default None (fst r)) None) in
        match snd r with
        | None => committed
        | Some e =>
            landed <- (if bool_decide (e = ECommitUnconfirmed) then observationLanded id examined (pl_raw p) baseline
                       else ret false);;
            if landed then committed else ret (mkObserved previousDisplay None (Some e))
        end
  end.

Definition needsIntelligenceBody (samples clocks : list PermissionSample) (now : Z) (p : observationPlan)
    : Tx Store (option (gmap string string)) :=
  row <-- lockedObservationRow id examined;;
  current <-- tread (requestRows id);;
  if negb (asSampled samples current) then tfail ESampleChanged
  else
    startClocks now clocks;;>
    observedUpdate id (observationSet (pl_raw p));;>
    refreshFamiliesAfterObservation T id (sp_state row) row (pl_raw p) settle.

Definition ObserveNeedsIntelligence (samples : list PermissionSample) (now : Z) : Op Observed :=
  let clocks := planPermission examined samples now in
  observeAs (planOf zeroDetail (negb (bool_decide (length clocks = 0%nat))) now) None
    (needsIntelligenceBody samples clocks now).

Definition idleScreenBody (baseline : paneBaseline) (p : observationPlan) : Tx Store (option (gmap string string)) :=
  lockedObservationRow id examined;;>
  observedUpdate id (paneObservationSet (pl_raw p) baseline (sp_permission_epoch examined));;>
  refreshFamiliesAfterObservation T id reported examined (pl_raw p) settle.

(** [sample] is the fingerprint, empty for a failed sample; [timeoutMs] the
    row's effective idle_screen timeout. *)
Definition ObserveIdleScreen (sample : string) (now timeoutMs : Z) : Op Observed :=
  let '(baseline, target) := planPane examined sample (now / nsPerMs) timeoutMs in
  observeAs (planOf target (negb (bool_decide (baseline = committedPaneBaseline examined))) now) (Some baseline)
    (idleScreenBody baseline).
End Observers.

(** Every write of an observer is its transaction's. *)
Lemma guarantees_txKeeping {A} (R : Store -> Store -> Prop) (body : Tx Store A) :
  tx_keeps R body -> guarantees R (txKeeping body).
Proof.
  intros H w. destruct (guarantees_txBounded (Ev := Event) R body H w) as (own & E & F). exists own. split; [|done].
  unfold txKeeping. by destruct (txBounded body w) as [r w'].
Qed.

Lemma observeAs_writes (R : Store -> Store -> Prop) id examined reported plan baseline body :
  (forall p, tx_keeps R (body p)) -> guarantees R (observeAs id examined reported plan baseline body).
Proof. intros H. unfold observeAs, observationLanded. cbv zeta. guar. by apply guarantees_txKeeping. Qed.
