(* ===== verification/StoreOps.v ===== *)
(** * Every operation of the store, under any store invariant

    The operations as data ([hookOp] of HookProps.v, [requestOp],
    [lifecycleOp], [reuseOp], [subagentOp], [cursorOp], [observeOp]) and the proof that each commits only
    writes in [R], for every [StoreInv R] and under any interference. *)

From S2P Require Import Prelude Sql Rows Display Settle Family Requests History Steps Gate HookWrites HookProps RelayWrites RequestInv SubagentWrites SubagentInv Lifecycle CursorWrites CursorInv Reuse LifecycleProps ReuseProps StoreInv Observe.

#[export] Hint Resolve soft_ok idleRefresh_ok endReport_ok ended_ok transition_ok waiting_ok set_ok_if : guar.
#[export] Hint Extern 0 (tx_spec _ (closeSubagentsAgentGone _ _)) => apply closeSubagents_inv : keeps.
#[export] Hint Extern 0 (tx_spec _ (evictClosedRequests _)) => apply si_evict : keeps.
#[export] Hint Extern 1 (tx_spec _ (tstmt (fun s => Ok (gatedHookUpdate _ _ _ _ _ _ s)))) =>
  apply gatedStmt_inv; solve [auto with guar] : keeps.

Definition void {A} (m : M Store Event A) : M Store Event unit := m;;; ret tt.

Section Hooks.
Context {R : Store -> Store -> Prop} `{!StoreInv R}.

Lemma parent_same upd id T :
  (forall s r r1, upd s r = Some r1 -> sp_parent_id r1 = sp_parent_id r) ->
  guarantees R (execGuarded T id (update1 id upd)).
Proof. intros H. apply execGuarded_inv. intros s. apply inv_update1. intros r r1 _ E. left. by eapply H. Qed.

Lemma reportWorkingHeld_inv T id g trig : guarantees R (reportWorkingHeld T id g trig).
Proof.
  unfold reportWorkingHeld, readHookGateRow, transition. guar.
  destruct (g_CodexTurnStart g); apply parent_same; intros s r r1; destruct (where3 _); try done;
    intros [= <-]; unfold rowVersionAdvance, idleClear; by rsimp.
Qed.

Lemma applyGatedHookWrite_inv T id g set prior new soft trig path present : set_ok set ->
  guarantees R (applyGatedHookWrite T id g set prior new soft trig path present).
Proof.
  intros Hok. unfold applyGatedHookWrite, hookNotApplied, readHookGateRow, transition. guar. by apply gatedExec_inv.
Qed.

Lemma applyWorkingWrite_inv T id g set prior new trig path present : set_ok set ->
  guarantees R (applyWorkingWrite T id g set prior new trig path present).
Proof.
  intros Hok. unfold applyWorkingWrite, codexToolTurnLate, selectPriorState, transition. cbv zeta. guar.
  - by apply gatedExec_inv.
  - apply applyGatedHookWrite_inv, soft_ok.
  - apply reportWorkingHeld_inv.
Qed.

Lemma endedBody_inv id g path present : tx_keeps R (endedBody id g path present).
Proof.
  unfold endedBody. apply keeps_bind; [ktx|]. intros [prior|]; [|ktx].
  apply keeps_bind; [ktx|]. intros []; simpl; [|ktx]. apply keeps_close. intros. ktx.
Qed.

Lemma writeTransition_inv T id g v sf guarded trig path present :
  guarantees R (writeTransition T id g v sf guarded trig path present).
Proof.
  unfold writeTransition, applyEndedTransition, hookNotApplied, readHookGateRow, selectPriorState, transition.
  cbv zeta. guar.
  - apply inImmediateTx_inv, endedBody_inv.
  - apply applyWorkingWrite_inv, set_ok_if.
  - apply applyGatedHookWrite_inv, set_ok_if.
Qed.

(** An archive that may fail. *)
Lemma keeps_archive id session path life : tx_keeps R (ttry (tstmt (upsertSessionHistoryEntry id session path life))).
Proof.
  intros s gs x s' gs' [([] & _ & H%tstmt_Ok)|(e & _ & ->)]%ttry_Ok; [|done]. by eapply si_history.
Qed.

Lemma sessionStartBody_inv T text id g prior path present :
  tx_keeps R (sessionStartBody T text id g prior path present).
Proof.
  unfold sessionStartBody. apply keeps_bind; [|intros []; simpl; ktx].
  - apply keeps_counted. intros s. apply inv_update1. intros r r1 _. destruct (where3 _); [|done]. intros [= <-].
    left. by apply parent_hookIdentity, sessionStart_fields.
  - apply keeps_archive.
  - apply keeps_pure. intros s. apply inv_core; [apply core_step_refresh|apply tables_eq_spawns].
Qed.

Lemma runHook_inv T text id g op : guarantees R (runHook T text id g op).
Proof.
  destruct op; simpl; (apply guarantees_bind; [|guar]).
  - unfold ApplyHookTransitionResult, holdWorkingTransition, codexToolTurnLate. cbv zeta. guar.
    + apply reportWorkingHeld_inv.
    + apply writeTransition_inv.
  - unfold ApplyHookEndReport, selectPriorState. guar. apply applyGatedHookWrite_inv, endReport_ok.
  - unfold ApplyHookWaitingIfWorking, selectPriorState, transition. cbv zeta. guar.
    + apply gatedExec_inv, waiting_ok.
    + apply gatedExec_inv, waiting_ok.
    + apply applyGatedHookWrite_inv, idleRefresh_ok.
  - unfold RecordSessionStartIdentity, readSessionStartPrior, sessionStartNotApplied, readHookGateRow, transition.
    cbv zeta. guar. apply guarantees_txImmediate, sessionStartBody_inv.
Qed.
End Hooks.

(** ** The relay's, decide's, the pane's and the proofs' writes *)

Inductive requestOp :=
  | RequestOfHook (g : HookGate) (op : hookOp)
  | RequestInsert (g : HookGate) (req : RelayRequest) (cap : Z)
  | RequestUpsert (g : HookGate) (token tool input : string) (cap : Z) (writer : string)
  | RequestAck (token : string) (at_ : goTime) (check : option error)
  | RequestTimeout (token : string) (at_ : goTime) (check : option error)
  | RequestDecide (token decision reason writer : string) (legacyCutoff : Z)
  | RequestRefused (token decision : string) (at_ gone : goTime)
  | RequestHookGone (at_ : goTime) (ids : list Z)
  | RequestFallbacks (at_ : goTime) (os : list FallbackObservation)
  | RequestPaneIntent (token as_ : string) (sender : ProcessIdentity) (check : option PaneCheck)
  | RequestPaneSent (token : string) (intent : PaneIntent)
  | RequestPaneRelease (token : string) (intent : PaneIntent)
  | RequestPaneOutside (token claim : string) (check : option PaneCheck)
  | RequestToolRan (g : HookGate) (use : string) (at_ : goTime) (gone : option (PermissionRow -> bool))
  | RequestProve (g : HookGate) (proof : RequestProof) (now : goTime).

Definition runRequest (T : Z) (text : CodexStartup -> string) (id : string) (op : requestOp)
    : M Store Event unit :=
  match op with
  | RequestOfHook g op => void (runHook T text id g op)
  | RequestInsert g req cap => void (InsertRelayRequest T id g req cap)
  | RequestUpsert g token tool input cap writer => void (UpsertOpenPermissionRequestResult id g token tool input cap writer)
  | RequestAck token at_ check => void (AckRelayDecision id token at_ check)
  | RequestTimeout token at_ check => void (DenyRelayTimeout id token at_ check)
  | RequestDecide token d reason writer cutoff => void (DecideRelayRequest id token d reason writer cutoff)
  | RequestRefused token d at_ gone => RecordRefusedDecision id token d at_ gone
  | RequestHookGone at_ ids => void (RecordHookGone at_ ids)
  | RequestFallbacks at_ os => void (RecordPermissionFallbacks at_ os)
  | RequestPaneIntent token as_ sender check => void (RecordPaneIntent id token as_ sender check)
  | RequestPaneSent token intent => void (RecordPaneSent id token intent)
  | RequestPaneRelease token intent => void (ReleasePaneIntent id token intent)
  | RequestPaneOutside token claim check => void (RecordPaneOutside id token claim check)
  | RequestToolRan g use at_ gone => void (CloseToolRanRequests id g use at_ gone)
  | RequestProve g proof now => void (ProveRequestsGone id g proof now)
  end.

(** What the callers pass: verdicts and pane claims are never the empty text
    (decide's and send-keys' validation), and a Go time read from a clock is
    never the zero time's own millisecond. *)
Definition requestOp_ok (op : requestOp) : Prop :=
  match op with
  | RequestInsert _ req _ => realInstant (rq_SettledAt req)
  | RequestAck _ at_ _ | RequestTimeout _ at_ _ | RequestToolRan _ _ at_ _ => realInstant at_
  | RequestDecide _ d _ _ _ => d <> ""
  | RequestPaneIntent _ as_ _ _ => as_ <> ""
  | RequestProve _ proof now => realInstant (pf_At proof) /\ realInstant now
  | _ => True
  end.

Section Requests.
Context {R : Store -> Store -> Prop} `{!StoreInv R}.

Lemma keeps_checkTx e : tx_keeps R (checkTx e).
Proof. destruct e; [apply keeps_fail|apply keeps_ret]. Qed.

Lemma keeps_runPaneCheck id check : tx_keeps R (runPaneCheck id check).
Proof.
  unfold runPaneCheck. destruct check as [f|]; [|apply keeps_ret].
  apply keeps_bind; [ktx|]. intros [sp|]; [|ktx]. apply keeps_bind; [ktx|]. intros. apply keeps_checkTx.
Qed.

#[local] Hint Extern 0 (tx_spec _ (checkTx _)) => apply keeps_checkTx : keeps.
#[local] Hint Extern 0 (tx_spec _ (runPaneCheck _ _)) => apply keeps_runPaneCheck : keeps.

Lemma keeps_update {X} c f (g : PermReq -> X) :
  (forall r, pr_instance_id (f r) = pr_instance_id r) ->
  (forall r, req_good r -> c r = true -> req_evolves r (f r)) -> tx_keeps R (updFirst c f g).
Proof.
  intros Hi H. unfold updFirst. apply keeps_bind; [|intros; ktx].
  apply keeps_stmt. intros s a s' [= <- <-]. by apply si_update.
Qed.
Lemma keeps_updateNow {X} c f (g : PermReq -> X) :
  (forall sec r, pr_instance_id (f sec r) = pr_instance_id r) ->
  (forall sec r, req_good r -> c r = true -> req_evolves r (f sec r)) -> tx_keeps R (updFirstNow c f g).
Proof. intros Hi H. unfold updFirstNow. apply keeps_bind; [ktx|]. intros. apply keeps_update; auto. Qed.

Lemma insertRelay_inv T id g req cap : realInstant (rq_SettledAt req) ->
  guarantees R (InsertRelayRequest T id g req cap).
Proof.
  intros Hs. unfold InsertRelayRequest, hookNotApplied, readHookGateRow, transition. guar.
  apply guarantees_txBounded. unfold relayBody. ktx.
  - apply keeps_stmt. intros s2 x s'. unfold relayInsert. apply si_insert.
    intros rid r. split_and!; [by apply newRequest_good|done|done|apply newRequest_phase].
  - apply keeps_pure. intros s2. apply inv_core; [apply refreshAfter_core|apply refreshAfter_tables].
Qed.

Lemma upsert_inv id g token tool input cap writer :
  guarantees R (UpsertOpenPermissionRequestResult id g token tool input cap writer).
Proof.
  unfold UpsertOpenPermissionRequestResult, hookNotApplied, readHookGateRow. guar.
  apply guarantees_txImmediate. unfold upsertBody. ktx.
  apply keeps_stmt. intros s x s'. unfold upsertInsert.
  destruct (db_spawns s !! id); [|by intros [= <- <-]].
  destruct (gateHolds _ _ _ _); [|by intros [= <- <-]].
  apply si_insert. intros rid r. split_and!; [by apply newRequest_good|done|done|apply newRequest_phase].
Qed.

Lemma recordHookGoneLoop_inv at_ ids : tx_keeps R (recordHookGoneLoop at_ ids).
Proof.
  induction ids as [|rid ids IH]; simpl; [ktx|].
  apply keeps_bind; [apply keeps_update; auto using hookGone_evolves; intros; by rsimp|].
  intros. apply keeps_bind; [done|]. ktx.
Qed.

Lemma recordFallbacksLoop_inv at_ os : tx_keeps R (recordFallbacksLoop at_ os).
Proof.
  induction os as [|o os IH]; simpl; [ktx|].
  apply keeps_bind; [ktx|]. intros [raw|]; [|done]. cbv zeta.
  apply keeps_bind; [ktx|]. intros [sp|]; [|ktx]. destruct (sp_agent sp); [|ktx].
  destruct (FallbackClock _ _ _ _ _) as [start basis].
  apply keeps_bind; [apply keeps_update; auto using fallback_evolves; intros; unfold fallbackSet; by rsimp|].
  intros. apply keeps_bind; [done|]. ktx.
Qed.

Lemma closeToolRanLoop_inv id use g at_ gone prs : realInstant at_ ->
  guarantees R (closeToolRanLoop id use g at_ gone prs).
Proof.
  intros Hat. induction prs as [|pr prs IH]; simpl; guar.
  unfold closeToolRan. guar. apply guarantees_stmt. intros s a s' [= <- <-].
  apply si_update; [intros; unfold toolRanSet; by rsimp|]. intros _ r Hr Hc. conds Hc. by apply toolRan_evolves.
Qed.

Lemma prove_inv id g proof now : realInstant (pf_At proof) -> realInstant now ->
  guarantees R (ProveRequestsGone id g proof now).
Proof.
  intros H1 H2. unfold ProveRequestsGone. cbv zeta. guar. apply guarantees_stmt. intros s xs s' [= <- <-].
  apply si_update; [intros; unfold proveSet; by rsimp|]. intros _ r Hr Hc.
  rewrite !where3_and, !where3_Some in Hc. apply andb_true_iff in Hc as [Hc _].
  eapply prove_evolves; [|done|exact Hc]. by destruct (pf_At proof).
Qed.

Lemma runRequest_inv T text id op : requestOp_ok op -> guarantees R (runRequest T text id op).
Proof.
  intros Hop. destruct op; simpl in Hop |- *; try (apply guarantees_bind; [|guar]).
  - apply runHook_inv.
  - by apply insertRelay_inv.
  - apply upsert_inv.
  - unfold AckRelayDecision. guar. apply guarantees_txBounded. ktx. apply keeps_update.
    + intros; by rsimp.
    + intros r. by apply ack_evolves.
  - unfold DenyRelayTimeout. guar. apply guarantees_txBounded. ktx. apply keeps_updateNow.
    + intros; unfold denyRelayTimeoutSet; by rsimp.
    + intros sec r. by apply denyTimeout_evolves.
  - unfold DecideRelayRequest. guar. apply guarantees_txBounded. ktx. apply keeps_stmt.
    intros s a s' [= <- <-]. apply si_update; [intros; unfold decideSet; by rsimp|].
    intros _ r Hr Hc. unfold decideRelayCond in Hc. conds Hc. by apply decide_evolves; try congruence.
  - unfold RecordRefusedDecision. apply guarantees_txBounded, keeps_pure. intros s.
    apply si_update; [intros; unfold refusedSet; by rsimp|]. intros. by apply refused_evolves.
  - unfold RecordHookGone. guar. apply guarantees_txBounded, recordHookGoneLoop_inv.
  - apply guarantees_txBounded, recordFallbacksLoop_inv.
  - unfold RecordPaneIntent. cbv zeta. apply guarantees_txBounded. ktx.
    apply keeps_stmt. intros s u s' [= <- <-].
    apply si_update; [intros; unfold paneIntentSet; by rsimp|]. intros. by eapply paneIntent_evolves.
  - unfold RecordPaneSent. guar. apply guarantees_txBounded, keeps_updateNow.
    + intros; unfold paneSentSet; by rsimp.
    + intros sec r. apply paneSent_evolves.
  - unfold ReleasePaneIntent. guar. apply guarantees_txBounded, keeps_update.
    + intros; unfold paneReleaseSet; by rsimp.
    + intros r Hr _. by apply paneRelease_evolves.
  - unfold RecordPaneOutside. guar. apply guarantees_txBounded. ktx. apply keeps_updateNow.
    + intros; unfold paneOutsideSet; by rsimp.
    + intros sec r. apply paneOutside_evolves.
  - unfold CloseToolRanRequests. guar. intros. by apply closeToolRanLoop_inv.
  - destruct Hop. by apply prove_inv.
Qed.
End Requests.

(** ** The lifecycle's writes *)

Inductive lifecycleOp :=
  | LifeInsert (sp : PendingSpawn)
  | LifeRecordLaunch (launchVersion : Z) (token : string) (i : LaunchIdentity)
  | LifeReleaseOwner (token : string)
  | LifeEndHeld (launch endedAt : Z)
  | LifeAdopt (x : RowSnapshot) (i : LaunchIdentity)
  | LifeSetParent (parent : string)
  | LifeSnapshot (x : RowSnapshot) (op : snapshotOp)
  | LifeRestore (movedVersion : Z) (p : ResumePrior)
  | LifeDelete.

Definition runLifecycle (T : Z) (text : Z -> string) (id : string) (op : lifecycleOp) : M Store Event unit :=
  match op with
  | LifeInsert sp => InsertPending T text sp
  | LifeRecordLaunch v token i => void (RecordLaunchIdentity id v token i)
  | LifeReleaseOwner token => void (ReleaseLaunchOwner T id token)
  | LifeEndHeld launch at_ => void (EndHeldLaunch T id launch at_)
  | LifeAdopt x i => void (AdoptIdentityIfUnchanged id x i)
  | LifeSetParent parent => SetParentID T id parent
  | LifeSnapshot x op => void (runSnapshotOp T id x op)
  | LifeRestore v p => void (RestoreAfterFailedResume T id v p)
  | LifeDelete => DeleteSpawn T id
  end.

(** The writes that delete a Spawn's row. *)
Definition deletesRow (op : lifecycleOp) : bool :=
  match op with LifeDelete | LifeSnapshot _ OpDelete => true | _ => false end.

Lemma parent_immediate v now r : sp_parent_id (immediateStateSet v now r) = sp_parent_id r.
Proof. unfold immediateStateSet, immediateSettleSet. cbv zeta. by rsimp. Qed.

Section Lifecycle.
Context {R : Store -> Store -> Prop} `{!StoreInv R}.

(** A conditional UPDATE whose SET has no parent column, or one the
    statement's foreign key checked. *)
Lemma condUpdate_inv id cond set s :
  (forall r, sp_parent_id (set s r) = sp_parent_id r) -> R s (snd (condUpdate id cond set s)).
Proof.
  intros Hp. unfold condUpdate. apply inv_update1. intros r r1 _. destruct (where3 _); [|done].
  intros [= <-]. by left.
Qed.
Lemma condUpdate_checked id cond set p s :
  (forall r, sp_parent_id (set s r) = p) -> (fst (condUpdate id cond set s)) && negb (parentExists s p) = false ->
  R s (snd (condUpdate id cond set s)).
Proof.
  intros Hp Hc. destruct (condUpdate id cond set s) as [n s1] eqn:E. simpl in *. destruct n; simpl in Hc.
  - replace s1 with (snd (condUpdate id cond set s)) by by rewrite E. unfold condUpdate. apply inv_update1.
    intros r r1 _. destruct (where3 _); [|done]. intros [= <-]. right. rewrite Hp. by destruct (parentExists s p).
  - by apply condUpdate_spec in E as ->.
Qed.

Lemma condWrite_inv T id q : (forall s, R s (snd (q s))) -> guarantees R (condWrite T id q).
Proof. intros H. unfold condWrite, condNotApplied. guar. by apply execGuarded_inv. Qed.
Lemma execFamily_inv T id f :
  (forall s n s', f s = Ok (n, s') -> R s s') -> guarantees R (execFamily T id f).
Proof. intros H. unfold execFamily. guar. apply inImmediateTx_inv. ktx. by apply keeps_stmt. Qed.
Lemma condStmt_inv id q : (forall s, R s (snd (q s))) -> guarantees R (condStmt id q).
Proof.
  intros H. unfold condStmt, condNotApplied. guar. apply guarantees_stmt. intros s n s' [= E].
  pose proof (H s) as Hs. by rewrite E in Hs.
Qed.

(** [keeps_parent]: the SET fragment has no parent column. *)
Ltac keeps_parent :=
  apply condUpdate_inv; intros ?; unfold endHeldLaunchSet, restoreSet, launchOwnerClear; set_fields;
  first [ rsimp; by rewrite ?parent_immediate
        | pose proof parent_immediate as Hpar; revert Hpar; cbv zeta; rsimp; intros Hpar; by rewrite ?Hpar ].

Lemma setParent_inv id parent s n s' : setParentStmt id parent s = Ok (n, s') -> R s s'.
Proof.
  unfold setParentStmt. cbv zeta.
  match goal with |- (let '(_, _) := ?c in _) = _ -> _ =>
    assert (fst c && negb (parentExists s (nullableStringArg parent)) = false -> R s (snd c)) as Hr
      by (apply condUpdate_checked; intros r; unfold rowVersionAdvance; by rsimp);
    destruct c as [n1 s1] end.
  simpl in Hr. destruct (n1 && _); intros [= <- <-]. auto.
Qed.

Lemma move_inv id x launch token socket parent owner s n s' :
  moveToPendingStmt id x launch token socket parent owner s = Ok (n, s') -> R s s'.
Proof.
  unfold moveToPendingStmt.
  match goal with |- (let '(_, _) := ?c in _) = _ -> _ =>
    assert (fst c && negb (parentExists s (nullableStringArg parent)) = false -> R s (snd c)) as Hr
      by (apply condUpdate_checked; intros r;
          by destruct (move_columns launch token socket parent owner s r) as (_ & _ & _ & ?));
    destruct c as [n1 s1] end.
  simpl in Hr. destruct (n1 && _); intros [= <- <-]. auto.
Qed.

Lemma terminalMark_inv T id cond v reason :
  guarantees R (terminalMarkIfSameLife T id (condUpdate id cond (terminalSet v)) reason).
Proof.
  unfold terminalMarkIfSameLife, terminalMarkBody. guar. apply inImmediateTx_inv.
  apply keeps_bind; [ktx|]. intros [prior|]; [|ktx].
  apply keeps_bind; [apply keeps_counted; intros; keeps_parent|]. intros []; simpl; [|ktx].
  apply keeps_close. intros. ktx.
Qed.

Lemma snapshotOp_inv T id x op : deletesRow (LifeSnapshot x op) = false -> guarantees R (runSnapshotOp T id x op).
Proof.
  intros Hd. destruct op; simpl; try (apply condWrite_inv; intros; keeps_parent); try done.
  - unfold AdoptIdentityIfSameLife, condNotApplied. guar. apply execGuarded_inv. intros. keeps_parent.
  - unfold RepairCheckPermissionIfSameLife, condNotApplied. guar; apply inImmediateTx_inv, keeps_stmt;
      intros s v s1 H%repairStmt_spec;
      replace s1 with (snd (condUpdate id (repairCond id x) repairSet s)) by (by rewrite H); keeps_parent.
  - guar. apply terminalMark_inv.
  - guar. apply terminalMark_inv.
  - unfold MoveToPending, moveToPendingBody, condNotApplied. guar; apply inImmediateTx_inv;
      (apply keeps_bind; [apply keeps_stmt, move_inv|]; intros []; simpl; [|ktx]; apply keeps_close; intros; ktx).
Qed.

Lemma runLifecycle_inv T text id op : deletesRow op = false -> guarantees R (runLifecycle T text id op).
Proof.
  intros Hd. destruct op; simpl in *; unfold void; try done.
  - unfold InsertPending. guar. apply execFamily_inv. intros s n s'. apply si_pending.
  - guar. apply condStmt_inv. intros. keeps_parent.
  - guar. apply condWrite_inv. intros. keeps_parent.
  - guar. apply condWrite_inv. intros. keeps_parent.
  - guar. apply condStmt_inv. intros. keeps_parent.
  - unfold SetParentID. guar. apply execFamily_inv. intros s n s'. apply setParent_inv.
  - guar. by apply snapshotOp_inv.
  - unfold RestoreAfterFailedResume. guar. apply condWrite_inv. intros. keeps_parent.
Qed.
End Lifecycle.

(** ** Reuse *)

Inductive reuseOp :=
  | ReuseReset (examined : RowSnapshot) (agent : string) (fresh : PendingSpawn) (startedAt : Z)
  | ReuseRestore (resetVersion : Z) (prior : RawLife) (failedAt : Z).

Definition runReuse (T : Z) (text : Z -> string) (id : string) (op : reuseOp) : M Store Event unit :=
  match op with
  | ReuseReset x agent fresh startedAt => void (ResetForReuse T text id x agent fresh startedAt)
  | ReuseRestore v prior failedAt => void (RestoreAfterFailedReuse T id v prior failedAt)
  end.

(** The operation that deletes a finished Spawn's requests. *)
Definition resetsRow (op : reuseOp) : bool := match op with ReuseReset _ _ _ _ => true | _ => false end.

Section Reuse.
Context {R : Store -> Store -> Prop} `{!StoreInv R}.

Lemma restoreReuse_inv T id v prior failedAt : guarantees R (RestoreAfterFailedReuse T id v prior failedAt).
Proof.
  unfold RestoreAfterFailedReuse. guar. apply condWrite_inv. intros st. unfold condUpdate. apply inv_update1.
  intros r r1 _. destruct (where3 _); [|done]. intros [= <-]. right. unfold restoreReuseSet. set_fields. rsimp.
  destruct (sp_parent_id _) as [p|]; [|done]. case_bool_decide as Hp; [|done]. simpl. by apply bool_decide_eq_true.
Qed.

Lemma resetStmt_inv text id x agent fresh startedAt s n s' :
  resetStmt text id x agent fresh startedAt s = Ok (n, s') -> R s s'.
Proof.
  unfold resetStmt.
  match goal with |- (let '(_, _) := ?c in _) = _ -> _ =>
    assert (fst c && negb (parentExists s (nullableStringArg (ps_ParentID fresh))) = false -> R s (snd c)) as Hr;
    [|destruct c as [n1 s1]] end.
  - apply condUpdate_checked. intros r. pose proof (resetSet_columns text fresh startedAt s r) as E.
    unfold freshLife, freshColumns in E. congruence.
  - simpl in Hr. destruct (n1 && _); intros [= <- <-]. auto.
Qed.

(** A reset, where the deleted requests keep [R] too. *)
Lemma reset_inv T text id x agent fresh startedAt :
  (forall s, R s (deleteRequests id s)) -> guarantees R (ResetForReuse T text id x agent fresh startedAt).
Proof.
  intros Hdel. unfold ResetForReuse. guar. apply inImmediateTx_inv. unfold resetBody, resetRead.
  apply keeps_bind; [ktx|]. intros [[[[session path] life] matches]|]; [|ktx]. destruct (negb matches); [ktx|].
  apply keeps_bind; [destruct (bool_decide _); [ktx|apply keeps_archive]|].
  intros [u|e]; [|ktx]. apply keeps_bind; [apply keeps_stmt; intros s n s'; apply resetStmt_inv|].
  intros []; simpl; [|ktx]. apply keeps_bind; [by apply keeps_pure|]. intros. ktx.
Qed.
End Reuse.

(** ** The subagents' writes *)

Inductive subagentOp :=
  | SubagentLifecycle (g : HookGate) (ev : SubagentLifecycleEvent) (trig path : string) (present : bool)
  | SubagentAfter (g : HookGate) (w : SubagentAfterWrite).

Definition runSubagent (T : Z) (id : string) (op : subagentOp) : M Store Event unit :=
  match op with
  | SubagentLifecycle g ev trig path present => void (ApplySubagentLifecycle T id g ev trig path present)
  | SubagentAfter g w => ApplySubagentAfterWrite T id g w
  end.

Section Subagents.
Context {R : Store -> Store -> Prop} `{!StoreInv R}.

Lemma keeps_sub {A} (m : Tx Store A) : tx_keeps sub_step m -> tx_keeps R m.
Proof. intros H s gs a s' gs' E. apply si_sub. by eapply H. Qed.

Lemma lifecycle_ok_set : set_ok lifecycleSet.
Proof. unfold lifecycleSet. split; intros s r; [|apply launch_kept]; unfold hookIdentity; rsimp; done. Qed.

Lemma runSubagent_inv T id op : guarantees R (runSubagent T id op).
Proof.
  destruct op as [g ev trig path present|g w]; simpl; unfold void.
  - unfold ApplySubagentLifecycle, hookNotApplied, readHookGateRow. cbv zeta. guar.
    apply inImmediateTx_inv. unfold lifecycleBody. apply keeps_bind; [ktx|]. intros [prior|]; [|ktx].
    apply keeps_bind; [apply gatedStmt_inv, lifecycle_ok_set|]. intros []; simpl; [|ktx].
    destruct (bool_decide _); [ktx|]. apply keeps_bind; [apply keeps_sub, newSubagentTx_step|]. intros t.
    apply keeps_bind; [|ktx]. apply keeps_sub. destruct (bool_decide _); [apply start_step|apply stop_step].
  - unfold ApplySubagentAfterWrite. guar. apply inImmediateTx_inv, keeps_sub, afterWriteBody_step.
Qed.
End Subagents.

(** ** The Cursor gateway's writes *)

Inductive cursorOp :=
  | CursorRegister (row : SpawnRow) (b : CursorRuntime)
  | CursorSession (b : CursorRuntime) (sid : string)
  | CursorGone (b : CursorRuntime)
  | CursorBind (row : SpawnRow) (b : CursorRuntime) (path : string) (current1 late current2 : bool)
  | CursorInsert (b : CursorRuntime) (req : RelayRequest) (cap : Z) (until : option Z) (check : CursorCheck) (now : nat -> Z)
  | CursorAck (b : CursorRuntime) (token : string) (timeout : bool) (until allowUntil : option Z) (check : CursorCheck)
      (now : nat -> Z)
  | CursorClaim (b : CursorRuntime) (token decision : string) (until : option Z) (check : CursorCheck) (now : nat -> Z)
  | CursorProve (b : CursorRuntime) (token tool : string) (ran turnOpen : bool) (check : CursorCheck) (now : nat -> Z)
  | CursorTurnEnded (b : CursorRuntime) (tokens : list string) (until : option Z) (check : CursorCheck) (now : nat -> Z)
  | CursorRotate (examined : SpawnRow) (g : HookGate) (next path : string) (until : option Z) (check : CursorCheck)
      (now : nat -> Z)
  | CursorMissing (row : SpawnRow) (b : CursorRuntime)
  | CursorFailed (row : SpawnRow) (b : CursorRuntime).

Definition runCursor (T : Z) (id : string) (op : cursorOp) : M Store Event unit :=
  match op with
  | CursorRegister row b => void (RegisterCursorRuntime id row b)
  | CursorSession b sid => void (SetCursorRuntimeSession b sid)
  | CursorGone b => void (MarkCursorRuntimeGone b)
  | CursorBind row b path current1 late current2 => void (BindLoadedCursorSession id row b path current1 late current2)
  | CursorInsert b req cap until check now => InsertCursorRequest T b req cap until check now
  | CursorAck b token timeout until allowUntil check now => void (AckCursorDecision b token timeout until allowUntil check now)
  | CursorClaim b token decision until check now => void (ClaimCursorPaneAnswer b token decision until check now)
  | CursorProve b token tool ran turnOpen check now => proveCursorTool T b token tool ran turnOpen check now
  | CursorTurnEnded b tokens until check now => ProveCursorTurnEnded b tokens until check now
  | CursorRotate examined g next path until check now => void (RotateCursorSession T examined g next path until check now)
  | CursorMissing row b => void (MarkCursorMissingIfSameLaunch T id row b)
  | CursorFailed row b => void (MarkFailedCursorRuntimeMissing T id row b)
  end.

(** What the gateway passes: a claim is allow or deny. *)
Definition cursorOp_ok (op : cursorOp) : Prop :=
  match op with
  | CursorInsert _ req _ _ _ _ => realInstant (rq_SettledAt req)
  | CursorClaim _ _ decision _ _ _ => decision <> ""
  | _ => True
  end.

Section Cursor.
Context {R : Store -> Store -> Prop} `{!StoreInv R}.

Lemma keeps_authority b until check path now : tx_keeps R (cursorAuthorityForPrompt b until check path now).
Proof.
  unfold cursorAuthorityForPrompt. apply keeps_bind; [ktx|]. intros [r|]; [|ktx].
  destruct (negb _); [ktx|]. apply keeps_bind; [ktx|]. intros n. destruct (negb _); [ktx|].
  destruct check as [f|]; [|ktx]. destruct (f r); [ktx|]. destruct (_ && _); ktx.
Qed.
#[local] Hint Extern 0 (tx_spec _ (cursorAuthority _ _ _ _)) => apply keeps_authority : keeps.

Lemma updRuntimes_inv c f s : R s (snd (updRuntimes c f s)).
Proof. apply si_runtimes. Qed.

Lemma parent_hookWrite v T now r : sp_parent_id (hookWriteStateSet v T now r) = sp_parent_id r.
Proof. apply parent_hookIdentity, hookWrite_fields. Qed.

Lemma cursorMove_parent T v s r : sp_parent_id (cursorMoveSet T v s r) = sp_parent_id r.
Proof.
  unfold cursorMoveSet, transitionSet, rowVersionAdvance, livenessClear, launchStartClear, idleClear. cbv zeta.
  destruct (bool_decide _); rsimp; apply parent_hookWrite.
Qed.

Lemma insertCursor_inv T b req cap until check now : realInstant (rq_SettledAt req) ->
  guarantees R (InsertCursorRequest T b req cap until check now).
Proof.
  intros Hs. unfold InsertCursorRequest. guar. apply guarantees_txBounded. unfold insertCursorBody. ktx.
  - apply keeps_counted. intros s. apply condUpdate_inv. intros r. apply cursorMove_parent.
  - apply keeps_stmt. intros s x s'. unfold cursorRequestInsert.
    destruct (insertRequest _ _ _ s) as [[n s1]|] eqn:E; [|done]. intros [= -> ->].
    revert E. apply si_insert. intros rid r. split_and!; [by apply newRequest_good|done|done|apply newRequest_phase].
  - apply keeps_pure. intros s. apply inv_core; [apply refreshAfter_core|apply refreshAfter_tables].
Qed.
Lemma rotate_inv T examined g next path until check now : guarantees R (RotateCursorSession T examined g next path until check now).
Proof.
  unfold RotateCursorSession. destruct (g_Cursor g) as [b|]; [|guar]. destruct (_ || _); [guar|]. guar.
  apply guarantees_txBounded. unfold rotateBody. cbv zeta.
  apply keeps_bind; [apply keeps_authority|]. intros row. destruct (negb _); [ktx|].
  apply keeps_bind; [ktx|]. intros []; [ktx|]. apply keeps_bind; [ktx|]. intros held.
  apply keeps_bind; [|intros []; simpl; [|ktx]].
  - apply keeps_counted. intros s. apply condUpdate_inv. intros r.
    unfold rotationSet, rowVersionAdvance, livenessClear, launchStartClear, idleClear. rsimp. apply parent_hookWrite.
  - apply keeps_bind; [apply keeps_stmt; intros s [] s'; apply si_history|]. intros _.
    apply keeps_bind; [apply keeps_stmt; intros s n s' [= <- <-]; apply (updRuntimes_inv _ _ s)|]. intros m.
    destruct (negb _); [ktx|]. destruct (negb _); [ktx|].
    apply keeps_bind; [|intros; ktx].
    apply keeps_pure. intros s. apply inv_core; [apply refreshAfter_core|apply refreshAfter_tables].
Qed.

Lemma withoutWait_inv T id cond reason :
  guarantees R (terminalMarkWithoutWait T id (condUpdate id cond (terminalSet StateMissing)) reason).
Proof.
  unfold terminalMarkWithoutWait. guar. apply guarantees_txBounded. unfold markWithoutWaitBody.
  apply keeps_bind; [ktx|]. intros [prior|]; [|ktx].
  apply keeps_bind; [apply keeps_counted; intros s; apply condUpdate_inv; intros r|].
  - unfold terminalSet, rowVersionAdvance, livenessClear, launchStartClear. rsimp. by rewrite parent_immediate.
  - intros []; simpl; [|ktx]. apply keeps_close. intros at_ cl. ktx.
    + intros s gs ex s' gs' H. apply takeDisplayExits_spec in H as (H1 & H2 & _). by apply inv_core.
    + apply keeps_pure. intros s. apply inv_core; [apply refreshAfter_core|apply refreshAfter_tables].
Qed.

Lemma proveTool_inv T b token tool ran turnOpen check now :
  guarantees R (proveCursorTool T b token tool ran turnOpen check now).
Proof.
  unfold proveCursorTool. cbv zeta. guar. apply guarantees_txBounded. unfold proveToolBody. cbv zeta.
  apply keeps_bind; [apply keeps_authority|]. intros row.
  apply keeps_bind; [apply keeps_updateNow|].
  - intros sec r. pose proof (proveToolSet_proof ran (now 1%nat) sec r) as (_ & _ & _ & E).
    unfold reqIdentity in E. congruence.
  - intros sec r. apply proveTool_evolves.
  - intros [[[[rid name] decision] reason]|]; [|ktx]. destruct (_ || _); [ktx|].
    apply keeps_bind; [apply keeps_counted; intros s; apply condUpdate_inv; intros r; apply cursorMove_parent|].
    intros []; simpl; [|ktx]. ktx.
    apply keeps_pure. intros s. apply inv_core; [apply refreshAfter_core|apply refreshAfter_tables].
Qed.

Lemma ackCursor_inv b token timeout until allowUntil check now :
  guarantees R (AckCursorDecision b token timeout until allowUntil check now).
Proof.
  unfold AckCursorDecision. guar. apply guarantees_txBounded. unfold ackCursorBody. cbv zeta.
  apply keeps_bind; [apply keeps_authority|]. intros row. apply keeps_bind; [ktx|]. intros [raw|]; [|ktx].
  destruct (negb _); [ktx|]. destruct (_ && _); [ktx|].
  apply keeps_bind; [destruct (_ || _); [|ktx]; apply keeps_updateNow|].
  - intros; unfold denyRelayTimeoutSet; by rsimp.
  - intros sec r. by apply denyTimeout_evolves.
  - intros [x|]; [ktx|]. apply keeps_bind; [|intros; ktx]. apply keeps_update; [intros; by rsimp|].
    intros r. by apply ack_evolves.
Qed.

Lemma runCursor_inv T id op : cursorOp_ok op -> guarantees R (runCursor T id op).
Proof.
  intros Hop. destruct op; simpl in Hop |- *;
    try match goal with |- context [void] => unfold void; apply guarantees_bind; [|guar] end.
  - unfold RegisterCursorRuntime. cbv zeta. destruct (_ || _); [guar|]. apply guarantees_stmt. intros s n s' [= E].
    unfold registerStmt in E. cbv zeta in E.
    destruct (db_spawns s !! cr_InstanceID b) as [r|]; [|by injection E as <- <-].
    destruct (where3 (registerCond _ _ _)); [|by injection E as <- <-].
    destruct (db_runtimes s !! cr_InstanceID b); [destruct (where3 _); [|by injection E as <- <-]|]; injection E as <- <-;
      apply si_runtimes.
  - unfold SetCursorRuntimeSession. apply guarantees_stmt. intros s n s' [= <- <-]. apply si_runtimes.
  - unfold MarkCursorRuntimeGone. apply guarantees_stmt. intros s n s' [= <- <-]. apply si_runtimes.
  - unfold BindLoadedCursorSession. cbv zeta. destruct (_ || _); [guar|]. apply guarantees_txBounded.
    destruct (_ || _); [ktx|]. apply keeps_bind; [apply keeps_stmt; intros s n s' [= <- <-]; apply si_runtimes|].
    intros n. destruct (negb _); ktx.
  - by apply insertCursor_inv.
  - apply ackCursor_inv.
  - unfold ClaimCursorPaneAnswer. cbv zeta. guar. apply guarantees_txBounded.
    apply keeps_bind; [apply keeps_authority|]. intros row. apply keeps_updateNow.
    + intros; unfold claimPaneSet; by rsimp.
    + intros sec r. by apply claimPane_evolves.
  - apply proveTool_inv.
  - unfold ProveCursorTurnEnded. destruct (bool_decide _); [guar|]. apply guarantees_txBounded.
    apply keeps_bind; [apply keeps_authority|]. intros row. apply keeps_pure. intros s.
    apply si_update; [intros; unfold proveSet; by rsimp|]. intros _ r Hr Hc. by eapply turnEnded_evolves.
  - apply rotate_inv.
  - unfold MarkCursorMissingIfSameLaunch. destruct (cursorMissingGuard _ _ _); [apply withoutWait_inv|guar].
  - unfold MarkFailedCursorRuntimeMissing. cbv zeta. destruct (_ || _); [guar|].
    destruct (cursorMissingGuard _ _ _); [apply withoutWait_inv|guar].
Qed.
End Cursor.

(** ** The end of a Codex turn, the heal of a transcript path *)

Lemma endTurn_inv {R} `{!StoreInv R} T t : guarantees R (EndCodexTurn T t).
Proof.
  unfold EndCodexTurn, transition. guar. apply guarantees_txBounded. unfold endCodexTurnBody. ktx.
  - apply keeps_counted. intros s. apply inv_update1. intros r r1 _. destruct (where3 _); [|done]. intros [= <-].
    left. apply parent_hookIdentity. rewrite <- (proj1 (hookWrite_fields StateWaiting T (db_now s) r)).
    generalize (hookWriteStateSet StateWaiting T (db_now s) r). intros q. unfold rowVersionAdvance, hookIdentity. by rsimp.
  - apply keeps_pure. intros s. apply inv_core; [apply core_step_refresh|apply tables_eq_spawns].
  - intros s gs ex s' gs' H. apply takeDisplayExits_spec in H as (H1 & H2 & _). by apply inv_core.
Qed.

Lemma heal_inv {R} `{!StoreInv R} id session path : guarantees R (HealJsonlPath id session path).
Proof.
  unfold HealJsonlPath. guar. apply guarantees_stmt. intros s n s' [= E].
  replace s' with (snd (update1 id (fun _ => healRow session path) s)) by by rewrite E.
  apply inv_update1. intros r r1 _. unfold healRow. destruct (where3 _); [|done]. intros [= <-]. left. by rsimp.
Qed.

(** ** The observers' writes *)

Inductive observeOp :=
  | ObserveRequests (examined : SpawnRow) (reported : string) (samples : list PermissionSample) (now : Z)
  | ObservePane (examined : SpawnRow) (reported sample : string) (now timeoutMs : Z).

Definition runObserve (T : Z) (settle : SettleRead) (id : string) (op : observeOp) : M Store Event unit :=
  match op with
  | ObserveRequests examined reported samples now =>
      void (ObserveNeedsIntelligence T settle id examined reported samples now)
  | ObservePane examined reported sample now timeoutMs =>
      void (ObserveIdleScreen T settle id examined reported sample now timeoutMs)
  end.

Section Observers.
Context {R : Store -> Store -> Prop} `{!StoreInv R}.

Lemma observedClock_evolves now sample r : req_good r -> req_evolves r (observedClockSet now sample r).
Proof.
  intros Hg. apply evolves_notes; unfold reqIdentity, verdict, awaitColumns, observedClockSet; rsimp; try done; try apply Hg.
  apply coalesce2_kept.
Qed.

Lemma startClocks_inv now clocks : tx_keeps R (startClocks now clocks).
Proof.
  induction clocks as [|sample clocks IH]; simpl; [ktx|]. apply keeps_bind; [|done].
  apply keeps_pure. intros s. apply si_update; [intros; unfold observedClockSet; by rsimp|].
  intros _ r Hr _. by apply observedClock_evolves.
Qed.

Lemma observedUpdate_inv id f : (forall r, sp_parent_id (f r) = sp_parent_id r) -> tx_keeps R (observedUpdate id f).
Proof. intros Hf. apply keeps_counted. intros s. apply inv_update1. intros r r1 _ [= <-]. left. apply Hf. Qed.

Lemma locked_inv id examined : tx_keeps R (lockedObservationRow id examined).
Proof. unfold lockedObservationRow. ktx. Qed.

Lemma familiesAfter_inv T id reported row raw settle :
  tx_keeps R (refreshFamiliesAfterObservation T id reported row raw settle).
Proof.
  unfold refreshFamiliesAfterObservation. cbv zeta. ktx.
  apply keeps_pure. intros s. apply inv_core; [apply core_step_refresh|apply tables_eq_spawns].
Qed.

Lemma runObserve_inv T settle id op : guarantees R (runObserve T settle id op).
Proof.
  destruct op; simpl; unfold void; apply guarantees_bind; try solve [guar].
  - apply observeAs_writes. intros p. unfold needsIntelligenceBody.
    apply keeps_bind; [apply locked_inv|]. intros row. apply keeps_bind; [ktx|]. intros current.
    destruct (negb _); [ktx|]. apply keeps_bind; [apply startClocks_inv|]. intros _.
    apply keeps_bind; [|intros; apply familiesAfter_inv]. apply observedUpdate_inv. intros r. unfold observationSet. by rsimp.
  - unfold ObserveIdleScreen. destruct (planPane _ _ _ _) as [baseline target].
    apply observeAs_writes. intros p. unfold idleScreenBody.
    apply keeps_bind; [apply locked_inv|]. intros _.
    apply keeps_bind; [|intros; apply familiesAfter_inv]. apply observedUpdate_inv. intros r.
    unfold paneObservationSet, observationSet. destruct (paneBaselineArgs _ _) as [[sha since] ep]. by rsimp.
Qed.
End Observers.
