(* ===== verification/HandlerInv.v ===== *)
(** * The hook under any store invariant

    One hook process from its standard input to its standard output
    ([Handle]) is composed of the store's operations, so it commits only
    writes every [StoreInv] admits ([handle_inv]). *)

From S2P Require Import Prelude Sql Text Rows ContextSource Display Requests Settle Family History Steps Gate HookWrites HookProps SubagentWrites SubagentInv RelayWrites Protocol HookEnv Payload Classify SubagentHook RelayHook ClassifyProps RequestInv RelayProps RelayLive RelayHookProps Lifecycle Capacity CursorWrites Handler CursorInv Reuse LifecycleProps ReuseProps StoreInv References StoreOps.

(** ** Writes *)

Lemma guarantees_void {A} R (m : M Store Event A) : guarantees R (void m) -> guarantees R m.
Proof.
  intros H w. destruct (H w) as (own & E & F). exists own. split; [|done]. revert E. unfold void, bind, ret.
  by destruct (m w) as [[a|e] w1].
Qed.
Lemma guarantees_snd {A B} R (f : A -> B) (m : M Store Event A) :
  guarantees R (x <- m;; ret (f x)) -> guarantees R m.
Proof.
  intros H w. destruct (H w) as (own & E & F). exists own. split; [|done]. revert E. unfold bind, ret.
  by destruct (m w) as [[a|e] w1].
Qed.

Section Writes.
Context {R : Store -> Store -> Prop} `{!StoreInv R}.
Context (T : Z) (text : CodexStartup -> string).

Lemma transition_inv id g v soft trig path present : guarantees R (ApplyHookTransitionResult T id g v soft trig path present).
Proof. exact (guarantees_snd _ _ _ (runHook_inv T text id g (HookTransition v soft trig path present))). Qed.
Lemma endReport_inv id g trig path present : guarantees R (ApplyHookEndReport T id g trig path present).
Proof. exact (guarantees_snd _ _ _ (runHook_inv T text id g (HookEndReport trig path present))). Qed.
Lemma waiting_inv id g trig path present : guarantees R (ApplyHookWaitingIfWorking T id g trig path present).
Proof. exact (guarantees_snd _ _ _ (runHook_inv T text id g (HookIdle trig path present))). Qed.
Lemma sessionStart_inv id g path present : guarantees R (RecordSessionStartIdentity T text id g path present).
Proof. exact (guarantees_snd _ _ _ (runHook_inv T text id g (HookSessionStart path present))). Qed.

Lemma request_inv id op : requestOp_ok op -> guarantees R (runRequest T text id op).
Proof. apply runRequest_inv. Qed.
Lemma insertRelay'_inv id g req cap : realInstant (rq_SettledAt req) -> guarantees R (InsertRelayRequest T id g req cap).
Proof. exact (fun H => guarantees_void _ _ (request_inv id (RequestInsert g req cap) H)). Qed.
Lemma ack'_inv id token at_ check : realInstant at_ -> guarantees R (AckRelayDecision id token at_ check).
Proof. exact (fun H => guarantees_void _ _ (request_inv id (RequestAck token at_ check) H)). Qed.
Lemma timeout'_inv id token at_ check : realInstant at_ -> guarantees R (DenyRelayTimeout id token at_ check).
Proof. exact (fun H => guarantees_void _ _ (request_inv id (RequestTimeout token at_ check) H)). Qed.
Lemma toolRan'_inv id g use at_ gone : realInstant at_ -> guarantees R (CloseToolRanRequests id g use at_ gone).
Proof. exact (fun H => guarantees_void _ _ (request_inv id (RequestToolRan g use at_ gone) H)). Qed.
Lemma prove'_inv id g proof now : realInstant (pf_At proof) -> realInstant now -> guarantees R (ProveRequestsGone id g proof now).
Proof. exact (fun H H' => guarantees_void _ _ (request_inv id (RequestProve g proof now) (conj H H'))). Qed.

Lemma lifecycle_inv id g ev trig path present : guarantees R (ApplySubagentLifecycle T id g ev trig path present).
Proof. exact (guarantees_void _ _ (runSubagent_inv T id (SubagentLifecycle g ev trig path present))). Qed.
Lemma after_inv id g w : guarantees R (ApplySubagentAfterWrite T id g w).
Proof. exact (runSubagent_inv T id (SubagentAfter g w)). Qed.

Lemma emitIgnored_inv env h : guarantees R (emitIgnored env h).
Proof. unfold emitIgnored, GetSpawn, emitPaneIsGrandparent. guar. Qed.

Lemma getSpawn_inv id : guarantees R (GetSpawn id).
Proof. unfold GetSpawn. guar. Qed.

#[local] Hint Resolve transition_inv endReport_inv waiting_inv sessionStart_inv insertRelay'_inv ack'_inv timeout'_inv
  toolRan'_inv prove'_inv lifecycle_inv after_inv emitIgnored_inv getSpawn_inv heal_inv rotate_inv : guar.
#[local] Hint Extern 1 (realInstant _) => apply instant_real : guar.

Lemma poll_inv fuel turn deadline id token i fails created : guarantees R (Poll fuel turn deadline id token i fails created).
Proof.
  revert i fails created. induction fuel as [|fuel IH]; intros; simpl; [guar|]. unfold GetPermissionRequest. guar.
Qed.

Lemma relay_inv rawText env cfg re fuel inp event sessionID :
  guarantees R (runRelay T rawText env cfg re fuel inp event sessionID).
Proof.
  assert (forall id token parent w, guarantees R (deliver re id token parent w)) by (intros; unfold deliver; guar).
  unfold runRelay, onIgnored, afterPoll, timeoutDeny. pose proof poll_inv. cbv zeta. guar.
Qed.

(** Only the capacity column changes. *)
Lemma recordCapacity_inv ctext id g snapshot p : guarantees R (RecordClaudeCapacity ctext id g snapshot p).
Proof.
  unfold RecordClaudeCapacity. guar. apply guarantees_stmt. intros s n s' [= E].
  replace s' with (snd (condUpdate id (capacityCond id g snapshot p)
    (fun _ r => r <| sp_claude_capacity := Some (ctext p) |>) s)) by by rewrite E.
  apply condUpdate_inv. intros r. by rsimp.
Qed.
#[local] Hint Resolve recordCapacity_inv : guar.

Section Handler.
Context (rawText : json -> string) (capacityText : ClaudeCapacity -> string) (capacityParse : string -> option ClaudeCapacity)
  (parse : string -> rawPayload) (parseCallback : string -> option Callback)
  (transcript : string -> option (list (option claudeRecord))).

Lemma capacityHook_inv getenv agent source cb parent at_ :
  guarantees R (handleClaudeCapacity capacityText capacityParse transcript getenv agent source cb parent at_).
Proof.
  unfold handleClaudeCapacity. generalize "" at 1. generalize 8%nat. intros n. induction n as [|n IH]; intros launch; simpl; [guar|].
  unfold recordClaudeCapacity, writeClaudeCapacity, ListSubagentRecords. cbv zeta. guar.
Qed.
#[local] Hint Resolve capacityHook_inv relay_inv : guar.

Lemma writeStart_inv n id g path present : guarantees R (writeSessionStart T text n id g path present).
Proof. revert g. induction n as [|n IH]; intros; simpl; guar. Qed.
Lemma waitReads_inv n hc id examined bound capEnd i : guarantees R (waitReads n hc id examined bound capEnd i).
Proof. revert i. induction n as [|n IH]; intros; simpl; cbv zeta; guar. Qed.
#[local] Hint Resolve writeStart_inv waitReads_inv : guar.

Lemma rotation_inv hc relayActive event id g res path claim b :
  guarantees R (cursorRotation T hc relayActive event id g res path claim b).
Proof. unfold cursorRotation. guar. Qed.
#[local] Hint Resolve rotation_inv : guar.
Lemma admitCursor_inv hc relayActive event id parent g res path raw :
  guarantees R (admitCursor T hc relayActive event id parent g res path raw).
Proof. unfold admitCursor, ReadCursorRuntime. cbv zeta. guar. Qed.
#[local] Hint Resolve admitCursor_inv : guar.

Lemma runAfter_inv hc id g res raw : guarantees R (runSubagentAfterWrite T hc id g res raw).
Proof. unfold runSubagentAfterWrite, logged, SubagentTurnEndHasWork. cbv zeta. guar. Qed.
Lemma proveGone_inv hc id g res : guarantees R (proveRequestsGone hc id g res).
Proof.
  unfold proveRequestsGone, logged. destruct (proofOf hc res) as [proof|] eqn:E; guar.
  apply prove'_inv; [|apply instant_real]. revert E. unfold proofOf.
  destruct (ToolRan res); [|destruct (TurnEnded res); [|done]]; intros [= <-]; apply instant_real.
Qed.
Lemma applyHook_inv hc id g res raw path present : guarantees R (applyHook T hc id g res raw path present).
Proof. unfold applyHook, applySubagentLifecycle, applyOrdinaryHook. guar. Qed.
#[local] Hint Resolve runAfter_inv proveGone_inv applyHook_inv : guar.

Lemma writeRun_inv hc relayActive event id parent g res raw path run :
  guarantees R (writeRun T text hc relayActive event id parent g res raw path run).
Proof.
  unfold writeRun, sessionStartRun, recordSessionStart, waitForLaunchIdentity, ordinaryRun, outcomeOf, closeToolRanOf,
    afterHook, healCodexTranscript, logged. cbv zeta. guar.
Qed.
#[local] Hint Resolve writeRun_inv : guar.

Lemma classified_inv fuel hc relayActive event id parent raw res run :
  guarantees R (handleClassified T text rawText fuel hc relayActive event id parent raw res run).
Proof.
  unfold handleClassified. cbv zeta. guar.
Qed.

(** A hook process commits only writes every store invariant admits. *)
Lemma handle_inv fuel hc stdin :
  guarantees R (Handle T text rawText capacityText capacityParse parse parseCallback transcript fuel hc stdin).
Proof.
  pose proof classified_inv. unfold Handle, handleRun, logged. cbv zeta. guar.
Qed.
End Handler.
End Writes.
