(* ===== verification/VerbInv.v ===== *)
(** * The verbs under any store invariant

    find-missing and kill write through the guarded lifecycle writes; decide,
    send-keys and record-pane-answer check what a caller gives them before they
    write, so the writes they make are ones every [StoreInv]
    admits: the conditions [requestOp_ok] puts on a caller are discharged
    here from the verbs' own validation. *)

From S2P Require Import Prelude Sql Text Bytes Rows Display Requests Settle Family History Steps Programs Gate HookWrites HookProps SubagentWrites RelayWrites Protocol HookEnv Payload Classify RelayHook RequestInv RelayProps Lifecycle LifecycleProps CursorWrites Process Handler StoreInv StoreOps HandlerInv Delivery Guard PaneAnswer PaneProps Decide DecideProps Tmux Sweep FindMissing StartingSession Kill.

Lemma guarantees_silent {A} R (m : M Store Event A) : silent m -> guarantees R m.
Proof. intros H. by apply guarantees_no_own. Qed.

Section Verbs.
Context {R : Store -> Store -> Prop} `{!StoreInv R}.
(* The settle time and the startup text no request write reads. *)
Let noText : CodexStartup -> string := fun _ => "".

Lemma requestVoid_inv {A} id op (m : Op A) : runRequest 0 noText id op = void m -> requestOp_ok op -> guarantees R m.
Proof. intros E H. apply guarantees_void. rewrite <-E. by apply runRequest_inv. Qed.

Lemma decideWrite_inv id token d reason writer cutoff : d <> "" -> guarantees R (DecideRelayRequest id token d reason writer cutoff).
Proof. exact (requestVoid_inv id (RequestDecide token d reason writer cutoff) _ eq_refl). Qed.
Lemma refusedWrite_inv id token d at_ gone : guarantees R (RecordRefusedDecision id token d at_ gone).
Proof. exact (runRequest_inv 0 noText id (RequestRefused token d at_ gone) I). Qed.
Lemma goneWrite_inv at_ ids : guarantees R (RecordHookGone at_ ids).
Proof. exact (requestVoid_inv "" (RequestHookGone at_ ids) _ eq_refl I). Qed.
Lemma intentWrite_inv id token as_ sender check : as_ <> "" -> guarantees R (RecordPaneIntent id token as_ sender check).
Proof. exact (requestVoid_inv id (RequestPaneIntent token as_ sender check) _ eq_refl). Qed.
Lemma sentWrite_inv id token intent : guarantees R (RecordPaneSent id token intent).
Proof. exact (requestVoid_inv id (RequestPaneSent token intent) _ eq_refl I). Qed.
Lemma releaseWrite_inv id token intent : guarantees R (ReleasePaneIntent id token intent).
Proof. exact (requestVoid_inv id (RequestPaneRelease token intent) _ eq_refl I). Qed.
Lemma outsideWrite_inv id token claim check : guarantees R (RecordPaneOutside id token claim check).
Proof. exact (requestVoid_inv id (RequestPaneOutside token claim check) _ eq_refl I). Qed.
Hint Resolve refusedWrite_inv goneWrite_inv sentWrite_inv releaseWrite_inv outsideWrite_inv : guar.
Lemma silent_readRequest p : silent (readRequest p).
Proof. apply silent_requestBy. Qed.
Lemma silent_within p : silent (GetPermissionRequestWithin p).
Proof. apply silent_requestBy. Qed.
Hint Resolve silent_readRequest silent_within silent_GetSpawn silent_byToken silent_requestBy silent_getSpawn silent_all silent_notWritten silent_finished
  silent_details silent_awaitAck : silent.
Hint Extern 2 (guarantees _ _) => (apply guarantees_silent; auto with silent; fail) : guar.

Lemma gone_inv r : guarantees R (recordFallenBackGone r).
Proof. unfold recordFallenBackGone. guar. Qed.
Hint Resolve gone_inv : guar.
Lemma judged_inv v c k m sp : silent m -> guarantees R (judgedRequests v c k m sp).
Proof. intros H. by apply guarantees_silent, silent_judgedRequests. Qed.
Hint Extern 1 (guarantees _ (judgedRequests _ _ _ _ _)) => (apply judged_inv; auto with silent) : guar.

(** ** decide *)

Lemma decide_inv env p fuel : guarantees R (decideWithin env p fuel).
Proof.
  unfold decideWithin, refused. destruct (bool_decide (dp_RequestToken p = "")); [guar|].
  destruct (_ && _) eqn:Ed; [guar|].
  assert (dp_Decision p <> "") as Hd by (intros E; by rewrite E in Ed). clear Ed.
  destruct (_ <? 0); [guar|]. apply guarantees_catch; [auto with guar|]. intros [row|e]; [|guar].
  destruct (negb _); [guar|]. destruct (finishedState _); [guar|].
  unfold decideRequest, refused. apply guarantees_catch; [unfold readOneJudged; guar|].
  intros [[pr verdict]|e]; [|guar]. destruct (settledRow pr); [guar|].
  destruct (PreV7 pr).
  - unfold decidePreV7. cbv zeta. apply guarantees_catch; [by apply decideWrite_inv|]. intros [[]|e]; [guar| |guar].
    apply guarantees_bind; [|guar]. unfold refusePreV7. cbv zeta. apply guarantees_catch; [guar|].
    assert (forall now r, guarantees R (namePreV7 env p now r)) as Hn.
    { intros now r. unfold namePreV7, fallenBackRefusal. guar. }
    intros [pr'|e]; [|apply Hn]. destruct (_ && _); [|apply Hn]. destruct (_ && _); [guar|].
    apply guarantees_catch; [guar|]. intros r. apply Hn.
  - destruct (bool_decide _); [unfold refuseFallenBack; guar|].
    apply guarantees_catch; [by apply decideWrite_inv|]. intros [[]|e]; guar.
Qed.

(** ** send-keys *)

Lemma release_inv env id token intent : guarantees R (releaseIntent env id token intent).
Proof.
  assert (forall end_ n i, guarantees R (releaseLoop env end_ id token intent n i)) as H; [|apply H].
  intros end_ n. induction n as [|n IH]; intros i; simpl; guar.
Qed.
Hint Resolve release_inv : guar.

Lemma relayGuard_inv v c k hold row id token hashed : guarantees R (relayGuard v c k hold row id token hashed).
Proof. unfold relayGuard. guar. Qed.
Hint Resolve relayGuard_inv : guar.

Lemma plan_as p plan : planSendKeys p = Some plan -> pp_answer plan = true -> sk_As p <> "".
Proof.
  unfold planSendKeys. cbv zeta. destruct (_ || _); [done|]. destruct (optionalField _ _) as [hash|]; [|done].
  destruct (optionalField _ _) as [key|]; [|done]. destruct (negb (bool_decide (sk_RequestToken p = ""))) eqn:Et.
  - destruct (negb (bool_decide (sk_As p = paneAsAllow)) && _) eqn:Ea; [done|]. intros _ _ E. by rewrite E in Ea.
  - repeat case_match; by intros [= <-].
Qed.

Lemma sendKeys_inv env tmux p : guarantees R (sendKeys env tmux p).
Proof.
  unfold sendKeys, notSent. destruct (planSendKeys p) as [plan|] eqn:Ep; [|guar].
  apply guarantees_catch; [guar|]. intros [row|e]; [|guar]. destruct (sendKeysStateGuard _ _); [guar|].
  apply guarantees_bind; [guar|].
  assert (guarantees R (send env tmux row plan p)) as Hs; [|intros []; guar; done].
  unfold send, notSent. destruct (tm_Target tmux row); [guar|]. destruct (pp_answer plan) eqn:Ea; [|guar].
  destruct (pp_key plan) as [key|]; [|guar]. unfold paneAnswer, notSent. cbv zeta.
  apply guarantees_catch; [apply intentWrite_inv; by eapply plan_as|guar].
Qed.

(** ** find-missing *)

Lemma snapshotRet_inv {A} T id x op (m : Op A) (f : A -> CondResult) :
  runSnapshotOp T id x op = (a <- m;; ret (f a)) -> deletesRow (LifeSnapshot x op) = false -> guarantees R m.
Proof.
  intros E Hd. apply (guarantees_snd R f). rewrite <- E. by apply snapshotOp_inv.
Qed.

Lemma markSameLife_inv id listed st reason extra m : guarantees R m -> guarantees R (markSameLife id listed st reason extra m).
Proof. intros. unfold markSameLife. guar. Qed.
Lemma noteSameLife_inv listed tick m : guarantees R tick -> guarantees R m -> guarantees R (noteSameLife listed tick m).
Proof. intros. unfold noteSameLife. guar. Qed.
Lemma markMissing_inv T id x reason extra : guarantees R (markMissingSameLife T id x reason extra).
Proof. apply markSameLife_inv. by apply (snapshotRet_inv T id x OpMarkMissing _ snd). Qed.
Lemma markEnded_inv T id x reason extra : guarantees R (markEndedSameLife T id x reason extra).
Proof. apply markSameLife_inv. by apply (snapshotRet_inv T id x OpMarkEnded _ snd). Qed.
Lemma tick_inv id a b : guarantees R (emitNoteTick id a b).
Proof. unfold emitNoteTick. guar. Qed.
Hint Resolve markMissing_inv markEnded_inv tick_inv : guar.
Lemma unreported_inv T id x note : guarantees R (writeUnreportedNote T id x note).
Proof. unfold writeUnreportedNote. guar. apply noteSameLife_inv; [guar|by apply (snapshotOp_inv T id x OpNoteUnreported)]. Qed.
Lemma livenessNote_inv T id x old note : guarantees R (writeLivenessNote T id x old note).
Proof. unfold writeLivenessNote. guar. apply noteSameLife_inv; [guar|by apply (snapshotOp_inv T id x (OpSetNote note))]. Qed.
Lemma clearNote_inv T id x old : guarantees R (clearLivenessNote T id x old).
Proof. unfold clearLivenessNote. guar. apply noteSameLife_inv; [guar|by apply (snapshotOp_inv T id x OpClearNote)]. Qed.
Hint Resolve unreported_inv livenessNote_inv clearNote_inv heal_inv : guar.
Lemma adoptWrite_inv T id x i : guarantees R (AdoptIdentityIfSameLife T id x i).
Proof. by apply (snapshotRet_inv T id x (OpAdopt i) _ fst). Qed.
Lemma repairWrite_inv T id x : guarantees R (RepairCheckPermissionIfSameLife T id x).
Proof. by apply (snapshotRet_inv T id x OpRepair _ snd). Qed.
Hint Resolve adoptWrite_inv repairWrite_inv : guar.

Lemma judgeLiveRow_inv T env it run : guarantees R (judgeLiveRow T env it run).
Proof.
  unfold judgeLiveRow, lookupRow, oursRow, adoptInSweep, adoptedPaneRow, lookupMarkRow, emitRowNameHeld, aliveRow, goneRow,
    markRow, noteRow, unreportedRow, clearRow, withWrite. cbv zeta. guar.
Qed.
Hint Resolve judgeLiveRow_inv : guar.

Lemma findMissing_inv T env v : guarantees R (ClientFindMissing T env v).
Proof.
  assert (forall its run, guarantees R (judgeRows T env its run)) as Hj.
  { induction its as [|it its IH]; intros run; simpl; [guar|]. unfold emitDisagree. guar. }
  assert (forall pts, guarantees R (healAll env pts)) as Hh by (induction pts; simpl; guar).
  assert (forall its k, guarantees R (repairRows T v k its)) as Hr.
  { induction its as [|it its IH]; intros k; simpl; [guar|]. guar. }
  unfold ClientFindMissing, FindMissing, judgeLiveRows, healProvisionalTranscripts, RepairCheckPermission. guar; auto.
Qed.

(** ** kill *)

Lemma adoptUnchanged_inv id x i : guarantees R (AdoptIdentityIfUnchanged id x i).
Proof. apply guarantees_void. by apply (runLifecycle_inv 0 (fun _ => "") id (LifeAdopt x i)). Qed.
Hint Resolve adoptUnchanged_inv : guar.

Lemma kill_inv env fuel id optIn : guarantees R (runKill env fuel id optIn).
Proof. unfold runKill, GetSpawn, killRun, killOurs, killAdopt. cbv zeta. guar. Qed.

(** ** record-pane-answer *)

Lemma record_inv view hold tmux p : guarantees R (RecordPaneAnswer view hold tmux p).
Proof. unfold RecordPaneAnswer, stored, unlessRefused, refuse. guar. Qed.
End Verbs.
