(* ===== verification/CursorProps.v ===== *)
(** * Properties of the Cursor gateway's writes

    Every write of the gateway is made under its launch's authority and stays
    within its Spawn; a rotation publishes the next session, archives the old
    one and rebinds the connection in one write, or nothing; an ack hands over
    a verdict only within its deadlines. *)

From S2P Require Import Prelude Sql Text Rows Display Settle Family Requests History Steps Gate HookWrites HookProps RelayWrites RequestInv RelayProps Lifecycle CursorWrites CursorInv LifecycleProps ReuseProps StoreInv StoreOps.

(** ** Authority *)

(** What [cursorAuthority] found under the write lock: the Spawn's row is of
    the binding's live launch, the connection is registered, and the evidence
    of the kernel and the pane has no objection. *)
Definition authorized (b : CursorRuntime) (check : CursorCheck) (path : string) (s : Store) (r : SpawnRow) : Prop :=
  db_spawns s !! cr_InstanceID b = Some r /\ launchAuthority b path r = true /\
  countRuntimes (connectionCond b) s = 1%nat /\ exists evidence, check = Some evidence /\ evidence r = None.

Lemma authority_spec b until check path now :
  tx_spec (fun s r s' => s' = s /\ authorized b check path s r /\ (is_Some until -> Before now until = true))
    (cursorAuthorityForPrompt b until check path now).
Proof.
  intros s gs r s' gs' H. unfold cursorAuthorityForPrompt in H.
  apply tbind_Ok in H as (row & s1 & gs1 & [= <- <-]%tstmt_Ok & H).
  destruct (db_spawns s !! cr_InstanceID b) as [q|] eqn:Eq; [|done].
  destruct (launchAuthority b path q) eqn:Ea; [|done]. simpl in H.
  apply tbind_Ok in H as (n & s2 & gs2 & [= <- <-]%tstmt_Ok & H).
  destruct (countRuntimes _ s =? 1)%nat eqn:En; [|done]. simpl in H.
  destruct check as [f|]; [|done]. destruct (f q) eqn:Ef; [done|].
  destruct (bool_decide (is_Some until) && negb (Before now until)) eqn:Eu; [done|]. injection H as <- <- <-.
  split; [done|]. split.
  - split_and!; [done..|by apply Nat.eqb_eq|eauto].
  - intros Hu. rewrite bool_decide_true in Eu by done. by apply negb_false_iff in Eu.
Qed.

(** The authorized launch, spelled out. *)
Lemma launchAuthority_row b r : launchAuthority b "" r = true ->
  cr_SessionID b <> "" /\ cr_Terminated b = false /\ sp_agent r = Some AgentCursor /\
  li_Token (lifeIdentity r) = cr_Token b /\ sp_life_number r = cr_Life b /\
  li_PanePID (lifeIdentity r) = cr_GatewayPID b /\ li_PaneStarttime (lifeIdentity r) = cr_GatewayStart b /\
  sp_session_id r = Some (cr_SessionID b) /\
  sp_state r <> StateEnded /\ sp_state r <> StateMissing /\ sp_state r <> StatePending.
Proof.
  unfold launchAuthority. rewrite negb_true_iff, !orb_false_iff, !negb_false_iff.
  intros ((((((((((H1 & H2) & H3) & H4) & H5) & H6) & H7) & H8) & H9) & H10) & H11). bsimp.
  apply Z.eqb_eq in H5. apply Z.eqb_eq in H6. split_and!; try done.
  - destruct (sp_agent r); simpl in *; [congruence|done].
  - destruct (sp_session_id r); simpl in *; congruence.
  - intros E. rewrite E, bool_decide_true in H11 by done. done.
Qed.

(** ** Staying within a Spawn *)

(** Between the stores, other Spawns' rows change only in their stored family
    aggregate and drained exit marker, no history entry and no binding of
    theirs is written, and no subagent or launch at all. *)
Record apart (id : string) (s s' : Store) : Prop := {
  wi_rows : rows_step (fun _ j r r' => j = id \/ same_core r r') s s';
  wi_history : forall h, hi_instance_id h <> id -> h ∈ db_history s' <-> h ∈ db_history s;
  wi_runtimes : forall j cr, cr_InstanceID cr <> id -> db_runtimes s' !! j = Some cr <-> db_runtimes s !! j = Some cr;
  wi_subagents : db_subagents s' = db_subagents s /\ db_launches s' = db_launches s;
}.

(** And their requests are the same ones, in the same order. *)
Definition requestsOfOthers (id : string) (s : Store) : list PermReq :=
  filter (fun pr => pr_instance_id pr <> id) (db_requests s).
Definition within (id : string) (s s' : Store) : Prop := apart id s s' /\ requestsOfOthers id s' = requestsOfOthers id s.

(** The requests' ids, as the table's key keeps them. *)
Definition distinctRequests (s : Store) : Prop :=
  Forall (fun pr => pr_request_id pr < db_next_request s) (db_requests s) /\ NoDup (pr_request_id <$> db_requests s).

(** An insert also evicts: another Spawn's request is kept as it is, or gone,
    and then it was closed (it awaits no answer, and its dialog is proven gone
    or its Spawn finished) and is not its Spawn's newest while one awaits. *)
Definition withinEvicting (id : string) (s s' : Store) : Prop :=
  apart id s s' /\
  (forall pr, pr_instance_id pr <> id -> pr ∈ db_requests s' -> pr ∈ db_requests s) /\
  (distinctRequests s -> forall pr, pr ∈ db_requests s -> pr_instance_id pr <> id -> pr ∉ db_requests s' ->
     where3 (awaitingAnswerSQL pr) = false /\
     (is_Some (pr_proven_gone_at pr) \/ spawnFinished s (pr_instance_id pr) = true) /\
     exemptFromEviction s pr = false).

#[export] Instance apart_preorder id : PreOrder (apart id).
Proof.
  split.
  - intros s. split; try done. intros j. destruct (db_spawns s !! j); [by right|done].
  - intros s s1 s2 [R1 H1 T1 [A1 B1]] [R2 H2 T2 [A2 B2]]. split.
    + intros j. specialize (R1 j). specialize (R2 j).
      destruct (db_spawns s !! j), (db_spawns s1 !! j), (db_spawns s2 !! j); try done.
      destruct R1 as [|R1]; [by left|]. destruct R2 as [|R2]; [by left|]. right. by etrans.
    + intros h Hh. rewrite H2 by done. auto.
    + intros j cr Hcr. rewrite T2 by done. auto.
    + split; congruence.
Qed.
#[export] Instance within_preorder id : PreOrder (within id).
Proof.
  split; [by intros s|]. intros s s1 s2 [A1 E1] [A2 E2]. split; [by etrans|congruence].
Qed.

(** A step that leaves the rows alone, or writes one Spawn's row. *)
Lemma apart_rows id s s' : db_spawns s' = db_spawns s -> rows_step (fun _ j r r' => j = id \/ same_core r r') s s'.
Proof. intros E j. rewrite E. destruct (db_spawns s !! j); [by right|done]. Qed.
Lemma within_tables id s s' : rows_step (fun _ j r r' => j = id \/ same_core r r') s s' -> tables_eq s s' -> within id s s'.
Proof.
  intros Hr (E1 & _ & E2 & E3 & E4 & E5 & _). unfold within, requestsOfOthers. rewrite E1. split; [|done].
  split; rewrite ?E2, ?E5; try done.
Qed.
Lemma within_core id s s' : core_step s s' -> tables_eq s s' -> within id s s'.
Proof.
  intros Hc. apply within_tables. intros j. specialize (Hc j).
  destruct (db_spawns s !! j), (db_spawns s' !! j); try done. by right.
Qed.
Lemma within_update id cond set s : within id s (snd (condUpdate id cond set s)).
Proof.
  apply within_tables; [|apply update1_tables]. apply update1_step; [by right|by left].
Qed.
Lemma within_requests id c f s :
  (forall r, c r = true -> pr_instance_id r = id) -> (forall r, pr_instance_id (f r) = pr_instance_id r) ->
  within id s (updateReqs c f s).
Proof.
  intros Hc Hf. unfold updateReqs, within, requestsOfOthers. split; [split; rsimp; try done; by apply apart_rows|]. rsimp.
  induction (db_requests s) as [|r l IH]; [done|]. rewrite fmap_cons. destruct (c r) eqn:E.
  - pose proof (Hc r E) as Hid. rewrite !filter_cons_False by (rewrite ?Hf, Hid; auto). exact IH.
  - destruct (decide (pr_instance_id r = id)); [by rewrite !filter_cons_False by auto|].
    rewrite !filter_cons_True by done. by rewrite IH.
Qed.
Lemma within_insert mk id token s x s' : (forall rid r, pr_instance_id (mk rid r) = id) ->
  insertRequest mk id token s = Ok (x, s') -> within id s s'.
Proof.
  intros Hmk. unfold insertRequest. destruct (db_spawns s !! id) as [r|] eqn:Er; [|by intros [= <- <-]].
  destruct (existsb _ _); [done|]. intros [= <- <-]. unfold within, requestsOfOthers.
  split; [split; rsimp; try done; by apply apart_rows|]. rsimp.
  rewrite filter_app, filter_cons_False, filter_nil, app_nil_r; [done|]. rewrite Hmk. auto.
Qed.

Lemma within_archive id session path life s s' :
  upsertSessionHistoryEntry id session path life s = Ok (tt, s') -> within id s s'.
Proof.
  unfold upsertSessionHistoryEntry. case_bool_decide; [|done]. intros [= <-].
  split; [|unfold requestsOfOthers; by rsimp]. split; rsimp; try done.
  - by apply apart_rows.
  - intros h Hh. unfold upsertHistory. case_bool_decide.
    + rewrite list_elem_of_fmap. split.
      * intros (e & -> & He). revert Hh. unfold historyKey. case_bool_decide as Ek; [|done].
        intros Hh. destruct Hh. by injection Ek.
      * intros Hin. exists h. split; [|done]. rewrite bool_decide_false; [done|]. unfold historyKey. congruence.
    + rewrite elem_of_app, list_elem_of_singleton. split; [|by left]. intros [|E]; [done|].
      destruct Hh. by rewrite E.
Qed.
Lemma within_runtimes b c f s :
  (forall cr, where3 (c cr) = true -> cr_InstanceID cr = cr_InstanceID b) ->
  (forall cr, cr_InstanceID (f cr) = cr_InstanceID cr) ->
  within (cr_InstanceID b) s (snd (updRuntimes c f s)).
Proof.
  intros Hc Hf. unfold updRuntimes. split; [|unfold requestsOfOthers; simpl; by rsimp]. split; simpl; rsimp; try done.
  - by apply apart_rows.
  - intros j cr Hne. rewrite lookup_fmap. destruct (db_runtimes s !! j) as [q|]; simpl; [|done].
    destruct (where3 (c q)) eqn:E; [|done]. pose proof (Hc q E) as Eq. split; intros [= <-].
    + destruct Hne. by rewrite Hf.
    + by destruct Hne.
Qed.

(** A body that runs under the authority, and stays in [R]. *)
Definition confined (b : CursorRuntime) (check : CursorCheck) (R : Store -> Store -> Prop) (s s' : Store) : Prop :=
  (exists r, authorized b check "" s r) /\ R s s'.

Lemma under_authority {A} b until check now R (k : SpawnRow -> Tx Store A) :
  (forall row, tx_keeps R (k row)) ->
  tx_keeps (confined b check R) (row <-- cursorAuthority b until check now;; k row).
Proof.
  intros Hk s gs a s' gs' (row & s1 & gs1 & H1%authority_spec & H2)%tbind_Ok. destruct H1 as (-> & Ha & _).
  split; [by eexists|]. by eapply Hk.
Qed.

Lemma keeps_updFirst {X} {R : Store -> Store -> Prop} `{!PreOrder R} c f (g : PermReq -> X) :
  (forall s, R s (updateReqs c f s)) -> tx_keeps R (updFirst c f g).
Proof.
  intros H. unfold updFirst. apply keeps_bind; [|intros; ktx]. apply keeps_stmt. by intros s a s' [= <- <-].
Qed.
Lemma keeps_updFirstNow {X} {R : Store -> Store -> Prop} `{!PreOrder R} c f (g : PermReq -> X) :
  (forall s sec, R s (updateReqs c (f sec) s)) -> tx_keeps R (updFirstNow c f g).
Proof. intros H. unfold updFirstNow. apply keeps_bind; [ktx|]. intros sec. by apply keeps_updFirst. Qed.

Lemma within_refresh id T prior new s : within id s (refreshFamiliesAfterStateChange T prior new [] s).
Proof. apply within_core; [apply refreshAfter_core|apply refreshAfter_tables]. Qed.

Lemma ofToken_instance id token r : where3 (ofToken id token r) = true -> pr_instance_id r = id.
Proof. unfold ofToken. rewrite where3_and, where3_ofSpawn. intros [H _]%andb_true_iff. by bsimp. Qed.

(** A request the UPDATE's WHERE names by its token. *)
Ltac of_token H :=
  match type of H with where3 (_ AND _) = true => rewrite where3_and in H; apply andb_true_iff in H as [H _] end;
  first [exact (ofToken_instance _ _ _ H)|of_token H].

(** The eviction judges another Spawn's request as the insert's start would. *)
Lemma others_elem id s s1 : requestsOfOthers id s1 = requestsOfOthers id s ->
  forall pr, pr_instance_id pr <> id -> pr ∈ db_requests s1 <-> pr ∈ db_requests s.
Proof.
  intros E pr Hne. assert (forall x : Store, pr ∈ requestsOfOthers id x <-> pr ∈ db_requests x) as H
    by (intros x; unfold requestsOfOthers; rewrite list_elem_of_filter; tauto).
  by rewrite <-!H, E.
Qed.
Lemma ofSpawn_others id j s : j <> id ->
  filter (fun r => pr_instance_id r = j) (db_requests s) = filter (fun r => pr_instance_id r = j) (requestsOfOthers id s).
Proof.
  intros Hj. unfold requestsOfOthers. induction (db_requests s) as [|r l IH]; [done|].
  destruct (decide (pr_instance_id r = j)) as [E|E], (decide (pr_instance_id r <> id)) as [F|F];
    rewrite ?(filter_cons_True _ r l F), ?(filter_cons_False _ r l F), ?(filter_cons_True _ r _ E), ?(filter_cons_False _ r _ E);
    [by rewrite IH|by destruct F; congruence|done|done].
Qed.
Lemma awaitsSome_filter s j :
  awaitsSome s j = existsb (fun r => where3 (awaitingAnswerSQL r)) (filter (fun r => pr_instance_id r = j) (db_requests s)).
Proof.
  unfold awaitsSome. induction (db_requests s) as [|r l IH]; [done|]. simpl. rewrite IH. case_bool_decide as E.
  - by rewrite filter_cons_True.
  - by rewrite filter_cons_False.
Qed.
Lemma evictable_within id s s1 pr : within id s s1 -> pr_instance_id pr <> id -> evictable s1 pr = evictable s pr.
Proof.
  intros [Ha E] Hne. unfold evictable, exemptFromEviction, newestOf. rewrite !awaitsSome_filter, !(ofSpawn_others id) by done. rewrite E.
  assert (spawnFinished s1 (pr_instance_id pr) = spawnFinished s (pr_instance_id pr)) as ->; [|done].
  unfold spawnFinished. pose proof (wi_rows _ _ _ Ha (pr_instance_id pr)) as H.
  destruct (db_spawns s !! pr_instance_id pr), (db_spawns s1 !! pr_instance_id pr); try done.
  destruct H as [|H]; [done|]. core_eq H sp_state. unfold finishedStateGuardSQL. congruence.
Qed.

Lemma distinct_insert mk id token s x s' : (forall rid r, pr_request_id (mk rid r) = rid) ->
  insertRequest mk id token s = Ok (x, s') -> distinctRequests s -> distinctRequests s'.
Proof.
  intros Hmk. unfold insertRequest. destruct (db_spawns s !! id) as [r|]; [|by intros [= <- <-]].
  destruct (existsb _ _); [done|]. intros [= <- <-] [H1 H2]. unfold distinctRequests. rsimp. split.
  - apply Forall_app. split; [eapply Forall_impl; [exact H1|]; simpl; lia|]. constructor; [rewrite Hmk; lia|done].
  - rewrite fmap_app. apply NoDup_app. split_and!; [done| |apply NoDup_singleton].
    intros i (q & -> & Hq)%list_elem_of_fmap Hi. apply list_elem_of_singleton in Hi. rewrite Hmk in Hi.
    rewrite Forall_forall in H1. specialize (H1 q Hq). lia.
Qed.

Lemma evicting_step id cap s s1 s2 s' gs u gs' : within id s s1 -> (distinctRequests s -> distinctRequests s1) ->
  evictClosedRequests cap s1 gs = (Ok (u, s2), gs') -> within id s2 s' -> withinEvicting id s s'.
Proof.
  intros H1 Hd He H2. assert (H1' := H1). destruct H1 as [A1 E1], H2 as [A2 E2].
  assert (apart id s1 s2 /\ (forall pr, pr ∈ db_requests s2 -> pr ∈ db_requests s1) /\
    forall pr, distinctRequests s1 -> pr ∈ db_requests s1 -> pr ∉ db_requests s2 -> evictable s1 pr = true) as (A & Hin & Hev).
  { apply evictClosedRequests_spec in He as ->. destruct (_ && _); [|done].
    split_and!; [split; rsimp; try done; by apply apart_rows|rsimp; by intros pr [_ ?]%list_elem_of_filter|]. rsimp.
    intros pr [_ Hnd] Hpr Hout.
    assert (pr_request_id pr ∈ evictedIds s1 (Z.to_nat (Z.of_nat (length (db_requests s1)) - cap))) as (q & Hq & Hid & Hev)%evicted_evictable.
    { match goal with |- ?P => destruct (decide P); [done|] end. destruct Hout. by apply list_elem_of_filter. }
    by assert (q = pr) as -> by by eapply NoDup_fmap_eq. }
  split_and!; [by etrans; [exact A1|]; etrans|..].
  - intros pr Hne Hpr. rewrite <-(others_elem _ _ _ E1) by done. apply Hin. by rewrite <-(others_elem _ _ _ E2).
  - intros Hds pr Hpr Hne Hout. apply evictable_spec. rewrite <-(evictable_within id s s1) by done. apply Hev; [auto|..].
    + by rewrite (others_elem _ _ _ E1).
    + by rewrite <-(others_elem _ _ _ E2).
Qed.

Lemma insertCursor_confined T b req cap until check now :
  tx_keeps (confined b check (withinEvicting (cr_InstanceID b))) (insertCursorBody T b req cap until check now).
Proof.
  unfold insertCursorBody. apply under_authority. intros row s gs a s' gs'.
  intros (n & s1 & gs1 & [= Eu]%tstmt_Ok & H)%tbind_Ok. apply tbind_Ok in H as (rid & s2 & gs2 & Hi%tstmt_Ok & H).
  apply tbind_Ok in H as (u & s3 & gs3 & He & H). apply tbind_Ok in H as ([] & s4 & gs4 & [= Er]%tstmt_Ok & [= _ <- _]).
  assert (s1 = snd (condUpdate (cr_InstanceID b) noCond (cursorMoveSet T StateCheckPermission) s)) as -> by by rewrite Eu.
  set (s1 := snd _) in *. unfold cursorRequestInsert in Hi.
  destruct (insertRequest _ _ _ s1) as [[x s2']|] eqn:Ei; [|done]. injection Hi as -> ->.
  eapply evicting_step; [| |exact He|rewrite <-Er; apply within_refresh].
  - etrans; [apply within_update|]. by eapply within_insert; [|exact Ei].
  - intros [D1 D2]. eapply distinct_insert; [|exact Ei|]; [done|].
    destruct (update1_tables (cr_InstanceID b) (fun s r => if where3 (noCond s r) then Some (cursorMoveSet T StateCheckPermission s r) else None) s)
      as (F1 & F2 & _). unfold distinctRequests. unfold s1, condUpdate. by rewrite F1, F2.
Qed.

Lemma ackCursor_confined b token timeout until allowUntil check now :
  tx_keeps (confined b check (within (cr_InstanceID b))) (ackCursorBody b token timeout until allowUntil check now).
Proof.
  unfold ackCursorBody. cbv zeta. apply under_authority. intros row. apply keeps_bind; [ktx|].
  intros [raw|]; [|ktx]. destruct (negb _); [ktx|]. destruct (_ && _); [ktx|].
  apply keeps_bind; [destruct (_ || _); [|ktx]; apply keeps_updFirstNow; intros s sec; apply within_requests|].
  - intros r H. unfold denyRelayTimeoutCond in H. of_token H.
  - intros r. unfold denyRelayTimeoutSet. by rsimp.
  - intros [x|]; [ktx|]. apply keeps_bind; [|intros; ktx]. apply keeps_updFirst. intros s. apply within_requests.
    + intros r H. unfold ackRelayDecisionCond in H. of_token H.
    + intros r. by rsimp.
Qed.

Lemma proveTool_confined T b token tool ran turnOpen check now :
  tx_keeps (confined b check (within (cr_InstanceID b))) (proveToolBody T b token tool ran turnOpen check now).
Proof.
  unfold proveToolBody. cbv zeta. apply under_authority. intros row.
  apply keeps_bind; [apply keeps_updFirstNow; intros s sec; apply within_requests|].
  - intros r H. unfold proveToolCond in H. of_token H.
  - intros r. pose proof (proveToolSet_proof ran (now 1%nat) sec r) as (_ & _ & _ & E). unfold reqIdentity in E. congruence.
  - intros [[[[rid name] decision] reason]|]; [|ktx]. destruct (_ || _); [ktx|].
    apply keeps_bind; [apply keeps_counted; intros s; apply within_update|]. intros []; simpl; [|ktx]. ktx.
    apply keeps_pure. intros s. apply within_refresh.
Qed.

Lemma rotate_confined T examined g b next path until check now :
  tx_keeps (confined b check (within (cr_InstanceID b))) (rotateBody T examined g b next path until check now).
Proof.
  unfold rotateBody. cbv zeta. apply under_authority. intros row. destruct (negb _); [ktx|].
  apply keeps_bind; [ktx|]. intros []; [ktx|]. apply keeps_bind; [ktx|]. intros held.
  apply keeps_bind; [apply keeps_counted; intros s; apply within_update|]. intros []; simpl; [|ktx].
  apply keeps_bind; [apply keeps_stmt; intros s [] s'; apply within_archive|]. intros _.
  apply keeps_bind; [apply keeps_stmt; intros s n s' [= <- <-]|].
  - apply (within_runtimes b _ _ s).
    + intros cr H. unfold connectionCond in H. rewrite where3_and in H. apply andb_true_iff in H as [H _].
      unfold cursorBindingMatchSQL in H. rewrite where3_and in H. apply andb_true_iff in H as [H _]. rewrite where3_sql_eq in H. by bsimp; injection H.
    + intros cr. unfold bindSession. by rsimp.
  - intros m. destruct (negb _); [ktx|]. destruct (negb _); [ktx|]. apply keeps_bind; [|intros; ktx].
    apply keeps_pure. intros s. apply within_refresh.
Qed.

(** ** Rotation *)

(** What an unfailing rotation did: [s0] is the store before the refresh of
    the families. *)
Definition rotateDone (T : Z) (examined : SpawnRow) (g : HookGate) (b : CursorRuntime) (next path : string)
    (check : CursorCheck) (s : Store) (x : string * string) (s' : Store) : Prop :=
  let id := cr_InstanceID b in
  exists r state s0,
    authorized b check "" s r /\ rotationUnchanged examined r g b path = true /\ gateHolds s g id r = true /\
    state = (if requestHoldsRow s id then StateCheckPermission else StateWaiting) /\ x = (sp_state r, state) /\
    ((id, next) ∉ historyKey <$> db_history s) /\
    s0 = (s <| db_spawns := <[id := rotationSet T state next path s r]> (db_spawns s) |>
           <| db_history := upsertHistory (id, cr_SessionID b) (nullif_empty path) (cr_Life b) (nowSec s) (db_history s) |>
           <| db_runtimes := (fun cr => if where3 (connectionCond b cr) then bindSession next cr else cr) <$> db_runtimes s |>) /\
    core_step s0 s' /\ tables_eq s0 s'.

Lemma rotate_spec T examined g b next path until check now :
  tx_spec (rotateDone T examined g b next path check) (rotateBody T examined g b next path until check now).
Proof.
  intros s gs x s' gs'. unfold rotateBody. cbv zeta.
  intros (r & s1 & gs1 & (-> & Ha & _)%authority_spec & H)%tbind_Ok.
  destruct (rotationUnchanged examined r g b path) eqn:Eu; [|done]. simpl in H.
  apply tbind_Ok in H as (used & s1 & gs1' & [= <- <-]%tstmt_Ok & H). case_bool_decide as Ef; [done|].
  apply tbind_Ok in H as (held & s1 & gs2 & [= <- <-]%tstmt_Ok & H).
  apply tbind_Ok in H as (n & s1 & gs3 & [= Hu]%tstmt_Ok & H). destruct n; [|done]. simpl in H.
  apply tbind_Ok in H as ([] & s2 & gs4 & Hh%tstmt_Ok & H).
  apply tbind_Ok in H as (m & s3 & gs5 & [= <- <-]%tstmt_Ok & H).
  destruct (negb (_ =? _)%nat); [done|]. destruct (negb (Before _ _)); [done|].
  apply tbind_Ok in H as ([] & s4 & gs6 & [= <-]%tstmt_Ok & [= <- <- <-]).
  apply condUpdate_spec in Hu as (r1 & Hr & Hc & ->). pose proof Ha as (Hr' & _).
  rewrite Hr in Hr'. injection Hr' as ->. rewrite where3_and in Hc. apply andb_true_iff in Hc as [Hg _].
  unfold upsertSessionHistoryEntry in Hh. rsimp_in Hh. case_bool_decide; [|done]. injection Hh as <-.
  assert (coalesce (sp_jsonl_path r) "" = path) as -> by (unfold rotationUnchanged in Eu; by bsimp).
  eexists r, _, _. split_and!; try done; [apply refreshAfter_core|apply refreshAfter_tables].
Qed.

(** The columns a rotation names, and those it leaves. *)
Definition rotationColumns (r : SpawnRow) :=
  (sp_state r, sp_session_id r, sp_jsonl_path r, sp_row_version r, sp_ended_at r, sp_end_reported_at r).
Definition launchColumns (r : SpawnRow) :=
  (sp_agent r, sp_launch_token r, sp_life_number r, sp_tmux_socket r, sp_tmux_server_pid r, sp_tmux_server_started r,
   sp_tmux_server_starttime r, sp_pane_id r, sp_pane_pid r, sp_pane_starttime r).

Lemma hookWriteState_columns v T now r : let q := hookWriteStateSet v T now r in
  sp_state q = v /\ sp_row_version q = sp_row_version r /\ launchColumns q = launchColumns r.
Proof.
  cbv zeta. unfold hookWriteStateSet. destruct (isTerminalState v); unfold immediateStateSet, hookStateSet, immediateSettleSet;
    cbv zeta; unfold launchColumns; rsimp; done.
Qed.
Lemma rotation_columns T v next path s r :
  rotationColumns (rotationSet T v next path s r) = (v, Some next, Some path, sp_row_version r + 1, None, None) /\
  launchColumns (rotationSet T v next path s r) = launchColumns r.
Proof.
  destruct (hookWriteState_columns v T (db_now s) r) as (E1 & E2 & E3). unfold rotationSet, launchColumns in *.
  revert E1 E2 E3. generalize (hookWriteStateSet v T (db_now s) r). intros q E1 E2 E3.
  unfold rotationColumns, rowVersionAdvance, launchStartClear, idleClear, livenessClear. rsimp. by rewrite E1, E2, E3.
Qed.
Lemma rotationColumns_core r r' : same_core r r' -> rotationColumns r' = rotationColumns r /\ launchColumns r' = launchColumns r.
Proof.
  intros H. split; symmetry; [apply (core_field rotationColumns _ _ H)|apply (core_field launchColumns _ _ H)];
    intros q; unfold rotationColumns, launchColumns, core; by rsimp.
Qed.

(** One binding is the connection the rotation moves. *)
Lemma one_connection b s : countRuntimes (connectionCond b) s = 1%nat ->
  exists j cr, db_runtimes s !! j = Some cr /\ where3 (connectionCond b cr) = true /\
    forall k q, db_runtimes s !! k = Some q -> where3 (connectionCond b q) = true -> k = j.
Proof.
  unfold countRuntimes. intros H. destruct (filter _ _) as [|[j cr] [|]] eqn:E; try done.
  assert ((j, cr) ∈ filter (fun p => where3 (connectionCond b (snd p)) = true) (map_to_list (db_runtimes s))) as Hin
    by (rewrite E; left).
  apply list_elem_of_filter in Hin as [Hc Hin%elem_of_map_to_list]. exists j, cr. split_and!; try done.
  intros k q Hk Hq. assert ((k, q) ∈ filter (fun p => where3 (connectionCond b (snd p)) = true)
    (map_to_list (db_runtimes s))) as Hkq by (apply list_elem_of_filter; split; [done|by apply elem_of_map_to_list]).
  rewrite E in Hkq. apply list_elem_of_singleton in Hkq. by injection Hkq.
Qed.

(** An upsert with a transcript leaves an entry with it. *)
Lemma upsertHistory_path key path life now l : path <> "" ->
  exists e, e ∈ upsertHistory key (nullif_empty path) life now l /\
    historyKey e = key /\ hi_life_number e = life /\ hi_jsonl_path e = nullif_empty path.
Proof.
  intros Hp. assert (nullif_empty path = Some path) as -> by (unfold nullif_empty; by rewrite bool_decide_false).
  unfold upsertHistory. case_bool_decide as H.
  - apply list_elem_of_fmap in H as (e & -> & He). eexists. split; [apply list_elem_of_fmap_2; exact He|].
    rewrite bool_decide_true by done. unfold historyKey. rsimp. split_and!; try done. unfold case3. by destruct (where3 _).
  - exists (mkHistoryRow (fst key) (snd key) (Some path) now life). split; [apply elem_of_app; right; by left|].
    by destruct key.
Qed.

(** A rotation as published: what its one write did. *)
Definition published (examined : SpawnRow) (g : HookGate) (b : CursorRuntime) (next path : string) (check : CursorCheck)
    (s s' : Store) : Prop :=
  let id := cr_InstanceID b in
  exists r r', authorized b check "" s r /\
    lifeSnapshot r = lifeSnapshot examined /\ lifeIdentity r = lifeIdentity examined /\
    sp_life_number r = sp_life_number examined /\ coalesce (sp_jsonl_path r) "" = path /\ gateHolds s g id r = true /\
    db_spawns s' !! id = Some r' /\ launchColumns r' = launchColumns r /\
    rotationColumns r' = (if requestHoldsRow s id then StateCheckPermission else StateWaiting,
                          Some next, Some path, sp_row_version r + 1, None, None) /\
    (forall e, e ∈ db_history s -> historyKey e <> (id, next)) /\
    (exists e, e ∈ db_history s' /\ historyKey e = (id, cr_SessionID b) /\ hi_life_number e = cr_Life b /\
       hi_jsonl_path e = nullif_empty path) /\
    (exists j cr, db_runtimes s !! j = Some cr /\ where3 (connectionCond b cr) = true /\
       db_runtimes s' = <[j := cr <| cr_SessionID := next |>]> (db_runtimes s)) /\
    db_requests s' = db_requests s.

Lemma rotateDone_published T examined g b next path check s x s' :
  path <> "" -> rotateDone T examined g b next path check s x s' -> published examined g b next path check s s'.
Proof.
  intros Hp (r & state & s0 & Ha & Hu & Hg & -> & _ & Hf & -> & Hc & Ht).
  specialize (Hc (cr_InstanceID b)). rsimp_in Hc. rewrite lookup_insert_eq in Hc.
  destruct (db_spawns s' !! cr_InstanceID b) as [r'|] eqn:Er'; [|done].
  destruct Ht as (T1 & _ & T2 & T3 & T4 & T5 & _). rsimp_in T1. rsimp_in T2. rsimp_in T3. rsimp_in T4. rsimp_in T5.
  destruct (rotationColumns_core _ _ Hc) as [C1 C2].
  destruct (rotation_columns T (if requestHoldsRow s (cr_InstanceID b) then StateCheckPermission else StateWaiting)
    next path s r) as [D1 D2].
  unfold rotationUnchanged in Hu. bsimp. exists r, r'. split_and!; try done; try congruence; [by apply Z.eqb_eq|..].
  - intros e He E. apply Hf. rewrite <- E. by apply list_elem_of_fmap_2.
  - destruct (upsertHistory_path (cr_InstanceID b, cr_SessionID b) path (cr_Life b) (nowSec s) (db_history s) Hp)
      as (e & E1 & E2 & E3 & E4). exists e. split_and!; try done. congruence.
  - pose proof Ha as (_ & _ & Hn & _). destruct (one_connection _ _ Hn) as (j & cr & Hj & Hcr & Hone).
    exists j, cr. split_and!; try done.
    assert (db_runtimes s' = (fun cr => if where3 (connectionCond b cr) then bindSession next cr else cr) <$> db_runtimes s)
      as -> by congruence.
    apply map_eq. intros k. rewrite lookup_fmap. destruct (decide (k = j)) as [->|Hne].
    + by rewrite lookup_insert_eq, Hj; simpl; rewrite Hcr.
    + rewrite lookup_insert_ne by done. destruct (db_runtimes s !! k) as [q|] eqn:Ek; simpl; [|done].
      destruct (where3 (connectionCond b q)) eqn:Eq; [|done]. destruct Hne. eauto.
Qed.

(** A rotation is published whole or not at all. The one write of a
    rotation that succeeds found, under its launch's authority, the row the
    caller examined and a next session never archived before; it left the row
    in the next session and transcript, waiting, or checking permission while
    a request holds it, one version on, the same launch, its requests
    untouched; it archived the outgoing session in its life and rebound the
    one connection, and no other, to the next session. A rotation refused at
    any check writes nothing. *)
Theorem rotation_published_whole_or_not (T : Z) (examined : SpawnRow) (g : HookGate) (next path : string) (until : option Z)
    (check : CursorCheck) (now : nat -> Z) :
  ensures (fun res own => match res with
    | Ok ok => ok = true /\ exists b s s', g_Cursor g = Some b /\ own = [(s, s')] /\ published examined g b next path check s s'
    | Err e => own = [] \/ (e = ECommitUnconfirmed /\ exists b s s', g_Cursor g = Some b /\ own = [(s, s')] /\
                            published examined g b next path check s s')
    end) (RotateCursorSession T examined g next path until check now).
Proof.
  unfold RotateCursorSession. destruct (g_Cursor g) as [b|]; [|by apply ensures_fail; left].
  destruct (_ || _) eqn:Eg; [by apply ensures_fail; left|].
  assert (path <> "") as Hp by (clear -Eg; by bsimp).
  eapply ensures_bind; [apply ensures_txBounded, rotate_spec| |].
  - intros x o1 (s & s' & -> & H%rotateDone_published); [|done]. intros w. exists []. rewrite app_nil_r.
    split; [done|]. split; [done|]. by exists b, s, s'.
  - intros e o1 [->|[-> (s & x & s' & -> & H%rotateDone_published)]]; [by left| |done]. right. split; [done|]. by exists b, s, s'.
Qed.

(** *** Reconciling a rotation *)

(** Every column of the launch's identity is recorded. *)
Definition identityRecorded (r : SpawnRow) : Prop :=
  sp_launch_token r = Some (li_Token (lifeIdentity r)) /\ is_Some (sp_tmux_socket r) /\ is_Some (sp_tmux_server_pid r) /\
  is_Some (sp_tmux_server_started r) /\ is_Some (sp_tmux_server_starttime r) /\ is_Some (sp_pane_id r) /\
  is_Some (sp_pane_pid r) /\ is_Some (sp_pane_starttime r).

Lemma where3_bindingMatch b cr : where3 (cursorBindingMatchSQL b cr) = true -> cr_InstanceID cr = cr_InstanceID b.
Proof. unfold cursorBindingMatchSQL. rewrite where3_and, where3_sql_eq. intros [H _]%andb_true_iff. bsimp. by injection H. Qed.

(** A binding the reconciling read selects is of the examined Spawn. *)
Lemma rotationBinding_row b examined path s cr r : rotationBinding b examined path s cr = Some r ->
  cr_InstanceID cr = cr_InstanceID b /\ db_spawns s !! cr_InstanceID b = Some r.
Proof.
  unfold rotationBinding. destruct (db_spawns s !! cr_InstanceID cr) as [q|] eqn:E; [|done].
  destruct (where3 _) eqn:Ew; [|done]. intros [= ->]. rewrite where3_and in Ew. apply andb_true_iff in Ew as [Ew _].
  apply where3_bindingMatch in Ew. split; [done|]. by rewrite <- Ew.
Qed.
Lemma rotationBinding_found b examined path s cr r :
  db_spawns s !! cr_InstanceID cr = Some r -> where3 (connectionCond b cr) = true -> cr_Terminated cr = false ->
  identityRecorded r -> lifeIdentity r = lifeIdentity examined -> sp_life_number r = sp_life_number examined ->
  sp_agent r = Some AgentCursor -> sp_jsonl_path r = Some path ->
  forall sid, rotationBinding b examined path s (cr <| cr_SessionID := sid |>) = Some r.
Proof.
  intros Hr Hc Ht (I0 & [? I1] & [? I2] & [? I3] & [? I4] & [? I5] & [? I6] & [? I7]) Hi Hl Ha Hp sid.
  unfold rotationBinding. change (cr_InstanceID (cr <| cr_SessionID := sid |>)) with (cr_InstanceID cr). rewrite Hr.
  change (cr_Terminated (cr <| cr_SessionID := sid |>)) with (cr_Terminated cr).
  change (cursorBindingMatchSQL b (cr <| cr_SessionID := sid |>)) with (cursorBindingMatchSQL b cr).
  assert (where3 (cursorBindingMatchSQL b cr) = true) as Hm by (unfold connectionCond in Hc; by conds Hc).
  rewrite !where3_and, Hm, <- Hi, <- Hl, Ht, Ha, Hp, I0, !where3_sql_eq, !where3_sql_is. unfold lifeIdentity; simpl.
  rewrite I1, I2, I3, I4, I5, I6, I7. simpl. by rewrite !bool_decide_true by done.
Qed.

Lemma existsb_bindings b examined path s (f : CursorRuntime * SpawnRow -> bool) :
  existsb f (omap (fun p => (fun r => (snd p, r)) <$> rotationBinding b examined path s (snd p)) (map_to_list (db_runtimes s))) = true <->
  exists j cr r, db_runtimes s !! j = Some cr /\ rotationBinding b examined path s cr = Some r /\ f (cr, r) = true.
Proof.
  rewrite existsb_exists. setoid_rewrite <- list_elem_of_In. setoid_rewrite list_elem_of_omap. split.
  - intros (x & ([j cr] & Hin%elem_of_map_to_list & Hx) & Hf). simpl in Hx.
    destruct (rotationBinding b examined path s cr) as [r|] eqn:E; [|done]. injection Hx as <-. eauto 6.
  - intros (j & cr & r & Hj & Hr & Hf). exists (cr, r). split; [|done]. exists (j, cr). split; [by apply elem_of_map_to_list|].
    simpl. by rewrite Hr.
Qed.

(** What the reconciling read answers before a rotation and after it. *)
Definition reconciles (b : CursorRuntime) (examined : SpawnRow) (next path : string) (s s' : Store) : Prop :=
  (forall r, db_spawns s !! cr_InstanceID b = Some r -> identityRecorded r) ->
  reconcileRotation b examined next path s' = (true, false) /\
  reconcileRotation b examined next path s
  = (false, negb (archivedIn (cr_InstanceID b) (cr_SessionID b) (cr_Life b) None s)).

Lemma connection_fields b cr : where3 (connectionCond b cr) = true ->
  cr_InstanceID cr = cr_InstanceID b /\ cr_SessionID cr = cr_SessionID b /\ cr_Terminated cr = false.
Proof.
  unfold connectionCond. intros H. rewrite !where3_and in H. apply andb_true_iff in H as [H1%where3_bindingMatch H2].
  rewrite !where3_sql_eq in H2. bsimp. split_and!; congruence.
Qed.

Lemma launchColumns_identity r r' : launchColumns r' = launchColumns r ->
  lifeIdentity r' = lifeIdentity r /\ sp_life_number r' = sp_life_number r /\ sp_agent r' = sp_agent r /\
  (identityRecorded r -> identityRecorded r').
Proof. unfold launchColumns, identityRecorded, lifeIdentity. intros [= -> -> -> -> -> -> -> -> -> ->]. done. Qed.

Lemma archivedIn_spec id session life p s : archivedIn id session life p s = true <->
  exists e, e ∈ db_history s /\ historyKey e = (id, session) /\ hi_life_number e = life /\
    match p with Some p => hi_jsonl_path e = Some p | None => True end.
Proof.
  unfold archivedIn, historyKey. rewrite existsb_exists. setoid_rewrite <- list_elem_of_In.
  apply exist_proper; intros e. rewrite !andb_true_iff, !bool_decide_eq_true, Z.eqb_eq.
  destruct p as [p|]; rewrite ?bool_decide_eq_true; naive_solver.
Qed.

Lemma published_reconciles examined g b next path check s s' :
  path <> "" -> next <> cr_SessionID b -> published examined g b next path check s s' ->
  reconciles b examined next path s s'.
Proof.
  intros Hp Hn (r & r' & (Hr & Hl & _) & Hs & Hi & Hlife & Hpath & _ & Hr' & Hlc & Hrc & _ & (e & He & Hk & Hel & Hep)
    & (j & cr & Hj & Hcr & Hrt) & _) Hrec.
  specialize (Hrec r Hr). destruct (connection_fields _ _ Hcr) as (Fi & Fs & Ft).
  destruct (launchAuthority_row _ _ Hl) as (_ & _ & Hag & _ & _ & _ & _ & Hsid & _).
  destruct (launchColumns_identity _ _ Hlc) as (Li & Ll & La & Lr).
  unfold rotationColumns in Hrc. injection Hrc as Est Esid Epath _ _ _.
  assert (rotationBinding b examined path s' (cr <| cr_SessionID := next |>) = Some r') as Hb'.
  { eapply (rotationBinding_found b examined path s' cr r'); try done; [by rewrite Fi|by apply Lr|congruence..]. }
  assert (rotationBinding b examined path s cr = Some r) as Hb.
  { replace cr with (cr <| cr_SessionID := cr_SessionID cr |>) by (by destruct cr).
    eapply (rotationBinding_found b examined path s cr r); try done; [by rewrite Fi|].
    destruct (sp_jsonl_path r); simpl in Hpath; congruence. }
  assert (forall c st q, rotationBinding b examined path st c = Some q -> db_spawns st !! cr_InstanceID b = Some q /\
    cr_InstanceID c = cr_InstanceID b) as Hrow by (intros c st q [? ?]%rotationBinding_row; done).
  unfold reconcileRotation. cbv zeta. split; f_equal.
  - apply existsb_bindings. exists j, (cr <| cr_SessionID := next |>), r'. split; [by rewrite Hrt, lookup_insert_eq|].
    split; [done|]. simpl. rewrite !andb_true_iff, !bool_decide_eq_true. split_and!; try done.
    rewrite Fi. apply archivedIn_spec. exists e. split_and!; try done. rewrite Hep. unfold nullif_empty. by rewrite bool_decide_false.
  - apply not_true_iff_false. rewrite existsb_bindings. intros (k & c & q & _ & [Hq _]%Hrow & Hf).
    simpl in Hf. rewrite Hr' in Hq. injection Hq as <-. bsimp. congruence.
  - apply not_true_iff_false. rewrite existsb_bindings. intros (k & c & q & _ & [Hq _]%Hrow & Hf).
    simpl in Hf. rewrite Hr in Hq. injection Hq as <-. bsimp. congruence.
  - apply eq_true_iff_eq. rewrite existsb_bindings. split.
    + intros (k & c & q & _ & [_ Hid]%Hrow & Hf). simpl in Hf. rewrite Hid in Hf. by apply andb_true_iff in Hf as [_ ?].
    + intros Hna. exists j, cr, r. split_and!; try done. simpl. rewrite Fi, Hna, snapshot_match, Hs.
      by rewrite !bool_decide_true by congruence.
Qed.
(** An unconfirmed rotation can be told. However a rotation's write
    ended, the reconciling read answers from the store alone: after the write,
    committed and not unchanged; before it, not committed, and unchanged when
    the outgoing session is not archived yet, provided the launch's identity
    is wholly recorded. *)
Theorem reconciling_tells_the_rotation (T : Z) (examined : SpawnRow) (g : HookGate) (b : CursorRuntime) (next path : string)
    (until : option Z) (check : CursorCheck) (now : nat -> Z) :
  g_Cursor g = Some b ->
  guarantees (reconciles b examined next path) (RotateCursorSession T examined g next path until check now).
Proof.
  intros Hg. unfold RotateCursorSession. rewrite Hg. destruct (_ || _) eqn:Eg; [guar|]. bsimp.
  guar. apply guarantees_txBounded. intros s gs x s' gs' Hd%rotate_spec%rotateDone_published; [|done].
  eapply published_reconciles; [done| |done]. congruence.
Qed.

(** ** The ack *)

(** The one request of a Spawn its token names (the index on the pair). *)
Definition tokenUnique (s : Store) (id token : string) : Prop :=
  forall pr pr', pr ∈ db_requests s -> pr' ∈ db_requests s ->
    pr_instance_id pr = id -> pr_request_token pr = token -> pr_instance_id pr' = id -> pr_request_token pr' = token -> pr = pr'.

(** The ack of a request still open, settled at [until] with the reading
    before it. *)
Definition ackedOf (b : CursorRuntime) (token : string) (timeout : bool) (until allowUntil : option Z) (check : CursorCheck)
    (now : nat -> Z) (d : string) (s s' : Store) : Prop :=
  exists r raw, authorized b check "" s r /\ raw ∈ db_requests s /\
    pr_instance_id raw = cr_InstanceID b /\ pr_request_token raw = token /\
    timeOf (millisTime (pr_settled_at raw)) = until /\ Before (now 1%nat) until = true /\
    pr_pane_answer raw = PaneAnswerNone /\ IsZero (millisTime (pr_closed_at raw)) = true /\
    IsZero (millisTime (pr_proven_gone_at raw)) = true /\
    (tokenUnique s (cr_InstanceID b) token ->
     (pr_decision raw = Some d /\ pr_delivered_at raw = None /\ (d = "allow" -> Before (now 3%nat) allowUntil = true) /\
      (raw <| pr_delivered_at := millisArg (stamped (now 5%nat)) |>) ∈ db_requests s') \/
     (pr_decision raw = None /\ d = "deny" /\ (timeout = true \/ Before (now 2%nat) allowUntil = false) /\
      denyRelayTimeoutSet (stamped (now 4%nat)) (nowSec s) raw ∈ db_requests s')).

Definition ackBodyDone (b : CursorRuntime) (token : string) (timeout : bool) (until allowUntil : option Z) (check : CursorCheck)
    (now : nat -> Z) (s : Store) (x : string * bool * option (Z * string)) (s' : Store) : Prop :=
  match x with
  | (d, true, _) => ackedOf b token timeout until allowUntil check now d s s'
  | (d, false, denied) => d = "" /\ denied = None /\ s' = s
  end.

Lemma ofToken_spec id token pr : where3 (ofToken id token pr) = true <-> pr_instance_id pr = id /\ pr_request_token pr = token.
Proof.
  unfold ofToken. rewrite where3_and, where3_ofSpawn, where3_sql_eq, andb_true_iff, !bool_decide_eq_true. naive_solver.
Qed.

Lemma ackBody_spec b token timeout until allowUntil check now :
  tx_spec (ackBodyDone b token timeout until allowUntil check now) (ackCursorBody b token timeout until allowUntil check now).
Proof.
  intros s gs x s' gs'. unfold ackCursorBody. cbv zeta.
  intros (r & s1 & gs1 & (-> & Ha & _)%authority_spec & H)%tbind_Ok.
  apply tbind_Ok in H as (found & s1 & gs1' & [= <- <-]%tstmt_Ok & H).
  destruct (find _ _) as [raw|] eqn:Ef; [|by injection H as <- <- <-].
  apply find_some in Ef as [Hin%list_elem_of_In [Hid Htok]%ofToken_spec].
  destruct (ackable _ _ _) eqn:Eok; [|by injection H as <- <- <-]. simpl in H.
  unfold ackable in Eok. apply negb_true_iff in Eok. unfold Closed, ProvenGone in Eok. simpl in Eok. bsimp.
  destruct (_ && _) eqn:Eallow; [by injection H as <- <- <-|].
  assert (forall d, (tokenUnique s (cr_InstanceID b) token -> _) -> ackedOf b token timeout until allowUntil check now d s s')
    as Hacked by (intros d Hd; exists r, raw; split_and!; [done|done|done|done|done|congruence|done|done|done|exact Hd]).
  assert (forall s1 gs1, s1 = s -> (acked <-- updFirst (fun pr => where3 (ackRelayDecisionCond (cr_InstanceID b) token pr))
      (fun pr => pr <| pr_delivered_at := millisArg (stamped (now 5%nat)) |>) (fun pr => coalesce (pr_decision pr) "");;
    tret (match acked with Some d => (d, true, None) | None => ("", false, None) end)) s1 gs1 = (Ok (x, s'), gs') ->
    ackBodyDone b token timeout until allowUntil check now s x s') as Htail.
  { intros s1 gs2 -> (acked & s2 & gs3 & Hu%updFirst_spec & [= <- <- <-])%tbind_Ok.
    destruct acked as [d|]; [|by destruct Hu as [_ [-> _]]]. apply Hacked. intros Hone. left.
    pose proof Hu as [_ (pr & Hpr & Hc & ->)]. pose proof Hc as Hc'. unfold ackRelayDecisionCond in Hc'. conds Hc'.
    assert (pr = raw) as -> by (apply Hone; naive_solver).
    destruct (pr_decision raw) as [d|] eqn:Ed; [|by destruct select (is_Some None)]. simpl. split_and!; try done.
    - intros ->. simpl in Eallow. by apply negb_false_iff in Eallow.
    - by eapply (updated_in _ (fun pr => pr <| pr_delivered_at := millisArg (stamped (now 5%nat)) |>)). }
  apply tbind_Ok in H as (denied & s1 & gs2 & Hd & H).
  destruct (timeout || _) eqn:Et; [|injection Hd as <- <- <-; by eapply Htail].
  apply updFirstNow_spec in Hd. destruct denied as [y|]; [|destruct Hd as [_ [-> _]]; by eapply Htail].
  injection H as <- <- <-. apply Hacked. intros Hone. right.
  pose proof Hd as [_ (pr & Hpr & Hc & _)]. pose proof Hc as Hc'. unfold denyRelayTimeoutCond in Hc'. conds Hc'.
  assert (pr = raw) as -> by (apply Hone; naive_solver). split_and!; try done.
  - apply orb_true_iff in Et as [|Et]; [by left|right]. by apply negb_true_iff in Et.
  - by eapply (updated_in _ (denyRelayTimeoutSet (stamped (now 4%nat)) (nowSec s))).
Qed.

(** C18: The gateway acks a verdict only in time. An ack that hands over a
    verdict made one write, under the launch's authority, of the request its
    token names, still open and unanswered at the pane, whose settle deadline
    is the caller's and was not reached when the clock was read: either the
    verdict the row keeps, delivered, an allow only before the allow's own
    deadline, or, for an undecided request out of time, the timeout's deny. An
    ack that returns with nothing handed over left the store as it was; one that
    fails wrote nothing, unless the failure is an unconfirmed COMMIT, which may
    have landed. *)
Theorem cursor_ack_only_in_time (b : CursorRuntime) (token : string) (timeout : bool) (until allowUntil : option Z)
    (check : CursorCheck) (now : nat -> Z) :
  ensures (fun res own => match res with
    | Ok (d, true) => exists s s', own = [(s, s')] /\ ackedOf b token timeout until allowUntil check now d s s'
    | Ok (d, false) => d = "" /\ exists s, own = [(s, s)]
    | Err e => own = [] \/ e = ECommitUnconfirmed
    end) (AckCursorDecision b token timeout until allowUntil check now).
Proof.
  unfold AckCursorDecision. eapply ensures_bind; [apply ensures_txBounded, ackBody_spec| |].
  - intros [[d []] denied] o1 (s & s' & -> & H); simpl in H.
    + intros w. destruct denied as [[rid tool]|]; exists []; rewrite app_nil_r; simpl; (split; [done|eauto]).
    + destruct H as (-> & -> & ->). intros w. exists []. rewrite app_nil_r. simpl. split; [done|eauto].
  - intros e o1 [->|[-> _]]; [by left|by right].
Qed.

(** The operations made under the gateway's authority. *)
Definition gatewayOf (op : cursorOp) : option (CursorRuntime * CursorCheck) :=
  match op with
  | CursorInsert b _ _ _ check _ | CursorAck b _ _ _ _ check _ | CursorClaim b _ _ _ check _
  | CursorProve b _ _ _ _ check _ | CursorTurnEnded b _ _ check _ => Some (b, check)
  | CursorRotate _ g _ _ _ check _ => (fun b => (b, check)) <$> g_Cursor g
  | _ => None
  end.

(** What a write may do beyond its Spawn. *)
Definition reach (op : cursorOp) (id : string) : Store -> Store -> Prop :=
  match op with CursorInsert _ _ _ _ _ _ => withinEvicting id | _ => within id end.

(** C17: The Cursor gateway writes a request, an ack, a claim, a proof or a
    rotation only under its launch's authority, rechecked in the very
    transaction that writes: the row is live and of the binding's launch,
    life, pane and session, the connection is the one registered and not
    retired, and the evidence read of the kernel and the pane had no
    objection. The write stays in its Spawn: another Spawn's row changes only in
    its stored family aggregate and drained exit marker, its history and
    bindings not at all, and its requests are the same, save that the insert's
    table-wide eviction may delete one that awaits no answer, whose dialog is
    proven gone or whose Spawn is finished, and that is not its Spawn's newest
    while that Spawn has one awaiting. *)
Theorem cursor_writes_under_authority (T : Z) (id : string) (op : cursorOp) (b : CursorRuntime) (check : CursorCheck) :
  gatewayOf op = Some (b, check) -> guarantees (confined b check (reach op (cr_InstanceID b))) (runCursor T id op).
Proof.
  intros Hg. destruct op; simplify_eq/=.
  - unfold InsertCursorRequest. guar. apply guarantees_txBounded, insertCursor_confined.
  - unfold void, AckCursorDecision. guar. apply guarantees_txBounded, ackCursor_confined.
  - unfold void, ClaimCursorPaneAnswer. cbv zeta. guar. apply guarantees_txBounded, under_authority. intros row.
    apply keeps_updFirstNow. intros s sec. apply within_requests; [|intros r; unfold claimPaneSet; by rsimp].
    intros r H. unfold claimPaneCond in H. of_token H.
  - unfold proveCursorTool. cbv zeta. guar. apply guarantees_txBounded, proveTool_confined.
  - unfold ProveCursorTurnEnded. destruct (bool_decide _); [guar|]. apply guarantees_txBounded, under_authority.
    intros row. apply keeps_pure. intros s. apply within_requests; [|intros r; unfold proveSet; by rsimp].
    intros r H. unfold turnEndedCond in H. rewrite where3_and, where3_ofSpawn in H. by bsimp.
  - unfold void, RotateCursorSession. destruct (g_Cursor g) as [q|]; simplify_eq/=. guar.
    apply guarantees_txBounded, rotate_confined.
Qed.

(** ** Samples *)

Definition cursorRow : SpawnRow :=
  soloRow <| sp_agent := Some AgentCursor |> <| sp_state := StateWaiting |> <| sp_session_id := Some "sess" |>
    <| sp_jsonl_path := Some "/t/sess.jsonl" |> <| sp_launch_token := Some "0123456789abcdef" |> <| sp_tmux_socket := Some "sock" |>
    <| sp_tmux_server_pid := Some 3 |> <| sp_tmux_server_started := Some 1 |> <| sp_tmux_server_starttime := Some "s3" |>
    <| sp_pane_id := Some "p1" |> <| sp_pane_pid := Some 77 |> <| sp_pane_starttime := Some "s77" |>.
Definition cursorBinding : CursorRuntime :=
  mkCursorRuntime "leaf" "0123456789abcdef" (sp_life_number cursorRow) 77 "s77" 78 "s78" "conn" "in" "out" 3 4 "sess" false.
Definition cursorGate : HookGate := mkGate false (Some cursorBinding) "SessionStart" 77 "s77" "sess" false
  (mkRowSnapshot 0 "" "" 0 "" "") "" false false false.
Definition cursorStore : Store := storeOf {[ "leaf" := cursorRow ]} 5000 <| db_runtimes := {[ "leaf" := cursorBinding ]} |>.
Definition noObjection : CursorCheck := Some (fun _ => None).
Definition rotateOp : cursorOp :=
  CursorRotate cursorRow cursorGate "next" "/t/sess.jsonl" (Some 9) noObjection (fun _ => 5).
Definition rotatedStore : Store := snd (fst (run (runCursor 0 "leaf" rotateOp) cursorStore)).

Lemma cursor_writes_under_authority_witness :
  gatewayOf rotateOp = Some (cursorBinding, noObjection) /\ guarantees (confined cursorBinding noObjection (within "leaf")) (runCursor 0 "leaf" rotateOp) /\
  fst (fst (run (runCursor 0 "leaf" rotateOp) cursorStore)) = Ok tt /\
  (sp_session_id <$> db_spawns rotatedStore !! "leaf") = Some (Some "next").
Proof.
  split; [reflexivity|]. split; [exact (cursor_writes_under_authority 0 "leaf" rotateOp cursorBinding noObjection eq_refl)|].
  by vm_compute.
Defined.

Lemma reconciling_tells_the_rotation_witness :
  g_Cursor cursorGate = Some cursorBinding /\
  guarantees (reconciles cursorBinding cursorRow "next" "/t/sess.jsonl")
    (RotateCursorSession 0 cursorRow cursorGate "next" "/t/sess.jsonl" (Some 9) noObjection (fun _ => 5)) /\
  reconcileRotation cursorBinding cursorRow "next" "/t/sess.jsonl" cursorStore = (false, true) /\
  reconcileRotation cursorBinding cursorRow "next" "/t/sess.jsonl" rotatedStore = (true, false).
Proof.
  split; [reflexivity|]. split; [exact (reconciling_tells_the_rotation 0 cursorRow cursorGate cursorBinding "next" "/t/sess.jsonl" (Some 9) noObjection (fun _ => 5) eq_refl)|].
  by vm_compute.
Defined.
