(* ===== verification/System.v ===== *)
(** * The store as all its processes see it

    Any number of processes run the store's operations, each in its own
    world; what the store sees is the sequence of their committed writes,
    interleaved in any order ([store_step]). Two properties of every such
    history: how a permission request may evolve, and the referential
    integrity of the tables, each an instance of the interface StoreInv.v
    states. *)

From S2P Require Import Prelude Sql Rows Display Settle Family Requests History Steps Gate HookWrites HookProps RelayWrites Protocol RequestInv SubagentWrites SubagentInv Lifecycle CursorWrites CursorInv Reuse LifecycleProps ReuseProps StoreInv References Observe StoreOps HookEnv Payload RelayHook Handler HandlerInv Delivery Guard PaneAnswer Decide VerbInv FindMissing Expire StartingSession Kill.

(** ** Operations *)

Inductive storeOp :=
  | StoreRequest (op : requestOp)
  | StoreLifecycle (op : lifecycleOp)
  | StoreReuse (op : reuseOp)
  | StoreSubagent (op : subagentOp)
  | StoreCursor (op : cursorOp)
  | StoreEndTurn (t : CodexOpenTurn)
  | StoreHeal (session path : string)
  | StoreObserve (settle : SettleRead) (op : observeOp).

Definition storeOp_ok (op : storeOp) : Prop :=
  match op with StoreRequest op => requestOp_ok op | StoreCursor op => cursorOp_ok op | _ => True end.

(** [text] is the JSON text of a Codex startup, [stamp] CURRENT_TIMESTAMP's. *)
Definition runStore (T : Z) (text : CodexStartup -> string) (stamp : Z -> string) (id : string) (op : storeOp)
    : M Store Event unit :=
  match op with
  | StoreRequest op => runRequest T text id op
  | StoreLifecycle op => runLifecycle T stamp id op
  | StoreReuse op => runReuse T stamp id op
  | StoreSubagent op => runSubagent T id op
  | StoreCursor op => runCursor T id op
  | StoreEndTurn t => void (EndCodexTurn T t)
  | StoreHeal session path => void (HealJsonlPath id session path)
  | StoreObserve settle op => runObserve T settle id op
  end.

Definition storeDeletes (op : storeOp) : bool :=
  match op with StoreLifecycle op => deletesRow op | _ => false end.
Definition storeResets (op : storeOp) : bool :=
  match op with StoreReuse op => resetsRow op | _ => false end.

Lemma runStore_inv {R} `{!StoreInv R} T text stamp id op :
  storeOp_ok op -> storeDeletes op = false -> storeResets op = false -> guarantees R (runStore T text stamp id op).
Proof.
  intros Hop Hd Hr. destruct op as [|op|op| | | | |]; simpl in *; unfold void.
  - by apply runRequest_inv.
  - by apply runLifecycle_inv.
  - destruct op; [done|]. simpl. unfold void. guar. apply restoreReuse_inv.
  - apply runSubagent_inv.
  - by apply runCursor_inv.
  - guar. apply endTurn_inv.
  - guar. apply heal_inv.
  - apply runObserve_inv.
Qed.

(** A deleted row, up to the epilogue's stored aggregates. *)
Definition row_deleted (id : string) (s s' : Store) : Prop :=
  core_step (deleteRow id s) s' /\ tables_eq (deleteRow id s) s'.

Lemma condDelete_exec T id cond :
  guarantees (row_deleted id) (execGuarded T id (condDelete id cond)).
Proof.
  unfold execGuarded. apply guarantees_catch; [|intros [?|[]]; guar]. apply inImmediateTx_spec.
  intros s gs a s1 gs1 (n & s2 & gs2 & [= Hn]%tstmt_Ok & H)%tbind_Ok s' Hc Ht.
  unfold condDelete in Hn. destruct (db_spawns s !! id) as [r|]; [destruct (where3 _)|]; injection Hn as <- <-; try done.
  by injection H as _ <-.
Qed.

Lemma deleteFinished_deletes T id x : guarantees (row_deleted id) (DeleteFinishedIfSameLife T id x).
Proof. unfold DeleteFinishedIfSameLife, condWrite, condNotApplied. guar. apply condDelete_exec. Qed.

Lemma runStore_deletes T text stamp id op : storeDeletes op = true ->
  guarantees (row_deleted id) (runStore T text stamp id op).
Proof.
  destruct op as [|op| | | | | |]; try done. destruct op as [| | | | | |x op| |]; try done; [destruct op; try done|];
    intros _; simpl; unfold void.
  - guar. apply deleteFinished_deletes.
  - unfold DeleteSpawn. guar. apply condDelete_exec.
Qed.

(** A run of expire deletes rows, one per write. *)
Definition someRow_deleted (s s' : Store) : Prop := exists id, row_deleted id s s'.

Lemma expire_deletes T env days olderThan : guarantees someRow_deleted (Expire T env days olderThan).
Proof.
  assert (forall cand, guarantees someRow_deleted (DeleteFinishedIfSameLife T (ec_InstanceID cand) (ec_Snapshot cand))) as Hd.
  { intros cand. eapply guarantees_mono; [apply deleteFinished_deletes|by eexists]. }
  assert (forall cands run, guarantees someRow_deleted (judgeCandidates T env cands run)) as Hj.
  { induction cands as [|cand cands IH]; intros run; simpl; [guar|].
    unfold judgeCandidate, lookupCandidate, deleteGoneRow. guar; apply Hd. }
  unfold Expire, stored, refuse. guar; apply Hj.
Qed.

(** A reset row. *)
Definition row_reset (id : string) (s s' : Store) : Prop :=
  (exists r, db_spawns s !! id = Some r /\ isTerminalState (sp_state r) = true) /\
  db_requests s' = filter (fun pr => pr_instance_id pr <> id) (db_requests s) /\
  db_next_request s' = db_next_request s /\ db_now s' = db_now s.

Lemma runStore_resets T text stamp id op : storeResets op = true ->
  guarantees (row_reset id) (runStore T text stamp id op).
Proof.
  destruct op as [| |op| | | | |]; try done. destruct op as [x agent fresh startedAt|]; [|done]. intros _. simpl.
  unfold void. apply guarantees_bind; [|guar]. eapply ensures_guarantees; [apply ensures_reset|].
  intros [[[[] session] v]|e] own; simpl; try (intros ->; constructor).
  intros (_ & s & s' & -> & s1 & Hd & Hcore & Ht). constructor; [|constructor].
  destruct (reset_row _ _ _ _ _ _ _ _ _ _ Hd Hcore) as (r & r' & _ & Hr & _ & _ & Hfin & _).
  destruct Hd as [_ [Hn Hw] Hq _ _]. destruct Ht as (T1 & T2 & _ & _ & _ & _ & T3 & _).
  split; [eauto|]. simpl. rewrite T1, T2, T3. done.
Qed.

(** ** Histories *)

Definition own_write {A} (m : M Store Event A) (s s' : Store) : Prop :=
  exists w own, w_own (snd (m w)) = w_own w ++ own /\ (s, s') ∈ own.

Lemma own_write_guarantees {A} (R : Store -> Store -> Prop) (m : M Store Event A) s s' :
  guarantees R m -> own_write m s s' -> R s s'.
Proof.
  intros Hg (w & own & E & Hin). destruct (Hg w) as (own' & E' & F). rewrite E in E'.
  apply app_inv_head in E' as <-. rewrite Forall_forall in F. by apply (F (s, s')).
Qed.

(** A write of a whole process: a hook ([Handle]), or a verb, whatever its
    configuration and input. *)
Inductive program_write (T : Z) (text : CodexStartup -> string) : Store -> Store -> Prop :=
  | by_hook rawText capacityText capacityParse parse parseCallback transcript fuel hc stdin s s' :
      own_write (Handle T text rawText capacityText capacityParse parse parseCallback transcript fuel hc stdin) s s' ->
      program_write T text s s'
  | by_decide env p fuel s s' : own_write (decideWithin env p fuel) s s' -> program_write T text s s'
  | by_sendKeys env tmux p s s' : own_write (sendKeys env tmux p) s s' -> program_write T text s s'
  | by_recordPaneAnswer view hold tmux p s s' :
      own_write (RecordPaneAnswer view hold tmux p) s s' -> program_write T text s s'
  | by_findMissing env v s s' : own_write (ClientFindMissing T env v) s s' -> program_write T text s s'
  | by_kill env fuel id optIn s s' : own_write (runKill env fuel id optIn) s s' -> program_write T text s s'.

Lemma program_inv {R} `{!StoreInv R} T text s s' : program_write T text s s' -> R s s'.
Proof.
  intros H. destruct H as [? ? ? ? ? ? ? ? ? s s' H|? ? ? s s' H|? ? ? s s' H|? ? ? ? s s' H|? ? s s' H|? ? ? ? s s' H];
    (eapply own_write_guarantees; [|exact H]).
  - apply handle_inv.
  - apply decide_inv.
  - apply sendKeys_inv.
  - apply record_inv.
  - apply findMissing_inv.
  - apply kill_inv.
Qed.

(** [step_op] is a write of one operation, [step_program] a write of a whole
    process, [step_expire] one of an expire run; [step_clock] is the passing of
    time. A history is of a store whose schema is current: a migration runs
    once, when an older store is opened, before any operation on it. *)
Inductive store_step (T : Z) (text : CodexStartup -> string) (stamp : Z -> string) : Store -> Store -> Prop :=
  | step_op id op s s' :
      storeOp_ok op -> own_write (runStore T text stamp id op) s s' -> store_step T text stamp s s'
  | step_program s s' : program_write T text s s' -> store_step T text stamp s s'
  | step_expire env days olderThan s s' : own_write (Expire T env days olderThan) s s' -> store_step T text stamp s s'
  | step_clock n s : 0 < n -> store_step T text stamp s (s <| db_now := n |>).

#[export] Instance reqs_inv : StoreInv reqs_ok.
Proof.
  split; try apply _; eauto using reqs_ok_evict.
  - intros s s' _. apply reqs_ok_tables.
  - intros c f s _. apply reqs_ok_update.
  - intros mk id token s x s' Hmk. apply reqs_ok_insert. intros rid r. destruct (Hmk rid r) as (? & ? & _). by split.
  - intros s s' [_ [E1 E2] _ _ E3 _ _ _]. by apply reqs_ok_same.
  - intros id session path life s s'. unfold upsertSessionHistoryEntry. case_bool_decide; [|done]. intros [= <-].
    apply reqs_ok_same; by rsimp.
  - intros m s. apply reqs_ok_same; by rsimp.
  - intros text sp s n s'. unfold insertPendingStmt. case_bool_decide; [done|]. destruct (parentExists _ _); [|done].
    intros [= _ <-]. apply reqs_ok_same; by rsimp.
Qed.

(** What one step does to the requests: they evolve, or a Spawn's go with its
    row or with the finished life a reset begins anew. *)
Definition spawnGone (id : string) (s s' : Store) : Prop :=
  db_spawns s' !! id = None \/ exists r, db_spawns s !! id = Some r /\ isTerminalState (sp_state r) = true.
Definition requests_deleted (s s' : Store) : Prop :=
  exists id, spawnGone id s s' /\
    db_requests s' = filter (fun pr => pr_instance_id pr <> id) (db_requests s) /\
    db_next_request s' = db_next_request s /\ db_now s' = db_now s.

Lemma row_deleted_requests id s s' : row_deleted id s s' -> requests_deleted s s'.
Proof.
  intros [Hc (T1 & T2 & _ & _ & _ & _ & T3 & _)]. exists id. rewrite T1, T2, T3. unfold deleteRow in *.
  split_and!; rsimp; try done. left. specialize (Hc id). rsimp_in Hc. rewrite lookup_fmap, lookup_delete_eq in Hc. simpl in Hc.
  by destruct (db_spawns s' !! id).
Qed.

Lemma store_step_requests T text stamp s s' :
  store_step T text stamp s s' -> reqs_good s -> reqs_step s s' \/ requests_deleted s s'.
Proof.
  intros [id op s1 s2 Hop Hw | s1 s2 Hw | env days older s1 s2 Hw | n s1 Hn] Hg.
  - destruct (storeDeletes op) eqn:Hd; [|destruct (storeResets op) eqn:Hr].
    + right. eapply row_deleted_requests, own_write_guarantees; [by apply runStore_deletes|done].
    + right. exists id. destruct (own_write_guarantees _ _ _ _ (runStore_resets T text stamp id op Hr) Hw) as [? ?].
      split; [by right|done].
    + left. by apply (own_write_guarantees reqs_ok _ _ _ (runStore_inv T text stamp id op Hop Hd Hr) Hw).
  - left. by apply (program_inv (R := reqs_ok) _ _ _ _ Hw).
  - right. destruct (own_write_guarantees _ _ _ _ (expire_deletes T env days older) Hw) as [id Hid]. by eapply row_deleted_requests.
  - left. pose proof Hg as (H0 & H1 & H2 & H3). split; rsimp; [unfold reqs_good; by rsimp|lia| |].
    + intros r' Hr. left. exists r'. split; [done|]. apply evolves_refl. by eapply Forall_forall in H1.
    + intros r Hr. exists r. split; [|by left]. apply evolves_refl. by eapply Forall_forall in H1.
Qed.

Lemma requests_deleted_good s s' : requests_deleted s s' -> reqs_good s -> reqs_good s'.
Proof.
  intros (id & _ & E1 & E2 & E3) (H0 & H1 & H2 & H3). unfold reqs_good. rewrite E1, E2, E3. split_and!; [done|..].
  - rewrite Forall_forall in *. intros r [_ Hr]%list_elem_of_filter. auto.
  - rewrite Forall_forall in *. intros r [_ Hr]%list_elem_of_filter. auto.
  - by apply NoDup_fmap_filter.
Qed.

(** [gone_at T r s s']: along a history from [s] to [s'], one step removed
    what had become of [r]: it no longer awaited an answer, its Spawn's row
    went with it, or the Spawn had finished and was reused. *)
Definition gone_at T text stamp (r : PermReq) (s s' : Store) : Prop :=
  exists s1 s2 r1, rtc (store_step T text stamp) s s1 /\ store_step T text stamp s1 s2 /\
    rtc (store_step T text stamp) s2 s' /\ r1 ∈ db_requests s1 /\ req_evolves r r1 /\
    ((exists r2, req_evolves r1 r2 /\ where3 (awaitingAnswerSQL r2) = false) \/
     spawnGone (pr_instance_id r) s1 s2).

Record requests_history T text stamp (s s' : Store) : Prop := {
  rh_good : reqs_good s';
  rh_next : db_next_request s <= db_next_request s';
  rh_from : forall r', r' ∈ db_requests s' ->
    (exists r, r ∈ db_requests s /\ req_evolves r r') \/ db_next_request s <= pr_request_id r';
  rh_kept : forall r, r ∈ db_requests s ->
    (exists r', req_evolves r r' /\ r' ∈ db_requests s') \/ gone_at T text stamp r s s';
}.

Lemma evolves_instance r r' : req_evolves r r' -> pr_instance_id r' = pr_instance_id r /\ pr_request_id r' = pr_request_id r.
Proof. intros H. pose proof (ev_identity _ _ H) as E. unfold reqIdentity in E. by injection E. Qed.

(** One step, as a history. *)
Lemma step_history T text stamp s s1 :
  store_step T text stamp s s1 -> reqs_good s -> requests_history T text stamp s s1.
Proof.
  intros Hs Hg. pose proof Hg as (_ & H1 & _). rewrite Forall_forall in H1.
  destruct (store_step_requests _ _ _ _ _ Hs Hg) as [[g n f k]|Hd].
  - split; [done..|]. intros r Hr. destruct (k r Hr) as (r' & He & [Hin|Hna]); [left; eauto|right].
    exists s, s1, r. split_and!; [done|done|done|done|by apply evolves_refl; auto|left; eauto].
  - pose proof (requests_deleted_good _ _ Hd Hg) as Hg1. destruct Hd as (id & Hid & E1 & E2 & E3). split.
    + done.
    + lia.
    + intros r' Hr'. rewrite E1 in Hr'. apply list_elem_of_filter in Hr' as [_ Hr']. left. exists r'.
      split; [done|]. apply evolves_refl. auto.
    + intros r Hr. destruct (decide (pr_instance_id r = id)) as [E|Hne].
      * right. exists s, s1, r. rewrite E. split_and!; [done|done|done|done|by apply evolves_refl; auto|by right].
      * left. exists r. split; [apply evolves_refl; auto|]. rewrite E1. by apply list_elem_of_filter.
Qed.

Lemma gone_prefix T text stamp r r1 s s1 s' : store_step T text stamp s s1 -> req_evolves r r1 ->
  gone_at T text stamp r1 s1 s' -> gone_at T text stamp r s s'.
Proof.
  intros Hs He (u1 & u2 & q & H1 & H2 & H3 & H4 & H5 & H6). exists u1, u2, q.
  destruct (evolves_instance _ _ He) as [<- _]. split_and!; try done; [by eapply rtc_l|by eapply evolves_trans].
Qed.
Lemma gone_suffix T text stamp r s s1 s' : rtc (store_step T text stamp) s1 s' ->
  gone_at T text stamp r s s1 -> gone_at T text stamp r s s'.
Proof.
  intros Hs (u1 & u2 & q & H1 & H2 & H3 & H4). exists u1, u2, q. split_and!; try done; [by etrans|apply H4..].
Qed.

Lemma history_requests T text stamp s s' :
  rtc (store_step T text stamp) s s' -> reqs_good s -> requests_history T text stamp s s'.
Proof.
  induction 1 as [s|s s1 s' Hs Hrest IH]; intros Hg.
  - pose proof Hg as (_ & H1 & _). rewrite Forall_forall in H1.
    split; [done|lia|intros r Hr; left; eauto using evolves_refl|intros r Hr; left; eauto using evolves_refl].
  - destruct (step_history _ _ _ _ _ Hs Hg) as [g1 n1 f1 k1]. destruct (IH g1) as [g2 n2 f2 k2]. split; [done|lia| |].
    + intros r' Hr'. destruct (f2 r' Hr') as [(q & Hq & He)|]; [|right; lia].
      destruct (f1 q Hq) as [(r & Hr & He1)|Hn]; [left; exists r; split; [done|by eapply evolves_trans]|right].
      destruct (evolves_instance _ _ He) as [_ ->]. lia.
    + intros r Hr. destruct (k1 r Hr) as [(q & He & Hq)|Hgone]; [|right; by eapply gone_suffix].
      destruct (k2 q Hq) as [(r' & He' & Hr')|Hgone]; [left|right; by eapply gone_prefix].
      exists r'. split; [by eapply evolves_trans|done].
Qed.


(** C2: From a store with no request, whatever processes do in whatever
    order, no request is ever both acked by its relay hook and answered at
    the pane, no verdict reaches a relay hook that the row does not hold, and
    no row awaits an answer that was acked, closed or given at the pane. *)
Theorem relay_and_pane_exclude (T : Z) (text : CodexStartup -> string) (stamp : Z -> string) (s0 s : Store) (r : PermReq) :
  no_requests s0 -> rtc (store_step T text stamp) s0 s -> r ∈ db_requests s ->
  (pr_delivered_at r = None \/ pr_pane_answer r = PaneAnswerNone) /\
  (is_Some (pr_delivered_at r) -> exists d, pr_decision r = Some d /\ d <> "") /\
  (where3 (awaitingAnswerSQL r) = true ->
     pr_delivered_at r = None /\ pr_closed_at r = None /\ ~ completedPane r).
Proof.
  intros Hn%no_requests_good H Hr. destruct (rh_good _ _ _ _ _ (history_requests _ _ _ _ _ H Hn)) as (_ & Hg & _).
  rewrite Forall_forall in Hg. specialize (Hg r Hr). split_and!.
  - apply Hg.
  - intros Hd. destruct (good_acked r Hg Hd) as [d E]. exists d. split; [done|].
    intros ->. by apply (wf_decision r (good_wf r Hg)).
  - by apply awaiting_undelivered.
Qed.

Lemma refs_row_deleted id s s' : row_deleted id s s' -> refs_kept s s'.
Proof. intros [Hc Ht] Hok. apply (inv_core (R := refs_kept) _ _ Hc Ht), refs_delete, Hok. Qed.

Lemma refs_clock n s : refs_kept s (s <| db_now := n |>).
Proof. intros [R1 R2 R3 R4 R5]. split; by rsimp. Qed.

(** C38: The references always hold. In every history that starts from a store
    in which every parent is a row and every request, history entry, subagent
    and launch belongs to one, every later store is so: a statement that
    would name a parent that does not exist fails, a request is inserted only
    for a row, and a deleted row takes its dependents with it and leaves its
    children without a parent. *)
Theorem references_always_hold (T : Z) (text : CodexStartup -> string) (stamp : Z -> string) (s s' : Store) :
  refs_ok s -> rtc (store_step T text stamp) s s' -> refs_ok s'.
Proof.
  intros Hok H. induction H as [|s s1 s' Hs _ IH]; [done|]. apply IH. revert Hok.
  destruct Hs as [id op s s1 Hop Hw|s s1 Hw|env days older s s1 Hw|n s _]; [| | |apply refs_clock].
  2: apply (program_inv (R := refs_kept) _ _ _ _ Hw).
  2: destruct (own_write_guarantees _ _ _ _ (expire_deletes T env days older) Hw) as [id Hid]; by apply (refs_row_deleted id).
  destruct (storeDeletes op) eqn:Hd; [|destruct (storeResets op) eqn:Hr].
  - eapply refs_row_deleted, own_write_guarantees; [by apply runStore_deletes|done].
  - destruct op as [| |[]| | | | |]; try done. eapply (own_write_guarantees refs_kept); [|exact Hw]. simpl. unfold void.
    apply guarantees_bind; [apply reset_inv, refs_deleteRequests|guar].
  - apply (own_write_guarantees refs_kept _ _ _ (runStore_inv T text stamp id op Hop Hd Hr) Hw).
Qed.

(** ** The subagent tables, in every history *)

Lemma subs_same s s' : db_subagents s' = db_subagents s -> db_launches s' = db_launches s ->
  db_next_subagent s' = db_next_subagent s -> db_next_launch s' = db_next_launch s -> subs_kept s s'.
Proof.
  intros E1 E2 E3 E4 [G1 G2 G3 G4 G5 G6 G7 G8 G9].
  split; rewrite ?E1, ?E3; [|lia|intros e He; left; exists e; split; [done|reflexivity]].
  split; unfold entriesOf, launchesOf in *; by rewrite ?E1, ?E2, ?E3, ?E4.
Qed.

#[export] Instance subs_inv : StoreInv subs_kept.
Proof.
  split; try apply _.
  - intros s s' _ (_ & _ & _ & E1 & E2 & _ & _ & E3 & E4). by apply subs_same.
  - intros c f s _ _. unfold updateReqs. apply subs_same; by rsimp.
  - intros mk id token s x s' _. unfold insertRequest. destruct (db_spawns s !! id); [|by intros [= <- <-]].
    destruct (existsb _ _); [done|]. intros [= <- <-]. apply subs_same; by rsimp.
  - intros cap s gs u s' gs' ->%evictClosedRequests_spec. destruct (_ && _); [|done]. apply subs_same; by rsimp.
  - intros s s' H. apply (ss_good _ _ H).
  - intros id session path life s s'. unfold upsertSessionHistoryEntry. case_bool_decide; [|done]. intros [= <-].
    apply subs_same; by rsimp.
  - intros m s. apply subs_same; by rsimp.
  - intros text sp s n s'. unfold insertPendingStmt. case_bool_decide; [done|]. destruct (parentExists _ _); [|done].
    intros [= _ <-]. apply subs_same; by rsimp.
Qed.

Lemma subs_delete id s : subs_kept s (deleteRow id s).
Proof.
  assert (sub_step s (s <| db_subagents := filter (fun e => sa_instance_id e <> id) (db_subagents s) |>
                        <| db_launches := filter (fun l => la_instance_id l <> id) (db_launches s) |>)) as H
    by apply step_delete.
  etrans; [exact (ss_good _ _ H)|]. apply subs_same; unfold deleteRow; by rsimp.
Qed.

Lemma subs_row_deleted id s s' : row_deleted id s s' -> subs_kept s s'.
Proof. intros [Hc Ht]. etrans; [apply subs_delete|apply (inv_core (R := subs_kept) _ _ Hc Ht)]. Qed.

Lemma history_subs T text stamp s s' : rtc (store_step T text stamp) s s' -> subs_kept s s'.
Proof.
  intros H. induction H as [|s s1 s' Hs _ IH]; [done|]. etrans; [|exact IH].
  destruct Hs as [id op s s1 Hop Hw|s s1 Hw|env days older s s1 Hw|n s _]; [| | |by apply subs_same; rsimp].
  2: apply (program_inv (R := subs_kept) _ _ _ _ Hw).
  2: destruct (own_write_guarantees _ _ _ _ (expire_deletes T env days older) Hw) as [id Hid]; by apply (subs_row_deleted id).
  destruct (storeDeletes op) eqn:Hd; [|destruct (storeResets op) eqn:Hr].
  - eapply subs_row_deleted, own_write_guarantees; [by apply runStore_deletes|done].
  - destruct op as [| |[]| | | | |]; try done. eapply (own_write_guarantees subs_kept); [|exact Hw]. simpl. unfold void.
    apply guarantees_bind; [apply reset_inv|guar]. intros u. apply subs_same; unfold deleteRequests; by rsimp.
  - apply (own_write_guarantees subs_kept _ _ _ (runStore_inv T text stamp id op Hop Hd Hr) Hw).
Qed.

(** C39: The subagent tables are always well formed. In every history of writes
    by any number of processes that starts so: an entry is running, stopped or
    lost, and exactly then has no close reason, the stop's, or a loss's with
    its instant; it has a type, a run mode or a stop time exactly when it has
    the source that set it; it was first started no later than it was last;
    it is one per Spawn, life and subagent; a Spawn has one launch per tool
    use, and at most [SubagentCap] entries and as many launches. *)
Theorem subagents_always_well_formed (T : Z) (text : CodexStartup -> string) (stamp : Z -> string) (s s' : Store) :
  subs_good s -> rtc (store_step T text stamp) s s' -> subs_good s'.
Proof. intros Hg H. apply (st_good _ _ (history_subs _ _ _ _ _ H Hg)). Qed.

(** C40: A subagent's record only gains. In every history, an entry keeps its
    key, subagent, session and life; what is known of it is lost only with the
    entry: a confirmation stands, a description, model, tool use and parent
    keep their first value, a type or run mode changes only to one from a
    source of higher rank, and its first start only moves earlier. *)
Theorem subagent_records_only_gain (T : Z) (text : CodexStartup -> string) (stamp : Z -> string) (s s' : Store)
    (e e' : SubagentRow) :
  subs_good s -> rtc (store_step T text stamp) s s' -> e ∈ db_subagents s -> e' ∈ db_subagents s' ->
  sa_created_seq e' = sa_created_seq e -> entry_evolves e e'.
Proof.
  intros Hg H He He' Hseq. destruct (st_from _ _ (history_subs _ _ _ _ _ H Hg) e' He') as [(e0 & Hin & Hev)|Hn].
  - assert (e = e0) as ->; [|done]. eapply (NoDup_fmap_eq sa_created_seq); [apply (sg_seqs _ Hg)|done..|].
    destruct Hev as [E _]. unfold entryIdentity in E. injection E as E _. congruence.
  - pose proof (sg_next _ Hg) as Hnext. rewrite Forall_forall in Hnext. specialize (Hnext e He). simpl in Hnext. lia.
Qed.

(** ** Witnesses: an ack of the decided sample request, an insert *)

Definition ackOp : storeOp := StoreRequest (RequestAck "tok2" (Some 200000) None).
Definition ackedStore : Store := snd (fst (run (runStore 0 (fun _ => "") (fun _ => "") "leaf" ackOp) reqStore)).

Lemma ack_step : store_step 0 (fun _ => "") (fun _ => "") reqStore ackedStore.
Proof.
  apply (step_op _ _ _ "leaf" ackOp); [done|].
  exists (mkWorld reqStore [] [] []), [(reqStore, ackedStore)]. split; [vm_compute; reflexivity|].
  by apply list_elem_of_singleton.
Qed.


Definition insertOp : storeOp := StoreRequest (RequestUpsert plainGate "tok9" "Bash" "{}" 0 WriterProcessHook).
Definition insertedStore : Store := snd (fst (run (runStore 0 (fun _ => "") (fun _ => "") "leaf" insertOp) paneStore)).

Lemma insert_step : store_step 0 (fun _ => "") (fun _ => "") paneStore insertedStore.
Proof.
  apply (step_op _ _ _ "leaf" insertOp); [done|].
  exists (mkWorld paneStore [] [] []), [(paneStore, insertedStore)]. split; [vm_compute; reflexivity|].
  by apply list_elem_of_singleton.
Qed.

Lemma relay_and_pane_exclude_witness :
  exists r, r ∈ db_requests insertedStore /\ where3 (awaitingAnswerSQL r) = true /\
    pr_delivered_at r = None /\ pr_closed_at r = None /\ ~ completedPane r.
Proof.
  destruct (db_requests insertedStore) as [|r l] eqn:E; [by vm_compute in E|]. exists r.
  assert (r ∈ db_requests insertedStore) as Hr by (rewrite E; left).
  assert (where3 (awaitingAnswerSQL r) = true) as Ha by (vm_compute in E; injection E as <- _; reflexivity).
  rewrite <- E. split; [done|]. split; [done|].
  refine (proj2 (proj2 (relay_and_pane_exclude 0 (fun _ => "") (fun _ => "") paneStore insertedStore r _ _ Hr)) Ha).
  - by split.
  - exact (rtc_once _ _ insert_step).
Defined.

Lemma paneStore_refs : refs_ok paneStore.
Proof.
  split; try by constructor. intros id r p Hr Hp.
  assert (db_spawns paneStore = {[ "leaf" := paneRow ]}) as E by reflexivity.
  rewrite E in Hr. apply lookup_singleton_Some in Hr as [<- <-]. by vm_compute in Hp.
Qed.

Lemma references_always_hold_witness :
  refs_ok insertedStore /\ length (db_requests insertedStore) = 1%nat.
Proof.
  split; [|vm_compute; reflexivity].
  apply (references_always_hold 0 (fun _ => "") (fun _ => "") paneStore insertedStore).
  - exact paneStore_refs.
  - exact (rtc_once _ _ insert_step).
Defined.

(** *** A subagent started by its hook, then reported finished *)

Definition trackedStore : Store :=
  storeOf {[ "leaf" := paneRow <| sp_subagent_tracking := 1 |> <| sp_launch_token := Some "t1" |> ]} 5000.
Definition startOp : storeOp :=
  StoreSubagent (SubagentLifecycle plainGate (mkLifecycleEvent SubagentLifecycleStart "a1" "sess" "Explore" false [] 4000)
    "SubagentStart" "" false).
Definition detailsOp : storeOp :=
  StoreSubagent (SubagentAfter plainGate (mkAfterWrite None
    (Some (mkDetails "use1" "a1" "" "sess" "Plan" "look around" "m1" SubagentLaunchForegroundFinished 4500)) None None)).
Definition afterOp (op : storeOp) (s : Store) : Store :=
  snd (fst (run (runStore 0 (fun _ => "") (fun _ => "") "leaf" op) s)).
Definition startedStore : Store := afterOp startOp trackedStore.
Definition finishedSubStore : Store := afterOp detailsOp startedStore.

Lemma start_store_step : store_step 0 (fun _ => "") (fun _ => "") trackedStore startedStore.
Proof.
  apply (step_op _ _ _ "leaf" startOp); [done|].
  exists (mkWorld trackedStore [] [] []), [(trackedStore, startedStore)]. split; [vm_compute; reflexivity|].
  by apply list_elem_of_singleton.
Qed.
Lemma details_store_step : store_step 0 (fun _ => "") (fun _ => "") startedStore finishedSubStore.
Proof.
  apply (step_op _ _ _ "leaf" detailsOp); [done|].
  exists (mkWorld startedStore [] [] []), [(startedStore, finishedSubStore)]. split; [vm_compute; reflexivity|].
  by apply list_elem_of_singleton.
Qed.

Lemma tracked_good : subs_good trackedStore.
Proof. split; try (by constructor); intros id; vm_compute; lia. Qed.

Lemma subagents_always_well_formed_witness : subs_good startedStore /\ length (db_subagents startedStore) = 1%nat.
Proof.
  split; [|vm_compute; reflexivity].
  exact (subagents_always_well_formed 0 (fun _ => "") (fun _ => "") trackedStore startedStore tracked_good
           (rtc_once _ _ start_store_step)).
Defined.

Definition firstEntry (s : Store) : SubagentRow := default zeroEntry (head (db_subagents s)).
Lemma started_entry : db_subagents startedStore = [firstEntry startedStore].
Proof. vm_compute. reflexivity. Qed.
Lemma finished_entry : db_subagents finishedSubStore = [firstEntry finishedSubStore].
Proof. vm_compute. reflexivity. Qed.
Lemma finished_seq : sa_created_seq (firstEntry finishedSubStore) = sa_created_seq (firstEntry startedStore).
Proof. vm_compute. reflexivity. Qed.
Lemma started_good : subs_good startedStore.
Proof. apply (st_good _ _ (history_subs _ _ _ _ _ (rtc_once _ _ start_store_step) tracked_good)). Qed.

Lemma subagent_records_only_gain_witness :
  entry_evolves (firstEntry startedStore) (firstEntry finishedSubStore) /\
  (sa_state (firstEntry startedStore), sa_state (firstEntry finishedSubStore)) = ("running", "stopped") /\
  sa_subagent_type (firstEntry finishedSubStore) = Some "Explore".
Proof.
  split; [|split; vm_compute; reflexivity].
  apply (subagent_records_only_gain 0 (fun _ => "") (fun _ => "") startedStore finishedSubStore).
  - exact started_good.
  - exact (rtc_once _ _ details_store_step).
  - rewrite started_entry. apply list_elem_of_here.
  - rewrite finished_entry. apply list_elem_of_here.
  - exact finished_seq.
Defined.
