(* ===== verification/ProtocolRun.v ===== *)
(** * The store implements the request protocol

    Every operation commits steps of Protocol.v's protocol, by the interface
    of StoreInv.v, so that every history of the store is a run of it. *)

From S2P Require Import Prelude Sql Rows Display Settle Family Requests History Steps Gate HookWrites HookProps RelayWrites Protocol RequestInv SubagentWrites SubagentInv Lifecycle Reuse LifecycleProps ReuseProps StoreInv References StoreOps HandlerInv System.

(** One commit, as steps of the protocol. *)
Definition proto_ok (s s' : Store) : Prop :=
  reqs_good s -> reqs_good s' /\ rtc protocol_step (protocol_of s) (protocol_of s').

#[export] Instance proto_ok_preorder : PreOrder proto_ok.
Proof.
  split; [by intros s Hg|]. intros s s1 s2 H1 H2 Hg. destruct (H1 Hg) as [Hg1 R1]. destruct (H2 Hg1) as [Hg2 R2].
  split; [done|by etrans].
Qed.

Lemma moved_refl x : moved x x.
Proof. by destruct x as [[? ?]|]. Qed.

(** A request's entry moves as the request evolves. *)
Lemma moved_map (h : PermReq -> PermReq) l i :
  (forall r, r ∈ l -> req_evolves r (h r)) ->
  moved ((list_to_map (requestEntry <$> l) : gmap Z _) !! i) ((list_to_map (requestEntry <$> (h <$> l)) : gmap Z _) !! i).
Proof.
  induction l as [|r l IH]; intros Hh; [done|]. simpl.
  assert (req_evolves r (h r)) as He by (apply Hh; by left). destruct (evolves_instance _ _ He) as [Ei Er].
  rewrite Er. destruct (decide (i = pr_request_id r)) as [->|Hne].
  - rewrite !lookup_insert_eq. simpl. split; [done|apply He].
  - rewrite !lookup_insert_ne by done. apply IH. intros q Hq. apply Hh. by right.
Qed.

Lemma requestIds l : (requestEntry <$> l).*1 = pr_request_id <$> l.
Proof. by rewrite <- list_fmap_compose. Qed.

Lemma protocol_lookup s i x : reqs_good s ->
  pt_requests (protocol_of s) !! i = Some x <-> exists r, r ∈ db_requests s /\ requestEntry r = (i, x).
Proof.
  intros (_ & _ & _ & Hnd). simpl. rewrite <- elem_of_list_to_map by (by rewrite requestIds).
  rewrite list_elem_of_fmap. naive_solver.
Qed.

Lemma protocol_new s i : reqs_good s -> db_next_request s <= i -> pt_requests (protocol_of s) !! i = None.
Proof.
  intros Hg Hi. apply eq_None_not_Some. intros [x Hx]. apply protocol_lookup in Hx as (r & Hr & E); [|done].
  destruct Hg as (_ & _ & Hlt & _). rewrite Forall_forall in Hlt. specialize (Hlt r Hr). injection E as <- _. lia.
Qed.

Lemma proto_ok_same s s' :
  db_requests s' = db_requests s -> db_next_request s' = db_next_request s -> db_now s' = db_now s -> proto_ok s s'.
Proof.
  intros E1 E2 E3 Hg. unfold protocol_of. rewrite E1, E2. split; [|done]. by unfold reqs_good in *; rewrite E1, E2, E3.
Qed.

Lemma proto_ok_update c f s :
  (0 < db_now s -> forall r, req_good r -> c r = true -> req_evolves r (f r)) -> proto_ok s (updateReqs c f s).
Proof.
  intros Hf Hg. split; [by apply (rs_good s), reqs_ok_update|]. destruct Hg as (H0 & H1 & _).
  apply rtc_once. unfold protocol_of, updateReqs. rsimp. apply moves. intros i. apply moved_map.
  intros r Hr. rewrite Forall_forall in H1. destruct (c r) eqn:E; [auto|by apply evolves_refl; auto].
Qed.

Lemma proto_ok_insert mk id token s x s' :
  (forall rid r, req_good (mk rid r) /\ pr_request_id (mk rid r) = rid /\ pr_instance_id (mk rid r) = id /\
     exists b, phase_of (mk rid r) = Waiting b None None) ->
  insertRequest mk id token s = Ok (x, s') -> proto_ok s s'.
Proof.
  intros Hmk Hi Hg. split.
  { eapply rs_good, reqs_ok_insert; [|exact Hi|done]. intros rid r. destruct (Hmk rid r) as (? & ? & _). done. }
  revert Hi. unfold insertRequest. destruct (db_spawns s !! id) as [r|]; [|by intros [= <- <-]].
  destruct (existsb _ _); [done|]. intros [= <- <-]. unfold protocol_of. rsimp. apply rtc_once.
  destruct (Hmk (db_next_request s) r) as (_ & E1 & E2 & b & E3).
  pose proof (protocol_new s (db_next_request s) Hg) as Hnew. simpl in Hnew.
  rewrite fmap_app. simpl. unfold requestEntry at 3. rewrite E1, E2, E3, list_to_map_snoc.
  - apply records. apply Hnew. lia.
  - apply not_elem_of_list_to_map. apply Hnew. lia.
Qed.

Lemma filter_requests_lookup (P : PermReq -> Prop) `{forall r, Decision (P r)} s i x : reqs_good s ->
  (list_to_map (requestEntry <$> filter P (db_requests s)) : gmap Z _) !! i = Some x <->
  exists r, r ∈ db_requests s /\ P r /\ requestEntry r = (i, x).
Proof.
  intros (_ & _ & _ & Hnd). rewrite <- elem_of_list_to_map.
  - rewrite list_elem_of_fmap. setoid_rewrite list_elem_of_filter. naive_solver.
  - rewrite requestIds. by apply NoDup_fmap_filter.
Qed.

(** Requests kept by a filter, as a part of the protocol's map. *)
Lemma filtered_part (P : PermReq -> Prop) `{forall r, Decision (P r)} s : reqs_good s ->
  (list_to_map (requestEntry <$> filter P (db_requests s)) : gmap Z _) ⊆ pt_requests (protocol_of s).
Proof.
  intros Hg. apply map_subseteq_spec. intros i x (r & Hr & _ & E)%filter_requests_lookup; [|done].
  apply protocol_lookup; eauto.
Qed.

Lemma proto_ok_evict cap : tx_keeps proto_ok (evictClosedRequests cap).
Proof.
  intros s gs u s' gs' H Hg. split; [by apply (rs_good s), (reqs_ok_evict cap s gs u s' gs' H)|].
  apply evictClosedRequests_spec in H as ->. destruct (_ && _); [|done]. set (ids := evictedIds s _).
  apply rtc_once. unfold protocol_of. rsimp. apply drops; [by apply filtered_part|].
  intros i id p Hi Hn. apply (protocol_lookup s i (id, p) Hg) in Hi as (r & Hr & E). injection E as Ei Eo Ep.
  destruct (decide (pr_request_id r ∈ ids)) as [Hin|Hout].
  - destruct (evicted_evictable _ _ _ Hin) as (r' & Hr' & Hid & Hev). apply evictable_spec in Hev as [Hna _].
    destruct Hg as (_ & H1 & _ & Hnd). rewrite Forall_forall in H1.
    assert (r' = r) as -> by by eapply NoDup_fmap_eq. subst p. apply not_true_iff_false. intros Ha.
    apply awaiting_answerable in Ha; [congruence|auto].
  - exfalso. cut (Some (id, p) = None); [done|]. rewrite <- Hn. symmetry. apply filter_requests_lookup; [done|].
    exists r. split_and!; [done..|]. unfold requestEntry. congruence.
Qed.

Lemma proto_ok_lost s s' : requests_deleted s s' -> proto_ok s s'.
Proof.
  intros Hd Hg. split; [by eapply requests_deleted_good|]. destruct Hd as (id & _ & E1 & E2 & _).
  apply rtc_once. unfold protocol_of at 2. rewrite E1, E2.
  replace (list_to_map _) with (filter (fun x => fst (snd x) <> id) (pt_requests (protocol_of s))); [apply loses|].
  apply map_eq. intros i. apply option_eq. intros [id' p].
  rewrite map_lookup_filter_Some, protocol_lookup, filter_requests_lookup by done. simpl. split.
  - intros [(r & Hr & E) Hne]. exists r. split; [done|]. injection E as <- <- <-. done.
  - intros (r & Hr & Hne & E). split; [eauto|]. by injection E as _ <- _.
Qed.

#[export] Instance proto_inv : StoreInv proto_ok.
Proof.
  split; try apply _; eauto using proto_ok_evict, proto_ok_insert, proto_ok_update.
  - intros s s' _ (E1 & E2 & _ & _ & _ & _ & E3 & _). by apply proto_ok_same.
  - intros s s' [_ [E1 E2] _ _ E3 _ _ _]. by apply proto_ok_same.
  - intros id session path life s s'. unfold upsertSessionHistoryEntry. case_bool_decide; [|done]. intros [= <-].
    apply proto_ok_same; by rsimp.
  - intros m s. apply proto_ok_same; by rsimp.
  - intros text sp s n s'. unfold insertPendingStmt. case_bool_decide; [done|]. destruct (parentExists _ _); [|done].
    intros [= _ <-]. apply proto_ok_same; by rsimp.
Qed.

Lemma store_step_protocol T text stamp s s' : store_step T text stamp s s' -> proto_ok s s'.
Proof.
  intros [id op s1 s2 Hop Hw | s1 s2 Hw | env days older s1 s2 Hw | n s1 Hn].
  - destruct (storeDeletes op) eqn:Hd; [|destruct (storeResets op) eqn:Hr].
    + eapply proto_ok_lost, row_deleted_requests, own_write_guarantees; [by apply runStore_deletes|done].
    + apply proto_ok_lost. exists id.
      destruct (own_write_guarantees _ _ _ _ (runStore_resets T text stamp id op Hr) Hw) as [? ?]. split; [by right|done].
    + by apply (own_write_guarantees proto_ok _ _ _ (runStore_inv T text stamp id op Hop Hd Hr) Hw).
  - apply (program_inv (R := proto_ok) _ _ _ _ Hw).
  - destruct (own_write_guarantees _ _ _ _ (expire_deletes T env days older) Hw) as [id Hid].
    by eapply proto_ok_lost, row_deleted_requests.
  - intros (_ & Hg). unfold protocol_of, reqs_good. by rsimp.
Qed.


