(* ===== verification/ObserveProps.v ===== *)
(** * What an observation may write

    Every write of ObserveNeedsIntelligence is of the row it examined, under
    requests that are all still as sampled: it stores the plan's observation,
    advances observation_version, and starts the clocks of requests that had
    none ([observation_writes_what_it_examined]). The families it reports are
    those of the Spawn and its stored ancestors
    ([observed_families_are_the_ancestors]). *)

From S2P Require Import Prelude Sql Rows Requests Settle Family Display History Steps Gate HookWrites RelayWrites RequestInv Lifecycle CursorWrites Observe.

(** ** The ancestors *)

Lemma chainIds_spec m id x : is_Some (m !! id) -> is_Some (m !! x) -> x ∈ chainIds m id <-> descends m id x.
Proof.
  intros [rid Hid] [rx Hx].
  destruct (closure_total m (closureFuel m) [id] {[ id ]}) as [c Hc].
  { unfold closureFuel. pose proof (size_allParents m).
    assert (size (allParents m ∖ {[ id ]}) <= size (allParents m))%nat by (apply subseteq_size; set_solver).
    assert (size m <> 0)%nat by (intros E%map_size_empty_inv; by subst). simpl. lia. }
  unfold chainIds. rewrite Hc. simpl.
  destruct (closure_closed m _ _ _ _ Hc) as [Hseen Hcl]; [intros y; set_solver|]. split.
  - intros Hin. set (P y := is_Some (m !! y) -> descends m id y). enough (P x) as HP by (apply HP; eauto).
    revert x Hin rx Hx. cut (forall x, x ∈ c -> P x); [intros H x Hin _ _; auto|].
    eapply closure_least; [exact Hc|..].
    + intros y p Hy Hp Hsp. eapply descends_trans_parent; [|done..]. apply Hy.
      unfold parentOf in Hp. destruct (m !! y); eauto. done.
    + intros y ->%list_elem_of_singleton _. by eapply descends_self.
    + intros y ->%elem_of_singleton _. by eapply descends_self.
  - intros Hd. assert (id ∈ c) as Hi by set_solver. clear Hid Hx Hseen Hc.
    induction Hd; [done|]. apply IHHd. by eapply Hcl.
Qed.

(** What an observation reports of the families its commit refreshed: for the
    Spawn and each stored ancestor, and no other row, what the reader's own
    settle read shows. *)
Theorem observed_families_are_the_ancestors (settle : SettleRead) (s : Store) (id j v : string) :
  is_Some (db_spawns s !! id) ->
  observedFamilies id settle s !! j = Some v <->
  exists r, db_spawns s !! j = Some r /\ descends (db_spawns s) id j /\ v = familyExpr settle r.
Proof.
  intros Hid. unfold observedFamilies. rewrite lookup_fmap, fmap_Some. setoid_rewrite map_lookup_filter_Some. simpl. split.
  - intros (r & [Hr Hc] & ->). exists r. split_and!; try done. apply chainIds_spec in Hc; eauto.
  - intros (r & Hr & Hd & ->). exists r. split_and!; try done. apply chainIds_spec; eauto.
Qed.

(** ** The samples are the requests *)

Lemma sampleByID_in samples rid pr : sampleByID samples rid = Some pr -> pr ∈ ps_Request <$> samples.
Proof. unfold sampleByID. intros [H _]%find_some. apply list_elem_of_In. by apply in_rev in H. Qed.

(** As many samples as requests, and each request among them: the samples are
    the requests. *)
Lemma asSampled_perm samples current : NoDup (pw_RequestID <$> current) -> asSampled samples current = true ->
  current ≡ₚ ps_Request <$> samples.
Proof.
  unfold asSampled. intros Hnd [Hlen Hall]%andb_true_iff. apply Nat.eqb_eq in Hlen. rewrite forallb_forall in Hall.
  apply NoDup_fmap_1 in Hnd. apply NoDup_Permutation_bis.
  - by apply NoDup_ListNoDup.
  - rewrite length_fmap. lia.
  - intros pr Hin. apply list_elem_of_In. eapply sampleByID_in. specialize (Hall pr Hin). by bsimp.
Qed.

Lemma requestRow_ids id s : NoDup (pr_request_id <$> db_requests s) -> NoDup (pw_RequestID <$> requestRows id s).
Proof.
  intros H. unfold requestRows. rewrite <- list_fmap_compose.
  change (pw_RequestID ∘ scanPermissionRow) with pr_request_id. by apply NoDup_fmap_filter.
Qed.

(** ** The clocks *)

Definition startClock (now : Z) (reqs : list PermReq) (sample : PermissionSample) : list PermReq :=
  (fun pr => if pr_request_id pr =? pw_RequestID (ps_Request sample) then observedClockSet now sample pr else pr) <$> reqs.

Lemma startClocks_requests now clocks s gs u s' gs' : startClocks now clocks s gs = (Ok (u, s'), gs') ->
  db_requests s' = foldl (startClock now) (db_requests s) clocks /\ db_spawns s' = db_spawns s.
Proof.
  revert s gs. induction clocks as [|sample clocks IH]; intros s gs; simpl; [by intros [= _ <- _]|].
  intros (x & s1 & gs1 & [= _ <-]%tstmt_Ok & H)%tbind_Ok. apply IH in H as [-> ->].
  unfold updateReqs, startClock. rsimp. done.
Qed.

(** A request after the clocks: untouched, or started once, by its sample. *)
Lemma started_clock now clocks reqs r : NoDup (pw_RequestID ∘ ps_Request <$> clocks) ->
  r ∈ foldl (startClock now) reqs clocks ->
  r ∈ reqs \/ exists sample r0, sample ∈ clocks /\ r0 ∈ reqs /\ pr_request_id r0 = pw_RequestID (ps_Request sample) /\
                r = observedClockSet now sample r0.
Proof.
  revert reqs. induction clocks as [|c clocks IH]; intros reqs; simpl; [by left|].
  rewrite NoDup_cons. intros [Hc Hnd] [Hin|(sample & r0 & Hs & Hr & Hid & ->)]%IH; [| |done].
  - apply list_elem_of_fmap in Hin as (r0 & E & Hr0). destruct (Z.eqb_spec (pr_request_id r0) (pw_RequestID (ps_Request c))).
    + right. exists c, r0. split_and!; try done. by left.
    + left. by subst.
  - apply list_elem_of_fmap in Hr as (r1 & -> & Hr1).
    assert (pw_RequestID (ps_Request sample) <> pw_RequestID (ps_Request c)) as Hne.
    { intros E. apply Hc. apply list_elem_of_fmap. exists sample. by simpl. }
    assert (pr_request_id r1 = pw_RequestID (ps_Request sample)) as E1.
    { rewrite <- Hid. unfold observedClockSet. by destruct (_ =? _); rsimp. }
    right. exists sample, r1. rewrite (proj2 (Z.eqb_neq _ _)) by congruence. split_and!; try done. by right.
Qed.

(** ** The write *)

(** What one committed observation by requests is: of the row it examined,
    under the requests it sampled. *)
Record observedStep (id : string) (examined : SpawnRow) (samples : list PermissionSample) (now : Z) (s s' : Store)
    : Prop := {
  os_row : exists row, db_spawns s !! id = Some row /\ sameExamined row examined = true;
  os_requests : asSampled samples (requestRows id s) = true;
  os_rows : exists raw, rows_step (fun _ j r r' => same_core (if decide (j = id) then observationSet raw r else r) r') s s';
  os_clocks : NoDup (pr_request_id <$> db_requests s) -> forall r', r' ∈ db_requests s' ->
    r' ∈ db_requests s \/
    exists r sample, r ∈ db_requests s /\ sample ∈ samples /\ scanPermissionRow r = ps_Request sample /\
      permissionCandidate examined (ps_Request sample) sample now = true /\
      millisTime (pr_fallback_at r) = None /\ r' = observedClockSet now sample r;
}.

Lemma plan_sampled row samples now sample : sample ∈ planPermission row samples now ->
  sample ∈ samples /\ permissionCandidate row (ps_Request sample) sample now = true /\
  pw_FallbackAt (ps_Request sample) = None.
Proof.
  unfold planPermission. intros (Hin & [Hc Hz]%andb_true_iff)%list_elem_of_In%filter_In.
  split_and!; [by apply list_elem_of_In|done|]. unfold IsZero in Hz. by destruct (pw_FallbackAt _).
Qed.

Lemma plan_NoDup row samples now (f : PermissionSample -> Z) :
  NoDup (f <$> samples) -> NoDup (f <$> planPermission row samples now).
Proof.
  unfold planPermission. induction samples as [|x l IH]; simpl; [done|]. rewrite NoDup_cons. intros [Hx Hl].
  destruct (_ && _); simpl; [|auto]. rewrite NoDup_cons. split; [|auto]. intros (y & E & Hy)%list_elem_of_fmap.
  apply Hx, list_elem_of_fmap. exists y. split; [done|]. apply list_elem_of_In in Hy. apply filter_In in Hy as [Hy _].
  by apply list_elem_of_In.
Qed.

Lemma familiesAfter_core T id reported row raw settle s gs a s' gs' :
  refreshFamiliesAfterObservation T id reported row raw settle s gs = (Ok (a, s'), gs') ->
  core_step s s' /\ db_requests s' = db_requests s.
Proof.
  unfold refreshFamiliesAfterObservation. cbv zeta. repeat case_match; try (intros [= _ <- _]; split; [apply core_step_refl|done]).
  intros (x & s1 & gs1 & [= _ <-]%tstmt_Ok & (y & s2 & gs2 & [= _ <-]%tstmt_Ok & [= _ <- _])%tbind_Ok)%tbind_Ok.
  split; [apply core_step_refresh|by unfold refreshFamilies; rsimp].
Qed.

Lemma locked_Ok id examined s gs row s' gs' : lockedObservationRow id examined s gs = (Ok (row, s'), gs') ->
  db_spawns s !! id = Some row /\ sameExamined row examined = true /\ s' = s.
Proof.
  unfold lockedObservationRow. intros (found & s1 & gs1 & [= <- <-]%tstmt_Ok & H)%tbind_Ok.
  destruct (db_spawns s !! id) as [r|] eqn:E; [|done]. destruct (sameExamined r examined) eqn:Es; [|done]. by injection H as <- <- _.
Qed.

Lemma needsIntelligence_step T settle id examined samples now p s gs a s' gs' :
  needsIntelligenceBody T settle id examined samples (planPermission examined samples now) now p s gs = (Ok (a, s'), gs') ->
  observedStep id examined samples now s s'.
Proof.
  unfold needsIntelligenceBody. intros (row & s1 & gs1 & (Hrow & Hsame & ->)%locked_Ok & H)%tbind_Ok.
  apply tbind_Ok in H as (current & s2 & gs2 & [= <- <-]%tstmt_Ok & H).
  destruct (asSampled samples (requestRows id s)) eqn:Hs; simpl in H; [|done].
  apply tbind_Ok in H as ([] & s3 & gs3 & [Hr3 Hm3]%startClocks_requests & H).
  apply tbind_Ok in H as (b & s4 & gs4 & [= Hb]%tstmt_Ok & [Hc Hr4]%familiesAfter_core).
  unfold update1 in Hb. rewrite Hm3, Hrow in Hb. injection Hb as _ <-. rsimp_in Hr4. split; [eauto|done|..].
  - exists (pl_raw p). eapply rows_step_core; [|
      |exact Hc]; [intros j r r1 r'; apply transitivity|].
    intros j. rsimp. destruct (decide (j = id)) as [->|Hne].
    + rewrite Hrow, lookup_insert_eq. done.
    + rewrite lookup_insert_ne by done. by destruct (db_spawns s !! j).
  - intros Hnd r' Hr'. rewrite Hr4, Hr3 in Hr'.
    pose proof (asSampled_perm samples _ (requestRow_ids id s Hnd) Hs) as Hperm.
    assert (NoDup (pw_RequestID ∘ ps_Request <$> samples)) as Hids.
    { rewrite list_fmap_compose, <- Hperm. by apply requestRow_ids. }
    apply started_clock in Hr' as [Hr'|(sample & r & (Hin & Hcand & Hz)%plan_sampled & Hr & Hid & ->)]; [by left| |].
    + right. exists r, sample.
      assert (scanPermissionRow r = ps_Request sample) as E; [|split_and!; try done; by rewrite <- Hz, <- E].
      assert (ps_Request sample ∈ requestRows id s) as Hq.
      { rewrite Hperm. apply list_elem_of_fmap. eauto. }
      unfold requestRows in Hq. apply list_elem_of_fmap in Hq as (r0 & E0 & [_ Hr0]%list_elem_of_filter).
      rewrite E0. f_equal. eapply NoDup_fmap_eq; [exact Hnd|done..|]. by rewrite Hid, E0.
    + by apply plan_NoDup.
Qed.

(** An observation by requests writes what it examined. Whatever other
    processes do, each write it commits is of the row the caller examined
    (the same snapshot, launch, agent, state, epoch and observations) while
    every request of the Spawn is still exactly as sampled: it replaces that
    row's observation, advances its observation_version, touches no other
    column of any row but the family aggregates, and starts the fallback
    clock only of a request of the current interval that awaits an answer and
    had no clock stored, keeping the instant its hook was seen gone. *)
Theorem observation_writes_what_it_examined (T : Z) (settle : SettleRead) (id : string) (examined : SpawnRow)
    (reported : string) (samples : list PermissionSample) (now : Z) :
  guarantees (observedStep id examined samples now)
    (ObserveNeedsIntelligence T settle id examined reported samples now).
Proof.
  apply observeAs_writes. intros p s gs a s' gs'. apply needsIntelligence_step.
Qed.

(** ** An observation that starts a clock: the open sample request, whose hook
    was seen gone *)

Definition askedRow : SpawnRow := soloRow <| sp_state := StateCheckPermission |> <| sp_agent := Some AgentClaude |>.
Definition askedReq : PermReq :=
  openReq <| pr_owner_launch_token := sp_launch_token askedRow |> <| pr_owner_permission_epoch := Some (sp_permission_epoch askedRow) |>
    <| pr_hook_gone_at := Some 150000 |>.
Definition askedStore : Store := mkStore {[ "leaf" := askedRow ]} [askedReq] 4 [] [] [] ∅ 200000 1 1.
Definition askedSample : PermissionSample :=
  mkSample (scanPermissionRow askedReq) (Some (150000 * nsPerMs)) FallbackProcess.
Definition observedStore : Store :=
  snd (fst (run (ObserveNeedsIntelligence 0 (mkSettleRead 0 200000) "leaf" askedRow StateCheckPermission [askedSample]
                   (200000 * nsPerMs)) askedStore)).

Example observed_clock :
  (fun r => (pr_fallback_at r, pr_fallback_basis r, pr_hook_gone_at r)) <$> db_requests observedStore =
    [(Some 150000, Some FallbackProcess, Some 150000)] /\
  sp_observation_version <$> (db_spawns observedStore !! "leaf") = Some (sp_observation_version askedRow + 1).
Proof. by vm_compute. Qed.

(** A request answered since it was sampled refuses the observation. *)
Example changed_sample_refused :
  ob_Error <$> [default (mkObserved zeroDetail None None)
    (match fst (fst (run (ObserveNeedsIntelligence 0 (mkSettleRead 0 200000) "leaf" askedRow StateCheckPermission [askedSample]
       (200000 * nsPerMs)) (askedStore <| db_requests := [askedReq <| pr_pane_answer := PaneAnswerIntent |>] |>))) with
     | Ok o => Some o | Err _ => None end)] = [Some ESampleChanged].
Proof. by vm_compute. Qed.
