(* ===== verification/Trail.v ===== *)
(** * What an operation leaves in the event log

    [speaks P m]: whatever the other processes do and whatever fails, every
    event [m] leaves is in [P]. [spk] takes a program apart, as [guar] does
    for its writes; [about id] is what an operation on one Spawn may say. *)

From S2P Require Import Prelude Sql Rows Display Settle Family Requests History Steps Gate HookWrites SubagentWrites RelayWrites HookEnv RelayHook Capacity CursorWrites.

Section Speaks.
Context {S Ev : Type} (P : Ev -> Prop).

Definition speaks {A} (m : M S Ev A) : Prop :=
  forall w, exists tr, w_trail (snd (m w)) = w_trail w ++ tr /\ Forall P tr.

Lemma speaks_silent {A} (m : M S Ev A) : (forall w, w_trail (snd (m w)) = w_trail w) -> speaks m.
Proof. intros H w. exists []. by rewrite H, app_nil_r. Qed.

Lemma speaks_ret {A} (a : A) : speaks (ret a).
Proof. by apply speaks_silent. Qed.
Lemma speaks_fail {A} e : speaks (@fail S Ev A e).
Proof. by apply speaks_silent. Qed.
Lemma speaks_read {A} (f : S -> A) : speaks (read f).
Proof. apply speaks_silent. intros w. unfold read. by destruct (next_gap (w_gaps w)) as [[e|e why] gs]. Qed.
Lemma speaks_stmt {A} (f : S -> result (A * S)) : speaks (stmt f).
Proof.
  apply speaks_silent. intros w. unfold stmt. destruct (next_gap (w_gaps w)) as [[e|e why] gs]; [|done].
  by destruct (f _) as [[a s']|err].
Qed.
Lemma speaks_txImmediate {A} (body : Tx S A) : speaks (txImmediate body).
Proof.
  apply speaks_silent. intros w. unfold txImmediate. destruct (next_gap (w_gaps w)) as [[e|e why] gs]; [|done].
  destruct (body _ _) as [[[a s']|err] gs1]; [|by destruct err]. by destruct (next_gap gs1) as [[e2|e2 why2] gs2].
Qed.
Lemma speaks_txBounded {A} (body : Tx S A) : speaks (txBounded body).
Proof.
  apply speaks_silent. intros w. unfold txBounded. destruct (next_gap (w_gaps w)) as [[e|e [|b]] gs]; [|done..].
  destruct (body _ _) as [[[a s']|err] gs1]; [|done]. by destruct (next_gap gs1) as [[e2|e2 [|[]]] gs2].
Qed.

Lemma speaks_emit e : P e -> speaks (emit e).
Proof. intros H w. exists [e]. by split; [|constructor]. Qed.
Lemma speaks_emits es : Forall P es -> speaks (emits es).
Proof. intros H w. by exists es. Qed.

Lemma speaks_catch {A B} (m : M S Ev A) (h : result A -> M S Ev B) :
  speaks m -> (forall r, speaks (h r)) -> speaks (catch m h).
Proof.
  intros Hm Hh w. unfold catch. destruct (Hm w) as (t1 & E1 & F1). destruct (m w) as [r w1]. simpl in E1.
  destruct (Hh r w1) as (t2 & E2 & F2). exists (t1 ++ t2). rewrite E2, E1, app_assoc. split; [done|by apply Forall_app].
Qed.
Lemma speaks_bind {A B} (m : M S Ev A) (k : A -> M S Ev B) :
  speaks m -> (forall a, speaks (k a)) -> speaks (bind m k).
Proof.
  intros Hm Hk w. rewrite bind_catch. apply speaks_catch; [done|]. intros [a|e]; [apply Hk|apply speaks_fail].
Qed.

(** An operation whose result says what comes next. *)
Lemma speaks_catch_result {A B} (Q : result A -> Prop) (m : M S Ev A) (h : result A -> M S Ev B) :
  speaks m -> (forall w r w', m w = (r, w') -> Q r) -> (forall r, Q r -> speaks (h r)) -> speaks (catch m h).
Proof.
  intros Hm HQ Hh w. unfold catch. destruct (Hm w) as (t1 & E1 & F1). destruct (m w) as [r w1] eqn:E. simpl in E1.
  destruct (Hh r (HQ _ _ _ E) w1) as (t2 & E2 & F2). exists (t1 ++ t2). rewrite E2, E1, app_assoc.
  split; [done|by apply Forall_app].
Qed.
Lemma speaks_bind_result {A B} (Q : A -> Prop) (m : M S Ev A) (k : A -> M S Ev B) :
  speaks m -> (forall w a w', m w = (Ok a, w') -> Q a) -> (forall a, Q a -> speaks (k a)) -> speaks (bind m k).
Proof.
  intros Hm HQ Hk w. rewrite bind_catch.
  apply (speaks_catch_result (fun r => match r with Ok a => Q a | Err _ => True end)); [done| |].
  - intros w1 [a|e] w2 E; [by eapply HQ|done].
  - intros [a|e] H; [by apply Hk|apply speaks_fail].
Qed.
End Speaks.

Create HintDb spk.
#[export] Hint Resolve speaks_ret speaks_fail speaks_read speaks_stmt speaks_txImmediate speaks_txBounded : spk.

Ltac spk :=
  repeat (intros; match goal with
  | |- speaks _ (bind _ _) => apply speaks_bind
  | |- speaks _ (catch _ _) => apply speaks_catch
  | |- speaks _ (emit _) => apply speaks_emit; try reflexivity
  | |- speaks _ (emits _) => apply speaks_emits; try solve [auto with spk]
  | |- speaks _ (match ?x with _ => _ end) => destruct x eqn:?
  | |- speaks _ (let '(_, _) := ?x in _) => destruct x eqn:?
  | |- speaks _ _ => solve [auto with spk]
  end).

(** The events of one Spawn: none is ad.hook.fired. *)
Definition about (id : string) (e : Event) : Prop :=
  match e with
  | EvStateTransition i _ _ _ _ | EvRowMutation i _ _ _ _ _ _ _ | EvDisplayed i _ _ _ | EvArchived i _ _
  | EvArchiveFailed i _ | EvHealed i _ _ | EvOrphanCloseout i _ | EvPaneIsGrandparent i _ _ _ _ _
  | EvRelayAttempt i _ | EvResumeObserved i _ _ | EvFindMissingTick i _ _ _ _ | EvNameHeld _ i _ _ _ _ _ _ _ _
  | EvProvenanceDisagree _ i _ _ _ _ _ _ _ _ | EvExpireKept i _ _
  | EvKillCalled i _ _ _ _ _ _ _ _ _ _ => i = id
  | EvHookIgnored i _ _ _ _ _ _ _ => i = nullif_empty id
  | EvHookFired _ _ _ _ _ _ _ => False
  end.

Section About.
Context (id : string).

Lemma txImmediate_Ok {A} (Q : A -> Prop) (body : Tx Store A) (w : World Store Event) a w' :
  tx_spec (fun _ a _ => Q a) body -> txImmediate body w = (Ok a, w') -> Q a.
Proof.
  intros H. unfold txImmediate. destruct (next_gap (w_gaps w)) as [[e|e why] gs]; [|done].
  destruct (body _ _) as [[[b s']|err] gs1] eqn:E; [|by destruct err].
  destruct (next_gap gs1) as [[e2|e2 why2] gs2]; [|done]. intros [= <- _]. by eapply H.
Qed.

Lemma displayExits_about s gs ex s' gs' : takeDisplayExits id s gs = (Ok (ex, s'), gs') -> Forall (about id) ex.
Proof.
  unfold takeDisplayExits. intros (f & s1 & gs1 & _ & H)%tbind_Ok. destruct f as [e|]; [|by injection H as <- _ _].
  apply tstmt_Ok in H. injection H as <- _. destruct (decodeDisplayExit e); by repeat constructor.
Qed.

Lemma inImmediateTx_speaks {A} T (body : Tx Store A) : speaks (about id) (inImmediateTx T id body).
Proof.
  unfold inImmediateTx. apply (speaks_bind_result _ (fun r => Forall (about id) (snd r))).
  - apply speaks_txImmediate.
  - intros w r w'. apply (txImmediate_Ok (fun r => Forall (about id) (snd r))).
    intros s gs [a ex] s' gs' (? & ? & ? & _ & (? & ? & ? & _ & (e & ? & ? & H & H1)%tbind_Ok)%tbind_Ok)%tbind_Ok.
    injection H1 as _ <- _ _. by eapply displayExits_about.
  - intros r Hr. spk.
Qed.
Hint Resolve inImmediateTx_speaks : spk.

Lemma execGuarded_speaks T q : speaks (about id) (execGuarded T id q).
Proof. unfold execGuarded. spk. Qed.
End About.
#[export] Hint Resolve inImmediateTx_speaks execGuarded_speaks : spk.
#[export] Hint Extern 1 (about _ _) => reflexivity : spk.

(** ** The operations a hook runs *)

Lemma closed_about {X} id (l : list X) (f : X -> list Event) : (forall x, Forall (about id) (f x)) -> Forall (about id) (l ≫= f).
Proof. intros H. induction l as [|x l IH]; simpl; [constructor|]. apply Forall_app. by split. Qed.

Lemma emitDeny_about id reason process (l : list closedRequest) : Forall (about id) (l ≫= emitDeny id reason process).
Proof. apply closed_about. intros x. unfold emitDeny. destruct (c_denied x); by repeat constructor. Qed.
#[export] Hint Resolve emitDeny_about : spk.

Section Operations.
Context (T : Z) (text : CodexStartup -> string) (id : string).

Abbreviation says := (speaks (about id)).

Lemma hookNotApplied_says g : says (hookNotApplied id g).
Proof. unfold hookNotApplied, readHookGateRow. spk. Qed.
Hint Resolve hookNotApplied_says : spk.

Lemma gatedWrite_says g set prior new soft trig path present :
  says (applyGatedHookWrite T id g set prior new soft trig path present).
Proof. unfold applyGatedHookWrite, transition. spk. Qed.
Hint Resolve gatedWrite_says : spk.

Lemma workingHeld_says g trig : says (reportWorkingHeld T id g trig).
Proof. unfold reportWorkingHeld, readHookGateRow, transition. spk. Qed.
Hint Resolve workingHeld_says : spk.

Lemma workingWrite_says g set prior new trig path present : says (applyWorkingWrite T id g set prior new trig path present).
Proof. unfold applyWorkingWrite, codexToolTurnLate, selectPriorState, transition. cbv zeta. spk. Qed.
Hint Resolve workingWrite_says : spk.

Lemma transition_says g v soft trig path present : says (ApplyHookTransitionResult T id g v soft trig path present).
Proof.
  unfold ApplyHookTransitionResult, holdWorkingTransition, codexToolTurnLate, writeTransition, applyEndedTransition,
    selectPriorState, transition. cbv zeta. spk.
Qed.

Lemma endReport_says g trig path present : says (ApplyHookEndReport T id g trig path present).
Proof. unfold ApplyHookEndReport, selectPriorState. spk. Qed.

Lemma waiting_says g trig path present : says (ApplyHookWaitingIfWorking T id g trig path present).
Proof. unfold ApplyHookWaitingIfWorking, selectPriorState, transition. cbv zeta. spk. Qed.

Lemma sessionStart_says g path present : says (RecordSessionStartIdentity T text id g path present).
Proof.
  unfold RecordSessionStartIdentity, readSessionStartPrior, sessionStartNotApplied, readHookGateRow, transition.
  cbv zeta. spk.
Qed.

Lemma subagentLifecycle_says g ev trig path present : says (ApplySubagentLifecycle T id g ev trig path present).
Proof. unfold ApplySubagentLifecycle. cbv zeta. spk. Qed.
Lemma subagentAfter_says g w : says (ApplySubagentAfterWrite T id g w).
Proof. unfold ApplySubagentAfterWrite. spk. Qed.

Lemma heal_says session path : says (HealJsonlPath id session path).
Proof. unfold HealJsonlPath. spk. Qed.

Lemma closeToolRan_says use g at_ rid : says (closeToolRan id use g at_ rid).
Proof. unfold closeToolRan. spk. Qed.
Hint Resolve closeToolRan_says : spk.

Lemma toolRanLoop_says use g at_ gone prs : says (closeToolRanLoop id use g at_ gone prs).
Proof. induction prs as [|pr prs IH]; simpl; spk. Qed.
Hint Resolve toolRanLoop_says : spk.

Lemma toolRan_says g use at_ gone : says (CloseToolRanRequests id g use at_ gone).
Proof. unfold CloseToolRanRequests. spk. Qed.
Lemma prove_says g proof now : says (ProveRequestsGone id g proof now).
Proof. unfold ProveRequestsGone. spk. Qed.

Lemma ignored_says env h : ig_instanceID h = id -> says (emitIgnored env h).
Proof. intros <-. unfold emitIgnored, GetSpawn, emitPaneIsGrandparent. spk; done. Qed.

Lemma rotate_says b examined g next path until check now : g_Cursor g = Some b -> cr_InstanceID b = id ->
  says (RotateCursorSession T examined g next path until check now).
Proof. intros E <-. unfold RotateCursorSession. rewrite E. spk. Qed.

(** *** The relay *)

Lemma insertRelay_says g req cap : says (InsertRelayRequest T id g req cap).
Proof. unfold InsertRelayRequest. cbv zeta. spk. Qed.
Lemma poll_says fuel turn deadline token i fails created : says (Poll fuel turn deadline id token i fails created).
Proof. revert i fails created. induction fuel as [|fuel IH]; intros; simpl; [spk|]. unfold GetPermissionRequest. spk. Qed.
Lemma deliver_says re token parent w : says (deliver re id token parent w).
Proof. unfold deliver, AckRelayDecision. spk. Qed.
Lemma timeoutDeny_says re token parent : says (timeoutDeny re id token parent).
Proof. unfold timeoutDeny, DenyRelayTimeout. pose proof deliver_says. spk. Qed.
Hint Resolve insertRelay_says poll_says deliver_says timeoutDeny_says : spk.
End Operations.

Lemma relay_says T rawText env cfg re fuel inp event sessionID :
  speaks (about (ri_instanceID inp)) (runRelay T rawText env cfg re fuel inp event sessionID).
Proof.
  unfold runRelay, onIgnored, afterPoll. cbv zeta.
  pose proof insertRelay_says. pose proof poll_says. pose proof deliver_says. pose proof timeoutDeny_says. spk.
  by apply ignored_says.
Qed.
