(* ===== verification/HandlerProps.v ===== *)
(** * Properties of the hook

    What a hook process prints, that it ends, and what it leaves in the event
    log. *)

From S2P Require Import Prelude Sql Text Rows ContextSource Display Requests Settle Family History Steps Programs Gate HookWrites HookProps SubagentWrites SubagentInv RelayWrites HookEnv Payload Classify SubagentHook RelayHook ClassifyProps RelayProps RelayHookProps Lifecycle Capacity CursorWrites Handler CursorInv StoreInv HandlerInv Trail.

Lemma results_logged {A} (m : Op A) : results (fun _ => True) (logged m).
Proof. unfold logged. rsl. Qed.
#[export] Hint Resolve results_logged : res.

Lemma results_ignored e h : results (fun _ => True) (emitIgnored e h).
Proof. unfold emitIgnored, emitPaneIsGrandparent. rsl. Qed.
#[export] Hint Resolve results_ignored : res.

#[export] Instance any_inv : StoreInv (fun _ _ => True).
Proof. split; done. Qed.

Lemma results_of {A} (P : A -> Prop) (m : Op A) (Q : result A -> list (Store * Store) -> Prop) :
  guarantees (fun _ _ => True) m -> results P m -> (forall a own, P a -> Q (Ok a) own) -> ensures Q m.
Proof.
  intros Hg Hr HQ. eapply ensures_mono; [by apply results_ensures|]. intros r own (a & -> & Ha). auto.
Qed.

(** ** What a hook prints *)

Lemma classified_event agent raw res : ClassifyEvent agent raw = Some res -> c_EventName res = PeekEventName raw.
Proof.
  unfold ClassifyEvent, PeekEventName. destruct (ResolveAgent agent) as [a|]; [|done].
  destruct raw as [| |v]; [by intros [= <-]|done|]. destruct (unmarshalPayload _) as [p|]; [|done].
  destruct (bool_decide (a = AgentCursor)); [|destruct (bool_decide (a = AgentCodex))]; intros [= <-].
  - unfold classifyCursor. cbv zeta. cbn [c_EventName]. by_rows; done.
  - unfold classifyCodex. cbv zeta. cbn [c_EventName]. by_rows; done.
  - unfold classifyClaude. cbv zeta. cbn [c_EventName]. by_rows; done.
Qed.

Definition relayed (relayActive : bool) (event : string) : bool :=
  relayActive && bool_decide (event = EventNamePermissionRequest).
Lemma denied_spec relayActive event :
  denied relayActive event = if relayed relayActive event then Some denyEnvelope else None.
Proof. unfold denied, relayed. destruct relayActive; [|done]. simpl. by case_bool_decide as E; [subst|]. Qed.

Section Handler.
Context (T : Z) (text : CodexStartup -> string) (rawText : json -> string) (capacityText : ClaudeCapacity -> string)
  (capacityParse : string -> option ClaudeCapacity) (parse : string -> rawPayload) (parseCallback : string -> option Callback)
  (transcript : string -> option (list (option claudeRecord))).

Definition prints (out : option Envelope) (run : HookRun) : Prop := hr_stdout run = out.

Lemma writeStart_results n id g path present : results (fun _ => True) (writeSessionStart T text n id g path present).
Proof. revert g. induction n as [|n IH]; intros; simpl; rsl. Qed.
Lemma waitReads_results n hc id examined bound capEnd i : results (fun _ => True) (waitReads n hc id examined bound capEnd i).
Proof. revert i. induction n as [|n IH]; intros; simpl; cbv zeta; rsl. Qed.
#[local] Hint Resolve writeStart_results waitReads_results : res.

(** A SessionStart prints what its failure prints. *)
Lemma sessionStart_prints hc relayActive event id g path run : relayed relayActive event = false ->
  prints None run -> results (fun r => prints None (fst r)) (sessionStartRun T text hc relayActive event id g path run).
Proof.
  intros Hr Hrun. unfold sessionStartRun, recordSessionStart, waitForLaunchIdentity. cbv zeta. rsl.
  unfold prints in *. rewrite denied_spec, Hr. destruct (sw_Failed _); simpl; by rsimp.
Qed.

Lemma ordinary_prints hc relayActive event id g res raw path run : relayed relayActive event = false ->
  prints None run -> results (fun r => prints None (fst r)) (ordinaryRun T hc relayActive event id g res raw path run).
Proof.
  intros Hr Hrun. unfold ordinaryRun, outcomeOf, proveRequestsGone, closeToolRanOf, runSubagentAfterWrite. cbv zeta.
  rsl; unfold prints in *; rewrite ?denied_spec, ?Hr; simpl; by rsimp.
Qed.

Lemma afterHook_results hc id parent res path applied : results (fun _ => True) (afterHook hc id parent res path applied).
Proof. unfold afterHook, healCodexTranscript. rsl. Qed.
#[local] Hint Resolve afterHook_results : res.

Lemma writeRun_prints hc relayActive id parent g res raw path run :
  (c_EventName res <> "SessionStart" -> relayed relayActive (c_EventName res) = false) -> prints None run ->
  results (prints None) (writeRun T text hc relayActive (c_EventName res) id parent g res raw path run).
Proof.
  intros Hr Hrun. unfold writeRun. eapply results_bind with (P := fun r => prints None (fst r)).
  - case_bool_decide as Es; [apply sessionStart_prints|apply ordinary_prints]; auto.
    unfold relayed. rewrite Es. by destruct relayActive.
  - intros [r [applied|]] H; simpl in *; [|by apply results_ret].
    eapply results_bind; [apply afterHook_results|]. intros _ _. by apply results_ret.
Qed.

(** A Cursor hook's admission has written nothing when the hook goes on, and
    prints nothing when it ends it. *)
Definition admitted (r : result (option Envelope + HookGate)) (own : list (Store * Store)) : Prop :=
  match r with Ok (inr _) => own = [] | Ok (inl out) => out = None | Err _ => False end.

Lemma rotation_prints hc relayActive id g res path claim b :
  results (fun out => out = None) (cursorRotation T hc relayActive (c_EventName res) id g res path claim b).
Proof.
  unfold cursorRotation. destruct (hc_VerifyCursorRotation hc) as [verify|]; [|by apply results_ret].
  destruct (rotationAdmitted hc res claim b) eqn:Ha; simpl; [|by apply results_ret].
  apply results_catch. intros [row|e]; [|by apply results_ret]. destruct (hc_ParseDeadline _ _); [|by apply results_ret].
  destruct (_ || _); [by apply results_ret|]. apply results_catch. intros [x|e]; [by apply results_ret|].
  apply results_ret. rewrite denied_spec. unfold rotationAdmitted in Ha. bsimp. unfold relayed.
  replace (c_EventName res) with "SessionStart". by destruct relayActive.
Qed.

Lemma admit_admitted hc relayActive id parent g res path raw :
  ensures admitted (admitCursor T hc relayActive (c_EventName res) id parent g res path raw).
Proof.
  unfold admitCursor. destruct (negb _); [by apply ensures_ret|]. destruct (_ || _); [by apply ensures_ret|].
  apply (ensures_catch (fun _ own => own = [])).
  { unfold ReadCursorRuntime. eapply (ensures_bind (fun _ own => own = [])); [by apply ensures_read|intros [r|] o1 ->|done].
    - by apply ensures_ret.
    - by apply ensures_fail. }
  intros [b|e] o1 ->; [|by apply ensures_ret]. destruct (cursorClaim raw) as [claim|]; [|by apply ensures_ret].
  destruct (negb _); [by apply ensures_ret|]. cbv zeta. case_bool_decide; [by apply ensures_ret|].
  apply results_of with (P := fun x => x = inl None).
  - guar. apply rotation_inv.
  - eapply results_bind; [apply rotation_prints|]. intros out ->. by apply results_ret.
  - by intros a own ->.
Qed.

(** What a hook leaves of its Spawn [id]: nothing on its standard output, but
    for a relayed PermissionRequest, which leaves what runRelay leaves. *)
Definition hookLeft (hc : HandleConfig) (relayActive : bool) (event id : string) (r : result (option HookRun))
    (own : list (Store * Store)) : Prop :=
  match r with
  | Ok None => True
  | Ok (Some run) =>
      match hr_stdout run with
      | None => True
      | Some e =>
          relayed relayActive event = true /\
          exists inp o, ri_instanceID inp = id /\ ri_parent inp = captureParent (hc_Parent hc) /\ ro_stdout o = Some e /\
            relayLeft T rawText (relayEnvOf hc) inp (Ok (Some o)) own
      end
  | Err _ => False
  end.

Lemma classified_left fuel hc relayActive id raw res run : prints None run ->
  ensures (hookLeft hc relayActive (c_EventName res) id)
    (handleClassified T text rawText fuel hc relayActive (c_EventName res) id (captureParent (hc_Parent hc)) raw res run).
Proof.
  intros Hrun. unfold handleClassified. destruct (SubagentLifecycle res).
  { eapply results_of; [|rsl|].
    - guar. apply emitIgnored_inv.
    - instantiate (1 := fun x => x = Some (run <| hr_outcome := Some UpsertNoChange |>)). done.
    - intros a own ->. simpl. rsimp. by rewrite Hrun. }
  cbv zeta. eapply ensures_bind; [apply admit_admitted| |by intros e o1 []].
  intros [out|g] o1; simpl; [intros ->; by apply ensures_ret|intros ->].
  destruct (_ && bool_decide (_ = EventNamePermissionRequest)) eqn:Erel.
  - eapply ensures_bind; [apply relay_hook_writes_only_acked_answers| |by intros ? ? ?].
    intros [o|] o2 Ho; apply ensures_ret; [|done]. simpl in *. rewrite app_nil_r.
    destruct (ro_stdout o) as [e|] eqn:Eo; [|by rsimp]. rsimp. split.
    + unfold relayed. by apply andb_true_iff in Erel as [[_ ->]%andb_true_iff ->].
    + exists (mkRelayInput id g (captureParent (hc_Parent hc)) (c_AgentID res)
                (if bool_decide (c_AgentID res = "") then c_TranscriptPath res else "")
                (transcriptPresent hc (if bool_decide (c_AgentID res = "") then c_TranscriptPath res else "")) raw), o.
      rewrite Eo. by split_and!.
  - apply results_of with (P := fun x => exists r, x = Some r /\ prints None r).
    + guar. apply writeRun_inv.
    + eapply results_bind with (P := prints None); [|intros r Hr; apply results_ret; eauto].
      apply writeRun_prints; [|done]. intros Hs. by rewrite bool_decide_false in Erel.
    + intros a own (r & -> & Hr). simpl. by rewrite Hr.
Qed.

(** *** From standard input to standard output *)

(** Why a hook is refused before it reaches its Spawn. *)
Definition unusable (hc : HandleConfig) (raw : rawPayload) : Prop :=
  (exists e, ResolveInstanceID (hc_Getenv hc) = inr e) \/ ResolveAgent (hc_Agent hc) = None \/
  exists agent, ResolveAgent (hc_Agent hc) = Some agent /\ ClassifyEvent agent raw = None.

Definition hookPrinted (hc : HandleConfig) (stdin : option string) (r : result (option (option Envelope)))
    (own : list (Store * Store)) : Prop :=
  match r with
  | Ok (Some (Some e)) =>
      hc_ContextSource hc = "" /\ hc_Getenv hc EnvRelayMode = RelayModeOn /\
      exists bytes, ReadPayload stdin = inl bytes /\ PeekEventName (parse bytes) = EventNamePermissionRequest /\
        ((e = denyEnvelope /\ own = [] /\ unusable hc (parse bytes)) \/
         exists inp o, ResolveInstanceID (hc_Getenv hc) = inl (ri_instanceID inp) /\
           ri_parent inp = captureParent (hc_Parent hc) /\ ro_stdout o = Some e /\
           relayLeft T rawText (relayEnvOf hc) inp (Ok (Some o)) own)
  | Ok _ => True
  | Err _ => False
  end.

Definition runPrinted (hc : HandleConfig) (stdin : option string) (r : result (option HookRun)) (own : list (Store * Store)) : Prop :=
  hookPrinted hc stdin (match r with Ok x => Ok (hr_stdout <$> x) | Err e => Err e end) own.

Lemma run_printed fuel hc stdin :
  ensures (runPrinted hc stdin) (handleRun T text rawText capacityText capacityParse parse parseCallback transcript fuel hc stdin).
Proof.
  unfold handleRun. cbv zeta. set (relayActive := bool_decide (hc_Getenv hc EnvRelayMode = RelayModeOn)).
  destruct (ReadPayload stdin) as [bytes|] eqn:Ein; [|by apply ensures_ret].
  case_bool_decide as Ec; simpl; cycle 1.
  { apply results_of with (P := fun x => x = Some noRun).
    - unfold logged. guar. apply capacityHook_inv.
    - eapply results_bind; [apply results_logged|]. intros _ _. by apply results_ret.
    - by intros a own ->. }
  assert (forall run, unusable hc (parse bytes) ->
    ensures (runPrinted hc stdin) (ret (Some (run <| hr_stdout := denied relayActive (PeekEventName (parse bytes)) |>)) : Op _)) as Hrefused.
  { intros run Hu. apply ensures_ret. unfold runPrinted. simpl. rsimp. rewrite denied_spec.
    destruct (relayed _ _) eqn:Er; [|done]. unfold relayed, relayActive in Er. bsimp.
    split_and!; [done..|]. exists bytes. split_and!; [done..|]. by left. }
  destruct (ResolveInstanceID (hc_Getenv hc)) as [id|err] eqn:Eid; [|apply Hrefused; left; eauto].
  destruct (ResolveAgent (hc_Agent hc)) as [agent|] eqn:Ea; [|apply Hrefused; right; by left].
  destruct (ClassifyEvent agent (parse bytes)) as [res|] eqn:Ek; [|apply Hrefused; right; right; eauto].
  rewrite <- (classified_event _ _ _ Ek). eapply ensures_mono; [by apply classified_left|].
  intros [[run|]|e] own; try done. unfold runPrinted. simpl. destruct (hr_stdout run) as [e|]; [|done].
  intros [Hr (inp & o & <- & H2 & H3 & H4)]. unfold relayed, relayActive in Hr. bsimp.
  split_and!; [done..|]. exists bytes. rewrite <- (classified_event _ _ _ Ek). split_and!; [done..|]. right. eauto 10.
Qed.


(** ** What a hook records *)

Abbreviation says id := (speaks (about id)).

#[local] Hint Resolve transition_says endReport_says waiting_says sessionStart_says subagentLifecycle_says subagentAfter_says
  heal_says toolRan_says prove_says : spk.
#[local] Hint Extern 1 (speaks _ (emitIgnored _ _)) => apply ignored_says; reflexivity : spk.

Lemma getSpawn_says i id : says i (GetSpawn id).
Proof. unfold GetSpawn. spk. Qed.
#[local] Hint Resolve getSpawn_says : spk.

Lemma writeStart_says n id g path present : says id (writeSessionStart T text n id g path present).
Proof. revert g. induction n as [|n IH]; intros; simpl; spk. Qed.
Lemma waitReads_says n hc id examined bound capEnd i : says id (waitReads n hc id examined bound capEnd i).
Proof. revert i. induction n as [|n IH]; intros; simpl; cbv zeta; spk. Qed.
#[local] Hint Resolve writeStart_says waitReads_says : spk.

Lemma writeRun_says hc relayActive event id parent g res raw path run :
  says id (writeRun T text hc relayActive event id parent g res raw path run).
Proof.
  unfold writeRun, sessionStartRun, recordSessionStart, waitForLaunchIdentity, ordinaryRun, outcomeOf, applyHook,
    applySubagentLifecycle, applyOrdinaryHook, proveRequestsGone, closeToolRanOf, runSubagentAfterWrite, afterHook,
    healCodexTranscript, logged, SubagentTurnEndHasWork. cbv zeta. spk.
Qed.

Lemma admit_says hc relayActive event id parent g res path raw :
  says id (admitCursor T hc relayActive event id parent g res path raw).
Proof.
  unfold admitCursor. destruct (negb _); [spk|]. destruct (_ || _); [spk|].
  apply (speaks_catch_result _ (fun r => match r with Ok b => cr_InstanceID b = id | Err _ => True end)).
  - unfold ReadCursorRuntime. spk.
  - intros w r w'. unfold ReadCursorRuntime, bind. destruct (read _ w) as [[[b|]|e] w1]; intros [= <- _]; done.
  - intros [b|e] Hb; [|spk]. unfold cursorRotation. cbv zeta. spk. eapply rotate_says; [|exact Hb]. by rsimp.
Qed.

Lemma classified_says fuel hc relayActive event id parent raw res run :
  says id (handleClassified T text rawText fuel hc relayActive event id parent raw res run).
Proof.
  pose proof admit_says. pose proof writeRun_says. unfold handleClassified. cbv zeta. spk.
  exact (relay_says T rawText _ _ _ _ (mkRelayInput id _ _ _ _ _ _) _ _).
Qed.

Lemma capacity_says id getenv agent source cb parent at_ :
  says id (handleClaudeCapacity capacityText capacityParse transcript getenv agent source cb parent at_).
Proof.
  unfold handleClaudeCapacity. generalize "" at 1. generalize 8%nat. intros n. induction n as [|n IH]; intros launch; simpl; [spk|].
  unfold recordClaudeCapacity, writeClaudeCapacity, ListSubagentRecords, RecordClaudeCapacity. cbv zeta. spk.
Qed.

(** What ad.hook.fired says of the hook. *)
Definition runFields (run : HookRun) := (hr_id run, hr_event run, hr_tool run, hr_session run).

(** The relay's clock runs, and its fuel is enough. *)
Definition relayEnds (fuel : nat) (hc : HandleConfig) : Prop :=
  clock_runs (hc_Cfg hc) (pollEnd (re_kill (relayEnvOf hc))) (re_turn (relayEnvOf hc)) /\ (pollFuel (relayEnvOf hc) <= fuel)%nat.

Definition ends (run : HookRun) (x : option HookRun) : Prop := exists run', x = Some run' /\ runFields run' = runFields run.

Lemma results_weaken {A} (P Q : A -> Prop) (m : Op A) : results P m -> (forall a, P a -> Q a) -> results Q m.
Proof. intros H HQ w. destruct (H w) as (a & E & Ha). eauto. Qed.

Lemma writeRun_ends hc relayActive event id parent g res raw path run :
  results (fun r => runFields r = runFields run) (writeRun T text hc relayActive event id parent g res raw path run).
Proof.
  unfold writeRun. eapply results_bind with (P := fun r => runFields (fst r) = runFields run).
  - case_bool_decide.
    + unfold sessionStartRun, recordSessionStart, waitForLaunchIdentity. cbv zeta. rsl.
      unfold runFields. destruct (sw_Failed _); simpl; by rsimp.
    + unfold ordinaryRun, outcomeOf, proveRequestsGone, closeToolRanOf, runSubagentAfterWrite. cbv zeta.
      rsl; unfold runFields; simpl; by rsimp.
  - intros [r [applied|]] H; simpl in *; [|by apply results_ret].
    eapply results_bind; [apply afterHook_results|]. intros _ _. by apply results_ret.
Qed.

Lemma admit_results hc relayActive event id parent g res path raw :
  results (fun _ => True) (admitCursor T hc relayActive event id parent g res path raw).
Proof. unfold admitCursor, cursorRotation. cbv zeta. rsl. Qed.

Lemma classified_ends fuel hc relayActive event id parent raw res run : relayEnds fuel hc ->
  results (ends run) (handleClassified T text rawText fuel hc relayActive event id parent raw res run).
Proof.
  intros [Hc Hf]. unfold handleClassified. destruct (SubagentLifecycle res).
  { eapply results_bind; [apply results_ignored|]. intros _ _. apply results_ret. eexists. split; [done|]. unfold runFields. by rsimp. }
  cbv zeta. eapply results_bind; [apply admit_results|]. intros [out|g'] _.
  { apply results_ret. eexists. split; [done|]. unfold runFields. by rsimp. }
  destruct (_ && bool_decide (_ = EventNamePermissionRequest)).
  - eapply results_bind with (P := fun x => exists o, x = Some o).
    + intros w. edestruct (relay_hook_ends T rawText (hc_Parent hc) (hc_Cfg hc) (relayEnvOf hc) fuel) as (own & _ & out & E); [done..|].
      rewrite E. eauto.
    + intros ? [o ->]. apply results_ret. eexists. split; [done|]. unfold runFields. by rsimp.
  - eapply results_bind; [apply writeRun_ends|]. intros r Hr. apply results_ret. by eexists.
Qed.

(** The run's fields, from the hook's input and environment. *)
Definition firedFor (hc : HandleConfig) (stdin : option string) (run : HookRun) : Prop :=
  (forall id, hr_id run = Some id -> ResolveInstanceID (hc_Getenv hc) = inl id) /\
  (forall event, hr_event run = Some event -> exists bytes, ReadPayload stdin = inl bytes /\ PeekEventName (parse bytes) = event).

Lemma run_ends fuel hc stdin : relayEnds fuel hc ->
  results (fun x => exists run, x = Some run /\ firedFor hc stdin run)
    (handleRun T text rawText capacityText capacityParse parse parseCallback transcript fuel hc stdin).
Proof.
  intros Hend. unfold handleRun. cbv zeta.
  assert (firedFor hc stdin noRun) as Hno by done.
  destruct (ReadPayload stdin) as [bytes|] eqn:Ein; [|apply results_ret; eauto].
  destruct (negb _); [eapply results_bind; [apply results_logged|intros _ _; apply results_ret; eauto]|].
  assert (forall run, firedFor hc stdin run -> results (fun x => exists run, x = Some run /\ firedFor hc stdin run)
    (ret (Some (run <| hr_stdout := denied (bool_decide (hc_Getenv hc EnvRelayMode = RelayModeOn)) (PeekEventName (parse bytes)) |>)))) as Hr.
  { intros run [H1 H2]. apply results_ret. eexists. split; [done|]. split; rsimp; auto. }
  destruct (ResolveInstanceID (hc_Getenv hc)) as [id|] eqn:Eid; [|by apply Hr].
  assert (firedFor hc stdin (mkRun None (Some id) None None "" None None)) as Hid by (split; simpl; [by intros ? [= ->]|done]).
  destruct (ResolveAgent _) as [agent|]; [|by apply Hr].
  destruct (ClassifyEvent agent (parse bytes)) as [res|] eqn:Ek; [|by apply Hr].
  eapply results_weaken; [by apply classified_ends|]. intros x (run & -> & E). exists run. split; [done|].
  injection E as E1 E2 _ _. split; [rewrite E1; by intros ? [= <-]|]. rewrite E2. intros event. unfold nullif_empty.
  destruct (bool_decide (c_EventName res = "")); [done|]. intros [= <-]. exists bytes. split; [done|]. symmetry. by eapply classified_event.
Qed.

Lemma run_says fuel hc stdin : exists id, (forall i, ResolveInstanceID (hc_Getenv hc) = inl i -> id = i) /\
  says id (handleRun T text rawText capacityText capacityParse parse parseCallback transcript fuel hc stdin).
Proof.
  exists (match ResolveInstanceID (hc_Getenv hc) with inl i => i | inr _ => "" end).
  split; [by intros i ->|]. unfold handleRun, logged. cbv zeta.
  pose proof classified_says. pose proof capacity_says. spk.
Qed.

End Handler.

(** ** Samples and witnesses *)

Lemma sample_clock_runs_to deadline : clock_runs sampleRelayConfig deadline sampleTurns.
Proof.
  destruct sample_clock_runs as [H1 H2 _]. split; [done..|]. intros i. right.
  etransitivity; [apply Z.le_min_l|]. assert (0 < pollFloor < 2 * second) by done.
  unfold sampleTurns. cbn -[Z.of_nat Z.mul second pollFloor]. lia.
Qed.

Definition sampleEnv (k : string) : string :=
  if bool_decide (k = EnvRelayMode) then RelayModeOn else if bool_decide (k = envInstanceID) then " leaf" else "".
Definition samplePayload (event : string) : rawPayload :=
  RawJson (JObject [("hook_event_name", JString event); ("tool_name", JString "Bash");
                    ("transcript_path", JString "/t/sess.jsonl")]).
Definition sampleHc : HandleConfig :=
  mkHandleConfig "" "" sampleEnv sampleRelayConfig 10 sampleHookEnv None None 0 (10 * second) None (60 * second) true
    (fun _ => false) 0 0 0 (fun _ => mkWaitTurn 0 false 0) sampleRelayEnv (fun _ => 0) (fun _ => None).
Definition sampleHook (event : string) (fuel : nat) : Op (option (option Envelope)) :=
  Handle 0 (fun _ => "") (fun _ => "") (fun _ => "") (fun _ => None) (fun _ => samplePayload event) (fun _ => None)
    (fun _ => None) fuel sampleHc (Some "{}").
Definition sampleFuel : nat := pollFuel (relayEnvOf sampleHc).

(** A relayed request nobody decides: the hook prints the deny it took. *)
Example permission_hook_sample :
  let '(r, s', tr) := run (sampleHook "PermissionRequest" sampleFuel) paneStore in
  r = Ok (Some (Some denyEnvelope)) /\
  (fun pr => (pr_decision pr, pr_delivered_at pr)) <$> db_requests s' = [(Some "deny", Some 5000)] /\
  last tr = Some (EvHookFired "on" (Some "leaf") (Some "PermissionRequest") (Some "Bash") "sess" (Some "inserted") (Some "tok7")).
Proof. vm_compute. split_and!; reflexivity. Qed.

Lemma sample_ends : relayEnds sampleFuel sampleHc.
Proof. split; [apply sample_clock_runs_to|done]. Qed.

